(* ===== verification/_CoqProject ===== *)
-Q . S2P
Prelude.v
Common.v
Types.v
Bincode.v
RangeMap.v
Slice.v
Keys.v
KV.v
Meta.v
OpenFiles.v
Backend.v
FsModel.v
Namespace.v
Rename.v
Reach.v
RefStore.v
NsThms.v
Chunks.v
IdTable.v
Engine.v
Records.v
EngineInv.v
EngineThms.v
Pool.v
SliceKey.v
SliceBuffer.v
SliceBufferThms.v
SliceIO.v
FileCache.v
FileCacheThms.v
Writer.v
Staging.v
WriterThms.v
WriterFlow.v
Reader.v
ReaderThms.v
DataPath.v
Interleave.v
Lifecycle.v
TaskRegistry.v
HandleLock.v
Handles.v
InternalNodes.v
Vfs.v
HandleThms.v
FileFlow.v
VfsThms.v
Shutdown.v
Config.v
CacheLocks.v
Fuse.v
