(* ===== verification/Prelude.v ===== *)
(** * KisekiFS: a verification development

    KisekiFS is a file system over an object store.  A mount takes requests from the
    kernel (components/fuse), serves them in a front end (components/vfs), keeps the
    namespace and the slices of every file in a metadata engine (components/meta) and
    the bytes in pages, a write-back block cache and the object store
    (components/storage); components/types and components/common hold the data types
    and sizes.  This library models that program and proves what its parts promise.

    ** The files, bottom up

    Shared: this file (machine integers, outcomes, bytes, lists, the [kiseki] hints),
    Common.v (common/src/lib.rs, utils/src/align.rs; the class [Layout] of page, block
    and chunk size with its laws, instance [kiseki_layout] with the source's numbers and
    [tiny_layout] for runs), Types.v (types/src: attributes, entries, format),
    Bincode.v, RangeMap.v, KV.v (interfaces, as classes with laws, of the bincode,
    rangemap and rocksdb crates; RefStore.v and the list range map are instances).

    Metadata: Slice.v and SliceKey.v (types/src/slice.rs), Keys.v (backend/key.rs),
    Meta.v (err.rs, context.rs), OpenFiles.v (open_files.rs), Backend.v
    (backend/rocksdb.rs: one definition per operation, a plan that reads and checks and
    a write batch that commits as a whole or not at all), IdTable.v (id_table.rs),
    Engine.v (engine.rs: state passing over the backend, the open files and the caches).
    FsModel.v is the abstract namespace; Namespace.v, Rename.v, Reach.v, NsThms.v,
    Chunks.v, Records.v, EngineInv.v and EngineThms.v hold the theorems.

    Data: Pool.v (storage/src/pool), SliceBuffer.v (slice_buffer.rs), FileCache.v
    (cache/file_cache.rs, the file operations of uring.rs), Writer.v (vfs/src/writer.rs),
    Reader.v (vfs/src/reader.rs, cache/mem_cache.rs); theorems in SliceBufferThms.v,
    SliceIO.v, FileCacheThms.v, Staging.v, WriterThms.v, WriterFlow.v, ReaderThms.v, and
    in DataPath.v, where the engine discharges what writer and reader ask of it
    ([MetaClient], [MetaReader], [MetaReaderView], [MetaLog]).

    Mount: Lifecycle.v (lifecycle.rs), TaskRegistry.v (storage/src/task_registry.rs) and
    HandleLock.v (the lock in handle.rs) are step relations over Interleave.v, one step
    per atomic access; Handles.v (data_manager.rs, handle.rs), InternalNodes.v, Vfs.v
    (kiseki.rs, kiseki/) are the requests in a monad of state, errors and waiting;
    HandleThms.v, FileFlow.v and VfsThms.v their theorems; Shutdown.v (run_shutdown),
    Config.v (config.rs: paths name inodes, locks are on inodes) with the interleaved
    preparations of several mounts in CacheLocks.v, and Fuse.v (fuse/src/lib.rs) the
    edges.

    ** What is proved

    - Namespace: every engine state reachable by engine operations with failing
      commits, background deletions and restarts holds a well-formed namespace (no
      dangling entry, one entry per directory, link counts that cover the entries), and
      so does every store reachable by the writing operations of the backend with the
      arguments [ns_step] allows (the setters of the backend trust their caller: an
      entry set for an inode that does not exist dangles); each operation does what its
      name says and nothing else; keys do not collide; identifiers are never reused;
      who may change which attribute.
    - Chunks: committing a slice appends it once; the overlay shows the youngest slice;
      an extension reads as zeros unless the chunk already holds the very hole it adds;
      the stored encoding reads back.
    - Blocks: through stagings, migrations, evictions, crashes and recoveries an
      acknowledged block is never lost; the flush barriers mean what they say; a slice
      reads back as written; a write into a buffer succeeds exactly when its range and
      the pool allow; pages are neither lost nor handed out twice.
    - Files: a slice that a full flush publishes is complete, if nothing is written
      after a full flush that failed at the metadata engine; a flush returns within
      three rounds, if no write over several chunks failed; a read refines the abstract
      file the slices describe; a write request followed by a read request refines
      overwriting the abstract file, end to end from the handle to the store, for one
      write at a time into a file without missing chunks.
    - Mount: handles, writers and readers account for each other after any requests;
      when the waiter of a drain returns nothing runs and nothing is admitted, and the
      waiter is woken; the counters and handles of the task registry are exactly those
      of its tasks; the write lock is exclusive; a clean shutdown lost nothing; no
      running mount locks the directory another has as its cache root, so that as long
      as locked directories stay in place the roots do not overlap, and a free root is
      given; a directory is listed once page by page, whatever others do between the
      pages.
    - Where the code does not do what it means to, a theorem shows the run (the read of
      a sparse chunk, overlapping writes before a flush, reads beside writes, and others
      in the files), listed as findings with the manifest.

    ** Integers, errors, waiting, fuel

    Unsigned integers are [Z] with the wrap-around written out (the release profile has
    no overflow checks).  Fallible code returns [outcome E A]: [Ok], [Err] or [Panic]
    (the profile aborts on a panic).  [None] of an operation means it still waits when
    its environment stops; [finish_chunks] takes the number of rounds it may wait, and
    [finish_returns] shows that three are enough.  Listing a directory takes one request
    more than there are entries.  Theorems on counters assume fewer than 2^64 - 1
    threads, tasks or handles.

    ** Environment and assumptions

    Every failure of a store, a commit or a call of the operating system is an argument
    of the operation ([World], [StageIo], [MigrateIo], [RecoverIo], [BlockIo], [VEnv],
    [ShutdownEnv], [OsEnv]).
    Requests and flushes run one after the other; what other tasks do to the caches
    during a read is an argument ([bi_before], [bi_between]), what they do to a slice
    writer are steps of its relation, and the three interleaving models have every
    access as a step, sequentially consistent where the source asks for acquire and
    release.  The policy cache of the moka crate answers what it likes about blocks it
    was given; the engine hands out fresh slice identifiers ([ids_fresh], which
    IdTable.v proves of the table); the clock does not run before the epoch.

    ** Not modelled

    The command line (argument parsing, daemon and process set-up), the fuse-backend
    crate and most of the FUSE adapter (they hand arguments on), object storage
    configuration, the io_uring thread (I/O only), metrics, logging and the other
    utilities: none of them keeps state the program depends on.  Of the front end,
    tracing and the timeouts of the kernel's caches are left out, and concurrent
    requests on one file are covered by the lock models only. *)

From stdpp Require Export base list gmap strings.
From Stdlib Require Export ZArith Lia.
#[export] Set Default Goal Selector "!".
Open Scope Z_scope.

(** ** Machine integers

    The workspace builds its release profile without overflow checks, so [+],
    [-] and [as] casts on unsigned integers wrap at their width.  A w-bit
    unsigned integer is a [Z] and every such operation is written through the
    wrapping functions below. *)

Definition u8_wrap (z : Z) : Z := z `mod` 2 ^ 8.
Definition u16_wrap (z : Z) : Z := z `mod` 2 ^ 16.
Definition u32_wrap (z : Z) : Z := z `mod` 2 ^ 32.
Definition u64_wrap (z : Z) : Z := z `mod` 2 ^ 64.

Lemma u32_wrap_range z : 0 <= u32_wrap z < 2 ^ 32.
Proof. apply Z.mod_pos_bound. lia. Qed.

Lemma u64_wrap_range z : 0 <= u64_wrap z < 2 ^ 64.
Proof. apply Z.mod_pos_bound. lia. Qed.

Definition U64_MAX : Z := 2 ^ 64 - 1.

Definition is_u32 (z : Z) : bool := (0 <=? z) && (z <? 2 ^ 32).
Definition is_u64 (z : Z) : bool := (0 <=? z) && (z <? 2 ^ 64).

(** [usize::checked_add] on a 64-bit target. *)
Definition checked_add64 (a b : Z) : option Z :=
  if a + b <? 2 ^ 64 then Some (a + b) else None.

(** [u64::saturating_sub]. *)
Definition saturating_sub (a b : Z) : Z := Z.max 0 (a - b).

(** [flags.contains(mask)] of the bitflags crate: every bit of the mask is set. *)
Definition bits_contain (flags mask : Z) : bool := Z.land flags mask =? mask.

(** ** Outcomes

    A fallible Rust function returns [Ok], [Err], or does not return at all
    because an [assert!], [expect], [unwrap] or slice index panics (the
    release profile sets [panic = 'abort']). *)

Inductive outcome (E A : Type) : Type :=
| Ok (a : A)
| Err (e : E)
| Panic.
Arguments Ok {E A} a.
Arguments Err {E A} e.
Arguments Panic {E A}.

#[export] Instance outcome_ret {E} : MRet (outcome E) := fun A a => Ok a.
#[export] Instance outcome_bind {E} : MBind (outcome E) := fun A B f m =>
  match m with
  | Ok a => f a
  | Err e => Err e
  | Panic => Panic
  end.
#[export] Instance outcome_fmap {E} : FMap (outcome E) := fun A B f m =>
  match m with
  | Ok a => Ok (f a)
  | Err e => Err e
  | Panic => Panic
  end.

(** [ensure!(b, e)]. *)
Definition ensure {E} (b : bool) (e : E) : outcome E () :=
  if b then Ok () else Err e.

(** [assert!(b)]. *)
Definition rust_assert {E} (b : bool) : outcome E () :=
  if b then Ok () else Panic.

(** [opt.ok_or(e)] / snafu's [context] on an [Option]. *)
Definition ok_or {E A} (o : option A) (e : E) : outcome E A :=
  match o with Some a => Ok a | None => Err e end.

(** [opt.expect(..)] / [unwrap()]. *)
Definition expect {E A} (o : option A) : outcome E A :=
  match o with Some a => Ok a | None => Panic end.

(** [res.map_err(f)]. *)
Definition map_err {E F A} (f : E -> F) (m : outcome E A) : outcome F A :=
  match m with Ok a => Ok a | Err e => Err (f e) | Panic => Panic end.

Definition is_ok {E A} (m : outcome E A) : bool :=
  match m with Ok _ => true | _ => false end.

(** ** Automation *)

Create HintDb kiseki.

Lemma bind_Ok {E A B} (m : outcome E A) (f : A -> outcome E B) b :
  m ≫= f = Ok b <-> exists a, m = Ok a /\ f a = Ok b.
Proof.
  destruct m; simpl; split; intros H; try naive_solver.
Qed.

Lemma bind_Err {E A B} (m : outcome E A) (f : A -> outcome E B) e :
  m ≫= f = Err e <-> m = Err e \/ exists a, m = Ok a /\ f a = Err e.
Proof. destruct m; simpl; split; intros H; naive_solver. Qed.

Lemma ensure_Ok {E} b (e : E) u : ensure b e = Ok u <-> b = true.
Proof. destruct b, u; simpl; naive_solver. Qed.

Lemma rust_assert_Ok {E} b u : rust_assert (E:=E) b = Ok u <-> b = true.
Proof. destruct b, u; simpl; naive_solver. Qed.

Lemma ok_or_Ok {E A} (o : option A) (e : E) a : ok_or o e = Ok a <-> o = Some a.
Proof. destruct o; simpl; naive_solver. Qed.

Lemma expect_Ok {E A} (o : option A) a : expect (E:=E) o = Ok a <-> o = Some a.
Proof. destruct o; simpl; naive_solver. Qed.

(** Injectivity, keeping the components as they are written. *)
Lemma Ok_inj {E A} (a b : A) : Ok (E:=E) a = Ok b -> a = b.
Proof. congruence. Qed.

Lemma pair_parts {A B} (a c : A) (b d : B) : (a, b) = (c, d) -> a = c /\ b = d.
Proof. intuition congruence. Qed.

Lemma Ok_pair_inj {E A B} (a c : A) (b d : B) : Ok (E:=E) (a, b) = Ok (c, d) -> a = c /\ b = d.
Proof. intuition congruence. Qed.

(** Invert a hypothesis that a monadic computation succeeded. *)
Ltac inv_ok :=
  repeat match goal with
  | H : _ ≫= _ = Ok _ |- _ =>
      apply bind_Ok in H; let a := fresh "r" in let H1 := fresh "Hr" in
      destruct H as (a & H1 & H)
  | H : ensure _ _ = Ok _ |- _ => apply ensure_Ok in H
  | H : rust_assert _ = Ok _ |- _ => apply rust_assert_Ok in H
  | H : ok_or _ _ = Ok _ |- _ => apply ok_or_Ok in H
  | H : expect _ = Ok _ |- _ => apply expect_Ok in H
  | H : Ok (_, _) = Ok (_, _) |- _ =>
      let H1 := fresh "Heq" in apply Ok_pair_inj in H as [H1 H]
  | H : (_, _) = (_, _) |- _ => let H1 := fresh "Heq" in apply pair_parts in H as [H1 H]
  | H : Ok _ = Ok _ |- _ => apply Ok_inj in H
  | H : Err _ = Ok _ |- _ => discriminate H
  | H : Panic = Ok _ |- _ => discriminate H
  end; subst.

(** Turn boolean tests in the context into propositions. *)
Ltac to_prop :=
  repeat match goal with
  | H : _ && _ = true |- _ => apply andb_true_iff in H; destruct H
  | H : _ || _ = false |- _ => apply orb_false_iff in H; destruct H
  | H : negb _ = true |- _ => apply negb_true_iff in H
  | H : negb _ = false |- _ => apply negb_false_iff in H
  | H : (_ =? _) = true |- _ => apply Z.eqb_eq in H
  | H : (_ =? _) = false |- _ => apply Z.eqb_neq in H
  | H : (_ <? _) = true |- _ => apply Z.ltb_lt in H
  | H : (_ <? _) = false |- _ => apply Z.ltb_ge in H
  | H : (_ <=? _) = true |- _ => apply Z.leb_le in H
  | H : (_ <=? _) = false |- _ => apply Z.leb_gt in H
  | H : bool_decide _ = true |- _ => apply bool_decide_eq_true in H
  | H : bool_decide _ = false |- _ => apply bool_decide_eq_false in H
  end.

(** Case analysis on the condition of an [if] in the goal. *)
Ltac case_if :=
  match goal with
  | |- context [if ?b then _ else _] =>
      let H := fresh "Hif" in destruct b eqn:H; to_prop
  end.

(** ** Lists as byte buffers *)

Definition byte := Byte.byte.
Definition bytes := list Byte.byte.

#[export] Instance byte_eq_dec : EqDecision Byte.byte.
Proof. intros x y. destruct (Byte.byte_eq_dec x y); [left|right]; done. Defined.

(** [&l[off..off+len]] *)
Definition sublist {A} (off len : Z) (l : list A) : list A :=
  take (Z.to_nat len) (drop (Z.to_nat off) l).

Definition zlen {A} (l : list A) : Z := Z.of_nat (length l).

(** [dst[off..off+src.len()].copy_from_slice(src)], in range. *)
Definition splice {A} (off : Z) (src l : list A) : list A :=
  take (Z.to_nat off) l ++ src ++ drop (Z.to_nat off + length src) l.

Definition zeros (n : Z) : bytes := replicate (Z.to_nat n) Byte.x00.

Lemma zlen_app {A} (l1 l2 : list A) : zlen (l1 ++ l2) = zlen l1 + zlen l2.
Proof. unfold zlen. rewrite length_app. lia. Qed.

Lemma zlen_nonneg {A} (l : list A) : 0 <= zlen l.
Proof. unfold zlen. lia. Qed.

(** The byte at a position, zero outside the buffer. *)
Definition bget (l : list Byte.byte) (i : Z) : Byte.byte := default Byte.x00 (l !! Z.to_nat i).

Lemma zlen_zeros n : 0 <= n -> zlen (zeros n) = n.
Proof. intros H. unfold zlen, zeros. rewrite length_replicate. lia. Qed.

Lemma zlen_sublist {A} off n (l : list A) :
  0 <= off -> 0 <= n -> off + n <= zlen l -> zlen (sublist off n l) = n.
Proof. unfold zlen, sublist. intros. rewrite length_take, length_drop. lia. Qed.

Lemma zlen_splice {A} off (src l : list A) :
  0 <= off -> off + zlen src <= zlen l -> zlen (splice off src l) = zlen l.
Proof.
  unfold zlen, splice. intros. rewrite !length_app, length_take, length_drop. lia.
Qed.

Lemma bget_zeros n i : bget (zeros n) i = Byte.x00.
Proof.
  unfold bget, zeros. destruct (decide (Z.to_nat i < Z.to_nat n)%nat).
  - by rewrite lookup_replicate_2.
  - rewrite lookup_ge_None_2; [done|]. rewrite length_replicate. lia.
Qed.

Lemma bget_beyond l i : zlen l <= i -> bget l i = Byte.x00.
Proof. unfold bget, zlen. intros H. by rewrite lookup_ge_None_2 by lia. Qed.

Lemma bget_sublist off n l i :
  0 <= off -> 0 <= i < n -> bget (sublist off n l) i = bget l (off + i).
Proof.
  intros Ho Hi. unfold bget, sublist. rewrite lookup_take_lt by lia. rewrite lookup_drop.
  do 2 f_equal. lia.
Qed.

Lemma bget_app_l l1 l2 i : 0 <= i < zlen l1 -> bget (l1 ++ l2) i = bget l1 i.
Proof. unfold bget, zlen. intros H. by rewrite lookup_app_l by lia. Qed.

Lemma bget_app_r l1 l2 i : zlen l1 <= i -> bget (l1 ++ l2) i = bget l2 (i - zlen l1).
Proof. unfold bget, zlen. intros H. rewrite lookup_app_r by lia. do 2 f_equal. lia. Qed.

Lemma bget_splice off src l i :
  0 <= off -> off + zlen src <= zlen l -> 0 <= i ->
  bget (splice off src l) i =
    if (off <=? i) && (i <? off + zlen src) then bget src (i - off) else bget l i.
Proof.
  intros Ho Hl Hi. unfold splice.
  assert (Ht : zlen (take (Z.to_nat off) l) = off).
  { unfold zlen in *. rewrite length_take. lia. }
  destruct (off <=? i) eqn:E1; [destruct (i <? off + zlen src) eqn:E2|]; simpl; to_prop.
  - rewrite bget_app_r by lia. rewrite Ht. apply bget_app_l. lia.
  - rewrite bget_app_r by lia. rewrite Ht. rewrite bget_app_r by lia.
    unfold bget, zlen in *. rewrite lookup_drop. do 2 f_equal. lia.
  - rewrite bget_app_l by lia. unfold bget. rewrite lookup_take_lt by lia. done.
Qed.

(** Two buffers of one length with the same bytes are equal. *)
Lemma bytes_ext l1 l2 :
  zlen l1 = zlen l2 -> (forall i, 0 <= i < zlen l1 -> bget l1 i = bget l2 i) -> l1 = l2.
Proof.
  unfold zlen. intros Hl H. apply list_eq_same_length with (length l1); [lia|done|].
  intros i x y Hi Hx Hy. specialize (H (Z.of_nat i) ltac:(lia)). unfold bget in H.
  rewrite Nat2Z.id, Hx, Hy in H. done.
Qed.

Lemma filter_none {A} (P : A -> Prop) `{!forall x, Decision (P x)} (l : list A) :
  Forall (fun x => ~ P x) l -> filter P l = [].
Proof. induction 1; [done|]. by rewrite filter_cons_False. Qed.

Lemma filter_all {A} (P : A -> Prop) `{!forall x, Decision (P x)} (l : list A) : Forall P l -> filter P l = l.
Proof. induction 1; [done|]. rewrite filter_cons_True by done. by f_equal. Qed.

(** ** Counting *)

Section counting.
Context {A : Type}.
Implicit Types (f : A -> bool) (l : list A).

(** The number of elements a test holds for. *)
Definition count f l : Z := zlen (filter (fun x => f x = true) l).

Lemma count_nil f : count f [] = 0.
Proof. done. Qed.

Lemma count_app f l1 l2 : count f (l1 ++ l2) = count f l1 + count f l2.
Proof. unfold count. by rewrite filter_app, zlen_app. Qed.

Lemma count_cons f x l : count f (x :: l) = (if f x then 1 else 0) + count f l.
Proof.
  unfold count. rewrite filter_cons. destruct (f x).
  - rewrite decide_True by done. unfold zlen. simpl. lia.
  - by rewrite decide_False by done.
Qed.

Lemma count_snoc f l x : count f (l ++ [x]) = count f l + (if f x then 1 else 0).
Proof. rewrite count_app, count_cons, count_nil. lia. Qed.

Lemma count_bounds f l : 0 <= count f l <= zlen l.
Proof. induction l as [|x l IH]; [done|]. rewrite count_cons. unfold zlen in *. simpl. destruct (f x); lia. Qed.

Lemma count_insert f l i x y :
  l !! i = Some x -> count f (<[i := y]> l) = count f l - (if f x then 1 else 0) + (if f y then 1 else 0).
Proof.
  intros H. rewrite insert_take_drop by (by eapply lookup_lt_Some). rewrite <- (take_drop_middle l i x H) at 3.
  rewrite !count_app, !count_cons. lia.
Qed.

Lemma count_pos f l i x : l !! i = Some x -> f x = true -> 0 < count f l.
Proof.
  intros H Hf. rewrite <- (take_drop_middle l i x H), count_app, count_cons, Hf.
  pose proof (count_bounds f (take i l)). pose proof (count_bounds f (drop (S i) l)). lia.
Qed.

Lemma count_zero f l : count f l = 0 <-> Forall (fun x => f x = false) l.
Proof.
  induction l as [|x l IH]; [done|]. rewrite count_cons, Forall_cons, <- IH. pose proof (count_bounds f l).
  destruct (f x); [split; [lia|by intros []]|]. split; [intros; split; [done|lia]|intros []; lia].
Qed.

Lemma count_imap f (g : nat -> A -> A) l : (forall n x, f (g n x) = f x) -> count f (imap g l) = count f l.
Proof.
  revert g. induction l as [|x l IH]; intros g H; [done|]. rewrite imap_cons, !count_cons, H. f_equal.
  apply IH. intros n y. apply H.
Qed.

Lemma zlen_insert l i x : zlen (<[i := x]> l) = zlen l.
Proof. unfold zlen. by rewrite length_insert. Qed.

Lemma zlen_snoc l x : zlen (l ++ [x]) = zlen l + 1.
Proof. rewrite zlen_app. unfold zlen at 2. simpl. lia. Qed.
End counting.
