(* ===== verification/Common.v ===== *)
(** * kiseki_common and kiseki_utils::align

    The constants and offset arithmetic every component shares
    ([components/common/src/lib.rs]) and the two alignment helpers
    ([components/utils/src/align.rs]).

    The storage layout (page, block and chunk size) is a type class: the
    definitions that walk pages, blocks and chunks are written against the
    class, [kiseki_layout] is the instance with the constants of the source,
    and a witness may evaluate them at a smaller instance of the same shape. *)

From S2P Require Import Prelude.

Definition MAX_NAME_LENGTH : Z := 255.
Definition DOT : string := ".".
Definition DOT_DOT : string := "..".

Definition MODE_MASK_R : Z := 4.
Definition MODE_MASK_W : Z := 2.
Definition MODE_MASK_X : Z := 1.

Definition KISEKI_PAGE_SIZE : Z := Z.shiftl 128 10.
Definition KISEKI_BLOCK_SIZE : Z := Z.shiftl 4 20.
Definition MIN_BLOCK_SIZE : Z := KISEKI_PAGE_SIZE.
Definition MAX_BLOCK_SIZE : Z := Z.shiftl 16 20.
Definition KISEKI_CHUNK_SIZE : Z := Z.shiftl 64 20.
Definition MAX_FILE_SIZE : Z := Z.shiftl KISEKI_CHUNK_SIZE 31.
Definition MAX_SYMLINK_LEN : Z := 4096.

Class Layout := {
  PAGE_SIZE : Z;
  BLOCK_SIZE : Z;
  CHUNK_SIZE : Z;
  page_size_pos : 0 < PAGE_SIZE;
  pages_per_block : Z;
  pages_per_block_pos : 0 < pages_per_block;
  block_size_eq : BLOCK_SIZE = pages_per_block * PAGE_SIZE;
  blocks_per_chunk : Z;
  blocks_per_chunk_pos : 0 < blocks_per_chunk;
  chunk_size_eq : CHUNK_SIZE = blocks_per_chunk * BLOCK_SIZE;
  chunk_size_u32 : CHUNK_SIZE < 2 ^ 32
}.

#[export] Program Instance kiseki_layout : Layout := {
  PAGE_SIZE := KISEKI_PAGE_SIZE;
  BLOCK_SIZE := KISEKI_BLOCK_SIZE;
  CHUNK_SIZE := KISEKI_CHUNK_SIZE;
  pages_per_block := 32;
  blocks_per_chunk := 16
}.
Solve All Obligations with reflexivity.

(** A small layout of the same shape: 2-byte pages, 2 pages a block, 3 blocks
    a chunk. *)
Program Definition tiny_layout : Layout := {|
  PAGE_SIZE := 2;
  BLOCK_SIZE := 4;
  CHUNK_SIZE := 12;
  pages_per_block := 2;
  blocks_per_chunk := 3
|}.
Solve All Obligations with reflexivity.

Section layout_facts.
Context `{L : Layout}.

Lemma block_size_pos : 0 < BLOCK_SIZE.
Proof.
  rewrite block_size_eq. pose proof page_size_pos. pose proof pages_per_block_pos. nia.
Qed.

Lemma chunk_size_pos : 0 < CHUNK_SIZE.
Proof.
  rewrite chunk_size_eq. pose proof block_size_pos. pose proof blocks_per_chunk_pos. nia.
Qed.
End layout_facts.
#[export] Hint Resolve page_size_pos block_size_pos chunk_size_pos : kiseki.

(** ** Chunk arithmetic *)

Definition cal_chunk_idx (offset chunk_size : Z) : Z := offset / chunk_size.
Definition cal_chunk_offset (offset chunk_size : Z) : Z := offset `mod` chunk_size.

Lemma cal_chunk_split offset chunk_size :
  0 < chunk_size ->
  offset = cal_chunk_idx offset chunk_size * chunk_size + cal_chunk_offset offset chunk_size.
Proof.
  intros ?. unfold cal_chunk_idx, cal_chunk_offset.
  pose proof (Z.div_mod offset chunk_size). lia.
Qed.

(** ** kiseki_utils::align *)

(** The final cast to [i64] is the identity below [2^63] and wraps above. *)
Definition as_i64 (z : Z) : Z :=
  let w := u64_wrap z in if w <? 2 ^ 63 then w else w - 2 ^ 64.

Definition align4k (length : Z) : Z :=
  if length =? 0 then Z.shiftl 1 12
  else
    let blocks_needed := (length - 1) / 4096 + 1 in
    as_i64 (blocks_needed * 4096).

(** The [while s > 1] loop of [align_to_block]: [fuel] is the bit width. *)
Fixpoint align_loop (fuel : nat) (s bits : Z) : Z * Z :=
  match fuel with
  | O => (s, bits)
  | S fuel =>
      if 1 <? s then align_loop fuel (Z.shiftr s 1) (bits + 1) else (s, bits)
  end.

Definition align_to_block (s : Z) : Z :=
  let '(s, bits) := align_loop 64 s 0 in
  let adjusted_size := Z.shiftl s bits in
  if adjusted_size <? MIN_BLOCK_SIZE then MIN_BLOCK_SIZE
  else if MAX_BLOCK_SIZE <? adjusted_size then MAX_BLOCK_SIZE
  else adjusted_size.

Lemma align4k_spec length :
  0 < length < 2 ^ 62 ->
  align4k length `mod` 4096 = 0 /\ length <= align4k length < length + 4096.
Proof.
  intros Hl. unfold align4k, as_i64, u64_wrap.
  destruct (length =? 0) eqn:E; to_prop; [lia|].
  pose proof (Z.div_mod (length - 1) 4096 ltac:(lia)) as Hd.
  pose proof (Z.mod_pos_bound (length - 1) 4096 ltac:(lia)).
  set (q := (length - 1) / 4096) in *.
  rewrite (Z.mod_small ((q + 1) * 4096)) by lia.
  case_if; [|lia].
  split; [apply Z.mod_mul; lia|lia].
Qed.

(** The shift loop computes [floor(log2 s)] and leaves the leading bit. *)
Lemma align_loop_spec fuel s bits :
  1 <= s < 2 ^ Z.of_nat fuel ->
  align_loop fuel s bits = (1, bits + Z.log2 s).
Proof.
  revert s bits. induction fuel as [|fuel IH]; intros s bits Hs; simpl.
  { replace (2 ^ Z.of_nat 0) with 1 in Hs by reflexivity. lia. }
  case_if.
  - assert (Hd : Z.shiftr s 1 = s / 2) by (rewrite Z.shiftr_div_pow2; [done|lia]).
    assert (1 <= s / 2) by (apply Z.div_le_lower_bound; lia).
    assert (s / 2 < 2 ^ Z.of_nat fuel).
    { apply Z.div_lt_upper_bound; [lia|].
      rewrite Nat2Z.inj_succ, Z.pow_succ_r in Hs by lia. lia. }
    rewrite IH by (rewrite Hd; lia).
    f_equal. rewrite Z.log2_shiftr by lia.
    pose proof (Z.log2_pos s ltac:(lia)). lia.
  - assert (s = 1) as -> by lia. f_equal. simpl. lia.
Qed.

(** C37: for every positive 64-bit size, [align_to_block] returns the largest power of
    two not above it, clamped to [MIN_BLOCK_SIZE, MAX_BLOCK_SIZE]. *)
Theorem align_to_block_correct s :
  1 <= s < 2 ^ 64 ->
  align_to_block s = Z.max MIN_BLOCK_SIZE (Z.min MAX_BLOCK_SIZE (2 ^ Z.log2 s)).
Proof.
  intros Hs. unfold align_to_block.
  rewrite align_loop_spec by (simpl; lia).
  rewrite Z.shiftl_1_l, Z.add_0_l.
  assert (MIN_BLOCK_SIZE < MAX_BLOCK_SIZE) by reflexivity.
  repeat case_if; lia.
Qed.

Lemma align_to_block_correct_witness :
  1 <= 5000000 < 2 ^ 64 /\ align_to_block 5000000 = 4194304.
Proof.
  split; [lia|]. rewrite (align_to_block_correct 5000000) by lia. vm_compute. reflexivity.
Defined.
