(* ===== verification/Types.v ===== *)
(** * kiseki_types: inode numbers, attributes, entries, format

    [components/types/src/ino.rs], [attr.rs], [entry.rs], [setting.rs],
    [stat.rs].  [SystemTime] is nanoseconds since the epoch (a [Z], it may lie
    before the epoch) and [Duration] is a non-negative number of
    nanoseconds; [SystemTime::now()] is an argument of the functions that
    read the clock, one argument per call. *)

From S2P Require Import Prelude Common.

(** ** Inode numbers (ino.rs) *)

Definition Ino := Z.
Definition ZERO_INO : Ino := 0.
Definition ROOT_INO : Ino := 1.
Definition MIN_INTERNAL_INODE : Ino := 0x7FFFFFFF00000000.
Definition LOG_INODE : Ino := 0x7FFFFFFF00000001.
Definition CONTROL_INODE : Ino := 0x7FFFFFFF00000002.
Definition STATS_INODE : Ino := 0x7FFFFFFF00000003.
Definition CONFIG_INODE : Ino := 0x7FFFFFFF00000004.

Definition is_special (i : Ino) : bool := MIN_INTERNAL_INODE <=? i.
Definition is_zero (i : Ino) : bool := i =? 0.
Definition is_root (i : Ino) : bool := i =? ROOT_INO.

Definition SystemTime := Z.
Definition Duration := Z.
Definition UNIX_EPOCH : SystemTime := 0.

(** [now.duration_since(earlier)]: an error when [earlier] is in the future. *)
Definition duration_since (now earlier : SystemTime) : option Duration :=
  if earlier <=? now then Some (now - earlier) else None.

(** ** File types (fuser::FileType as the source matches it) *)

Inductive FileType :=
| NamedPipe | CharDevice | BlockDevice | Directory | RegularFile | Symlink | Socket.

#[export] Instance FileType_eq_dec : EqDecision FileType.
Proof. solve_decision. Defined.

Definition S_IFMT : Z := 0xF000.
Definition get_mode_t_from_filetype (kind : FileType) : Z :=
  match kind with
  | Directory => 0x4000
  | RegularFile => 0x8000
  | Symlink => 0xA000
  | BlockDevice => 0x6000
  | CharDevice => 0x2000
  | NamedPipe => 0x1000
  | Socket => 0xC000
  end.

Definition make_smode (kind : FileType) (perm : Z) : Z :=
  u16_wrap (Z.lor (get_mode_t_from_filetype kind) perm).

(** ** Inode attributes (attr.rs) *)

(** [SetAttrFlags] *)
Definition SA_MODE : Z := Z.shiftl 1 0.
Definition SA_UID : Z := Z.shiftl 1 1.
Definition SA_GID : Z := Z.shiftl 1 2.
Definition SA_SIZE : Z := Z.shiftl 1 3.
Definition SA_ATIME : Z := Z.shiftl 1 4.
Definition SA_MTIME : Z := Z.shiftl 1 5.
Definition SA_CTIME : Z := Z.shiftl 1 6.
Definition SA_ATIME_NOW : Z := Z.shiftl 1 7.
Definition SA_MTIME_NOW : Z := Z.shiftl 1 8.
Definition SA_FLAG : Z := Z.shiftl 1 15.

(** [Flags] *)
Definition FLAG_IMMUTABLE : Z := 1.
Definition FLAG_APPEND : Z := 2.
Definition Flags_from_bits_truncate (b : Z) : Z := Z.land b 3.

Record InodeAttr := mkAttr {
  flags : Z;
  kind : FileType;
  mode : Z;
  uid : Z;
  gid : Z;
  rdev : Z;
  atime : SystemTime;
  mtime : SystemTime;
  ctime : SystemTime;
  crtime : SystemTime;
  nlink : Z;
  attr_length : Z;
  parent : Ino;
  keep_cache : bool
}.

#[export] Instance InodeAttr_eq_dec : EqDecision InodeAttr.
Proof. solve_decision. Defined.

(** Setters (lines 82-143). *)
Definition set_flags (v : Z) (a : InodeAttr) : InodeAttr :=
  mkAttr v (kind a) (mode a) (uid a) (gid a) (rdev a) (atime a) (mtime a) (ctime a)
    (crtime a) (nlink a) (attr_length a) (parent a) (keep_cache a).
Definition set_mode (v : Z) (a : InodeAttr) : InodeAttr :=
  mkAttr (flags a) (kind a) v (uid a) (gid a) (rdev a) (atime a) (mtime a) (ctime a)
    (crtime a) (nlink a) (attr_length a) (parent a) (keep_cache a).
Definition set_kind (v : FileType) (a : InodeAttr) : InodeAttr :=
  mkAttr (flags a) v (mode a) (uid a) (gid a) (rdev a) (atime a) (mtime a) (ctime a)
    (crtime a) (nlink a) (attr_length a) (parent a) (keep_cache a).
Definition set_nlink (v : Z) (a : InodeAttr) : InodeAttr :=
  mkAttr (flags a) (kind a) (mode a) (uid a) (gid a) (rdev a) (atime a) (mtime a) (ctime a)
    (crtime a) v (attr_length a) (parent a) (keep_cache a).
Definition set_length (v : Z) (a : InodeAttr) : InodeAttr :=
  mkAttr (flags a) (kind a) (mode a) (uid a) (gid a) (rdev a) (atime a) (mtime a) (ctime a)
    (crtime a) (nlink a) v (parent a) (keep_cache a).
Definition set_rdev (v : Z) (a : InodeAttr) : InodeAttr :=
  mkAttr (flags a) (kind a) (mode a) (uid a) (gid a) v (atime a) (mtime a) (ctime a)
    (crtime a) (nlink a) (attr_length a) (parent a) (keep_cache a).
Definition set_gid (v : Z) (a : InodeAttr) : InodeAttr :=
  mkAttr (flags a) (kind a) (mode a) (uid a) v (rdev a) (atime a) (mtime a) (ctime a)
    (crtime a) (nlink a) (attr_length a) (parent a) (keep_cache a).
Definition set_uid (v : Z) (a : InodeAttr) : InodeAttr :=
  mkAttr (flags a) (kind a) (mode a) v (gid a) (rdev a) (atime a) (mtime a) (ctime a)
    (crtime a) (nlink a) (attr_length a) (parent a) (keep_cache a).
Definition set_parent (v : Ino) (a : InodeAttr) : InodeAttr :=
  mkAttr (flags a) (kind a) (mode a) (uid a) (gid a) (rdev a) (atime a) (mtime a) (ctime a)
    (crtime a) (nlink a) (attr_length a) v (keep_cache a).
Definition set_atime (v : SystemTime) (a : InodeAttr) : InodeAttr :=
  mkAttr (flags a) (kind a) (mode a) (uid a) (gid a) (rdev a) v (mtime a) (ctime a)
    (crtime a) (nlink a) (attr_length a) (parent a) (keep_cache a).
Definition set_mtime (v : SystemTime) (a : InodeAttr) : InodeAttr :=
  mkAttr (flags a) (kind a) (mode a) (uid a) (gid a) (rdev a) (atime a) v (ctime a)
    (crtime a) (nlink a) (attr_length a) (parent a) (keep_cache a).
Definition set_ctime (v : SystemTime) (a : InodeAttr) : InodeAttr :=
  mkAttr (flags a) (kind a) (mode a) (uid a) (gid a) (rdev a) (atime a) (mtime a) v
    (crtime a) (nlink a) (attr_length a) (parent a) (keep_cache a).
Definition set_keep_cache (v : bool) (a : InodeAttr) : InodeAttr :=
  mkAttr (flags a) (kind a) (mode a) (uid a) (gid a) (rdev a) (atime a) (mtime a) (ctime a)
    (crtime a) (nlink a) (attr_length a) (parent a) v.

(** [InodeAttr::empty] *)
Definition attr_empty : InodeAttr :=
  mkAttr 0 Directory 0 0 0 0 UNIX_EPOCH UNIX_EPOCH UNIX_EPOCH UNIX_EPOCH 0 0 ROOT_INO false.

(** [InodeAttr::default]: one clock read for all four timestamps. *)
Definition attr_default (now : SystemTime) : InodeAttr :=
  mkAttr 0 RegularFile 0 0 0 0 now now now now 1 0 0 false.

(** [InodeAttr::hard_code_inode_attr] *)
Definition hard_code_inode_attr (is_trash : bool) : InodeAttr :=
  mkAttr 0 Directory (if is_trash then 0x16D else 0x1FF) 0 0 0
    UNIX_EPOCH UNIX_EPOCH UNIX_EPOCH UNIX_EPOCH 2 (Z.shiftl 4 10) ROOT_INO false.

(** [update_modification_time] reads the clock twice. *)
Definition update_modification_time (now1 now2 : SystemTime) (a : InodeAttr) : InodeAttr :=
  set_ctime now2 (set_mtime now1 a).

Definition update_length (len : Z) (now1 now2 : SystemTime) (a : InodeAttr) : InodeAttr :=
  update_modification_time now1 now2 (set_length len a).

Definition update_modification_time_with (t : SystemTime) (a : InodeAttr) : InodeAttr :=
  set_ctime t (set_mtime t a).

Definition update_modification_time_if (now : SystemTime) (skip : Duration)
    (a : InodeAttr) : InodeAttr * bool :=
  if skip <? default 0 (duration_since now (mtime a))
  then (set_ctime now (set_mtime now a), true)
  else (a, false).

Definition is_dir (a : InodeAttr) : bool := bool_decide (kind a = Directory).
Definition is_file (a : InodeAttr) : bool := bool_decide (kind a = RegularFile).
Definition is_filetype (a : InodeAttr) (t : FileType) : bool := bool_decide (kind a = t).

Definition is_immutable (a : InodeAttr) : bool :=
  bits_contain (Flags_from_bits_truncate (u8_wrap (flags a))) FLAG_IMMUTABLE.
Definition is_append_only (a : InodeAttr) : bool :=
  bits_contain (Flags_from_bits_truncate (u8_wrap (flags a))) FLAG_APPEND.
Definition is_normal (a : InodeAttr) : bool :=
  let f := Flags_from_bits_truncate (u8_wrap (flags a)) in
  negb (bits_contain f FLAG_IMMUTABLE || bits_contain f FLAG_APPEND).

Definition access_mode (a : InodeAttr) (u : Z) (gids : list Z) : Z :=
  if u =? 0 then 7
  else
    let perm := mode a in
    if u =? uid a then Z.land (u8_wrap (Z.shiftr perm 6)) 7
    else if bool_decide (gid a ∈ gids) then Z.land (u8_wrap (Z.shiftr perm 3)) 7
    else u8_wrap (Z.land perm 7).

(** [fuser::FileAttr] and [to_fuse_attr] *)
Record FileAttr := mkFileAttr {
  fa_ino : Z; fa_size : Z; fa_blocks : Z;
  fa_atime : SystemTime; fa_mtime : SystemTime; fa_ctime : SystemTime; fa_crtime : SystemTime;
  fa_kind : FileType; fa_perm : Z; fa_nlink : Z; fa_uid : Z; fa_gid : Z; fa_rdev : Z;
  fa_blksize : Z; fa_flags : Z
}.

Definition div_ceil (a b : Z) : Z := (a + b - 1) / b.

Definition to_fuse_attr (a : InodeAttr) (ino : Z) : FileAttr :=
  let '(size, blocks) :=
    match kind a with
    | Directory | Symlink | RegularFile => (attr_length a, div_ceil (attr_length a) 512)
    | _ => (0, 0)
    end in
  mkFileAttr ino size blocks (atime a) (mtime a) (ctime a) (crtime a) (kind a)
    (make_smode (kind a) (mode a)) (nlink a) (uid a) (gid a) (rdev a) 0x10000 (flags a).

(** ** Directory entries (entry.rs) *)

Record DEntry := mkDEntry {
  de_parent : Ino;
  de_name : string;
  de_inode : Ino;
  de_typ : FileType
}.

#[export] Instance DEntry_eq_dec : EqDecision DEntry.
Proof. solve_decision. Defined.

Record FullEntry := mkFullEntry {
  fe_inode : Ino;
  fe_name : string;
  fe_attr : InodeAttr
}.

Inductive Entry :=
| EFull (e : FullEntry)
| EDEntry (e : DEntry).

Definition get_inode (e : Entry) : Ino :=
  match e with EFull e => fe_inode e | EDEntry e => de_inode e end.
Definition get_file_type (e : Entry) : FileType :=
  match e with EFull e => kind (fe_attr e) | EDEntry e => de_typ e end.
Definition get_name (e : Entry) : string :=
  match e with EFull e => fe_name e | EDEntry e => de_name e end.

(** ** Volume format (setting.rs) *)

Inductive FormatLayoutField := ChunkSize | BlockSize | PageSize.

Record FormatLayoutMismatch := mkMismatch {
  mm_field : FormatLayoutField;
  mm_stored : Z;
  mm_requested : Z
}.

Record Format := mkFormat {
  fmt_name : string;
  chunk_size : Z;
  block_size : Z;
  page_size : Z;
  max_capacity : option Z;
  max_inodes : option Z
}.

#[export] Instance Format_eq_dec : EqDecision Format.
Proof. solve_decision. Defined.

Definition format_default : Format :=
  mkFormat "kiseki" KISEKI_CHUNK_SIZE KISEKI_BLOCK_SIZE KISEKI_PAGE_SIZE None None.

(** The [find_map] over the three layout fields, in their order. *)
Definition layout_mismatch (stored requested : Format) : option FormatLayoutMismatch :=
  let check '(field, s, r) :=
    if negb (s =? r) then Some (mkMismatch field s r) else None in
  match check (ChunkSize, chunk_size stored, chunk_size requested) with
  | Some m => Some m
  | None =>
      match check (BlockSize, block_size stored, block_size requested) with
      | Some m => Some m
      | None => check (PageSize, page_size stored, page_size requested)
      end
  end.

Definition merge_mutable_from (self requested : Format) : Format :=
  mkFormat (fmt_name requested) (chunk_size self) (block_size self) (page_size self)
    (max_capacity requested) (max_inodes requested).

(** ** Statistics (stat.rs) *)

Record DirStat := mkDirStat { ds_length : Z; ds_space : Z; ds_inodes : Z }.
Record FSStat := mkFSStat { total_size : Z; used_size : Z; file_count : Z }.

(** ** Facts *)

Lemma layout_mismatch_None f g :
  layout_mismatch f g = None <->
  chunk_size f = chunk_size g /\ block_size f = block_size g /\ page_size f = page_size g.
Proof.
  unfold layout_mismatch. repeat case_if; simpl; split; naive_solver lia.
Qed.

Lemma is_normal_spec a :
  is_normal a = negb (is_immutable a) && negb (is_append_only a).
Proof. unfold is_normal. rewrite negb_orb. done. Qed.

Lemma access_mode_range a u gids : 0 <= access_mode a u gids < 8.
Proof.
  unfold access_mode, u8_wrap.
  assert (Hland : forall z, 0 <= Z.land z 7 < 8).
  { intros z. change 7 with (Z.ones 3). rewrite Z.land_ones by lia.
    apply Z.mod_pos_bound. lia. }
  repeat case_if; try apply Hland; try lia.
  pose proof (Hland (mode a)). rewrite Z.mod_small; lia.
Qed.
