(* ===== verification/Bincode.v ===== *)
(** * The bincode interface

    The metadata backend stores values through the bincode crate.  The crate
    is not part of the repository: the definitions that serialize take an
    instance of [Bincode], and the theorems about them use only the documented
    round trip [BincodeLaws].  Serializing fails for no value of the program but a
    [SystemTime] before the epoch; the clock is assumed not to run before it, and
    times the client chooses are taken to be after it.  The second half builds reference codecs that
    satisfy the law, used to evaluate the definitions on concrete inputs. *)

From S2P Require Import Prelude Common Types.

Class Bincode (A : Type) := {
  bc_ser : A -> bytes;
  bc_de : bytes -> option A
}.

Class BincodeLaws (A : Type) {B : Bincode A} : Prop :=
  bc_roundtrip : forall a : A, bc_de (bc_ser a) = Some a.

Lemma bc_ser_inj `{BincodeLaws A} (a b : A) : bc_ser a = bc_ser b -> a = b.
Proof.
  intros E. pose proof (bc_roundtrip a) as Ha. rewrite E, bc_roundtrip in Ha. congruence.
Qed.

(** ** Reference codecs

    A codec writes a self-delimiting prefix and reads it back, leaving the
    rest of the input. *)

Record codec (A : Type) := Codec {
  enc : A -> bytes;
  dec : bytes -> option (A * bytes);
  dec_enc : forall a rest, dec (enc a ++ rest) = Some (a, rest)
}.
Arguments Codec {A}.
Arguments enc {A}.
Arguments dec {A}.
Arguments dec_enc {A}.

Definition codec_bincode {A} (c : codec A) : Bincode A := {|
  bc_ser := enc c;
  bc_de b := match dec c b with Some (a, _) => Some a | None => None end
|}.

Lemma codec_bincode_laws {A} (c : codec A) : @BincodeLaws A (codec_bincode c).
Proof.
  intros a. simpl. rewrite <- (app_nil_r (enc c a)), dec_enc. done.
Qed.

(** Positives as a terminated list of bits, integers with a sign byte. *)
Fixpoint enc_pos (p : positive) : bytes :=
  match p with
  | xH => [Byte.x02]
  | xO p => Byte.x00 :: enc_pos p
  | xI p => Byte.x01 :: enc_pos p
  end.

Fixpoint dec_pos (b : bytes) : option (positive * bytes) :=
  match b with
  | Byte.x02 :: rest => Some (xH, rest)
  | Byte.x00 :: rest =>
      match dec_pos rest with Some (p, r) => Some (xO p, r) | None => None end
  | Byte.x01 :: rest =>
      match dec_pos rest with Some (p, r) => Some (xI p, r) | None => None end
  | _ => None
  end.

Definition codec_Z : codec Z.
Proof.
  refine (Codec (fun z =>
    match z with
           | Z0 => [Byte.x00]
           | Zpos p => Byte.x01 :: enc_pos p
           | Zneg p => Byte.x02 :: enc_pos p
           end)
    (fun b =>
    match b with
           | Byte.x00 :: r => Some (0, r)
           | Byte.x01 :: r =>
               match dec_pos r with Some (p, r) => Some (Zpos p, r) | None => None end
           | Byte.x02 :: r =>
               match dec_pos r with Some (p, r) => Some (Zneg p, r) | None => None end
           | _ => None
           end) _).
  assert (Hp : forall p rest, dec_pos (enc_pos p ++ rest) = Some (p, rest)).
  { induction p as [p IH|p IH|]; intros r; simpl; rewrite ?IH; done. }
  intros [|p|p] rest; simpl; rewrite ?Hp; done.
Defined.

Definition codec_pair {A B} (ca : codec A) (cb : codec B) : codec (A * B).
Proof.
  refine (Codec (fun ab =>
    enc ca ab.1 ++ enc cb ab.2)
    (fun b =>
    match dec ca b with
           | Some (a, r) =>
               match dec cb r with Some (b, r) => Some ((a, b), r) | None => None end
           | None => None
           end) _).
  intros [a b] rest. simpl. rewrite <- app_assoc, !dec_enc. done.
Defined.

Definition codec_iso {A B} (f : A -> B) (g : B -> A)
    (H : forall b, f (g b) = b) (c : codec A) : codec B.
Proof.
  refine (Codec (fun b =>
    enc c (g b))
    (fun x =>
    match dec c x with Some (a, r) => Some (f a, r) | None => None end) _).
  intros b rest. simpl. rewrite dec_enc, H. done. Defined.

Definition codec_bool : codec bool.
Proof.
  refine (codec_iso (fun z => Z.eqb z 1) (fun b : bool => if b then 1 else 0) _ codec_Z).
  intros []; done.
Defined.

Definition codec_option {A} (c : codec A) : codec (option A).
Proof.
  refine (Codec (fun o =>
    match o with None => [Byte.x00] | Some a => Byte.x01 :: enc c a end)
    (fun b =>
    match b with
           | Byte.x00 :: r => Some (None, r)
           | Byte.x01 :: r =>
               match dec c r with Some (a, r) => Some (Some a, r) | None => None end
           | _ => None
           end) _).
  intros [a|] rest; simpl; rewrite ?dec_enc; done. Defined.

Fixpoint enc_string (s : string) : bytes :=
  match s with
  | EmptyString => [Byte.x00]
  | String c s => Byte.x01 :: Ascii.byte_of_ascii c :: enc_string s
  end.

Fixpoint dec_string (b : bytes) : option (string * bytes) :=
  match b with
  | Byte.x00 :: r => Some (EmptyString, r)
  | Byte.x01 :: c :: r =>
      match dec_string r with
      | Some (s, r) => Some (String (Ascii.ascii_of_byte c) s, r)
      | None => None
      end
  | _ => None
  end.

Definition codec_string : codec string.
Proof.
  refine (Codec (enc_string)
    (dec_string) _).
  intros s. induction s as [|c s IH]; intros rest; simpl; [done|].
  rewrite IH, Ascii.ascii_of_byte_of_ascii. done.
Defined.

Definition FileType_to_Z (t : FileType) : Z :=
  match t with
  | NamedPipe => 0 | CharDevice => 1 | BlockDevice => 2 | Directory => 3
  | RegularFile => 4 | Symlink => 5 | Socket => 6
  end.
Definition FileType_of_Z (z : Z) : FileType :=
  match z with
  | 0 => NamedPipe | 1 => CharDevice | 2 => BlockDevice | 3 => Directory
  | 4 => RegularFile | 5 => Symlink | _ => Socket
  end.

Definition codec_FileType : codec FileType.
Proof. refine (codec_iso FileType_of_Z FileType_to_Z _ codec_Z). intros []; done. Defined.

Local Infix "×" := codec_pair (at level 40, left associativity).

Definition codec_InodeAttr : codec InodeAttr.
Proof.
  refine (codec_iso
    (fun '(f, k, m, u, g, rd, at_, mt, ct, cr, nl, len, p, kc) =>
       mkAttr f k m u g rd at_ mt ct cr nl len p kc)
    (fun a => (flags a, kind a, mode a, uid a, gid a, rdev a, atime a, mtime a, ctime a,
               crtime a, nlink a, attr_length a, parent a, keep_cache a)) _
    (codec_Z × codec_FileType × codec_Z × codec_Z × codec_Z × codec_Z × codec_Z × codec_Z ×
     codec_Z × codec_Z × codec_Z × codec_Z × codec_Z × codec_bool)).
  intros []; done.
Defined.

Definition codec_DEntry : codec DEntry.
Proof.
  refine (codec_iso (fun '(p, n, i, t) => mkDEntry p n i t)
    (fun e => (de_parent e, de_name e, de_inode e, de_typ e)) _
    (codec_Z × codec_string × codec_Z × codec_FileType)).
  intros []; done.
Defined.

Definition codec_Format : codec Format.
Proof.
  refine (codec_iso (fun '(n, c, b, p, mc, mi) => mkFormat n c b p mc mi)
    (fun f => (fmt_name f, chunk_size f, block_size f, page_size f, max_capacity f,
               max_inodes f)) _
    (codec_string × codec_Z × codec_Z × codec_Z × codec_option codec_Z × codec_option codec_Z)).
  intros []; done.
Defined.

Definition codec_DirStat : codec DirStat.
Proof.
  refine (codec_iso (fun '(l, s, i) => mkDirStat l s i)
    (fun d => (ds_length d, ds_space d, ds_inodes d)) _ (codec_Z × codec_Z × codec_Z)).
  intros []; done.
Defined.

(** ** Little-endian words, the layout bincode documents for fixed integers *)

Definition byte_of_Z (z : Z) : Byte.byte :=
  match Byte.of_N (Z.to_N (z `mod` 256)) with Some b => b | None => Byte.x00 end.
Definition Z_of_byte (b : Byte.byte) : Z := Z.of_N (Byte.to_N b).

Fixpoint le_bytes (n : nat) (z : Z) : bytes :=
  match n with
  | O => []
  | S n => byte_of_Z z :: le_bytes n (z / 256)
  end.

Fixpoint le_Z (b : bytes) : Z :=
  match b with
  | [] => 0
  | x :: b => Z_of_byte x + 256 * le_Z b
  end.

Lemma length_le_bytes n z : length (le_bytes n z) = n.
Proof. revert z. induction n; intros z; simpl; auto. Qed.

Lemma Z_of_byte_of_Z z : Z_of_byte (byte_of_Z z) = z `mod` 256.
Proof.
  unfold Z_of_byte, byte_of_Z.
  pose proof (Z.mod_pos_bound z 256 ltac:(lia)) as Hb.
  destruct (Byte.of_N (Z.to_N (z `mod` 256))) as [b|] eqn:E.
  - apply Byte.to_of_N in E. rewrite E. lia.
  - apply Byte.of_N_None_iff in E. lia.
Qed.

Lemma le_Z_le_bytes n z : 0 <= z < 2 ^ (8 * Z.of_nat n) -> le_Z (le_bytes n z) = z.
Proof.
  revert z. induction n as [|n IH]; intros z Hz; simpl.
  { change (2 ^ (8 * Z.of_nat 0)) with 1 in Hz. lia. }
  rewrite Z_of_byte_of_Z, IH.
  - pose proof (Z.div_mod z 256). lia.
  - split; [apply Z.div_pos; lia|]. apply Z.div_lt_upper_bound; [lia|].
    replace (8 * Z.of_nat (S n)) with (8 + 8 * Z.of_nat n) in Hz by lia.
    rewrite Z.pow_add_r in Hz by lia. lia.
Qed.

Lemma take_le_bytes n z rest : take n (le_bytes n z ++ rest) = le_bytes n z.
Proof. rewrite take_app_le, take_ge by (rewrite length_le_bytes; lia). done. Qed.

Lemma drop_le_bytes n z rest : drop n (le_bytes n z ++ rest) = rest.
Proof. rewrite drop_app_ge by (rewrite length_le_bytes; lia). by rewrite length_le_bytes, Nat.sub_diag. Qed.
