(* ===== verification/RangeMap.v ===== *)
(** * The range-map interface

    The read path keeps slices in a [rangemap::RangeMap<usize, V>], a crate the
    repository only calls.  [RangeMapOps] lists the operations the code uses
    and [RangeMapLaws] what their documentation promises: iteration yields
    disjoint non-empty ranges in increasing order, an inserted range wins over
    whatever it overlaps, [overlapping] yields the stored ranges that overlap
    the query, [gaps] the maximal uncovered parts of it.  [list_range_map] is
    an implementation that satisfies the laws. *)

From S2P Require Import Prelude.
From Stdlib Require Import Sorting.Sorted.

Section denotation.
Context {V : Type}.

Definition entry : Type := (Z * Z) * V.

Definition in_range (x : Z) (r : Z * Z) : bool := (r.1 <=? x) && (x <? r.2).

(** The value at a point of a list of range entries. *)
Fixpoint entries_get (l : list entry) (x : Z) : option V :=
  match l with
  | [] => None
  | (r, v) :: l => if in_range x r then Some v else entries_get l x
  end.

(** Non-empty ranges, each starting at or after [lo] and after its predecessor. *)
Fixpoint ranges_sorted (lo : Z) (l : list (Z * Z)) : Prop :=
  match l with
  | [] => True
  | r :: l => lo <= r.1 /\ r.1 < r.2 /\ ranges_sorted r.2 l
  end.

Definition overlaps (s e : Z) (r : Z * Z) : bool := (r.1 <? e) && (s <? r.2).
End denotation.
Arguments entry V : clear implicits.

Class RangeMapOps (V : Type) := {
  rm_t : Type;
  rm_new : rm_t;
  rm_insert : Z -> Z -> V -> rm_t -> rm_t;
  rm_iter : rm_t -> list (entry V);
  rm_overlapping : Z -> Z -> rm_t -> list (entry V);
  rm_gaps : Z -> Z -> rm_t -> list (Z * Z)
}.

Definition rm_get `{RangeMapOps V} (m : rm_t) (x : Z) : option V :=
  entries_get (rm_iter m) x.

Class RangeMapLaws (V : Type) {ops : RangeMapOps V} : Prop := {
  rm_iter_new : rm_iter rm_new = [];
  rm_iter_sorted m : exists lo, ranges_sorted lo (rm_iter m).*1;
  rm_get_insert s e v m x :
    s < e -> rm_get (rm_insert s e v m) x = if in_range x (s, e) then Some v else rm_get m x;
  rm_overlapping_spec s e m :
    s < e -> rm_overlapping s e m = filter (fun en => overlaps s e en.1 = true) (rm_iter m);
  rm_gaps_spec s e m :
    s < e ->
    ranges_sorted s (rm_gaps s e m) /\
    (forall r, r ∈ rm_gaps s e m -> r.2 <= e) /\
    (forall x, s <= x < e ->
       (exists r, r ∈ rm_gaps s e m /\ in_range x r = true) <-> rm_get m x = None)
}.

(** ** Facts about sorted range lists *)

Lemma in_range_true x r : in_range x r = true <-> r.1 <= x < r.2.
Proof. unfold in_range. split; intros; to_prop; lia. Qed.

Lemma in_range_false x r : in_range x r = false <-> ~ (r.1 <= x < r.2).
Proof. rewrite <- in_range_true. destruct (in_range x r); naive_solver. Qed.

Lemma ranges_sorted_weaken lo lo' l : lo' <= lo -> ranges_sorted lo l -> ranges_sorted lo' l.
Proof. destruct l; simpl; [done|]. intros ? (? & ? & ?). split_and!; [lia|lia|done]. Qed.

Lemma ranges_sorted_lower lo l r : ranges_sorted lo l -> r ∈ l -> lo <= r.1 /\ r.1 < r.2.
Proof.
  revert lo. induction l as [|r' l IH]; intros lo Hs Hin; [set_solver|].
  destruct Hs as (? & ? & Hs). apply elem_of_cons in Hin as [->|Hin]; [lia|].
  pose proof (IH _ Hs Hin). lia.
Qed.

Lemma ranges_sorted_filter {V} (P : entry V -> Prop) `{forall e, Decision (P e)} lo l :
  ranges_sorted lo l.*1 -> ranges_sorted lo (filter P l).*1.
Proof.
  revert lo. induction l as [|en l IH]; intros lo Hs; [done|].
  destruct Hs as (? & ? & Hs). rewrite filter_cons. case_decide.
  - simpl. eauto.
  - apply IH. eapply ranges_sorted_weaken; [|done]. lia.
Qed.

Lemma entries_get_below {V} (l : list (entry V)) lo x :
  ranges_sorted lo l.*1 -> x < lo -> entries_get l x = None.
Proof.
  revert lo. induction l as [|[r v] l IH]; intros lo Hs Hx; simpl; [done|].
  destruct Hs as (? & ? & Hs). simpl in *.
  rewrite (proj2 (in_range_false x r)) by lia. eapply IH; [done|]. lia.
Qed.

Lemma entries_get_Some {V} (l : list (entry V)) x v :
  entries_get l x = Some v -> exists r, (r, v) ∈ l /\ in_range x r = true.
Proof.
  induction l as [|[r w] l IH]; simpl; [done|].
  destruct (in_range x r) eqn:E.
  - intros [= ->]. exists r. split; [left|done].
  - intros (r' & ? & ?)%IH. exists r'. split; [by right|done].
Qed.

Lemma entries_get_elem {V} (l : list (entry V)) lo x r v :
  ranges_sorted lo l.*1 -> (r, v) ∈ l -> in_range x r = true -> entries_get l x = Some v.
Proof.
  revert lo. induction l as [|[r' w] l IH]; intros lo Hs Hin Hx; [set_solver|].
  destruct Hs as (? & ? & Hs). simpl in *.
  apply elem_of_cons in Hin as [[= -> ->]|Hin]; [by rewrite Hx|].
  assert (r'.2 <= r.1 /\ r.1 < r.2) as [??].
  { eapply ranges_sorted_lower; [exact Hs|]. apply list_elem_of_fmap. by exists (r, v). }
  rewrite (proj2 (in_range_false x r')) by (apply in_range_true in Hx; lia). eauto.
Qed.

(** The total length of the ranges of a sorted list. *)
Definition ranges_total (l : list (Z * Z)) : Z :=
  foldr (fun r acc => (r.2 - r.1) + acc) 0 l.

(** A sorted list of ranges that covers exactly [lo, hi) has total length [hi - lo]. *)
Lemma ranges_total_cover l lo hi :
  lo <= hi ->
  ranges_sorted lo l ->
  (forall x, (exists r, r ∈ l /\ in_range x r = true) <-> lo <= x < hi) ->
  ranges_total l = hi - lo.
Proof.
  revert lo. induction l as [|r l IH]; intros lo Hle Hs Hcov; simpl.
  - destruct (decide (lo = hi)); [lia|].
    destruct (proj2 (Hcov lo) ltac:(lia)) as (r & Hr & _). set_solver.
  - destruct Hs as (? & ? & Hs).
    assert (r.1 = lo).
    { assert (lo <= r.1 < hi)
        by (apply Hcov; exists r; split; [left|apply in_range_true; lia]).
      destruct (proj2 (Hcov lo) ltac:(lia)) as (r' & Hr' & Hx%in_range_true).
      apply elem_of_cons in Hr' as [->|Hr']; [lia|].
      pose proof (ranges_sorted_lower _ _ _ Hs Hr'). lia. }
    assert (Hlast : lo <= r.2 - 1 < hi).
    { apply Hcov. exists r. split; [left|]. apply in_range_true. lia. }
    rewrite (IH r.2); [lia|lia|done|].
    intros x. split.
    + intros (r' & Hr' & Hx). pose proof (ranges_sorted_lower _ _ _ Hs Hr').
      assert (lo <= x < hi) by (apply Hcov; exists r'; split; [by right|done]).
      apply in_range_true in Hx. lia.
    + intros Hx. destruct (proj2 (Hcov x) ltac:(lia)) as (r' & Hr' & Hin).
      apply elem_of_cons in Hr' as [->|Hr']; [apply in_range_true in Hin; lia|eauto].
Qed.

(** ** An implementation: an ordered list of disjoint ranges *)

Section list_impl.
Context {V : Type}.

Definition cut_before (s : Z) (en : entry V) : list (entry V) :=
  let '((a, b), v) := en in if a <? Z.min b s then [((a, Z.min b s), v)] else [].
Definition cut_after (e : Z) (en : entry V) : list (entry V) :=
  let '((a, b), v) := en in if Z.max a e <? b then [((Z.max a e, b), v)] else [].

Definition l_insert (s e : Z) (v : V) (l : list (entry V)) : list (entry V) :=
  if s <? e
  then (l ≫= cut_before s) ++ ((s, e), v) :: (l ≫= cut_after e)
  else l.

(** Gaps of [s, e) over ordered entries, from the left. *)
Fixpoint l_gaps (s e : Z) (l : list (entry V)) : list (Z * Z) :=
  match l with
  | [] => if s <? e then [(s, e)] else []
  | ((a, b), _) :: l =>
      (if s <? Z.min a e then [(s, Z.min a e)] else []) ++ l_gaps (Z.max s b) e l
  end.

Definition l_overlapping (s e : Z) (l : list (entry V)) : list (entry V) :=
  filter (fun en => overlaps s e en.1 = true) l.
End list_impl.

(** The list implementation is carried by the sorted lists. *)
Definition sorted_entries (V : Type) : Type :=
  { l : list (entry V) | exists lo, ranges_sorted lo l.*1 }.

Lemma cut_before_sorted {V} s lo (l : list (entry V)) :
  ranges_sorted lo l.*1 ->
  ranges_sorted lo (l ≫= cut_before s).*1 /\
  (forall r, r ∈ (l ≫= cut_before s).*1 -> r.2 <= s).
Proof.
  revert lo. induction l as [|[[a b] v] l IH]; intros lo Hs; simpl; [set_solver|].
  destruct Hs as (? & ? & Hs). simpl in *.
  destruct (IH _ Hs) as [IH1 IH2].
  unfold cut_before at 1. case_if; simpl.
  - split.
    + split; [lia|]. split; [lia|]. eapply ranges_sorted_weaken; [|exact IH1]. lia.
    + intros r [->|Hr]%elem_of_cons; simpl; [lia|auto].
  - split; [|done]. eapply ranges_sorted_weaken; [|exact IH1]. lia.
Qed.

Lemma cut_after_sorted {V} e lo (l : list (entry V)) :
  ranges_sorted lo l.*1 -> ranges_sorted (Z.max lo e) (l ≫= cut_after e).*1.
Proof.
  revert lo. induction l as [|[[a b] v] l IH]; intros lo Hs; simpl; [done|].
  destruct Hs as (? & ? & Hs). simpl in *. pose proof (IH _ Hs) as IH1.
  unfold cut_after at 1. case_if; simpl.
  - split; [lia|]. split; [lia|]. eapply ranges_sorted_weaken; [|exact IH1]. lia.
  - eapply ranges_sorted_weaken; [|exact IH1]. lia.
Qed.

Lemma ranges_sorted_app lo mid l1 l2 :
  ranges_sorted lo l1 -> (forall r, r ∈ l1 -> r.2 <= mid) -> lo <= mid ->
  ranges_sorted mid l2 -> ranges_sorted lo (l1 ++ l2).
Proof.
  revert lo. induction l1 as [|r l1 IH]; intros lo Hs Hb Hle H2; simpl in *.
  { eapply ranges_sorted_weaken; [|done]. lia. }
  destruct Hs as (? & ? & Hs). split; [lia|]. split; [lia|].
  apply IH; [done| |apply Hb; left|done]. intros. apply Hb. by right.
Qed.

Lemma l_insert_sorted {V} s e (v : V) l :
  (exists lo, ranges_sorted lo l.*1) -> exists lo, ranges_sorted lo (l_insert s e v l).*1.
Proof.
  intros [lo Hs]. unfold l_insert. case_if; [|eauto].
  exists (Z.min lo s).
  destruct (cut_before_sorted s lo l Hs) as [H1 H2].
  rewrite fmap_app. apply ranges_sorted_app with s.
  - eapply ranges_sorted_weaken; [|done]. lia.
  - done.
  - lia.
  - simpl. split; [lia|]. split; [lia|].
    eapply ranges_sorted_weaken; [|apply cut_after_sorted; exact Hs]. lia.
Qed.

Lemma entries_get_app {V} (l1 l2 : list (entry V)) x :
  entries_get (l1 ++ l2) x =
  match entries_get l1 x with Some v => Some v | None => entries_get l2 x end.
Proof. induction l1 as [|[r v] l1 IH]; simpl; [done|]. by destruct (in_range x r). Qed.

Lemma cut_before_get {V} s (l : list (entry V)) x :
  entries_get (l ≫= cut_before s) x = if x <? s then entries_get l x else None.
Proof.
  induction l as [|[[a b] v] l IH]; [simpl; by destruct (x <? s)|].
  rewrite bind_cons, entries_get_app, IH. simpl. unfold in_range.
  repeat (case_if; simpl in *); try done; exfalso; unfold in_range in *; to_prop; simpl in *; lia.
Qed.

Lemma cut_after_get {V} e (l : list (entry V)) x :
  entries_get (l ≫= cut_after e) x = if e <=? x then entries_get l x else None.
Proof.
  induction l as [|[[a b] v] l IH]; [simpl; by destruct (e <=? x)|].
  rewrite bind_cons, entries_get_app, IH. simpl. unfold in_range.
  repeat (case_if; simpl in *); try done; exfalso; unfold in_range in *; to_prop; simpl in *; lia.
Qed.

Lemma l_insert_get {V} s e (v : V) l x :
  s < e ->
  entries_get (l_insert s e v l) x = if in_range x (s, e) then Some v else entries_get l x.
Proof.
  intros Hse. unfold l_insert. rewrite (proj2 (Z.ltb_lt s e)) by done.
  rewrite entries_get_app. cbn [entries_get]. rewrite cut_before_get, cut_after_get.
  unfold in_range.
  repeat (case_if; simpl in *); try done; try lia;
    destruct (entries_get l x); try done; to_prop; simpl in *; lia.
Qed.

Lemma l_gaps_sorted {V} s e lo (l : list (entry V)) :
  ranges_sorted lo l.*1 ->
  ranges_sorted s (l_gaps s e l) /\ (forall r, r ∈ l_gaps s e l -> r.2 <= e).
Proof.
  revert s lo. induction l as [|[[a b] v] l IH]; intros s lo Hs; simpl.
  - case_if; simpl; [|set_solver]. split; [lia|].
    intros r ->%list_elem_of_singleton. simpl. lia.
  - destruct Hs as (? & ? & Hs). simpl in *.
    destruct (IH (Z.max s b) _ Hs) as [H1 H2].
    case_if; simpl.
    + split.
      * split; [lia|]. split; [lia|]. eapply ranges_sorted_weaken; [|exact H1]. lia.
      * intros r [->|Hr]%elem_of_cons; simpl; [lia|auto].
    + split; [|done]. eapply ranges_sorted_weaken; [|exact H1]. lia.
Qed.

Lemma l_gaps_spec {V} s e lo (l : list (entry V)) x :
  ranges_sorted lo l.*1 -> s <= x < e ->
  (exists r, r ∈ l_gaps s e l /\ in_range x r = true) <-> entries_get l x = None.
Proof.
  revert s lo. induction l as [|[[a b] v] l IH]; intros s lo Hs Hx; simpl.
  - rewrite (proj2 (Z.ltb_lt s e)) by lia. split; [done|]. intros _.
    exists (s, e). split; [left|]. apply in_range_true. simpl. lia.
  - destruct Hs as (? & ? & Hs). simpl in *.
    destruct (in_range x (a, b)) eqn:Ein; [apply in_range_true in Ein|apply in_range_false in Ein];
      simpl in Ein.
    + split; [|done]. intros (r & Hr & Hin%in_range_true). exfalso.
      apply elem_of_app in Hr as [Hr|Hr].
      * destruct (s <? _) in Hr; [|set_solver].
        apply list_elem_of_singleton in Hr as ->. simpl in *. lia.
      * pose proof (ranges_sorted_lower _ _ _ (proj1 (l_gaps_sorted (Z.max s b) e b l Hs)) Hr). lia.
    + destruct (decide (x < a)).
      * rewrite (entries_get_below _ b) by (done || lia). split; [done|]. intros _.
        exists (s, Z.min a e). rewrite (proj2 (Z.ltb_lt s (Z.min a e))) by lia.
        split; [left|]. apply in_range_true. simpl. lia.
      * rewrite <- (IH (Z.max s b) b) by (done || lia). split.
        -- intros (r & Hr & Hin). exists r. split; [|done].
           apply elem_of_app in Hr as [Hr|Hr]; [|done].
           destruct (s <? _) in Hr; [|set_solver]. apply list_elem_of_singleton in Hr as ->.
           apply in_range_true in Hin. simpl in Hin. lia.
        -- intros (r & Hr & Hin). exists r. split; [|done]. apply elem_of_app. by right.
Qed.

Definition list_range_map (V : Type) : RangeMapOps V := {|
  rm_t := sorted_entries V;
  rm_new := [] ↾ ex_intro (fun lo => ranges_sorted lo []) 0 I;
  rm_insert s e v m := l_insert s e v (`m) ↾ l_insert_sorted s e v _ (proj2_sig m);
  rm_iter m := `m;
  rm_overlapping s e m := l_overlapping s e (`m);
  rm_gaps s e m := l_gaps s e (`m)
|}.

Lemma list_range_map_laws V : @RangeMapLaws V (list_range_map V).
Proof.
  constructor; try done.
  - intros [l Hl]. exact Hl.
  - intros s e v [l Hl] x Hse. unfold rm_get. simpl. by apply l_insert_get.
  - intros s e [l [lo Hl]] Hse. unfold rm_get. simpl.
    destruct (l_gaps_sorted s e lo l Hl) as [H1 H2]. split_and!; [done|done|].
    intros x Hx. by eapply l_gaps_spec.
Qed.
