(* ===== verification/Slice.v ===== *)
(** * Slices (components/types/src/slice.rs)

    A slice records that bytes of a chunk live in an object; a chunk's value in
    the metadata store is the concatenation of the encodings of its slices in
    the order they were committed.  [Slices::decode] reads it back and
    [Slices::overlook] lays the slices over each other, later ones on top. *)

From S2P Require Import Prelude Common Types Bincode RangeMap.

Definition SliceID := Z.
Definition EMPTY_SLICE_ID : SliceID := 0.
Definition SLICE_BYTES : Z := 28.

Inductive SliceError :=
| InvalidSliceBuf (len : Z)
| DecodeSliceBufError
| InvalidSliceKeyStr (s : string)
| ParseSliceKeyFailed (s : string).

Inductive Slice :=
| Owned (chunk_pos : Z) (id : SliceID) (size : Z) (padding : Z)
| Borrowed (chunk_pos : Z) (id : SliceID) (size : Z) (off : Z) (len : Z).

#[export] Instance Slice_eq_dec : EqDecision Slice.
Proof. solve_decision. Defined.

(** The field widths of the Rust enum. *)
Definition slice_wf (s : Slice) : bool :=
  match s with
  | Owned p i sz pad => is_u32 p && is_u64 i && is_u32 sz && is_u64 pad
  | Borrowed p i sz o l => is_u32 p && is_u64 i && is_u32 sz && is_u32 o && is_u32 l
  end.

Definition new_owned (chunk_pos : Z) (slice_id : SliceID) (size : Z) : Slice :=
  Owned (u32_wrap chunk_pos) slice_id (u32_wrap size) 0.

Definition get_chunk_pos (s : Slice) : Z :=
  match s with
  | Owned chunk_pos _ _ _ => chunk_pos
  | Borrowed chunk_pos _ _ off _ => u32_wrap (chunk_pos + off)
  end.

Definition get_id (s : Slice) : SliceID :=
  match s with Owned _ id _ _ => id | Borrowed _ id _ _ _ => id end.

Definition get_size (s : Slice) : Z :=
  match s with Owned _ _ size _ => size | Borrowed _ _ _ _ len => len end.

Definition get_underlying_size (s : Slice) : Z :=
  match s with Owned _ _ size _ => size | Borrowed _ _ size _ _ => size end.

Definition get_underlying_offset (s : Slice) : Z :=
  match s with Owned _ _ _ _ => 0 | Borrowed _ _ _ off _ => off end.

(** ** Encoding

    bincode on a [Slice]: the round trip on in-range fields, and the fixed
    length the source records as [SLICE_BYTES]. *)
Class SliceCodecLaws {B : Bincode Slice} : Prop := {
  slice_roundtrip s : slice_wf s = true -> bc_de (bc_ser s) = Some s;
  slice_ser_length s : slice_wf s = true -> zlen (bc_ser s) = SLICE_BYTES;
  slice_de_wf b s : bc_de b = Some s -> slice_wf s = true
}.

Section decode.
Context `{B : Bincode Slice}.

(** [Slice::decode] *)
Definition slice_decode (buf : bytes) : outcome SliceError Slice :=
  _ ← ensure (SLICE_BYTES <=? zlen buf) (InvalidSliceBuf (zlen buf));
  ok_or (bc_de buf) DecodeSliceBufError.

(** The [while i < buf.len()] loop of [Slices::decode]; [&buf[i..i+28]]
    panics when it runs past the end. *)
Fixpoint decode_loop (fuel : nat) (buf : bytes) (i : Z) (acc : list Slice)
    : outcome SliceError (list Slice) :=
  match fuel with
  | O => Ok acc
  | S fuel =>
      if i <? zlen buf then
        _ ← rust_assert (i + SLICE_BYTES <=? zlen buf);
        s ← slice_decode (sublist i SLICE_BYTES buf);
        decode_loop fuel buf (i + SLICE_BYTES) (acc ++ [s])
      else Ok acc
  end.

(** [Slices::decode]: one iteration per 28 bytes, so the length is fuel enough. *)
Definition slices_decode (buf : bytes) : outcome SliceError (list Slice) :=
  _ ← ensure (zlen buf `mod` SLICE_BYTES =? 0) (InvalidSliceBuf (zlen buf));
  decode_loop (length buf) buf 0 [].

(** What the backend stores for a chunk: the encodings one after the other. *)
Definition slices_encode (l : list Slice) : bytes := l ≫= bc_ser.
End decode.

(** ** Overlay *)

Section overlook.
Context `{R : RangeMapOps Slice}.

(** [rm.insert] asserts that the range is not empty. *)
Fixpoint overlook_from {E} (rm : rm_t) (l : list Slice) : outcome E rm_t :=
  match l with
  | [] => Ok rm
  | s :: l =>
      _ ← rust_assert (get_chunk_pos s <? get_chunk_pos s + get_size s);
      overlook_from (rm_insert (get_chunk_pos s) (get_chunk_pos s + get_size s) s rm) l
  end.

Definition overlook {E} (l : list Slice) : outcome E rm_t := overlook_from rm_new l.
End overlook.

(** The abstract content of a chunk: the most recent slice over a position. *)
Definition covers (x : Z) (s : Slice) : bool :=
  in_range x (get_chunk_pos s, get_chunk_pos s + get_size s).

Fixpoint latest (l : list Slice) (x : Z) : option Slice :=
  match l with
  | [] => None
  | s :: l =>
      match latest l x with
      | Some s' => Some s'
      | None => if covers x s then Some s else None
      end
  end.

(** ** Theorems *)

Lemma latest_app l1 l2 x :
  latest (l1 ++ l2) x = match latest l2 x with Some s => Some s | None => latest l1 x end.
Proof.
  induction l1 as [|s l1 IH]; simpl; [by destruct (latest l2 x)|].
  rewrite IH. by destruct (latest l2 x).
Qed.

Lemma latest_Some l x s : latest l x = Some s -> s ∈ l /\ covers x s = true.
Proof.
  induction l as [|s' l IH]; simpl; [done|].
  destruct (latest l x) as [t|] eqn:E.
  - intros [= ->]. destruct IH; [done|]. split; [by right|done].
  - case_if; [|done]. intros [= ->]. split; [left|done].
Qed.

Lemma sublist_app_l {A} (l1 l2 : list A) : sublist 0 (zlen l1) (l1 ++ l2) = l1.
Proof.
  unfold sublist, zlen. rewrite Nat2Z.id. simpl. rewrite drop_0.
  rewrite take_app_le, take_ge by lia. done.
Qed.

Lemma sublist_app_skip {A} (l1 l2 : list A) n :
  sublist (zlen l1) n (l1 ++ l2) = sublist 0 n l2.
Proof.
  unfold sublist, zlen. rewrite Nat2Z.id, drop_app_ge by lia.
  by rewrite Nat.sub_diag.
Qed.

Section decode_facts.
Context `{B : Bincode Slice} {HB : SliceCodecLaws}.

Lemma slices_encode_length l :
  Forall (fun s => slice_wf s = true) l -> zlen (slices_encode l) = SLICE_BYTES * Z.of_nat (length l).
Proof.
  unfold slices_encode. induction 1 as [|s l Hs _ IH]; [done|].
  rewrite bind_cons, zlen_app, IH, slice_ser_length by done. simpl length. lia.
Qed.

Lemma decode_loop_spec fuel pre l acc :
  Forall (fun s => slice_wf s = true) l ->
  (length l <= fuel)%nat ->
  decode_loop fuel (pre ++ slices_encode l) (zlen pre) acc = Ok (acc ++ l).
Proof.
  intros Hl. revert fuel pre acc.
  induction Hl as [|s l Hs Hl IH]; intros fuel pre acc Hf.
  - unfold slices_encode. rewrite !app_nil_r.
    destruct fuel; simpl; [done|]. by rewrite Z.ltb_irrefl.
  - destruct fuel as [|fuel]; [simpl in Hf; lia|]. cbn [decode_loop].
    unfold slices_encode. rewrite bind_cons. fold (slices_encode l).
    assert (Hlen := slice_ser_length s Hs).
    rewrite !zlen_app, Hlen.
    pose proof (zlen_nonneg (slices_encode l)). unfold SLICE_BYTES in *.
    rewrite (proj2 (Z.ltb_lt _ _)) by lia.
    rewrite (proj2 (Z.leb_le _ _)) by lia. simpl.
    rewrite sublist_app_skip, <- Hlen, sublist_app_l.
    unfold slice_decode, SLICE_BYTES. rewrite Hlen. simpl.
    rewrite slice_roundtrip by done. simpl.
    rewrite <- Hlen, <- zlen_app, (app_assoc pre).
    rewrite IH by (simpl in Hf; lia). by rewrite <- app_assoc.
Qed.

Lemma slices_decode_encode_aux l :
  Forall (fun s => slice_wf s = true) l -> slices_decode (slices_encode l) = Ok l.
Proof.
  intros Hl. unfold slices_decode.
  pose proof (slices_encode_length l Hl) as Hlen.
  rewrite Hlen, Z.mul_comm, Z.mod_mul by done. simpl.
  apply (decode_loop_spec _ [] l []); [done|].
  unfold zlen, SLICE_BYTES in Hlen. lia.
Qed.

(** C30: decoding the stored value of a chunk gives back exactly the slices
    that were appended to it, in order, for every list of well-formed
    slices. *)
Theorem slices_decode_encode l :
  Forall (fun s => slice_wf s = true) l -> slices_decode (slices_encode l) = Ok l.
Proof. apply slices_decode_encode_aux. Qed.
End decode_facts.

Section overlook_facts.
Context `{R : RangeMapOps Slice} {HR : RangeMapLaws Slice}.

Lemma overlook_from_spec {E} rm l m :
  overlook_from (E:=E) rm l = Ok m ->
  forall x, rm_get m x = match latest l x with Some s => Some s | None => rm_get rm x end.
Proof.
  revert rm. induction l as [|s l IH]; intros rm H x; simpl in *.
  { by inv_ok. }
  inv_ok. to_prop. rewrite (IH _ H x), rm_get_insert by lia.
  destruct (latest l x); [done|]. unfold covers. by case_if.
Qed.

(** C29: the overlay of a chunk's slices maps every position to the most
    recently committed slice that covers it, and to nothing where no slice
    does. *)
Theorem overlook_latest {E} l m :
  overlook (E:=E) l = Ok m -> forall x, rm_get m x = latest l x.
Proof.
  intros H x. rewrite (overlook_from_spec _ _ _ H).
  destruct (latest l x); [done|]. unfold rm_get. by rewrite rm_iter_new.
Qed.

Lemma overlook_from_ok {E} l :
  Forall (fun s => 0 < get_size s) l -> forall rm, exists m, overlook_from (E:=E) rm l = Ok m.
Proof.
  induction 1 as [|s l Hs _ IH]; intros rm; simpl; [eauto|].
  rewrite (proj2 (Z.ltb_lt _ _)) by lia. simpl. apply IH.
Qed.
End overlook_facts.

(** ** Reference encoding: bincode's documented fixed-width layout *)

Definition slice_ser (s : Slice) : bytes :=
  match s with
  | Owned p i sz pad =>
      le_bytes 4 0 ++ le_bytes 4 p ++ le_bytes 8 i ++ le_bytes 4 sz ++ le_bytes 8 pad
  | Borrowed p i sz o l =>
      le_bytes 4 1 ++ le_bytes 4 p ++ le_bytes 8 i ++ le_bytes 4 sz ++ le_bytes 4 o ++ le_bytes 4 l
  end.

Definition rd (n : nat) (b : bytes) : Z * bytes := (le_Z (take n b), drop n b).

Definition slice_de (b : bytes) : option Slice :=
  let '(tag, b) := rd 4 b in
  let '(p, b) := rd 4 b in
  let '(i, b) := rd 8 b in
  let '(sz, b) := rd 4 b in
  let s :=
    if tag =? 0 then let '(pad, _) := rd 8 b in Some (Owned p i sz pad)
    else if tag =? 1 then
      let '(o, b) := rd 4 b in let '(l, _) := rd 4 b in Some (Borrowed p i sz o l)
    else None in
  match s with Some s => if slice_wf s then Some s else None | None => None end.

Definition slice_bincode : Bincode Slice := {| bc_ser := slice_ser; bc_de := slice_de |}.

Lemma rd_le n z rest : 0 <= z < 2 ^ (8 * Z.of_nat n) -> rd n (le_bytes n z ++ rest) = (z, rest).
Proof.
  intros Hz. unfold rd. by rewrite take_le_bytes, drop_le_bytes, le_Z_le_bytes.
Qed.

Lemma slice_bincode_laws : @SliceCodecLaws slice_bincode.
Proof.
  constructor; simpl.
  - intros [p i sz pad|p i sz o l] Hwf; pose proof Hwf as Hwf'; cbn [slice_wf] in Hwf';
      unfold is_u32, is_u64 in Hwf'; to_prop; unfold slice_de, slice_ser;
      rewrite !rd_le by (simpl; lia); simpl (_ =? _); cbv iota.
    + rewrite <- (app_nil_r (le_bytes 8 pad)), rd_le by (simpl; lia). by rewrite Hwf.
    + rewrite <- (app_nil_r (le_bytes 4 l)), !rd_le by (simpl; lia). by rewrite Hwf.
  - intros s _. unfold zlen. destruct s; unfold slice_ser;
      rewrite !length_app, !length_le_bytes; done.
  - intros b s. unfold slice_de. simpl. intros. repeat case_match; naive_solver.
Qed.

Lemma slices_decode_encode_witness :
  Forall (fun s => slice_wf s = true) [Owned 0 7 5 0; Borrowed 3 9 8 1 4] /\
  @slices_decode slice_bincode (@slices_encode slice_bincode [Owned 0 7 5 0; Borrowed 3 9 8 1 4])
  = Ok [Owned 0 7 5 0; Borrowed 3 9 8 1 4].
Proof.
  assert (H : Forall (fun s => slice_wf s = true) [Owned 0 7 5 0; Borrowed 3 9 8 1 4])
    by (repeat constructor).
  split; [exact H|].
  exact (@slices_decode_encode slice_bincode slice_bincode_laws _ H).
Defined.

Lemma overlook_latest_witness :
  exists m, @overlook (list_range_map Slice) () [Owned 0 7 5 0; Owned 2 9 2 0] = Ok m /\
    @rm_get Slice (list_range_map Slice) m 3 = Some (Owned 2 9 2 0) /\
    @rm_get Slice (list_range_map Slice) m 4 = Some (Owned 0 7 5 0).
Proof.
  destruct (@overlook (list_range_map Slice) () [Owned 0 7 5 0; Owned 2 9 2 0]) as [m| |] eqn:E;
    [|vm_compute in E; discriminate E|vm_compute in E; discriminate E].
  exists m. split; [reflexivity|].
  rewrite !(@overlook_latest (list_range_map Slice) (list_range_map_laws Slice) () _ _ E).
  split; reflexivity.
Defined.
