(* ===== verification/Keys.v ===== *)
(** * Keys of the metadata store (components/meta/src/backend/key.rs)

    Every record of the metadata store lives under a textual key.  [Module Key]
    translates the formatting functions; [DbKey] is the abstract key space they
    render, and the theorems show that rendering keeps distinct records apart
    and that a prefix scan selects exactly one family of one inode. *)

From S2P Require Import Prelude Common Types.
From Stdlib Require Import DecimalString DecimalN DecimalFacts.
Import DecimalString.

(** [format!("{}", n)] *)
Definition fmt_dec (n : Z) : string := NilEmpty.string_of_uint (N.to_uint (Z.to_N n)).

(** Left padding with the digit 0. *)
Definition pad_uint (k : nat) (d : Decimal.uint) : Decimal.uint := Nat.iter k Decimal.D0 d.

(** [format!("{:0>8}", n)] *)
Definition fmt_pad8 (n : Z) : string :=
  let d := N.to_uint (Z.to_N n) in
  NilEmpty.string_of_uint (pad_uint (8 - Decimal.nb_digits d) d).

Module Key.

Definition CURRENT_FORMAT : string := "current_format".
Definition USED_SPACE : string := "used_space".
Definition TOTAL_INODES : string := "total_inodes".
Definition LEGACY_SESSIONS : string := "legacy_sessions".
Definition NEXT_TRASH : string := "next_trash".
Definition NEXT_INODE : string := "next_inode".
Definition NEXT_SLICE : string := "next_slice".

Inductive Counter :=
| UsedSpace | TotalInodes | LegacySessions | NextTrash | NextInode | NextSlice.

Definition counter_key (c : Counter) : string :=
  match c with
  | UsedSpace => USED_SPACE
  | TotalInodes => TOTAL_INODES
  | LegacySessions => LEGACY_SESSIONS
  | NextTrash => NEXT_TRASH
  | NextInode => NEXT_INODE
  | NextSlice => NEXT_SLICE
  end.

(** [Counter::get_step]; the other counters panic. *)
Definition get_step {E} (c : Counter) : outcome E Z :=
  match c with
  | NextTrash => Ok 1
  | NextInode => Ok (Z.shiftl 1 10)
  | NextSlice => Ok (Z.shiftl 4 10)
  | _ => Panic
  end.

Definition attr (inode : Ino) : string := "A" +:+ fmt_pad8 inode +:+ "I".
Definition xattr_prefix (inode : Ino) : string := "A" +:+ fmt_pad8 inode +:+ "X".
Definition xattr (inode : Ino) (name : string) : string :=
  "A" +:+ fmt_pad8 inode +:+ "X" +:+ name.
Definition dentry_prefix (parent : Ino) : string := "A" +:+ fmt_pad8 parent +:+ "D/".
Definition dentry (parent : Ino) (name : string) : string :=
  "A" +:+ fmt_pad8 parent +:+ "D/" +:+ name.
Definition parent_prefix (inode : Ino) : string := "A" +:+ fmt_pad8 inode +:+ "P".
Definition parent (inode parent : Ino) : string :=
  "A" +:+ fmt_pad8 inode +:+ "P" +:+ fmt_pad8 parent.
Definition symlink (inode : Ino) : string := "A" +:+ fmt_pad8 inode +:+ "S".
Definition sustained (sid : Z) (inode : Ino) : string :=
  "SS" +:+ fmt_pad8 sid +:+ fmt_pad8 inode.
Definition delete_chunk_after (inode : Ino) : string := "D" +:+ fmt_pad8 inode.
Definition chunk_slices_prefix (inode : Ino) : string := "A" +:+ fmt_pad8 inode +:+ "C/".
Definition chunk_slices (inode : Ino) (chunk_idx : Z) : string :=
  "A" +:+ fmt_pad8 inode +:+ "C/" +:+ fmt_dec chunk_idx.
Definition slice_ref (slice_id : Z) : string := "K" +:+ fmt_pad8 slice_id.
Definition dir_stat (inode : Ino) : string := "U" +:+ fmt_pad8 inode +:+ "I".

End Key.

(** ** The key space *)

Inductive DbKey :=
| KFormat
| KCounter (c : Key.Counter)
| KAttr (i : Ino)
| KXattr (i : Ino) (name : string)
| KDentry (p : Ino) (name : string)
| KParent (i p : Ino)
| KSymlink (i : Ino)
| KSustained (sid : Z) (i : Ino)
| KDelete (i : Ino)
| KChunk (i : Ino) (idx : Z)
| KSliceRef (id : Z)
| KDirStat (i : Ino).

Definition render (k : DbKey) : string :=
  match k with
  | KFormat => Key.CURRENT_FORMAT
  | KCounter c => Key.counter_key c
  | KAttr i => Key.attr i
  | KXattr i n => Key.xattr i n
  | KDentry p n => Key.dentry p n
  | KParent i p => Key.parent i p
  | KSymlink i => Key.symlink i
  | KSustained s i => Key.sustained s i
  | KDelete i => Key.delete_chunk_after i
  | KChunk i c => Key.chunk_slices i c
  | KSliceRef s => Key.slice_ref s
  | KDirStat i => Key.dir_stat i
  end.

(** Numbers are unsigned; the two numbers of a sustained key are not
    separated, so its first one must fit the eight digits of its field. *)
Definition key_wf (k : DbKey) : bool :=
  match k with
  | KFormat | KCounter _ => true
  | KAttr i | KXattr i _ | KDentry i _ | KSymlink i | KDelete i | KSliceRef i
  | KDirStat i => 0 <=? i
  | KParent i p => (0 <=? i) && (0 <=? p)
  | KChunk i c => (0 <=? i) && (0 <=? c)
  | KSustained s i => (0 <=? s) && (s <? 10 ^ 8) && (0 <=? i)
  end.

(** ** Digits *)

Definition is_digit (c : Ascii.ascii) : bool :=
  let n := Ascii.nat_of_ascii c in (48 <=? n)%nat && (n <=? 57)%nat.

Fixpoint all_digits (s : string) : bool :=
  match s with
  | EmptyString => true
  | String c s => is_digit c && all_digits s
  end.

(** A string that does not begin with a digit. *)
Definition no_digit (s : string) : bool :=
  match s with EmptyString => true | String c _ => negb (is_digit c) end.

Lemma string_of_uint_digits d : all_digits (NilEmpty.string_of_uint d) = true.
Proof. induction d; simpl; auto. Qed.

Lemma digits_split s1 s2 r1 r2 :
  all_digits s1 = true -> all_digits s2 = true ->
  no_digit r1 = true -> no_digit r2 = true ->
  s1 +:+ r1 = s2 +:+ r2 -> s1 = s2 /\ r1 = r2.
Proof.
  revert s2. induction s1 as [|c s1 IH]; intros [|c2 s2] H1 H2 Hr1 Hr2 H; simpl in *.
  - done.
  - change (r1 = String c2 (s2 +:+ r2)) in H. subst r1. simpl in Hr1.
    destruct (is_digit c2); naive_solver.
  - change (String c (s1 +:+ r1) = r2) in H. subst r2. simpl in Hr2.
    destruct (is_digit c); naive_solver.
  - change (String c (s1 +:+ r1) = String c2 (s2 +:+ r2)) in H. injection H as -> H. to_prop. destruct (IH s2) as [-> ->]; auto.
Qed.

Lemma string_of_uint_inj d1 d2 :
  NilEmpty.string_of_uint d1 = NilEmpty.string_of_uint d2 -> d1 = d2.
Proof.
  intros H. apply (f_equal NilEmpty.uint_of_string) in H.
  rewrite !NilEmpty.usu in H. congruence.
Qed.

Lemma of_uint_pad k d : N.of_uint (pad_uint k d) = N.of_uint d.
Proof. unfold pad_uint. induction k; simpl; auto. Qed.

Lemma fmt_pad8_digits n : all_digits (fmt_pad8 n) = true.
Proof. apply string_of_uint_digits. Qed.

Lemma fmt_dec_digits n : all_digits (fmt_dec n) = true.
Proof. apply string_of_uint_digits. Qed.

Lemma fmt_pad8_inj a b : 0 <= a -> 0 <= b -> fmt_pad8 a = fmt_pad8 b -> a = b.
Proof.
  unfold fmt_pad8. intros Ha Hb H%string_of_uint_inj.
  apply (f_equal N.of_uint) in H. rewrite !of_uint_pad, !Unsigned.of_to in H. lia.
Qed.

Lemma fmt_dec_inj a b : 0 <= a -> 0 <= b -> fmt_dec a = fmt_dec b -> a = b.
Proof.
  unfold fmt_dec. intros Ha Hb H%string_of_uint_inj.
  apply (f_equal N.of_uint) in H. rewrite !Unsigned.of_to in H. lia.
Qed.

(** ** Length of the padded field *)

Lemma length_string_of_uint d : String.length (NilEmpty.string_of_uint d) = Decimal.nb_digits d.
Proof. induction d; simpl; auto. Qed.

Lemma nb_digits_pad k d : Decimal.nb_digits (pad_uint k d) = (k + Decimal.nb_digits d)%nat.
Proof. unfold pad_uint. induction k; simpl; auto. Qed.

Lemma of_uint_acc_ge d acc :
  (Pos.to_nat acc * 10 ^ Decimal.nb_digits d <= Pos.to_nat (Pos.of_uint_acc d acc))%nat.
Proof.
  revert acc. induction d as [|d IH|d IH|d IH|d IH|d IH|d IH|d IH|d IH|d IH|d IH];
    intros acc; simpl; [lia|..]; (etransitivity; [|apply IH]); nia.
Qed.

(** A number below [10^k] has at most [k] digits. *)
Lemma nb_digits_bound n k :
  0 <= n < 10 ^ Z.of_nat k -> (0 < k)%nat -> (Decimal.nb_digits (N.to_uint (Z.to_N n)) <= k)%nat.
Proof.
  intros Hn Hk. destruct (decide (n = 0)) as [->|Hnz]; [simpl; lia|].
  set (d := N.to_uint (Z.to_N n)).
  assert (Hof : N.of_uint d = Z.to_N n) by apply Unsigned.of_to.
  assert (Hnorm : d = Decimal.unorm d).
  { rewrite <- Unsigned.to_of, Hof. done. }
  assert (Hlt : (N.to_nat (N.of_uint d) < 10 ^ k)%nat).
  { rewrite Hof. apply Nat2Z.inj_lt. rewrite Nat2Z.inj_pow. simpl Z.of_nat at 2. lia. }
  assert (Hge : forall d' acc, (N.to_nat (Npos (Pos.of_uint_acc d' acc)) < 10 ^ k)%nat ->
                 (S (Decimal.nb_digits d') <= k)%nat).
  { intros d' acc Hl. pose proof (of_uint_acc_ge d' acc) as Hacc.
    apply (Nat.pow_lt_mono_r_iff 10); [lia|]. simpl in Hl. nia. }
  destruct d as [|d'|d'|d'|d'|d'|d'|d'|d'|d'|d']; simpl in *; try (by eapply Hge); try lia.
  exfalso. assert (Hz : N.of_uint (Decimal.D0 d') <> 0%N) by (simpl; lia).
  unfold Decimal.unorm in Hnorm. simpl in Hnorm.
  destruct (Decimal.nzhead d') eqn:E; try done.
  - apply Hz. injection Hnorm as ->. done.
  - apply nzhead_nonzero in E as [].
Qed.

Lemma fmt_pad8_length n : 0 <= n < 10 ^ 8 -> String.length (fmt_pad8 n) = 8%nat.
Proof.
  intros Hn. unfold fmt_pad8. rewrite length_string_of_uint, nb_digits_pad.
  pose proof (nb_digits_bound n 8 Hn ltac:(lia)). lia.
Qed.

Lemma append_inj_length (a b c d : string) :
  String.length a = String.length b -> a +:+ c = b +:+ d -> a = b /\ c = d.
Proof.
  revert b. induction a as [|x a IH]; intros [|y b] Hl H; try done.
  change (String x (a +:+ c) = String y (b +:+ d)) in H. injection H as -> H.
  destruct (IH b) as [-> ->]; auto.
Qed.

Lemma prefix_app p s : String.prefix p s = true -> exists r, s = p +:+ r.
Proof.
  revert s. induction p as [|c p IH]; intros [|c' s] H; try done.
  - by exists "".
  - by exists (String c' s).
  - simpl in H. destruct (Ascii.ascii_dec c c') as [->|]; [|done].
    destruct (IH s H) as [r ->]. by exists r.
Qed.

Lemma prefix_append p r : String.prefix p (p +:+ r) = true.
Proof.
  induction p as [|c p IH]; [by destruct r|].
  change (String.prefix (String c p) (String c (p +:+ r)) = true). simpl.
  by destruct (Ascii.ascii_dec c c).
Qed.

(** ** Separation *)

Lemma tagged_inj c i j r1 r2 :
  0 <= i -> 0 <= j -> no_digit r1 = true -> no_digit r2 = true ->
  String c "" +:+ fmt_pad8 i +:+ r1 = String c "" +:+ fmt_pad8 j +:+ r2 -> i = j /\ r1 = r2.
Proof.
  intros Hi Hj H1 H2 H. apply append_inj_length in H as [_ H]; [|done].
  apply digits_split in H as [H ->]; auto using fmt_pad8_digits.
  split; [by apply fmt_pad8_inj|done].
Qed.

Lemma append_nil_r (s : string) : s +:+ "" = s.
Proof. induction s as [|c s IH]; [done|]. change (String c (s +:+ "") = String c s). by rewrite IH. Qed.

Lemma sustained_inj s i s' i' :
  0 <= s < 10 ^ 8 -> 0 <= s' < 10 ^ 8 -> 0 <= i -> 0 <= i' ->
  Key.sustained s i = Key.sustained s' i' -> s = s' /\ i = i'.
Proof.
  intros Hs Hs' Hi Hi' H. apply append_inj_length in H as [_ H]; [|done].
  apply append_inj_length in H as [H1 H2]; [|by rewrite !fmt_pad8_length].
  split; apply fmt_pad8_inj; (done || lia).
Qed.

(** Split an equation between two keys that begin with the same letter. *)
Ltac tag_split H :=
  apply tagged_inj in H as [? H]; [|lia|lia|reflexivity|reflexivity].

Lemma render_inj_aux k1 k2 :
  key_wf k1 = true -> key_wf k2 = true -> render k1 = render k2 -> k1 = k2.
Proof.
  intros H1 H2 H.
  destruct k1, k2; simpl in H1, H2; to_prop; cbn [render] in H; try discriminate H;
    try (destruct c; discriminate H); try reflexivity.
  all: try (tag_split H; try discriminate H; subst; try reflexivity).
  - f_equal. destruct c, c0; try done; discriminate H.
  - apply append_inj_length in H as [_ ->]; done.
  - apply append_inj_length in H as [_ ->]; done.
  - apply append_inj_length in H as [_ H]; [|done]. f_equal. by apply fmt_pad8_inj.
  - apply sustained_inj in H as [-> ->]; (done || lia).
  - apply append_inj_length in H as [_ H]; [|done]. f_equal. by apply fmt_pad8_inj.
  - apply append_inj_length in H as [_ H]; [|done]. f_equal. by apply fmt_dec_inj.
  - apply append_inj_length in H as [_ H]; [|done]. f_equal. by apply fmt_pad8_inj.
Qed.

(** C31: two well-formed records of the metadata store never share a key. *)
Theorem render_inj k1 k2 :
  key_wf k1 = true -> key_wf k2 = true -> render k1 = render k2 -> k1 = k2.
Proof.
  exact (render_inj_aux k1 k2).
Qed.

Lemma render_inj_witness : KDentry 12 "1I" = KDentry 12 "1I" /\ Key.dentry 12 "1I" = "A00000012D/1I".
Proof.
  split; [|reflexivity]. apply (render_inj (KDentry 12 "1I") (KDentry 12 "1I")); reflexivity.
Defined.

(** ** Prefix scans *)

Inductive family := FXattr | FDentry | FParent | FChunk.

Definition render_prefix (f : family) (i : Ino) : string :=
  match f with
  | FXattr => Key.xattr_prefix i
  | FDentry => Key.dentry_prefix i
  | FParent => Key.parent_prefix i
  | FChunk => Key.chunk_slices_prefix i
  end.

Definition in_family (f : family) (i : Ino) (k : DbKey) : bool :=
  match f, k with
  | FXattr, KXattr j _ => i =? j
  | FDentry, KDentry j _ => i =? j
  | FParent, KParent j _ => i =? j
  | FChunk, KChunk j _ => i =? j
  | _, _ => false
  end.

Lemma append_assoc (a b c : string) : (a +:+ b) +:+ c = a +:+ b +:+ c.
Proof.
  induction a as [|x a IH]; [done|].
  change (String x ((a +:+ b) +:+ c) = String x (a +:+ b +:+ c)). by rewrite IH.
Qed.

Lemma in_family_prefix f i k :
  in_family f i k = true -> String.prefix (render_prefix f i) (render k) = true.
Proof.
  destruct f, k; simpl; intros H; try done; to_prop; subst; cbn [render render_prefix];
    unfold Key.xattr_prefix, Key.xattr, Key.dentry_prefix, Key.dentry, Key.parent_prefix,
      Key.parent, Key.chunk_slices_prefix, Key.chunk_slices;
    rewrite <- !append_assoc; apply prefix_append.
Qed.

Lemma prefix_in_family f i k :
  0 <= i -> key_wf k = true ->
  String.prefix (render_prefix f i) (render k) = true -> in_family f i k = true.
Proof.
  intros Hi Hk H. apply prefix_app in H as [r H].
  unfold render_prefix, Key.xattr_prefix, Key.dentry_prefix, Key.parent_prefix,
    Key.chunk_slices_prefix in H.
  destruct f; rewrite !append_assoc in H;
    destruct k; simpl in Hk; to_prop; cbn [render] in H; try discriminate H;
    try (destruct c; discriminate H); tag_split H; try discriminate H; subst; apply Z.eqb_refl.
Qed.

(** A prefix scan for one inode (directory entries, chunk slices, parents or
    extended attributes) selects exactly that inode's records of that family. *)
Theorem prefix_scan_exact f i k :
  0 <= i -> key_wf k = true ->
  String.prefix (render_prefix f i) (render k) = in_family f i k.
Proof.
  intros Hi Hk. apply eq_true_iff_eq. split; eauto using prefix_in_family, in_family_prefix.
Qed.

Lemma prefix_scan_exact_witness :
  String.prefix (Key.dentry_prefix 1) (Key.dentry 1 "f") = true /\
  String.prefix (Key.dentry_prefix 1) (Key.dentry 12 "f") = false.
Proof.
  split.
  - apply (prefix_scan_exact FDentry 1 (KDentry 1 "f")); [lia|reflexivity].
  - apply (prefix_scan_exact FDentry 1 (KDentry 12 "f")); [lia|reflexivity].
Defined.

(** The session id of a sustained key needs its bound: with nine digits two
    different sustained records have the same key. *)
Example sustained_collision :
  Key.sustained 123456789 12345678 = Key.sustained 12345678 912345678.
Proof. reflexivity. Qed.
