(* ===== verification/KV.v ===== *)
(** * The key-value store the metadata backend runs on

    The backend keeps its records in RocksDB, which the repository only calls.
    [KVStore] lists the operations the backend uses and [KVLaws] what their
    documentation promises: point reads see the last write or delete of a key
    and a prefix iteration yields every live key with the prefix, once.  A write batch applies its operations in order.  [gmap_store]
    is an implementation that satisfies the laws. *)

From S2P Require Import Prelude Common Types Keys.

Class KVStore := {
  db_t : Type;
  kv_get : db_t -> string -> option bytes;
  kv_put : string -> bytes -> db_t -> db_t;
  kv_delete : string -> db_t -> db_t;
  kv_scan : db_t -> string -> list (string * bytes)
}.

Class KVLaws {K : KVStore} : Prop := {
  kv_get_put_eq db k v : kv_get (kv_put k v db) k = Some v;
  kv_get_put_ne db k k' v : k <> k' -> kv_get (kv_put k v db) k' = kv_get db k';
  kv_get_delete_eq db k : kv_get (kv_delete k db) k = None;
  kv_get_delete_ne db k k' : k <> k' -> kv_get (kv_delete k db) k' = kv_get db k';
  kv_scan_spec db p k v :
    (k, v) ∈ kv_scan db p <-> kv_get db k = Some v /\ String.prefix p k = true;
  kv_scan_nodup db p : NoDup (kv_scan db p).*1
}.

(** ** Write batches *)

Inductive batch_op :=
| BPut (k : string) (v : bytes)
| BDelete (k : string).

Definition batch := list batch_op.

Section batches.
Context `{K : KVStore}.

Definition apply_op (db : db_t) (o : batch_op) : db_t :=
  match o with
  | BPut k v => kv_put k v db
  | BDelete k => kv_delete k db
  end.

(** [db.write(batch)] *)
Definition kv_write (b : batch) (db : db_t) : db_t := foldl apply_op db b.
End batches.

Definition op_key (o : batch_op) : string := match o with BPut k _ => k | BDelete k => k end.
Definition op_val (o : batch_op) : option bytes :=
  match o with BPut _ v => Some v | BDelete _ => None end.

(** The effect of a batch on one key: its last operation on it, if any. *)
Fixpoint batch_find (b : batch) (k : string) : option (option bytes) :=
  match b with
  | [] => None
  | o :: b =>
      match batch_find b k with
      | Some r => Some r
      | None => if decide (op_key o = k) then Some (op_val o) else None
      end
  end.

Section batch_facts.
Context `{KL : KVLaws}.

Lemma kv_get_apply db o k :
  kv_get (apply_op db o) k = if decide (op_key o = k) then op_val o else kv_get db k.
Proof.
  destruct o as [k' v|k']; simpl; destruct (decide (k' = k)) as [->|Hne];
    [apply kv_get_put_eq|by apply kv_get_put_ne|apply kv_get_delete_eq|by apply kv_get_delete_ne].
Qed.

Lemma kv_get_write db b k : kv_get (kv_write b db) k = default (kv_get db k) (batch_find b k).
Proof.
  revert db. induction b as [|o b IH]; intros db; simpl; [done|].
  unfold kv_write in *. simpl. rewrite IH, kv_get_apply.
  destruct (batch_find b k); [done|]. by destruct (decide (op_key o = k)).
Qed.

Lemma batch_find_app b1 b2 k :
  batch_find (b1 ++ b2) k =
  match batch_find b2 k with Some r => Some r | None => batch_find b1 k end.
Proof.
  induction b1 as [|o b1 IH]; simpl; [by destruct (batch_find b2 k)|].
  rewrite IH. by destruct (batch_find b2 k).
Qed.

(** A scan sees a live key with the prefix exactly when one exists. *)
Lemma kv_scan_nil db p :
  kv_scan db p = [] <-> forall k, String.prefix p k = true -> kv_get db k = None.
Proof.
  split.
  - intros E k Hp. destruct (kv_get db k) as [v|] eqn:Hk; [|done].
    assert (Hin : (k, v) ∈ kv_scan db p) by (by apply kv_scan_spec).
    rewrite E in Hin. set_solver.
  - intros H. destruct (kv_scan db p) as [|[k v] l] eqn:E; [done|].
    assert (Hin : (k, v) ∈ kv_scan db p) by (rewrite E; set_solver).
    apply kv_scan_spec in Hin as [Hk Hp]. rewrite (H k Hp) in Hk. done.
Qed.

(** Deleting every scanned key empties the prefix and nothing else. *)
Lemma batch_find_deletes (l : list (string * bytes)) k :
  batch_find ((fun kv => BDelete kv.1) <$> l) k =
  if decide (k ∈ l.*1) then Some None else None.
Proof.
  induction l as [|[k' v] l IH]; [done|].
  rewrite !fmap_cons. cbn [batch_find op_key op_val fst]. rewrite IH.
  destruct (decide (k ∈ l.*1)) as [Hin|Hnin].
  - destruct (decide (k ∈ k' :: l.*1)) as [|Hn]; [done|]. set_solver.
  - destruct (decide (k' = k)) as [->|Hne]; destruct (decide (k ∈ _ :: l.*1)) as [Hi|Hn];
      try done; set_solver.
Qed.
End batch_facts.

(** ** Families of keys never collide *)

Definition key_family (k : DbKey) : Z :=
  match k with
  | KFormat => 0
  | KCounter Key.UsedSpace => 1 | KCounter Key.TotalInodes => 2
  | KCounter Key.LegacySessions => 3 | KCounter Key.NextTrash => 4
  | KCounter Key.NextInode => 5 | KCounter Key.NextSlice => 6
  | KAttr _ => 7 | KXattr _ _ => 8 | KDentry _ _ => 9 | KParent _ _ => 10
  | KSymlink _ => 11 | KSustained _ _ => 12 | KDelete _ => 13 | KChunk _ _ => 14
  | KSliceRef _ => 15 | KDirStat _ => 16
  end.

Lemma tagged_suffix c i j r1 r2 :
  no_digit r1 = true -> no_digit r2 = true ->
  String c "" +:+ fmt_pad8 i +:+ r1 = String c "" +:+ fmt_pad8 j +:+ r2 -> r1 = r2.
Proof.
  intros H1 H2 H. apply append_inj_length in H as [_ H]; [|done].
  apply digits_split in H as [_ ->]; auto using fmt_pad8_digits.
Qed.

Lemma render_family_ne k1 k2 : key_family k1 <> key_family k2 -> render k1 <> render k2.
Proof.
  intros Hf H. destruct k1, k2; try done; cbn [render] in H; try discriminate H;
    try (destruct c; discriminate H); try (destruct c, c0; done).
  all: apply tagged_suffix in H; [discriminate H|reflexivity|reflexivity].
Qed.

Ltac reify_key k :=
  lazymatch k with
  | Key.CURRENT_FORMAT => constr:(KFormat)
  | Key.counter_key ?c => constr:(KCounter c)
  | Key.attr ?i => constr:(KAttr i)
  | Key.xattr ?i ?n => constr:(KXattr i n)
  | Key.dentry ?p ?n => constr:(KDentry p n)
  | Key.parent ?i ?p => constr:(KParent i p)
  | Key.symlink ?i => constr:(KSymlink i)
  | Key.sustained ?s ?i => constr:(KSustained s i)
  | Key.delete_chunk_after ?i => constr:(KDelete i)
  | Key.chunk_slices ?i ?c => constr:(KChunk i c)
  | Key.slice_ref ?s => constr:(KSliceRef s)
  | Key.dir_stat ?i => constr:(KDirStat i)
  end.

(** [Key.f .. <> Key.g ..] for two different families. *)
Ltac key_ne :=
  lazymatch goal with
  | |- ?a <> ?b =>
      let x := reify_key a in let y := reify_key b in
      apply (render_family_ne x y); done
  end.

Lemma attr_key_inj i j : 0 <= i -> 0 <= j -> Key.attr i = Key.attr j -> i = j.
Proof. intros Hi Hj H. apply (render_inj_aux (KAttr i) (KAttr j)) in H; simpl; naive_solver lia. Qed.

Lemma dentry_key_inj p n p' n' :
  0 <= p -> 0 <= p' -> Key.dentry p n = Key.dentry p' n' -> p = p' /\ n = n'.
Proof.
  intros Hp Hp' H. apply (render_inj_aux (KDentry p n) (KDentry p' n')) in H; simpl; naive_solver lia.
Qed.

Lemma chunk_key_inj i c i' c' :
  0 <= i -> 0 <= c -> 0 <= i' -> 0 <= c' ->
  Key.chunk_slices i c = Key.chunk_slices i' c' -> i = i' /\ c = c'.
Proof.
  intros. apply (render_inj_aux (KChunk i c) (KChunk i' c')) in H3; simpl;
    rewrite ?andb_true_iff, ?Z.leb_le; naive_solver lia.
Qed.

(** ** A reference store *)

Definition gmap_store : KVStore := {|
  db_t := gmap string bytes;
  kv_get db k := db !! k;
  kv_put k v db := <[k := v]> db;
  kv_delete k db := delete k db;
  kv_scan db p := filter (fun kv => String.prefix p kv.1 = true) (map_to_list db)
|}.

Lemma gmap_store_laws : @KVLaws gmap_store.
Proof.
  split; simpl; intros.
  - apply lookup_insert_eq.
  - by apply lookup_insert_ne.
  - apply lookup_delete_eq.
  - by apply lookup_delete_ne.
  - rewrite list_elem_of_filter, elem_of_map_to_list. simpl. naive_solver.
  - apply NoDup_fmap_fst; [|apply NoDup_filter, NoDup_map_to_list].
    intros k v1 v2 H1 H2.
    apply list_elem_of_filter in H1 as [_ H1%elem_of_map_to_list].
    apply list_elem_of_filter in H2 as [_ H2%elem_of_map_to_list]. congruence.
Qed.
