(* ===== verification/Meta.v ===== *)
(** * Errors and request contexts of the metadata layer

    [components/meta/src/err.rs] and [context.rs], the flag types of
    [engine.rs].  Source locations, wrapped third-party errors and the texts of
    [CorruptionString] carry no behaviour and are left out of the error
    values. *)

From S2P Require Import Prelude Common Types.

Definition EPERM : Z := 1.
Definition ENOENT : Z := 2.
Definition EINTR : Z := 4.
Definition EIO : Z := 5.
Definition EBADF : Z := 9.
Definition EACCES : Z := 13.
Definition EEXIST : Z := 17.
Definition ENOTDIR : Z := 20.
Definition EINVAL : Z := 22.
Definition EFBIG : Z := 27.
Definition EROFS : Z := 30.
Definition ENOTEMPTY : Z := 39.
Definition ENOTSUP : Z := 95.

Inductive ModelKind :=
| MAttr | MDEntry | MSymlink | MSetting | MCounter | MChunkSlices | MDirStat
| MHardLinkCount | MSustained | MDeleteInode.

Inductive model_error :=
| NotFound (kind : ModelKind) (key : string)
| Corruption (kind : ModelKind) (key : string)
| CorruptionString (kind : ModelKind) (key : string).

Inductive Error :=
| Unknown
| UnsupportedMetaDSN (dsn : string)
| TokioJoinError
| RocksdbError
| ModelError (source : model_error)
| UninitializedEngine
| AlreadyInitialized
| IncompatibleFormat (field : FormatLayoutField) (stored requested : Z)
| InvalidSetting (key : bytes)
| LibcError (errno : Z).

Abbreviation Result := (outcome Error).

Definition model_is_not_found (e : model_error) : bool :=
  match e with NotFound _ _ => true | _ => false end.

Definition is_not_found (e : Error) : bool :=
  match e with ModelError source => model_is_not_found source | _ => false end.

Definition to_errno (e : Error) : Z :=
  match e with
  | Unknown | UnsupportedMetaDSN _ | TokioJoinError | RocksdbError => EINTR
  | ModelError source => if model_is_not_found source then ENOENT else EINTR
  | UninitializedEngine => EINTR
  | AlreadyInitialized => EEXIST
  | IncompatibleFormat _ _ _ => EINVAL
  | InvalidSetting _ => EINTR
  | LibcError errno => errno
  end.

(** ** Request contexts (context.rs) *)

Record FuseContext := mkCtx {
  ctx_unique : Z;
  ctx_gid : Z;
  ctx_gid_list : list Z;
  ctx_uid : Z;
  ctx_pid : Z;
  ctx_check_permission : bool;
  ctx_cancelled : bool
}.

Definition from_identity (unique uid gid pid : Z) : FuseContext :=
  mkCtx unique gid [gid] uid pid true false.

Definition from_uid_gid_pid (uid gid pid : Z) : FuseContext := from_identity 0 uid gid pid.

Definition check_access (ctx : FuseContext) (attr : InodeAttr) (perm_mask : Z) : Result () :=
  if ctx_uid ctx =? 0 then Ok ()
  else if negb (ctx_check_permission ctx) then Ok ()
  else
    let m := access_mode attr (ctx_uid ctx) (ctx_gid_list ctx) in
    ensure (Z.land m perm_mask =? perm_mask) (LibcError EACCES).

Definition contains_gid (ctx : FuseContext) (gid : Z) : bool := bool_decide (gid ∈ ctx_gid_list ctx).

Definition background : FuseContext := mkCtx 0 2 [2; 3] 1 10 true false.

(** ** Flag types of engine.rs *)

Definition FALLOC_KEEP_SIZE : Z := 1.
Definition FALLOC_PUNCH_HOLE : Z := 2.
Definition FALLOC_COLLAPSE_RANGE : Z := 8.
Definition FALLOC_INSERT_RANGE : Z := 32.
Definition FALLOC_ALL : Z := 63.

(** [bitflags::from_bits]: the bits, when every one of them is defined. *)
Definition from_bits (all bits : Z) : option Z :=
  if Z.land bits all =? bits then Some bits else None.

Definition validate_fallocate_mode (mode : Z) : Result () :=
  match from_bits FALLOC_ALL mode with
  | None => Err (LibcError EINVAL)
  | Some mode =>
      if bits_contain mode FALLOC_COLLAPSE_RANGE && negb (mode =? FALLOC_COLLAPSE_RANGE)
      then Err (LibcError EINVAL)
      else if bits_contain mode FALLOC_INSERT_RANGE && negb (mode =? FALLOC_INSERT_RANGE)
      then Err (LibcError EINVAL)
      else if bits_contain mode FALLOC_PUNCH_HOLE && negb (bits_contain mode FALLOC_KEEP_SIZE)
      then Err (LibcError EINVAL)
      else Err (LibcError ENOTSUP)
  end.

Definition RENAME_NOREPLACE : Z := 1.
Definition RENAME_EXCHANGE : Z := 2.
Definition RENAME_WHITEOUT : Z := 4.
Definition RENAME_ALL : Z := 7.

Definition validate_rename_flags (flags : Z) : Result Z :=
  match from_bits RENAME_ALL flags with
  | None => Err (LibcError EINVAL)
  | Some flags =>
      if bits_contain flags RENAME_NOREPLACE && bits_contain flags RENAME_EXCHANGE
      then Err (LibcError EINVAL)
      else if bits_contain flags RENAME_WHITEOUT then Err (LibcError ENOTSUP)
      else Ok flags
  end.

(** ** Facts *)

Lemma check_access_Ok ctx attr mask u :
  check_access ctx attr mask = Ok u <->
  ctx_uid ctx = 0 \/ ctx_check_permission ctx = false \/
  Z.land (access_mode attr (ctx_uid ctx) (ctx_gid_list ctx)) mask = mask.
Proof.
  unfold check_access, ensure. destruct u. case_if; [tauto|].
  destruct (ctx_check_permission ctx); simpl; [|tauto].
  case_if; split; intros; destruct_or?; try done; tauto.
Qed.

Lemma from_bits_rename_cases flags f :
  0 <= flags -> from_bits RENAME_ALL flags = Some f -> f = flags /\ 0 <= f < 8.
Proof.
  unfold from_bits. intros Hf H. case_match; [|done]. injection H as <-. to_prop.
  split; [done|]. split; [done|]. rewrite <- H0. change RENAME_ALL with (Z.ones 3).
  rewrite Z.land_ones by lia. apply Z.mod_pos_bound. lia.
Qed.

(** The flags that reach the backend are none, NOREPLACE alone or EXCHANGE alone. *)
Lemma validate_rename_flags_cases flags f :
  0 <= flags -> validate_rename_flags flags = Ok f ->
  f = flags /\ (f = 0 \/ f = RENAME_NOREPLACE \/ f = RENAME_EXCHANGE).
Proof.
  unfold validate_rename_flags. intros Hf H.
  destruct (from_bits RENAME_ALL flags) as [g|] eqn:E; [|done].
  apply from_bits_rename_cases in E as [-> Hr]; [|done].
  assert (Hc : flags = 0 \/ flags = 1 \/ flags = 2 \/ flags = 3 \/ flags = 4 \/ flags = 5 \/
          flags = 6 \/ flags = 7) by lia.
  destruct Hc as [->|[->|[->|[->|[->|[->|[->| ->]]]]]]]; vm_compute in H;
    try discriminate H; injection H as <-; unfold RENAME_NOREPLACE, RENAME_EXCHANGE; lia.
Qed.
