(* ===== verification/OpenFiles.v ===== *)
(** * The open-file table (components/meta/src/open_files.rs)

    The engine tracks every inode it has opened with a reference count, a copy
    of the attributes and a cache of decoded chunk slices.  Each operation
    takes the table's locks for its whole effect and is modelled as one step;
    [SystemTime::now()] is an argument. *)

From S2P Require Import Prelude Common Types Slice Meta.

Record OpenFileInner := mkOpenFile {
  of_attr : InodeAttr;
  reference_count : Z;
  last_check : SystemTime;
  chunks : gmap Z (list Slice)
}.

Record OpenFiles := mkOpenFiles {
  ttl : Duration;
  files : gmap Z OpenFileInner
}.

Definition open_files_new (ttl : Duration) : OpenFiles := mkOpenFiles ttl ∅.

Definition set_files (t : OpenFiles) (m : gmap Z OpenFileInner) : OpenFiles :=
  mkOpenFiles (ttl t) m.

(** [last_check.elapsed().unwrap()] *)
Definition elapsed {E} (now : SystemTime) (f : OpenFileInner) : outcome E Duration :=
  expect (duration_since now (last_check f)).

Definition of_refresh_access (now : SystemTime) (attr : InodeAttr) (f : OpenFileInner)
    : InodeAttr * OpenFileInner :=
  if decide (mtime attr = mtime (of_attr f)) then
    let attr := set_keep_cache (keep_cache (of_attr f)) attr in
    (attr, mkOpenFile attr (reference_count f) now (chunks f))
  else (attr, mkOpenFile attr (reference_count f) now ∅).

Definition of_refresh_slices (idx : Z) (s : list Slice) (f : OpenFileInner) : OpenFileInner :=
  mkOpenFile (of_attr f) (reference_count f) UNIX_EPOCH (<[idx := s]> (chunks f)).

Definition of_invalid_slices (idx : Z) (f : OpenFileInner) : OpenFileInner :=
  mkOpenFile (of_attr f) (reference_count f) (last_check f) (delete idx (chunks f)).

Definition of_invalid_all_chunk (f : OpenFileInner) : OpenFileInner :=
  mkOpenFile (of_attr f) (reference_count f) (last_check f) ∅.

Definition of_invalid_attr (f : OpenFileInner) : OpenFileInner :=
  mkOpenFile (set_keep_cache false (of_attr f)) (reference_count f) UNIX_EPOCH (chunks f).

Definition of_decrease_ref (f : OpenFileInner) : OpenFileInner * Z :=
  let n := saturating_sub (reference_count f) 1 in
  (mkOpenFile (of_attr f) n (last_check f) (chunks f), n).

Definition of_is_opened (f : OpenFileInner) : bool := 0 <? reference_count f.

Definition of_load (t : OpenFiles) (inode : Ino) : option OpenFileInner := files t !! inode.

(** [open_files_ref.load(..)] followed by [is_opened()], [false] when absent. *)
Definition is_opened_in (t : OpenFiles) (inode : Ino) : bool :=
  match of_load t inode with Some f => of_is_opened f | None => false end.

(** [OpenFiles::open]: the attribute argument is updated in place. *)
Definition of_open (now : SystemTime) (inode : Ino) (attr : InodeAttr) (t : OpenFiles)
    : InodeAttr * OpenFiles :=
  match files t !! inode with
  | None =>
      let attr := set_keep_cache true attr in
      (attr, set_files t (<[inode := mkOpenFile attr 1 now ∅]> (files t)))
  | Some f =>
      let attr :=
        if decide (mtime (of_attr f) = mtime attr)
        then set_keep_cache (keep_cache (of_attr f)) attr else attr in
      (attr,
       set_files t (<[inode := mkOpenFile (set_keep_cache true (of_attr f))
         (u64_wrap (reference_count f + 1)) now (chunks f)]> (files t)))
  end.

Definition load_attr {E} (now : SystemTime) (ino : Ino) (add_ref : bool) (t : OpenFiles)
    : outcome E (option InodeAttr * OpenFiles) :=
  match files t !! ino with
  | Some f =>
      d ← elapsed now f;
      if d <? ttl t then
        let t' :=
          if add_ref then
            set_files t (<[ino := mkOpenFile (of_attr f) (u64_wrap (reference_count f + 1))
              (last_check f) (chunks f)]> (files t))
          else t in
        Ok (Some (of_attr f), t')
      else Ok (None, t)
  | None => Ok (None, t)
  end.

Definition load_slices {E} (now : SystemTime) (inode : Ino) (idx : Z) (t : OpenFiles)
    : outcome E (option (list Slice)) :=
  match files t !! inode with
  | Some f => d ← elapsed now f; if d <? ttl t then Ok (chunks f !! idx) else Ok None
  | None => Ok None
  end.

Definition refresh_attr (now : SystemTime) (ino : Ino) (attr : InodeAttr) (t : OpenFiles)
    : InodeAttr * OpenFiles :=
  match files t !! ino with
  | Some f =>
      let '(attr, f) := of_refresh_access now attr f in
      (attr, set_files t (<[ino := f]> (files t)))
  | None => (attr, t)
  end.

Definition refresh_slices (ino : Ino) (idx : Z) (views : list Slice) (t : OpenFiles) : OpenFiles :=
  set_files t (alter (of_refresh_slices idx views) ino (files t)).

Inductive InvalidReq := OneChunk (idx : Z) | All | OnlyAttr.

Definition invalid (inode : Ino) (req : InvalidReq) (t : OpenFiles) : OpenFiles :=
  set_files t (alter (fun f =>
    match req with
    | OneChunk idx => of_invalid_slices idx f
    | All => of_invalid_attr (of_invalid_all_chunk f)
    | OnlyAttr => of_invalid_attr f
    end) inode (files t)).

Definition of_close (ino : Ino) (t : OpenFiles) : OpenFiles * bool :=
  match files t !! ino with
  | Some f =>
      let '(f, n) := of_decrease_ref f in
      (set_files t (<[ino := f]> (files t)), n =? 0)
  | None => (t, true)
  end.

(** ** Reference counting *)

Definition ref_of (t : OpenFiles) (i : Ino) : Z :=
  match files t !! i with Some f => reference_count f | None => 0 end.

(** The operations that move a reference count, as a client issues them. *)
Inductive RefOp := ROpen (now : SystemTime) (attr : InodeAttr) | RClose.

Definition ref_step (i : Ino) (t : OpenFiles) (o : RefOp) : OpenFiles :=
  match o with
  | ROpen now attr => (of_open now i attr t).2
  | RClose => (of_close i t).1
  end.

Fixpoint opens (l : list RefOp) : Z :=
  match l with [] => 0 | ROpen _ _ :: l => 1 + opens l | RClose :: l => opens l end.

Fixpoint closes (l : list RefOp) : Z :=
  match l with [] => 0 | RClose :: l => 1 + closes l | _ :: l => closes l end.

(** No prefix of the sequence closes more than was opened. *)
Fixpoint paired (n : Z) (l : list RefOp) : bool :=
  match l with
  | [] => true
  | ROpen _ _ :: l => paired (n + 1) l
  | RClose :: l => (1 <=? n) && paired (n - 1) l
  end.

Lemma ref_open now i attr t :
  0 <= ref_of t i < 2 ^ 64 - 1 -> ref_of (of_open now i attr t).2 i = ref_of t i + 1.
Proof.
  unfold ref_of, of_open. intros H.
  destruct (files t !! i) as [f|] eqn:E; simpl; rewrite lookup_insert_eq; simpl; [|done].
  unfold u64_wrap. rewrite Z.mod_small; lia.
Qed.

Lemma ref_close i t : ref_of (of_close i t).1 i = saturating_sub (ref_of t i) 1.
Proof.
  unfold ref_of, of_close. destruct (files t !! i) as [f|] eqn:E; simpl.
  - by rewrite lookup_insert_eq.
  - by rewrite E.
Qed.

Lemma ref_close_result i t : 0 <= ref_of t i -> (of_close i t).2 = (ref_of (of_close i t).1 i =? 0).
Proof.
  intros Hn. rewrite ref_close. unfold ref_of, of_close, saturating_sub in *.
  destruct (files t !! i) as [f|] eqn:E; simpl; done.
Qed.

Lemma ref_fold i l t :
  0 <= ref_of t i -> ref_of t i + opens l < 2 ^ 64 -> paired (ref_of t i) l = true ->
  ref_of (foldl (ref_step i) t l) i = ref_of t i + opens l - closes l.
Proof.
  assert (Hop : forall l, 0 <= opens l).
  { clear. induction l as [|[] l IH]; simpl; lia. }
  revert t. induction l as [|o l IH]; intros t H0 Hb Hp; simpl; [lia|].
  specialize (Hop l). destruct o as [now attr|]; simpl in *.
  - pose proof (ref_open now i attr t ltac:(lia)) as Hr.
    rewrite IH; rewrite ?Hr; try lia. done.
  - to_prop. pose proof (ref_close i t) as Hr. unfold saturating_sub in Hr.
    rewrite Z.max_r in Hr by lia.
    rewrite IH; rewrite ?Hr; try lia. done.
Qed.

(** After any sequence of opens and closes of an inode in which no close is
    unpaired, the inode counts as opened exactly when some open has not been
    closed yet; deletion of an unlinked file is deferred exactly that long. *)
Theorem refcount_exact i l ttl :
  paired 0 l = true -> opens l < 2 ^ 64 ->
  is_opened_in (foldl (ref_step i) (open_files_new ttl) l) i = (closes l <? opens l).
Proof.
  intros Hp Hb.
  assert (Hr : ref_of (foldl (ref_step i) (open_files_new ttl) l) i = opens l - closes l).
  { rewrite ref_fold; try done. }
  unfold is_opened_in, of_load, of_is_opened, ref_of in *.
  destruct (files _ !! i) as [f|]; [rewrite Hr|]; apply eq_true_iff_eq;
    rewrite ?Z.ltb_lt; split; intros; try done; lia.
Qed.

Lemma refcount_exact_witness :
  is_opened_in (foldl (ref_step 7) (open_files_new 5)
    [ROpen 10 attr_empty; ROpen 11 attr_empty; RClose]) 7 = true.
Proof. apply (refcount_exact 7 [ROpen 10 attr_empty; ROpen 11 attr_empty; RClose] 5); reflexivity. Defined.
