(* ===== verification/Backend.v ===== *)
(** * The RocksDB metadata backend (components/meta/src/backend/rocksdb.rs)

    One definition per backend operation, over an abstract key-value store
    ([KVStore]) and abstract record codecs ([MetaCodec]).

    Operations that stage a transaction and commit it work on a copy of the
    store (the transaction's view) which replaces the store when the commit
    succeeds.  [do_mknod], [do_rmdir], [do_link], [do_unlink], [do_rename] and
    [do_delete_chunks] take a write batch out of an empty transaction, write it
    straight to the store and then commit the empty transaction; they are split
    the same way into a plan, which reads the store and computes the batch, and
    [write_plan], which writes it.

    The environment decides whether a write and a commit succeed ([write_ok],
    [commit_ok]); reads of an open store succeed.  Each call of
    [SystemTime::now()] is an argument. *)

From S2P Require Import Prelude Common Types Bincode Slice Keys KV Meta OpenFiles.

(** The record codecs, and what bincode promises of them. *)
Class MetaCodec := {
  mc_attr :: Bincode InodeAttr;
  mc_dentry :: Bincode DEntry;
  mc_format :: Bincode Format;
  mc_dir_stat :: Bincode DirStat;
  mc_slice :: Bincode Slice;
  mc_slices : list Slice -> bytes;
  mc_u64 :: Bincode Z
}.

Class MetaCodecLaws {C : MetaCodec} : Prop := {
  ml_attr :: BincodeLaws InodeAttr;
  ml_dentry :: BincodeLaws DEntry;
  ml_format :: BincodeLaws Format;
  ml_dir_stat :: BincodeLaws DirStat;
  ml_slice :: SliceCodecLaws;
  ml_u64 z : is_u64 z = true -> bc_de (bc_ser z) = Some z
}.

Record Env := mkEnv { write_ok : bool; commit_ok : bool }.
Definition good_env : Env := mkEnv true true.

Record SliceCommitResult := mkSCR { grew_by : Z; slice_count : Z; inserted : bool }.

Record UnlinkResult := mkUnlink {
  ul_inode : Ino;
  ul_removed : option InodeAttr;
  ul_freed_space : Z;
  ul_freed_inode : Z;
  ul_is_opened : bool
}.

Record RenameResult := mkRename {
  rn_need_delete : option (Ino * bool);
  rn_freed_space : Z;
  rn_freed_inode : Z
}.

(** [mod constants] *)
Definition S_ISGID : Z := 0x400.
Definition S_ISVTX : Z := 0x200.
Definition MODE_MASK_SETGID_EXEC : Z := 0x408.
Definition DEFAULT_FILE_SIZE : Z := 4096.

(** The value of a symlink is its path, as bytes. *)
Fixpoint string_bytes (s : string) : bytes :=
  match s with
  | EmptyString => []
  | String c s => Ascii.byte_of_ascii c :: string_bytes s
  end.

Section backend.
Context `{L : Layout} `{K : KVStore} `{C : MetaCodec}.

(** The [deserialize_db!] macro. *)
Definition deserialize_db {A} `{Bincode A} (db : db_t) (key : string) (k : ModelKind) : Result A :=
  buf ← ok_or (kv_get db key) (ModelError (NotFound k key));
  ok_or (bc_de buf) (ModelError (Corruption k key)).

(** ** Reads *)

Definition do_get_symlink (db : db_t) (inode : Ino) : Result bytes :=
  ok_or (kv_get db (Key.symlink inode)) (ModelError (NotFound MSymlink (Key.symlink inode))).

Definition do_get_hard_link_count (db : db_t) (inode parent : Ino) : Result Z :=
  match kv_get db (Key.parent inode parent) with
  | Some buf => ok_or (bc_de buf) (ModelError (Corruption MHardLinkCount (Key.parent inode parent)))
  | None => Ok 0
  end.

Definition do_get_dentry (db : db_t) (parent : Ino) (name : string) : Result DEntry :=
  deserialize_db db (Key.dentry parent name) MDEntry.

Definition do_get_attr (db : db_t) (inode : Ino) : Result InodeAttr :=
  deserialize_db db (Key.attr inode) MAttr.

Definition do_check_exist_children (db : db_t) (parent : Ino) : bool :=
  match kv_scan db (Key.dentry_prefix parent) with [] => false | _ :: _ => true end.

(** ** Staging into a transaction *)

Definition txn_put_attr (txn : db_t) (inode : Ino) (a : InodeAttr) : db_t :=
  kv_put (Key.attr inode) (bc_ser a) txn.

(** [slices_buf.chunks_exact(SLICE_BYTES).any(|e| e == encoded)] *)
Fixpoint any_chunk_eq (fuel : nat) (buf encoded : bytes) : bool :=
  match fuel with
  | O => false
  | S fuel =>
      if zlen buf <? SLICE_BYTES then false
      else bool_decide (take (Z.to_nat SLICE_BYTES) buf = encoded) ||
           any_chunk_eq fuel (drop (Z.to_nat SLICE_BYTES) buf) encoded
  end.

Definition stage_chunk_slice (txn : db_t) (inode : Ino) (chunk_index : Z) (slice : Slice)
    : Result (bool * Z * db_t) :=
  let key := Key.chunk_slices inode chunk_index in
  let slices_buf := default [] (kv_get txn key) in
  if negb (zlen slices_buf `mod` SLICE_BYTES =? 0)
  then Err (ModelError (CorruptionString MChunkSlices key))
  else
    let encoded := bc_ser slice in
    let inserted := negb (any_chunk_eq (length slices_buf) slices_buf encoded) in
    if inserted then
      let slices_buf := slices_buf ++ encoded in
      Ok (true, zlen slices_buf / SLICE_BYTES, kv_put key slices_buf txn)
    else Ok (false, zlen slices_buf / SLICE_BYTES, txn).

Definition stage_slice_commit (now1 now2 : SystemTime) (txn : db_t) (inode : Ino)
    (chunk_index : Z) (slice : Slice) : Result (SliceCommitResult * db_t) :=
  attr ← do_get_attr txn inode;
  _ ← ensure (is_file attr) (LibcError EPERM);
  '(inserted, slice_count, txn) ← stage_chunk_slice txn inode chunk_index slice;
  let new_len :=
    u64_wrap (u64_wrap (chunk_index * CHUNK_SIZE) + get_chunk_pos slice + get_size slice) in
  let grew_by := saturating_sub new_len (attr_length attr) in
  let txn :=
    if inserted || negb (grew_by =? 0) then
      let attr := if negb (grew_by =? 0) then set_length new_len attr else attr in
      txn_put_attr txn inode (update_modification_time now1 now2 attr)
    else txn in
  Ok (mkSCR grew_by slice_count inserted, txn).

(** ** Batch builders *)

Definition set_dentry_in_write_batch (parent : Ino) (name : string) (inode : Ino)
    (typ : FileType) : batch :=
  [BPut (Key.dentry parent name) (bc_ser (mkDEntry parent name inode typ))].

Definition set_attr_in_write_batch (inode : Ino) (a : InodeAttr) : batch :=
  [BPut (Key.attr inode) (bc_ser a)].

Definition set_hard_link_count_in_write_batch (inode parent : Ino) (cnt : Z) : batch :=
  [BPut (Key.parent inode parent) (bc_ser cnt)].

Definition set_sustained_in_write_batch (session_id : Z) (inode : Ino) (v : Z) : batch :=
  [BPut (Key.sustained session_id inode) (bc_ser v)].

(** The wall clock in whole seconds; the [unwrap] of a clock before the epoch panics. *)
Definition set_delete_chunk_after_in_write_batch (now : SystemTime) (inode : Ino) : Result batch :=
  d ← expect (duration_since now UNIX_EPOCH);
  Ok [BPut (Key.delete_chunk_after inode) (bc_ser (d / 1000000000))].

Definition delete_prefix_in_txn_write_batch (db : db_t) (prefix : string) : batch :=
  (fun kv => BDelete kv.1) <$> kv_scan db prefix.

(** ** Volume and counters *)

Definition stage_initial_state (txn : db_t) (format : Format) (root : InodeAttr) : db_t :=
  kv_put (Key.counter_key Key.NextInode) (bc_ser 2)
    (kv_put (Key.attr ROOT_INO) (bc_ser root)
      (kv_put Key.CURRENT_FORMAT (bc_ser format) txn)).

(** Commit a staged transaction. *)
Definition commit_txn {A} (env : Env) (db : db_t) (m : Result (A * db_t)) : Result A * db_t :=
  match m with
  | Ok (a, txn) => if commit_ok env then (Ok a, txn) else (Err RocksdbError, db)
  | Err e => (Err e, db)
  | Panic => (Panic, db)
  end.

Definition initialize_volume (env : Env) (db : db_t) (format : Format) (root : InodeAttr)
    : Result () * db_t :=
  commit_txn env db
    (_ ← ensure (bool_decide (kv_get db Key.CURRENT_FORMAT = None)) AlreadyInitialized;
     Ok ((), stage_initial_state db format root)).

(** [self.db.put(key, value)] *)
Definition db_put (env : Env) (db : db_t) (key : string) (v : bytes) : Result () * db_t :=
  if write_ok env then (Ok (), kv_put key v db) else (Err RocksdbError, db).

Definition set_format (env : Env) (db : db_t) (format : Format) : Result () * db_t :=
  db_put env db Key.CURRENT_FORMAT (bc_ser format).

Definition load_format (db : db_t) : Result Format :=
  buf ← ok_or (kv_get db Key.CURRENT_FORMAT) UninitializedEngine;
  ok_or (bc_de buf) (ModelError (Corruption MSetting Key.CURRENT_FORMAT)).

Definition increase_count_by (env : Env) (db : db_t) (counter : Key.Counter) (step : Z)
    : Result Z * db_t :=
  let key := Key.counter_key counter in
  commit_txn env db
    (current ← match kv_get db key with
               | Some v => ok_or (bc_de v) (ModelError (Corruption MCounter key))
               | None => Ok 0
               end;
     let new := u64_wrap (current + step) in
     Ok (new, kv_put key (bc_ser new) db)).

Definition load_count (db : db_t) (counter : Key.Counter) : Result Z :=
  deserialize_db db (Key.counter_key counter) MCounter.

(** ** Attributes, entries, symlinks *)

Definition get_attr (db : db_t) (inode : Ino) : Result InodeAttr := do_get_attr db inode.

Definition set_attr (env : Env) (db : db_t) (inode : Ino) (a : InodeAttr) : Result () * db_t :=
  db_put env db (Key.attr inode) (bc_ser a).

Definition get_dentry (db : db_t) (parent : Ino) (name : string) : Result DEntry :=
  do_get_dentry db parent name.

Definition set_dentry (env : Env) (db : db_t) (parent : Ino) (name : string) (inode : Ino)
    (typ : FileType) : Result () * db_t :=
  db_put env db (Key.dentry parent name) (bc_ser (mkDEntry parent name inode typ)).

(** The scan loop of [list_dentry]; [limit as usize] of a negative limit
    other than -1 wraps to a huge bound. *)
Fixpoint list_dentry_loop (limit : Z) (entries : list (string * bytes)) (res : list DEntry)
    : Result (list DEntry) :=
  match entries with
  | [] => Ok res
  | (k, v) :: entries =>
      if (limit =? -1) || (zlen res <? u64_wrap limit) then
        d ← ok_or (bc_de v) (ModelError (Corruption MDEntry k));
        list_dentry_loop limit entries (res ++ [d])
      else Ok res
  end.

Definition list_dentry (db : db_t) (parent : Ino) (limit : Z) : Result (list DEntry) :=
  list_dentry_loop limit (kv_scan db (Key.dentry_prefix parent)) [].

Definition set_symlink (env : Env) (db : db_t) (inode : Ino) (path : string) : Result () * db_t :=
  db_put env db (Key.symlink inode) (string_bytes path).

(** [get_symlink], before the lossy UTF-8 conversion of its result. *)
Definition get_symlink (db : db_t) (inode : Ino) : Result bytes := do_get_symlink db inode.

(** ** Chunk slices *)

Definition set_chunk_slices (env : Env) (db : db_t) (inode : Ino) (chunk_index : Z)
    (slices : list Slice) : Result () * db_t :=
  db_put env db (Key.chunk_slices inode chunk_index) (mc_slices slices).

(** The assertion runs after the write. *)
Definition set_raw_chunk_slices (env : Env) (db : db_t) (inode : Ino) (chunk_index : Z)
    (buf : bytes) : Result () * db_t :=
  let '(r, db) := db_put env db (Key.chunk_slices inode chunk_index) buf in
  (_ ← r; rust_assert (negb (bool_decide (buf = []))), db).

Definition get_raw_chunk_slices (db : db_t) (inode : Ino) (chunk_index : Z)
    : Result (option bytes) :=
  Ok (kv_get db (Key.chunk_slices inode chunk_index)).

Definition get_chunk_slices (db : db_t) (inode : Ino) (chunk_index : Z) : Result (list Slice) :=
  let key := Key.chunk_slices inode chunk_index in
  buf ← ok_or (kv_get db key) (ModelError (NotFound MChunkSlices key));
  slices ← map_err (fun _ => ModelError (CorruptionString MChunkSlices key)) (slices_decode buf);
  _ ← ensure (negb (bool_decide (slices = []))) (ModelError (CorruptionString MChunkSlices key));
  Ok slices.

Definition commit_slice (env : Env) (now1 now2 : SystemTime) (db : db_t) (inode : Ino)
    (chunk_index : Z) (slice : Slice) : Result SliceCommitResult * db_t :=
  commit_txn env db (stage_slice_commit now1 now2 db inode chunk_index slice).

Definition set_dir_stat (env : Env) (db : db_t) (inode : Ino) (d : DirStat) : Result () * db_t :=
  db_put env db (Key.dir_stat inode) (bc_ser d).

Definition get_dir_stat (db : db_t) (inode : Ino) : Result DirStat :=
  deserialize_db db (Key.dir_stat inode) MDirStat.

(** [self.db.write(batch)?; txn.commit()?] on a planned batch. *)
Definition write_plan {A} (env : Env) (db : db_t) (plan : Result (A * batch))
    : Result A * db_t :=
  match plan with
  | Ok (a, b) =>
      if write_ok env then
        (if commit_ok env then Ok a else Err RocksdbError, kv_write b db)
      else (Err RocksdbError, db)
  | Err e => (Err e, db)
  | Panic => (Panic, db)
  end.

(** ** mknod *)

(** The gid and mode a new inode takes from a set-group-ID parent (Linux). *)
Definition inherit_setgid (ctx : FuseContext) (parent_attr : InodeAttr) (typ : FileType)
    (a : InodeAttr) : InodeAttr :=
  if negb (Z.land (mode parent_attr) S_ISGID =? 0) then
    let a := set_gid (gid parent_attr) a in
    if decide (typ = Directory) then set_mode (Z.lor (mode a) S_ISGID) a
    else if (Z.land (mode a) MODE_MASK_SETGID_EXEC =? MODE_MASK_SETGID_EXEC)
         && negb (ctx_uid ctx =? 0)
         && negb (bool_decide (gid parent_attr ∈ ctx_gid_list ctx))
    then set_mode (Z.ldiff (mode a) MODE_MASK_SETGID_EXEC) a
    else a
  else a.

Definition mknod_plan (ctx : FuseContext) (now1 now2 : SystemTime) (db : db_t) (new_inode : Ino)
    (new_inode_attr : InodeAttr) (parent : Ino) (name : string) (typ : FileType) (path : string)
    : Result ((Ino * InodeAttr) * batch) :=
  parent_attr ← do_get_attr db parent;
  _ ← ensure (is_dir parent_attr) (LibcError ENOTDIR);
  _ ← check_access ctx parent_attr MODE_MASK_W;
  _ ← ensure (negb (is_immutable parent_attr)) (LibcError EPERM);
  _ ← ensure (negb (is_ok (do_get_dentry db parent name))) (LibcError EEXIST);
  let update_parent_attr := bool_decide (typ = Directory) in
  let parent_attr :=
    if update_parent_attr then
      set_ctime now1 (set_mtime now1 (set_nlink (u32_wrap (nlink parent_attr + 1)) parent_attr))
    else parent_attr in
  let a := set_ctime now2 (set_mtime now2 (set_atime now2 new_inode_attr)) in
  let a := inherit_setgid ctx parent_attr typ a in
  Ok ((new_inode, a),
      set_dentry_in_write_batch parent name new_inode typ
      ++ set_attr_in_write_batch new_inode a
      ++ (if update_parent_attr then set_attr_in_write_batch parent parent_attr else [])
      ++ (if decide (typ = Symlink) then [BPut (Key.symlink new_inode) (string_bytes path)] else [])).

Definition do_mknod (env : Env) (ctx : FuseContext) (now1 now2 : SystemTime) (db : db_t)
    (new_inode : Ino) (new_inode_attr : InodeAttr) (parent : Ino) (name : string)
    (typ : FileType) (path : string) : Result (Ino * InodeAttr) * db_t :=
  write_plan env db (mknod_plan ctx now1 now2 db new_inode new_inode_attr parent name typ path).

(** ** rmdir *)

(** The restricted-deletion test on a sticky directory. *)
Definition sticky_denied (ctx : FuseContext) (dir target : InodeAttr) : bool :=
  negb (ctx_uid ctx =? 0) && negb (Z.land (mode dir) S_ISVTX =? 0)
  && negb (ctx_uid ctx =? uid dir) && negb (ctx_uid ctx =? uid target).

Definition rmdir_plan (ctx : FuseContext) (now : SystemTime) (db : db_t) (parent : Ino)
    (name : string) (skip_dir_mtime : Duration) : Result ((DEntry * InodeAttr) * batch) :=
  entry_info ← do_get_dentry db parent name;
  _ ← ensure (bool_decide (de_typ entry_info = Directory)) (LibcError ENOTDIR);
  parent_attr ← do_get_attr db parent;
  _ ← ensure (is_dir parent_attr) (LibcError ENOTDIR);
  child_attr ← do_get_attr db (de_inode entry_info);
  _ ← ensure (is_dir child_attr) (LibcError ENOTDIR);
  _ ← check_access ctx parent_attr (Z.lor MODE_MASK_W MODE_MASK_X);
  _ ← ensure (negb (is_append_only parent_attr) && negb (is_immutable parent_attr)) (LibcError EPERM);
  _ ← ensure (negb (do_check_exist_children db (de_inode entry_info))) (LibcError ENOTEMPTY);
  _ ← ensure (negb (sticky_denied ctx parent_attr child_attr)) (LibcError EACCES);
  let parent_attr := set_nlink (u32_wrap (nlink parent_attr - 1)) parent_attr in
  since ← expect (duration_since now (mtime parent_attr));
  let need_update_parent_attr := skip_dir_mtime <=? since in
  let parent_attr :=
    if need_update_parent_attr then set_ctime now (set_mtime now parent_attr) else parent_attr in
  Ok ((entry_info, child_attr),
      [BDelete (Key.dentry parent name); BDelete (Key.attr (de_inode entry_info))]
      ++ (if need_update_parent_attr then set_attr_in_write_batch parent parent_attr else [])).

Definition do_rmdir (env : Env) (ctx : FuseContext) (now : SystemTime) (db : db_t) (parent : Ino)
    (name : string) (skip_dir_mtime : Duration) : Result (DEntry * InodeAttr) * db_t :=
  write_plan env db (rmdir_plan ctx now db parent name skip_dir_mtime).

(** ** truncate *)

(** The [while position < new_length] loop that stages a hole per chunk. *)
Fixpoint truncate_holes (fuel : nat) (inode : Ino) (position new_length : Z) (txn : db_t)
    : Result db_t :=
  match fuel with
  | O => Ok txn
  | S fuel =>
      if position <? new_length then
        let chunk_index := position / CHUNK_SIZE in
        let chunk_position := position `mod` CHUNK_SIZE in
        let hole_length := Z.min (CHUNK_SIZE - chunk_position) (new_length - position) in
        '(_, _, txn) ← stage_chunk_slice txn inode chunk_index
                         (new_owned chunk_position EMPTY_SLICE_ID hole_length);
        truncate_holes fuel inode (position + hole_length) new_length txn
      else Ok txn
  end.

(** Every iteration but the last ends at a chunk boundary. *)
Definition truncate_fuel (old new : Z) : nat := Z.to_nat (new / CHUNK_SIZE - old / CHUNK_SIZE + 1).

(** On a 64-bit target [usize::try_from] of a length never fails. *)
Definition do_truncate (env : Env) (ctx : FuseContext) (now1 now2 : SystemTime) (db : db_t)
    (inode : Ino) (length : Z) (skip_perm_check : bool) : Result InodeAttr * db_t :=
  commit_txn env db
    (old_attr ← do_get_attr db inode;
     _ ← ensure (is_file old_attr) (LibcError EPERM);
     _ ← ensure (negb (is_immutable old_attr || is_append_only old_attr)) (LibcError EPERM);
     _ ← (if negb skip_perm_check then check_access ctx old_attr MODE_MASK_W else Ok ());
     _ ← rust_assert (negb (length =? attr_length old_attr));
     let old_length := attr_length old_attr in
     txn ← (if old_length <? length
            then truncate_holes (truncate_fuel old_length length) inode old_length length db
            else Ok db);
     let a := update_length length now1 now2 old_attr in
     Ok (a, txn_put_attr txn inode a)).

(** ** link *)

Definition link_plan (ctx : FuseContext) (now : SystemTime) (skip_dir_mtime : Duration) (db : db_t)
    (inode new_parent : Ino) (new_name : string) : Result (InodeAttr * batch) :=
  parent_attr ← do_get_attr db new_parent;
  _ ← ensure (is_dir parent_attr) (LibcError ENOTDIR);
  _ ← check_access ctx parent_attr MODE_MASK_W;
  _ ← ensure (negb (is_immutable parent_attr)) (LibcError EPERM);
  child_attr ← do_get_attr db inode;
  _ ← ensure (negb (is_dir child_attr)) (LibcError EPERM);
  _ ← ensure (is_normal child_attr) (LibcError EPERM);
  _ ← ensure (negb (is_ok (do_get_dentry db new_parent new_name))) (LibcError EEXIST);
  let '(parent_attr, need_update_parent_attr) :=
    update_modification_time_if now skip_dir_mtime parent_attr in
  let old_parent := parent child_attr in
  let child_attr :=
    set_parent ZERO_INO (set_nlink (u32_wrap (nlink child_attr + 1)) (set_ctime now child_attr)) in
  b_old ← (if negb (is_zero (parent child_attr)) then
             cnt ← do_get_hard_link_count db inode old_parent;
             Ok (set_hard_link_count_in_write_batch inode old_parent (u64_wrap (cnt + 1)))
           else Ok []);
  cnt ← do_get_hard_link_count db inode new_parent;
  Ok (child_attr,
      set_dentry_in_write_batch new_parent new_name inode (kind child_attr)
      ++ (if need_update_parent_attr : bool then set_attr_in_write_batch new_parent parent_attr else [])
      ++ set_attr_in_write_batch inode child_attr
      ++ b_old
      ++ set_hard_link_count_in_write_batch inode new_parent (u64_wrap (cnt + 1))).

Definition do_link (env : Env) (ctx : FuseContext) (now : SystemTime) (skip_dir_mtime : Duration)
    (db : db_t) (inode new_parent : Ino) (new_name : string) : Result InodeAttr * db_t :=
  write_plan env db (link_plan ctx now skip_dir_mtime db inode new_parent new_name).

(** ** unlink *)

(** The attribute block of [do_unlink]: the target's attributes with one link
    less and whether the file is open, or the placeholder when the target has
    no attributes. *)
Definition unlink_target (ctx : FuseContext) (now : SystemTime) (oft : OpenFiles) (db : db_t)
    (parent_attr : InodeAttr) (inode : Ino) : Result (InodeAttr * bool) :=
  match do_get_attr db inode with
  | Ok attr =>
      _ ← ensure (negb (sticky_denied ctx parent_attr attr)) (LibcError EACCES);
      _ ← ensure (is_normal attr) (LibcError EPERM);
      let attr := set_nlink (u32_wrap (nlink attr - 1)) (set_ctime now attr) in
      Ok (attr, is_file attr && (nlink attr =? 0) && is_opened_in oft inode)
  | _ => Ok (attr_empty, false)
  end.

(** The records of the inode: kept with one link less, sustained for the
    session that has it open, or freed with its extended attributes and
    parent counts.  Returns the batch, freed space and freed inodes. *)
Definition unlink_inode (now2 : SystemTime) (db : db_t) (session_id : Z) (parent inode : Ino)
    (attr : InodeAttr) (opened : bool) : Result (batch * Z * Z) :=
  if 0 <? nlink attr then
    b ← (if is_zero (Types.parent attr) then
           cnt ← do_get_hard_link_count db inode parent;
           Ok (if 0 <? cnt then set_hard_link_count_in_write_batch inode parent (cnt - 1) else [])
         else Ok []);
    Ok (set_attr_in_write_batch inode attr ++ b, 0, 0)
  else
    '(b, space, inodes) ←
      (match kind attr with
       | RegularFile =>
           if opened then
             Ok (set_attr_in_write_batch inode attr ++ set_sustained_in_write_batch session_id inode 1,
                 0, 0)
           else
             b ← set_delete_chunk_after_in_write_batch now2 inode;
             Ok (b ++ [BDelete (Key.attr inode)], attr_length attr, 1)
       | Symlink =>
           Ok ([BDelete (Key.symlink inode); BDelete (Key.attr inode)], DEFAULT_FILE_SIZE, 1)
       | _ => Ok ([BDelete (Key.attr inode)], DEFAULT_FILE_SIZE, 1)
       end);
    Ok (b ++ delete_prefix_in_txn_write_batch db (Key.xattr_prefix inode)
          ++ (if is_zero (Types.parent attr)
              then delete_prefix_in_txn_write_batch db (Key.parent_prefix inode) else []),
        space, inodes).

Definition unlink_plan (ctx : FuseContext) (now1 now2 : SystemTime) (skip_dir_mtime : Duration)
    (oft : OpenFiles) (db : db_t) (parent : Ino) (name : string) (session_id : Z)
    : Result (UnlinkResult * batch) :=
  entry ← do_get_dentry db parent name;
  _ ← ensure (negb (bool_decide (de_typ entry = Directory))) (LibcError EPERM);
  parent_attr ← do_get_attr db parent;
  _ ← ensure (is_dir parent_attr) (LibcError ENOTDIR);
  _ ← check_access ctx parent_attr (Z.lor MODE_MASK_W MODE_MASK_X);
  _ ← ensure (is_normal parent_attr) (LibcError EPERM);
  '(attr, opened) ← unlink_target ctx now1 oft db parent_attr (de_inode entry);
  let '(parent_attr, need_update) := update_modification_time_if now1 skip_dir_mtime parent_attr in
  '(b, space, inodes) ← unlink_inode now2 db session_id parent (de_inode entry) attr opened;
  let removed := if (nlink attr =? 0) && is_file attr then Some attr else None in
  Ok (mkUnlink (de_inode entry) removed space inodes opened,
      (if need_update : bool then set_attr_in_write_batch parent parent_attr else [])
      ++ [BDelete (Key.dentry parent name)] ++ b).

Definition do_unlink (env : Env) (ctx : FuseContext) (now1 now2 : SystemTime)
    (skip_dir_mtime : Duration) (oft : OpenFiles) (db : db_t) (parent : Ino) (name : string)
    (session_id : Z) : Result UnlinkResult * db_t :=
  write_plan env db (unlink_plan ctx now1 now2 skip_dir_mtime oft db parent name session_id).

(** Errors are only logged. *)
Definition do_delete_chunks (env : Env) (db : db_t) (inode : Ino) : db_t :=
  (write_plan env db
     (Ok ((), delete_prefix_in_txn_write_batch db (Key.chunk_slices_prefix inode)
              ++ [BDelete (Key.delete_chunk_after inode)]))).2.

(** ** rename *)

(** Source checks (1738-1792): attributes of both parents and of the source. *)
Definition rename_source (ctx : FuseContext) (db : db_t) (old_parent new_parent : Ino)
    (old_entry : DEntry) : Result (InodeAttr * InodeAttr * InodeAttr) :=
  old_parent_attr ← do_get_attr db old_parent;
  _ ← ensure (is_dir old_parent_attr) (LibcError ENOTDIR);
  _ ← check_access ctx old_parent_attr (Z.lor MODE_MASK_W MODE_MASK_X);
  new_parent_attr ← do_get_attr db new_parent;
  _ ← ensure (is_dir new_parent_attr) (LibcError ENOTDIR);
  _ ← check_access ctx new_parent_attr (Z.lor MODE_MASK_W MODE_MASK_X);
  _ ← ensure (negb (de_inode old_entry =? new_parent)
              && negb (de_inode old_entry =? parent new_parent_attr)) (LibcError EPERM);
  old_inode_attr ← do_get_attr db (de_inode old_entry);
  _ ← ensure (is_normal old_inode_attr) (LibcError EPERM);
  _ ← ensure (negb (negb (old_parent =? new_parent)
                    && negb (Z.land (mode old_parent_attr) S_ISVTX =? 0)
                    && negb (ctx_uid ctx =? 0)
                    && negb (ctx_uid ctx =? uid old_inode_attr)
                    && (negb (ctx_uid ctx =? uid old_parent_attr) || is_dir old_inode_attr)))
       (LibcError EACCES);
  _ ← ensure (negb (sticky_denied ctx old_parent_attr old_inode_attr)) (LibcError EACCES);
  Ok (old_parent_attr, new_parent_attr, old_inode_attr).

Definition is_exchange (flags : Z) : bool := flags =? RENAME_EXCHANGE.

(** Destination block (1796-1868), with the updated parent attributes. *)
Definition rename_dst (ctx : FuseContext) (now : SystemTime) (oft : OpenFiles) (db : db_t)
    (old_parent new_parent : Ino) (new_name : string) (flags : Z)
    (old_parent_attr new_parent_attr : InodeAttr)
    : Result (bool * bool * option (DEntry * InodeAttr) * InodeAttr * InodeAttr) :=
  match do_get_dentry db new_parent new_name with
  | Ok dst_entry =>
      _ ← ensure (negb (bits_contain flags RENAME_NOREPLACE)) (LibcError EEXIST);
      dst_attr ← do_get_attr db (de_inode dst_entry);
      _ ← ensure (is_normal dst_attr) (LibcError EPERM);
      let dst_attr := set_ctime now dst_attr in
      '(update_new_parent, opened, dst_attr, old_parent_attr, new_parent_attr) ←
        (if is_exchange flags then
           if negb (old_parent =? new_parent) then
             if decide (de_typ dst_entry = Directory) then
               Ok (false, false, set_parent old_parent dst_attr,
                   set_nlink (u32_wrap (nlink old_parent_attr + 1)) old_parent_attr,
                   set_nlink (u32_wrap (nlink new_parent_attr - 1)) new_parent_attr)
             else if negb (is_zero (parent dst_attr)) then
               Ok (false, false, set_parent old_parent dst_attr, old_parent_attr, new_parent_attr)
             else Ok (false, false, dst_attr, old_parent_attr, new_parent_attr)
           else Ok (false, false, dst_attr, old_parent_attr, new_parent_attr)
         else if decide (de_typ dst_entry = Directory) then
           _ ← ensure (negb (do_check_exist_children db (de_inode dst_entry))) (LibcError ENOTEMPTY);
           Ok (true, false, dst_attr, old_parent_attr,
               set_nlink (u32_wrap (nlink new_parent_attr - 1)) new_parent_attr)
         else
           let dst_attr := set_nlink (u32_wrap (nlink dst_attr - 1)) dst_attr in
           let opened := bool_decide (de_typ dst_entry = RegularFile)
                         && (nlink dst_attr =? 0) && is_opened_in oft (de_inode dst_entry) in
           Ok (false, opened, dst_attr, old_parent_attr, new_parent_attr));
      _ ← ensure (negb (sticky_denied ctx new_parent_attr dst_attr)) (LibcError EACCES);
      Ok (update_new_parent, opened, Some (dst_entry, dst_attr), old_parent_attr, new_parent_attr)
  | Err e =>
      if negb (is_not_found e) then Err e
      else
        _ ← ensure (negb (is_exchange flags)) (LibcError ENOENT);
        Ok (false, false, None, old_parent_attr, new_parent_attr)
  | Panic => Panic
  end.

(** EXCHANGE arm (1889-1921): the old name now leads to the destination. *)
Definition rename_exchange (db : db_t) (old_parent : Ino) (old_name : string) (new_parent : Ino)
    (dst : option (DEntry * InodeAttr)) : Result batch :=
  '(dst_dentry, dst_attr) ← ok_or dst (LibcError EIO);
  let inode := de_inode dst_dentry in
  b ← (if negb (old_parent =? new_parent) && is_zero (parent dst_attr) then
         cnt ← do_get_hard_link_count db inode old_parent;
         cnt' ← do_get_hard_link_count db inode new_parent;
         Ok (set_hard_link_count_in_write_batch inode old_parent (u64_wrap (cnt + 1))
             ++ set_hard_link_count_in_write_batch inode new_parent (saturating_sub cnt' 1))
       else Ok []);
  Ok (set_dentry_in_write_batch old_parent old_name inode (de_typ dst_dentry)
      ++ set_attr_in_write_batch inode dst_attr ++ b).

(** The freed or decremented destination of a plain rename (1925-1994). *)
Definition rename_replaced (now : SystemTime) (db : db_t) (session_id : Z) (old_parent : Ino)
    (opened : bool) (dst_entry : DEntry) (dst_attr : InodeAttr) : Result (RenameResult * batch) :=
  let inode := de_inode dst_entry in
  if negb (bool_decide (kind dst_attr = Directory)) && (0 <? nlink dst_attr) then
    b ← (if is_zero (parent dst_attr) then
           cnt ← do_get_hard_link_count db inode old_parent;
           Ok (if 0 <? cnt then set_hard_link_count_in_write_batch inode old_parent (cnt - 1) else [])
         else Ok []);
    Ok (mkRename None 0 0, set_attr_in_write_batch inode dst_attr ++ b)
  else
    '(r, b) ←
      (match kind dst_attr with
       | RegularFile =>
           if opened then
             Ok (mkRename (Some (inode, opened)) 0 0,
                 set_attr_in_write_batch inode dst_attr
                 ++ set_sustained_in_write_batch session_id inode 1)
           else
             b ← set_delete_chunk_after_in_write_batch now inode;
             Ok (mkRename (Some (inode, opened)) (u64_wrap (align4k (attr_length dst_attr))) 1,
                 b ++ [BDelete (Key.attr inode)])
       | Symlink =>
           Ok (mkRename None 4096 1, [BDelete (Key.symlink inode); BDelete (Key.attr inode)])
       | _ => Ok (mkRename None 4096 1, [BDelete (Key.attr inode)])
       end);
    Ok (r, b ++ delete_prefix_in_txn_write_batch db (Key.xattr_prefix inode)
             ++ (if is_zero (parent dst_attr)
                 then delete_prefix_in_txn_write_batch db (Key.parent_prefix inode) else [])).

(** Parent link counts of a hard-linked source that moves (1998-2018). *)
Definition rename_source_links (db : db_t) (old_parent new_parent inode : Ino)
    (old_inode_attr : InodeAttr) : Result batch :=
  if is_zero (parent old_inode_attr) then
    cnt ← do_get_hard_link_count db inode new_parent;
    cnt' ← do_get_hard_link_count db inode old_parent;
    Ok (set_hard_link_count_in_write_batch inode new_parent (u64_wrap (cnt + 1))
        ++ set_hard_link_count_in_write_batch inode old_parent (saturating_sub cnt' 1))
  else Ok [].

Definition rename_plan (ctx : FuseContext) (now1 now2 now3 : SystemTime)
    (skip_dir_mtime : Duration) (oft : OpenFiles) (db : db_t) (session_id : Z)
    (old_parent : Ino) (old_name : string) (new_parent : Ino) (new_name : string) (flags : Z)
    : Result (RenameResult * batch) :=
  old_entry ← do_get_dentry db old_parent old_name;
  if (old_parent =? new_parent) && bool_decide (old_name = new_name)
  then Ok (mkRename None 0 0, [])
  else
    '(old_parent_attr, new_parent_attr, old_inode_attr) ←
      rename_source ctx db old_parent new_parent old_entry;
    '(update_new_parent, opened, dst, old_parent_attr, new_parent_attr) ←
      rename_dst ctx now1 oft db old_parent new_parent new_name flags old_parent_attr new_parent_attr;
    let moved := negb (old_parent =? new_parent) in
    let old_inode_attr := if moved then set_parent new_parent old_inode_attr else old_inode_attr in
    let old_parent_attr :=
      if moved then set_nlink (u32_wrap (nlink old_parent_attr - 1)) old_parent_attr
      else old_parent_attr in
    let new_parent_attr :=
      if moved then set_nlink (u32_wrap (nlink new_parent_attr + 1)) new_parent_attr
      else new_parent_attr in
    let '(old_parent_attr, update_old_parent) :=
      update_modification_time_if now2 skip_dir_mtime old_parent_attr in
    let '(new_parent_attr, update_new_parent) :=
      if update_new_parent : bool then (update_modification_time_with now2 new_parent_attr, true)
      else update_modification_time_if now2 skip_dir_mtime new_parent_attr in
    let old_inode_attr := set_ctime now2 old_inode_attr in
    '(r, b) ←
      (if is_exchange flags then
         b ← rename_exchange db old_parent old_name new_parent dst;
         Ok (mkRename None 0 0, b)
       else
         '(r, b) ← (match dst with
                    | Some (dst_entry, dst_attr) =>
                        rename_replaced now3 db session_id old_parent opened dst_entry dst_attr
                    | None => Ok (mkRename None 0 0, [])
                    end);
         Ok (r, [BDelete (Key.dentry old_parent old_name)] ++ b));
    b_links ← (if moved then
                 rename_source_links db old_parent new_parent (de_inode old_entry) old_inode_attr
               else Ok []);
    Ok (r,
        b ++ (if moved && update_old_parent then set_attr_in_write_batch old_parent old_parent_attr
              else [])
          ++ b_links
          ++ set_attr_in_write_batch (de_inode old_entry) old_inode_attr
          ++ set_dentry_in_write_batch new_parent new_name (de_inode old_entry) (kind old_inode_attr)
          ++ (if update_new_parent : bool then set_attr_in_write_batch new_parent new_parent_attr
              else [])).

(** A rename onto itself returns before any write. *)
Definition do_rename (env : Env) (ctx : FuseContext) (now1 now2 now3 : SystemTime)
    (skip_dir_mtime : Duration) (oft : OpenFiles) (db : db_t) (session_id : Z)
    (old_parent : Ino) (old_name : string) (new_parent : Ino) (new_name : string) (flags : Z)
    : Result RenameResult * db_t :=
  match rename_plan ctx now1 now2 now3 skip_dir_mtime oft db session_id old_parent old_name
          new_parent new_name flags with
  | Ok (r, []) => (Ok r, db)
  | plan => write_plan env db plan
  end.

Definition do_readlink (db : db_t) (inode : Ino) : Result bytes := do_get_symlink db inode.
End backend.
