(* ===== verification/FsModel.v ===== *)
(** * The namespace the metadata store stands for

    An abstract file system: the attributes of each inode and the directory
    entries.  [FsInv] says when it is a well-formed namespace: every entry is
    filed under its own parent and name, leads to an existing inode of its
    type and lives in an existing directory; a directory has at most one
    entry; the link count of any other inode is at least the number of its
    entries, so that dropping links to zero never leaves a dangling entry.
    The lemmas show which elementary updates keep it; the backend's operations
    are refined to sequences of them. *)

From S2P Require Import Prelude Common Types.

Record fs := mkFs {
  fs_attr : Ino -> option InodeAttr;
  fs_dent : Ino -> string -> option DEntry
}.

(** Two states are the same when they agree on every (unsigned) inode. *)
Definition fs_equiv (s t : fs) : Prop :=
  (forall i, 0 <= i -> fs_attr s i = fs_attr t i) /\
  (forall p n, 0 <= p -> fs_dent s p n = fs_dent t p n).

#[export] Instance fs_equiv_equivalence : Equivalence fs_equiv.
Proof.
  split.
  - intros s. done.
  - intros s t [H1 H2]. split; intros; symmetry; auto.
  - intros s t u [H1 H2] [H3 H4].
    split; intros; [rewrite H1, H3 by done|rewrite H2, H4 by done]; done.
Qed.

Definition put_attr (i : Ino) (a : InodeAttr) (s : fs) : fs :=
  mkFs (fun j => if decide (i = j) then Some a else fs_attr s j) (fs_dent s).
Definition del_attr (i : Ino) (s : fs) : fs :=
  mkFs (fun j => if decide (i = j) then None else fs_attr s j) (fs_dent s).
Definition put_dent (p : Ino) (n : string) (e : DEntry) (s : fs) : fs :=
  mkFs (fs_attr s)
    (fun p' n' => if decide (p = p' /\ n = n') then Some e else fs_dent s p' n').
Definition del_dent (p : Ino) (n : string) (s : fs) : fs :=
  mkFs (fs_attr s)
    (fun p' n' => if decide (p = p' /\ n = n') then None else fs_dent s p' n').

#[export] Instance put_attr_proper i a : Proper (fs_equiv ==> fs_equiv) (put_attr i a).
Proof. intros s t [H1 H2]. split; simpl; intros; [case_decide|]; auto. Qed.
#[export] Instance del_attr_proper i : Proper (fs_equiv ==> fs_equiv) (del_attr i).
Proof. intros s t [H1 H2]. split; simpl; intros; [case_decide|]; auto. Qed.
#[export] Instance put_dent_proper p n e : Proper (fs_equiv ==> fs_equiv) (put_dent p n e).
Proof. intros s t [H1 H2]. split; simpl; intros; [|case_decide]; auto. Qed.
#[export] Instance del_dent_proper p n : Proper (fs_equiv ==> fs_equiv) (del_dent p n).
Proof. intros s t [H1 H2]. split; simpl; intros; [|case_decide]; auto. Qed.

(** The entries that lead to an inode, as a list without repetition. *)
Definition Links (s : fs) (i : Ino) (l : list (Ino * string)) : Prop :=
  NoDup l /\
  forall p n, (p, n) ∈ l <-> 0 <= p /\ exists e, fs_dent s p n = Some e /\ de_inode e = i.

(** Nothing leads to the inode. *)
Definition unlinked (s : fs) (i : Ino) : Prop :=
  forall p n e, 0 <= p -> fs_dent s p n = Some e -> de_inode e <> i.

Record FsInv (s : fs) : Prop := {
  fi_entry p n e :
    0 <= p -> fs_dent s p n = Some e ->
    de_parent e = p /\ de_name e = n /\ 0 <= de_inode e /\
    (exists a, fs_attr s (de_inode e) = Some a /\ kind a = de_typ e) /\
    (exists a, fs_attr s p = Some a /\ kind a = Directory);
  fi_links i a :
    0 <= i -> fs_attr s i = Some a -> kind a <> Directory ->
    exists l, Links s i l /\ Z.of_nat (length l) <= nlink a;
  fi_u32 i a : 0 <= i -> fs_attr s i = Some a -> 0 <= nlink a < 2 ^ 32;
  fi_once p n e p' n' e' :
    0 <= p -> 0 <= p' -> fs_dent s p n = Some e -> fs_dent s p' n' = Some e' ->
    de_inode e = de_inode e' -> de_typ e = Directory -> p = p' /\ n = n'
}.

Lemma Links_equiv s t i l : fs_equiv s t -> Links s i l -> Links t i l.
Proof.
  intros [_ H] [Hn Hl]. split; [done|]. intros p n. rewrite Hl.
  split; intros [Hp (e & He & Hi)]; (split; [done|]; exists e; split; [|done]); by rewrite <- He, H.
Qed.

#[export] Instance FsInv_proper : Proper (fs_equiv ==> iff) FsInv.
Proof.
  assert (Himp : forall s t, fs_equiv s t -> FsInv s -> FsInv t).
  { intros s t Hst [HE HL HN HU]. pose proof Hst as [HA HD]. split.
    - intros p n e Hp He. rewrite <- HD in He by done.
      destruct (HE p n e Hp He) as (-> & -> & Hi & (a & Ha & Hk) & (b & Hb & Hd)).
      split_and!; try done; [exists a|exists b]; by rewrite <- HA.
    - intros i a Hi Ha Hk. rewrite <- HA in Ha by done.
      destruct (HL i a Hi Ha Hk) as (l & Hl & Hlen). eauto using Links_equiv.
    - intros i a Hi Ha. rewrite <- HA in Ha by done. eauto.
    - intros p n e p' n' e' Hp Hp' He He'. rewrite <- HD in He, He' by done. eauto. }
  intros s t Hst. split; apply Himp; [done|by symmetry].
Qed.

Lemma Links_nil s i : unlinked s i <-> Links s i [].
Proof.
  split.
  - intros H. split; [constructor|]. intros p n. split; [set_solver|].
    intros (Hp & e & He & Hi). by destruct (H p n e Hp He).
  - intros [_ H] p n e Hp He Hi. assert (Hin : (p, n) ∈ @nil (Ino * string)) by (apply H; eauto).
    set_solver.
Qed.

(** Unfold the updates, leaving the tests to [case_decide]. *)
Ltac fs_simpl := cbn [fs_attr fs_dent put_attr del_attr put_dent del_dent].
Ltac fs_simpl_in H := cbn [fs_attr fs_dent put_attr del_attr put_dent del_dent] in H.

Lemma put_dent_Some s p n e p' n' e' :
  fs_dent (put_dent p n e s) p' n' = Some e' <->
  (p = p' /\ n = n' /\ e' = e) \/ (~ (p = p' /\ n = n') /\ fs_dent s p' n' = Some e').
Proof. fs_simpl. case_decide; naive_solver. Qed.

Lemma del_dent_eq s p n : fs_dent (del_dent p n s) p n = None.
Proof. fs_simpl. case_decide; [done|tauto]. Qed.

Lemma del_dent_ne s p n p' n' :
  ~ (p' = p /\ n' = n) -> fs_dent (del_dent p n s) p' n' = fs_dent s p' n'.
Proof. intros Hne. fs_simpl. case_decide as Hd; [destruct Hd as [-> ->]; tauto|done]. Qed.

Lemma Links_put_attr s i j a l : Links (put_attr j a s) i l <-> Links s i l.
Proof. done. Qed.

(** A new entry adds itself to the links of its target. *)
Lemma Links_put_dent s p n e i l :
  0 <= p -> fs_dent s p n = None -> Links s i l ->
  Links (put_dent p n e s) i (if decide (de_inode e = i) then (p, n) :: l else l).
Proof.
  intros Hp Hnone [Hnd Hl].
  assert (Hnin : (p, n) ∉ l) by (rewrite Hl, Hnone; naive_solver).
  split; [case_decide; [by constructor|done]|].
  intros p' n'. fs_simpl. repeat case_decide; destruct_and?; subst; rewrite ?elem_of_cons, ?Hl;
    naive_solver.
Qed.

(** Deleting an entry takes it away from the links of its target. *)
Lemma Links_del_dent s p n e i l :
  0 <= p -> fs_dent s p n = Some e -> Links s i l ->
  exists l', Links (del_dent p n s) i l' /\
    Z.of_nat (length l') = Z.of_nat (length l) - (if decide (de_inode e = i) then 1 else 0).
Proof.
  intros Hp He [Hnd Hl].
  assert (Hfl : forall p' n', (p', n') ∈ filter (fun x => x <> (p, n)) l <->
            0 <= p' /\ exists e', fs_dent (del_dent p n s) p' n' = Some e' /\ de_inode e' = i).
  { intros p' n'. rewrite list_elem_of_filter, Hl. fs_simpl.
    case_decide; naive_solver. }
  exists (filter (fun x => x <> (p, n)) l). split; [split; [by apply NoDup_filter|done]|].
  case_decide as Hi.
  - assert (Hin : (p, n) ∈ l) by (apply Hl; eauto).
    assert (Hp' : (p, n) :: filter (fun x => x <> (p, n)) l ≡ₚ l).
    { apply NoDup_Permutation; [|done|].
      - constructor; [rewrite list_elem_of_filter; naive_solver|by apply NoDup_filter].
      - intros x. rewrite elem_of_cons, list_elem_of_filter.
        destruct (decide (x = (p, n))); naive_solver. }
    rewrite <- Hp' at 2. rewrite length_cons. lia.
  - assert (Hf : filter (fun x => x <> (p, n)) l ≡ₚ l).
    { apply NoDup_Permutation; [by apply NoDup_filter|done|].
      intros [p' n']. rewrite list_elem_of_filter, Hl. split; [naive_solver|].
      intros (? & e' & He' & Hi'). split; [congruence|eauto]. }
    rewrite Hf. lia.
Qed.

(** ** Updates that keep the namespace well formed *)

(** Changing an existing inode: same type, and a link count that still covers
    its entries. *)
Lemma inv_put_attr s i a a' :
  FsInv s -> 0 <= i -> fs_attr s i = Some a -> kind a' = kind a ->
  0 <= nlink a' < 2 ^ 32 ->
  (kind a <> Directory -> exists l, Links s i l /\ Z.of_nat (length l) <= nlink a') ->
  FsInv (put_attr i a' s).
Proof.
  intros [HE HL HN HU] Hi Ha Hk Hr Hl.
  assert (Hex : forall j b k, fs_attr s j = Some b -> kind b = k ->
            exists b', fs_attr (put_attr i a' s) j = Some b' /\ kind b' = k).
  { intros j b k Hb Hkb. fs_simpl. case_decide; [subst j|eauto].
    exists a'. split; [done|]. rewrite Hk. congruence. }
  split; [| | |done].
  - intros p n e Hp He. destruct (HE p n e Hp He) as (? & ? & ? & (b & Hb & Hkb) & (c & Hc & Hkc)).
    split_and!; eauto.
  - intros j b Hj Hb Hkb. fs_simpl_in Hb. case_decide; [subst j; injection Hb as <-|eauto].
    destruct Hl as (l & Hl & Hlen); [congruence|]. eauto.
  - intros j b Hj Hb. fs_simpl_in Hb. case_decide; [by injection Hb as <-|eauto].
Qed.

Lemma inv_put_attr_ge s i a a' :
  FsInv s -> 0 <= i -> fs_attr s i = Some a -> kind a' = kind a ->
  0 <= nlink a' < 2 ^ 32 ->
  (kind a <> Directory -> nlink a <= nlink a') -> FsInv (put_attr i a' s).
Proof.
  intros Hs Hi Ha Hk Hr Hn. eapply inv_put_attr; [done|done|exact Ha|done|done|].
  intros Hd. destruct (fi_links s Hs i a Hi Ha Hd) as (l & Hl & Hlen).
  exists l. split; [done|]. specialize (Hn Hd). lia.
Qed.

(** A new inode nothing leads to. *)
Lemma inv_new_inode s i a :
  FsInv s -> 0 <= i -> fs_attr s i = None -> 0 <= nlink a < 2 ^ 32 ->
  FsInv (put_attr i a s) /\ unlinked (put_attr i a s) i.
Proof.
  intros [HE HL HN HU] Hi Ha Hn.
  assert (Hun : unlinked s i).
  { intros p n e Hp He <-. destruct (HE p n e Hp He) as (_ & _ & _ & (b & Hb & _) & _). congruence. }
  assert (Hex : forall j b, fs_attr s j = Some b -> fs_attr (put_attr i a s) j = Some b).
  { intros j b Hb. fs_simpl. case_decide; [congruence|done]. }
  split; [|done]. split; [| | |done].
  - intros p n e Hp He. destruct (HE p n e Hp He) as (? & ? & ? & (b & Hb & Hkb) & (c & Hc & Hkc)).
    split_and!; eauto.
  - intros j b Hj Hb Hkb. fs_simpl_in Hb. case_decide; [subst j; injection Hb as <-|eauto].
    exists []. split; [by apply Links_nil in Hun|simpl; lia].
  - intros j b Hj Hb. fs_simpl_in Hb. case_decide; [by injection Hb as <-|eauto].
Qed.

(** A new entry for an inode with a link to spare (or an unlinked directory). *)
Lemma inv_put_dent s p n i a :
  FsInv s -> 0 <= p -> 0 <= i -> fs_dent s p n = None ->
  (exists b, fs_attr s p = Some b /\ kind b = Directory) ->
  fs_attr s i = Some a ->
  (kind a = Directory -> unlinked s i) ->
  (kind a <> Directory -> exists l, Links s i l /\ Z.of_nat (length l) + 1 <= nlink a) ->
  FsInv (put_dent p n (mkDEntry p n i (kind a)) s).
Proof.
  intros [HE HL HN HU] Hp Hi Hnone Hdir Ha Hd Hl. split.
  - intros p' n' e Hp' He. fs_simpl. fs_simpl_in He. case_decide as Hpn; [|eauto].
    destruct Hpn as [<- <-]. injection He as <-. simpl. split_and!; eauto.
  - intros j b Hj Hb Hk. fs_simpl_in Hb. destruct (decide (i = j)) as [<-|Hne].
    + assert (b = a) as -> by congruence. destruct (Hl Hk) as (l & Hll & Hlen).
      eexists. split; [by apply Links_put_dent|]. cbn [de_inode]. rewrite decide_True by done. simpl. lia.
    + destruct (HL j b Hj Hb Hk) as (l & Hll & Hlen).
      eexists. split; [by apply Links_put_dent|]. cbn [de_inode]. by rewrite decide_False.
  - exact HN.
  - intros p1 n1 e1 p2 n2 e2 Hp1 Hp2 He1 He2 Hi12 Ht. apply put_dent_Some in He1, He2.
    assert (Hno : forall p' n' e', 0 <= p' -> fs_dent s p' n' = Some e' -> de_inode e' = i ->
              kind a = Directory -> False).
    { intros p' n' e' Hp' He' Hi' Hk. exact (Hd Hk p' n' e' Hp' He' Hi'). }
    destruct He1 as [(<- & <- & ->)|[_ He1]], He2 as [(<- & <- & ->)|[_ He2]];
      [done| | |by eapply HU].
    + destruct (Hno p2 n2 e2); auto.
    + destruct (Hno p1 n1 e1); auto.
      destruct (HE p1 n1 e1 Hp1 He1) as (_ & _ & _ & (b & Hb & Hkb) & _).
      simpl in Hi12. congruence.
Qed.

Lemma inv_del_dent s p n : FsInv s -> 0 <= p -> FsInv (del_dent p n s).
Proof.
  intros [HE HL HN HU] Hp.
  assert (Hsub : forall p' n' e, fs_dent (del_dent p n s) p' n' = Some e -> fs_dent s p' n' = Some e).
  { intros p' n' e He. fs_simpl_in He. by case_decide. }
  split.
  - intros p' n' e Hp' He. eauto.
  - intros i a Hi Ha Hk. destruct (HL i a Hi Ha Hk) as (l & Hl & Hlen).
    destruct (fs_dent s p n) as [e|] eqn:He.
    + destruct (Links_del_dent s p n e i l Hp He Hl) as (l' & Hl' & Hlen').
      exists l'. split; [done|]. case_decide; lia.
    + exists l. split; [|done]. eapply Links_equiv; [|exact Hl].
      split; [done|]. intros p' n' _. fs_simpl. case_decide as Hd; [|done]. by destruct Hd as [<- <-].
  - exact HN.
  - intros p1 n1 e1 p2 n2 e2 Hp1 Hp2 He1 He2. eauto.
Qed.

(** Forgetting an inode nothing leads to and that holds no entries. *)
Lemma inv_del_attr s i :
  FsInv s -> 0 <= i -> unlinked s i -> (forall n, fs_dent s i n = None) -> FsInv (del_attr i s).
Proof.
  intros [HE HL HN HU] Hi Hun Hempty. split; [| | |done].
  - intros p n e Hp He. destruct (HE p n e Hp He) as (? & ? & ? & (b & Hb & Hkb) & (c & Hc & Hkc)).
    split_and!; try done; fs_simpl.
    + exists b. rewrite decide_False; [done|]. intros Heq. exact (Hun p n e Hp He (eq_sym Heq)).
    + exists c. rewrite decide_False; [done|]. intros <-. fs_simpl_in He. by rewrite Hempty in He.
  - intros j a Hj Ha Hk. fs_simpl_in Ha. case_decide; [done|]. eauto.
  - intros j a Hj Ha. fs_simpl_in Ha. case_decide; [done|]. eauto.
Qed.

(** Only directories hold entries. *)
Lemma inv_nondir_empty s i a :
  FsInv s -> 0 <= i -> fs_attr s i = Some a -> kind a <> Directory -> forall n, fs_dent s i n = None.
Proof.
  intros [HE _ _ _] Hi Ha Hk n. destruct (fs_dent s i n) as [e|] eqn:He; [|done].
  destruct (HE i n e Hi He) as (_ & _ & _ & _ & (b & Hb & Hd)). congruence.
Qed.

(** An inode an entry leads to has at least one link. *)
Lemma inv_link_pos s p n e a :
  FsInv s -> 0 <= p -> fs_dent s p n = Some e -> fs_attr s (de_inode e) = Some a ->
  kind a <> Directory -> 1 <= nlink a.
Proof.
  intros Hs Hp He Ha Hk. destruct (fi_entry s Hs p n e Hp He) as (_ & _ & Hi & _ & _).
  destruct (fi_links s Hs _ a Hi Ha Hk) as (l & [_ Hl] & Hlen).
  assert (Hin : (p, n) ∈ l) by (apply Hl; eauto).
  destruct l; [set_solver|]. simpl in Hlen. lia.
Qed.

Lemma dir_unlinked_after s p n e :
  FsInv s -> 0 <= p -> fs_dent s p n = Some e -> de_typ e = Directory ->
  unlinked (del_dent p n s) (de_inode e).
Proof.
  intros Hs Hp He Ht p' n' e' Hp' He' Hi. fs_simpl_in He'. case_decide as Hd; [done|].
  apply Hd. eapply (fi_once s Hs p n e p' n' e'); eauto.
Qed.

(** ** Conditional and composed updates *)

Definition when {A} (b : bool) (f : A -> A) : A -> A := if b then f else fun x => x.

#[export] Instance when_proper b (f : fs -> fs) :
  Proper (fs_equiv ==> fs_equiv) f -> Proper (fs_equiv ==> fs_equiv) (when b f).
Proof. intros Hf. destruct b; simpl; [done|]. by intros s t. Qed.

#[export] Instance if_proper (b : bool) (f g : fs -> fs) :
  Proper (fs_equiv ==> fs_equiv) f -> Proper (fs_equiv ==> fs_equiv) g ->
  Proper (fs_equiv ==> fs_equiv) (if b then f else g).
Proof. by destruct b. Qed.

#[export] Instance id_proper : Proper (fs_equiv ==> fs_equiv) (fun s => s).
Proof. by intros s t. Qed.

#[export] Instance compose_proper (f g : fs -> fs) :
  Proper (fs_equiv ==> fs_equiv) f -> Proper (fs_equiv ==> fs_equiv) g ->
  Proper (fs_equiv ==> fs_equiv) (fun s => g (f s)).
Proof. intros Hf Hg s t Hst. apply Hg, Hf, Hst. Qed.

(** ** Attribute updates that matter only to directories and timestamps *)

Definition same_links (a a' : InodeAttr) : Prop :=
  kind a' = kind a /\ (kind a <> Directory -> nlink a' = nlink a) /\ 0 <= nlink a' < 2 ^ 32.

Definition shape (s s' : fs) : Prop :=
  (forall p n, fs_dent s' p n = fs_dent s p n) /\
  (forall i, 0 <= i ->
     match fs_attr s i, fs_attr s' i with
     | None, None => True
     | Some a, Some a' => same_links a a'
     | _, _ => False
     end).

Lemma shape_refl s : FsInv s -> shape s s.
Proof.
  intros Hs. split; [done|]. intros i Hi. destruct (fs_attr s i) as [a|] eqn:E; [|done].
  split; [done|]. split; [done|]. eapply fi_u32; eauto.
Qed.

Lemma shape_put s s' i a a' :
  shape s s' -> fs_attr s i = Some a -> same_links a a' -> shape s (put_attr i a' s').
Proof.
  intros [HD HA] Ha Hl. split; [done|]. intros j Hj. fs_simpl. specialize (HA j Hj).
  case_decide; [subst j|done]. by rewrite Ha.
Qed.

Lemma shape_when (c : bool) s s' i a a' :
  shape s s' -> fs_attr s i = Some a -> same_links a a' -> shape s (when c (put_attr i a') s').
Proof. destruct c; [apply shape_put|done]. Qed.

Lemma shape_attr s s' i a :
  shape s s' -> 0 <= i -> fs_attr s i = Some a -> exists a', fs_attr s' i = Some a' /\ same_links a a'.
Proof.
  intros [_ HA] Hi Ha. specialize (HA i Hi). rewrite Ha in HA.
  destruct (fs_attr s' i) as [a'|]; [eauto|done].
Qed.

Lemma shape_inv s s' : FsInv s -> shape s s' -> FsInv s'.
Proof.
  intros [HE HL HN HU] Hsh. pose proof Hsh as [HD HA].
  assert (Hex : forall j b k, 0 <= j -> fs_attr s j = Some b -> kind b = k ->
            exists b', fs_attr s' j = Some b' /\ kind b' = k).
  { intros j b k Hj Hb Hk. destruct (shape_attr _ _ _ _ Hsh Hj Hb) as (b' & Hb' & Hk' & _).
    exists b'. split; congruence. }
  assert (Hback : forall j a', 0 <= j -> fs_attr s' j = Some a' ->
            exists a, fs_attr s j = Some a /\ same_links a a').
  { intros j a' Hj Ha'. specialize (HA j Hj). rewrite Ha' in HA.
    destruct (fs_attr s j) as [a|]; [eauto|done]. }
  split.
  - intros p n e Hp He. rewrite HD in He.
    destruct (HE p n e Hp He) as (? & ? & ? & (b & Hb & Hkb) & (c & Hc & Hkc)). split_and!; eauto.
  - intros i a' Hi Ha' Hk. destruct (Hback i a' Hi Ha') as (a & Ha & Hka & Hla & _).
    destruct (HL i a Hi Ha ltac:(congruence)) as (l & [Hnd Hl] & Hlen).
    exists l. split; [|rewrite Hla; [done|congruence]].
    split; [done|]. intros p n. rewrite Hl, HD. done.
  - intros i a' Hi Ha'. destruct (Hback i a' Hi Ha') as (a & Ha & _ & _ & Hr). done.
  - intros p n e p' n' e' Hp Hp' He He'. rewrite HD in He, He'. eauto.
Qed.

(** ** Moving and swapping entries *)

Lemma inv_move s op on e np nn a :
  FsInv s -> 0 <= op -> 0 <= np -> fs_dent s op on = Some e -> fs_dent s np nn = None ->
  (exists b, fs_attr s np = Some b /\ kind b = Directory) ->
  fs_attr s (de_inode e) = Some a ->
  FsInv (put_dent np nn (mkDEntry np nn (de_inode e) (kind a)) (del_dent op on s)).
Proof.
  intros Hs Hop Hnp He Hnone Hdir Ha.
  destruct (fi_entry _ Hs _ _ _ Hop He) as (_ & _ & Hi & (b & Hb & Hkb) & _).
  assert (b = a) as -> by congruence.
  apply inv_put_dent; [by apply inv_del_dent|done|done| |done|done| |].
  - fs_simpl. by case_decide.
  - intros Hk. apply dir_unlinked_after; [done|done|done|congruence].
  - intros Hk. destruct (fi_links _ Hs _ _ Hi Ha Hk) as (l & Hl & Hlen).
    destruct (Links_del_dent _ _ _ _ _ _ Hop He Hl) as (l' & Hl' & Hlen').
    rewrite decide_True in Hlen' by done. exists l'. split; [done|lia].
Qed.

(** Exchange the inodes of two different entries. *)
Lemma inv_swap s op on e np nn d a b :
  FsInv s -> 0 <= op -> 0 <= np -> ~ (op = np /\ on = nn) ->
  fs_dent s op on = Some e -> fs_dent s np nn = Some d ->
  fs_attr s (de_inode e) = Some a -> fs_attr s (de_inode d) = Some b ->
  FsInv (put_dent np nn (mkDEntry np nn (de_inode e) (kind a))
          (put_dent op on (mkDEntry op on (de_inode d) (kind b)) s)).
Proof.
  intros Hs Hop Hnp Hne He Hd Ha Hb.
  destruct (fi_entry _ Hs _ _ _ Hop He) as (_ & _ & Hi & (a0 & Ha0 & Hka) & Hod).
  assert (a0 = a) as -> by congruence.
  destruct (fi_entry _ Hs _ _ _ Hnp Hd) as (_ & _ & Hj & (b0 & Hb0 & Hkb) & Hnd).
  assert (b0 = b) as -> by congruence.
  (* the destination moves to the old name once the source has left it *)
  pose proof (inv_del_dent _ op on Hs Hop) as Hs1.
  assert (Hd1 : fs_dent (del_dent op on s) np nn = Some d) by (fs_simpl; by case_decide).
  assert (Ho1 : fs_dent (del_dent op on s) op on = None)
    by (fs_simpl; case_decide; [done|tauto]).
  pose proof (inv_move _ np nn d op on b Hs1 Hnp Hop Hd1 Ho1 Hod Hb) as Hs2.
  set (s2 := put_dent _ _ _ _) in Hs2.
  assert (Hs3 : FsInv (put_dent np nn (mkDEntry np nn (de_inode e) (kind a)) s2)).
  { apply inv_put_dent; [done|done|done| |done|done| |].
    - unfold s2. fs_simpl. repeat case_decide; naive_solver.
    - intros Hk p n x Hp Hx Hxi. unfold s2 in Hx. apply put_dent_Some in Hx as [(<- & <- & ->)|[Hn1 Hx]].
      + simpl in Hxi. apply Hne. destruct (fi_once _ Hs np nn d op on e) as [-> ->]; try done; congruence.
      + fs_simpl_in Hx. case_decide; [done|]. case_decide; [done|].
        assert (op = p /\ on = n) as [-> ->] by (eapply (fi_once _ Hs op on e p n x); congruence).
        tauto.
    - intros Hk. destruct (fi_links _ Hs _ _ Hi Ha Hk) as (l & Hl & Hlen).
      destruct (Links_del_dent _ _ _ _ _ _ Hop He Hl) as (l1 & Hl1 & Hlen1).
      destruct (Links_del_dent _ _ _ _ _ _ Hnp Hd1 Hl1) as (l2 & Hl2 & Hlen2).
      rewrite decide_True in Hlen1 by done.
      exists (if decide (de_inode d = de_inode e) then (op, on) :: l2 else l2). split.
      + apply (Links_put_dent _ op on (mkDEntry op on (de_inode d) (kind b))); [done| |done].
        fs_simpl. repeat case_decide; tauto.
      + case_decide; simpl in *; lia. }
  eapply FsInv_proper; [|exact Hs3]. split; [done|]. unfold s2. fs_simpl. intros p n Hp.
  repeat case_decide; naive_solver.
Qed.
