(* ===== verification/Namespace.v ===== *)
(** * The backend's operations on the namespace

    [view] reads the abstract file system of [FsModel] out of a metadata
    store.  Each batch builder denotes an update of the view; [do_mknod],
    [do_rmdir], [do_link], [do_unlink] and [do_rename] are refined to the
    updates they make and shown to keep the namespace well formed. *)

From S2P Require Import Prelude Common Types Bincode Slice Keys KV Meta OpenFiles Backend.
From S2P Require Import FsModel.

Definition ok_opt {E A} (m : outcome E A) : option A := match m with Ok a => Some a | _ => None end.

Lemma ok_opt_Some {E A} (m : outcome E A) a : ok_opt m = Some a <-> m = Ok a.
Proof. destruct m; simpl; naive_solver. Qed.

Lemma is_ok_false {E A} (m : outcome E A) : is_ok m = false <-> ok_opt m = None.
Proof. destruct m; simpl; naive_solver. Qed.

Section denotations.
Context `{L : Layout} `{KL : KVLaws} `{CL : MetaCodecLaws}.

Definition view (db : db_t) : fs :=
  mkFs (fun i => ok_opt (do_get_attr db i)) (fun p n => ok_opt (do_get_dentry db p n)).

(** ** What a batch does to the view *)

Definition denotes (b : batch) (f : fs -> fs) : Prop :=
  forall db, fs_equiv (view (kv_write b db)) (f (view db)).

Lemma kv_write_app b1 b2 db : kv_write (b1 ++ b2) db = kv_write b2 (kv_write b1 db).
Proof. apply foldl_app. Qed.

Lemma denotes_nil : denotes [] (fun s => s).
Proof. intros db. reflexivity. Qed.

Lemma denotes_app b1 b2 f g h :
  denotes b1 f -> denotes b2 g -> Proper (fs_equiv ==> fs_equiv) g ->
  (forall s, h s = g (f s)) -> denotes (b1 ++ b2) h.
Proof. intros H1 H2 Hg Hh db. rewrite kv_write_app, (H2 _), Hh. by rewrite (H1 db). Qed.

Lemma denotes_cons o b f g h :
  denotes [o] f -> denotes b g -> Proper (fs_equiv ==> fs_equiv) g ->
  (forall s, h s = g (f s)) -> denotes (o :: b) h.
Proof. apply (denotes_app [o] b). Qed.

Lemma deserialize_put {A} `{BA : Bincode A} {BL : BincodeLaws A} db k (a : A) mk :
  deserialize_db (kv_put k (bc_ser a) db) k mk = Ok a.
Proof. unfold deserialize_db. rewrite kv_get_put_eq. simpl. by rewrite bc_roundtrip. Qed.

Lemma deserialize_get_eq {A} `{BA : Bincode A} db db' k mk :
  kv_get db k = kv_get db' k -> deserialize_db (A:=A) db k mk = deserialize_db db' k mk.
Proof. unfold deserialize_db. by intros ->. Qed.

Ltac batch_simpl :=
  cbn [view fs_attr fs_dent]; unfold kv_write, set_attr_in_write_batch, set_dentry_in_write_batch;
  cbn [foldl apply_op].

Lemma denotes_put_attr i a : 0 <= i -> denotes (set_attr_in_write_batch i a) (put_attr i a).
Proof.
  intros Hi db. split; fs_simpl; batch_simpl.
  - intros j Hj. case_decide as Hij; [subst j|].
    + unfold do_get_attr. by rewrite deserialize_put.
    + unfold do_get_attr. erewrite deserialize_get_eq; [done|]. apply kv_get_put_ne.
      intros H. apply Hij. by apply attr_key_inj.
  - intros p n Hp. unfold do_get_dentry. erewrite deserialize_get_eq; [done|].
    apply kv_get_put_ne. key_ne.
Qed.

Lemma denotes_del_attr i : 0 <= i -> denotes [BDelete (Key.attr i)] (del_attr i).
Proof.
  intros Hi db. split; fs_simpl; batch_simpl.
  - intros j Hj. unfold do_get_attr, deserialize_db. case_decide as Hij; [subst j|].
    + by rewrite kv_get_delete_eq.
    + rewrite kv_get_delete_ne; [done|]. intros H. apply Hij. by apply attr_key_inj.
  - intros p n Hp. unfold do_get_dentry. erewrite deserialize_get_eq; [done|].
    apply kv_get_delete_ne. key_ne.
Qed.

Lemma denotes_put_dent p n i t :
  0 <= p -> denotes (set_dentry_in_write_batch p n i t) (put_dent p n (mkDEntry p n i t)).
Proof.
  intros Hp db. split; fs_simpl; batch_simpl.
  - intros j Hj. unfold do_get_attr. erewrite deserialize_get_eq; [done|].
    apply kv_get_put_ne. key_ne.
  - intros p' n' Hp'. case_decide as Hpn; [destruct Hpn as [<- <-]|].
    + unfold do_get_dentry. by rewrite deserialize_put.
    + unfold do_get_dentry. erewrite deserialize_get_eq; [done|]. apply kv_get_put_ne.
      intros H. apply Hpn. by apply dentry_key_inj.
Qed.

Lemma denotes_del_dent p n : 0 <= p -> denotes [BDelete (Key.dentry p n)] (del_dent p n).
Proof.
  intros Hp db. split; fs_simpl; batch_simpl.
  - intros j Hj. unfold do_get_attr. erewrite deserialize_get_eq; [done|].
    apply kv_get_delete_ne. key_ne.
  - intros p' n' Hp'. unfold do_get_dentry, deserialize_db.
    case_decide as Hpn; [destruct Hpn as [<- <-]|].
    + by rewrite kv_get_delete_eq.
    + rewrite kv_get_delete_ne; [done|]. intros H. apply Hpn. by apply dentry_key_inj.
Qed.

(** Batches that touch neither attributes nor entries. *)
Definition outside (k : string) : Prop :=
  (forall i, 0 <= i -> k <> Key.attr i) /\ (forall p n, 0 <= p -> k <> Key.dentry p n).

Lemma denotes_outside b : Forall (fun o => outside (op_key o)) b -> denotes b (fun s => s).
Proof.
  intros Hb db.
  assert (Hnone : forall k, (forall o, o ∈ b -> op_key o <> k) -> batch_find b k = None).
  { clear. induction b as [|o b IH]; intros k Hk; simpl; [done|].
    rewrite IH by set_solver. rewrite decide_False; [done|]. apply Hk. set_solver. }
  rewrite Forall_forall in Hb.
  split; cbn [view fs_attr fs_dent]; intros; unfold do_get_attr, do_get_dentry;
    (erewrite deserialize_get_eq; [done|]); rewrite kv_get_write, Hnone; try done;
    intros o Ho; destruct (Hb o Ho); auto.
Qed.

Lemma outside_key k i :
  key_family k <> key_family (KAttr i) -> key_family k <> key_family (KDentry i "") ->
  outside (render k).
Proof.
  intros H1 H2. split; intros.
  - apply (render_family_ne k (KAttr i0)). exact H1.
  - apply (render_family_ne k (KDentry p n)). exact H2.
Qed.

Lemma denotes_link_count i p c : denotes (set_hard_link_count_in_write_batch i p c) (fun s => s).
Proof. apply denotes_outside. repeat constructor; by apply (outside_key (KParent i p) 0). Qed.

Lemma denotes_sustained s i v : denotes (set_sustained_in_write_batch s i v) (fun s => s).
Proof. apply denotes_outside. repeat constructor; by apply (outside_key (KSustained s i) 0). Qed.

Lemma denotes_delete_after now i b :
  set_delete_chunk_after_in_write_batch now i = Ok b -> denotes b (fun s => s).
Proof.
  unfold set_delete_chunk_after_in_write_batch. intros H. inv_ok.
  apply denotes_outside. repeat constructor; by apply (outside_key (KDelete i) 0).
Qed.

Lemma denotes_symlink_put i v : denotes [BPut (Key.symlink i) v] (fun s => s).
Proof. apply denotes_outside. repeat constructor; by apply (outside_key (KSymlink i) 0). Qed.

Lemma denotes_symlink_del i : denotes [BDelete (Key.symlink i)] (fun s => s).
Proof. apply denotes_outside. repeat constructor; by apply (outside_key (KSymlink i) 0). Qed.

(** Purging a family other than directory entries. *)
Lemma denotes_purge db f i :
  0 <= i -> f <> FDentry ->
  denotes (delete_prefix_in_txn_write_batch db (render_prefix f i)) (fun s => s).
Proof.
  intros Hi Hf. apply denotes_outside. apply Forall_forall. intros o Ho.
  apply list_elem_of_fmap in Ho as ([k v] & -> & Hkv). simpl.
  apply kv_scan_spec in Hkv as [_ Hp].
  split; intros; intros ->.
  - pose proof (prefix_in_family f i (KAttr i0) Hi ltac:(simpl; lia) Hp). by destruct f.
  - pose proof (prefix_in_family f i (KDentry p n) Hi ltac:(simpl; lia) Hp). by destruct f.
Qed.

Lemma view_attr db i a : do_get_attr db i = Ok a <-> fs_attr (view db) i = Some a.
Proof. simpl. by rewrite ok_opt_Some. Qed.

Lemma view_dent db p n e : do_get_dentry db p n = Ok e <-> fs_dent (view db) p n = Some e.
Proof. simpl. by rewrite ok_opt_Some. Qed.

Lemma view_dent_None db p n :
  is_ok (do_get_dentry db p n) = false <-> fs_dent (view db) p n = None.
Proof. apply is_ok_false. Qed.

Lemma no_children db i :
  do_check_exist_children db i = false -> forall n, fs_dent (view db) i n = None.
Proof.
  unfold do_check_exist_children. intros H n.
  destruct (kv_scan db (Key.dentry_prefix i)) eqn:E; [|done].
  simpl. unfold do_get_dentry, deserialize_db.
  rewrite (proj1 (kv_scan_nil db _) E (Key.dentry i n)); [done|].
  apply (in_family_prefix FDentry i (KDentry i n)). apply Z.eqb_refl.
Qed.

(** What an operation leaves behind: the old store, or its planned batch. *)
Lemma write_plan_cases {A} env db (plan : Result (A * batch)) r db' :
  write_plan env db plan = (r, db') ->
  db' = db \/ exists a b, plan = Ok (a, b) /\ db' = kv_write b db.
Proof.
  unfold write_plan. destruct plan as [[a b]| |]; [case_if|..]; intros [= <- <-]; eauto.
Qed.

Lemma write_plan_Ok {A} env db (plan : Result (A * batch)) a db' :
  write_plan env db plan = (Ok a, db') -> exists b, plan = Ok (a, b) /\ db' = kv_write b db.
Proof.
  unfold write_plan. destruct plan as [[a' b]| |]; [|done..].
  destruct (write_ok env), (commit_ok env); intros [= <- <-]; eauto.
Qed.

(** A plan whose batch keeps the namespace well formed makes an operation that does. *)
Lemma write_plan_inv {A} env db (plan : Result (A * batch)) r db' :
  FsInv (view db) -> (forall a b, plan = Ok (a, b) -> FsInv (view (kv_write b db))) ->
  write_plan env db plan = (r, db') -> FsInv (view db').
Proof. intros Hs Hp H. apply write_plan_cases in H as [->|(a & b & Hplan & ->)]; eauto. Qed.

Lemma inherit_setgid_same ctx pa t a :
  kind (inherit_setgid ctx pa t a) = kind a /\ nlink (inherit_setgid ctx pa t a) = nlink a.
Proof. unfold inherit_setgid. repeat case_match; done. Qed.

Lemma denotes_when (c : bool) b f : denotes b f -> denotes (if c then b else []) (when c f).
Proof. destruct c; simpl; [done|]. intros _. apply denotes_nil. Qed.

End denotations.

(** Compose the denotations of the parts of a batch. *)
Ltac denote :=
  match goal with
  | H : denotes ?b _ |- denotes ?b _ => exact H
  | |- denotes (set_attr_in_write_batch _ _) _ => apply denotes_put_attr; lia
  | |- denotes (set_dentry_in_write_batch _ _ _ _) _ => apply denotes_put_dent; lia
  | |- denotes (set_hard_link_count_in_write_batch _ _ _) _ => apply denotes_link_count
  | |- denotes (set_sustained_in_write_batch _ _ _) _ => apply denotes_sustained
  | |- denotes [BDelete (Key.dentry _ _)] _ => apply denotes_del_dent; lia
  | |- denotes [BDelete (Key.attr _)] _ => apply denotes_del_attr; lia
  | |- denotes [BPut (Key.symlink _) _] _ => apply denotes_symlink_put
  | |- denotes [BDelete (Key.symlink _)] _ => apply denotes_symlink_del
  | |- denotes [] _ => apply denotes_nil
  | |- denotes (if _ then _ else []) _ => apply denotes_when; denote
  | |- denotes (_ ++ _) _ => eapply denotes_app; [denote|denote|apply _|reflexivity]
  | |- denotes [_] _ => apply denotes_put_attr; lia
  | |- denotes (_ :: _) _ => eapply denotes_cons; [denote|denote|apply _|reflexivity]
  end.

Section namespace.
Context `{L : Layout} `{KL : KVLaws} `{CL : MetaCodecLaws}.

(** *** mknod *)

Definition mknod_parent (now : SystemTime) (pa : InodeAttr) : InodeAttr :=
  set_ctime now (set_mtime now (set_nlink (u32_wrap (nlink pa + 1)) pa)).

Lemma mknod_plan_spec ctx now1 now2 db new a0 parent name typ path i a b :
  0 <= parent -> 0 <= new ->
  mknod_plan ctx now1 now2 db new a0 parent name typ path = Ok ((i, a), b) ->
  i = new /\ kind a = kind a0 /\ nlink a = nlink a0 /\
  fs_dent (view db) parent name = None /\
  exists pa, fs_attr (view db) parent = Some pa /\ kind pa = Directory /\
    check_access ctx pa MODE_MASK_W = Ok () /\ is_immutable pa = false /\
    denotes b (fun s =>
      when (bool_decide (typ = Directory)) (put_attr parent (mknod_parent now1 pa))
        (put_attr new a (put_dent parent name (mkDEntry parent name new typ) s))).
Proof.
  unfold mknod_plan. intros Hp Hn H. inv_ok. to_prop.
  apply view_attr in Hr. apply bool_decide_eq_true in Hr0. destruct r1.
  apply view_dent_None in Hr3.
  destruct (inherit_setgid_same ctx (if bool_decide (typ = Directory) then mknod_parent now1 r else r)
    typ (set_ctime now2 (set_mtime now2 (set_atime now2 a0)))) as [Hk Hl].
  split_and!; [done|exact Hk|exact Hl|done|].
  exists r. split_and!; [done|done|done|done|].
  assert (Hsym : denotes (if decide (typ = Symlink)
                          then [BPut (Key.symlink i) (string_bytes path)] else []) (fun s => s)).
  { destruct (decide (typ = Symlink)); denote. }
  destruct (bool_decide (typ = Directory)); denote.
Qed.

Lemma mknod_plan_inv ctx now1 now2 db new a0 parent name typ path r b :
  FsInv (view db) -> 0 <= parent -> 0 <= new -> fs_attr (view db) new = None ->
  kind a0 = typ -> 0 <= nlink a0 < 2 ^ 32 -> (typ <> Directory -> 1 <= nlink a0) ->
  mknod_plan ctx now1 now2 db new a0 parent name typ path = Ok (r, b) ->
  FsInv (view (kv_write b db)).
Proof.
  intros Hs Hp Hn Hfresh Ht Hl0 Hl1 H. destruct r as [i a].
  apply mknod_plan_spec in H as (-> & Hk & Hl & Hnone & pa & Hpa & Hpk & _ & _ & Hd); [|done..].
  rewrite (Hd db).
  assert (Hne : parent <> new) by congruence.
  destruct (inv_new_inode (view db) new a Hs Hn Hfresh ltac:(lia)) as [Hs1 Hun].
  assert (Hs2 : FsInv (put_dent parent name (mkDEntry parent name new typ) (put_attr new a (view db)))).
  { rewrite <- Ht, <- Hk. apply inv_put_dent; try done.
    - exists pa. fs_simpl. by rewrite decide_False.
    - fs_simpl. by rewrite decide_True.
    - intros Hnd. exists []. split; [by apply Links_nil|]. simpl. rewrite Hl.
      apply Hl1. congruence. }
  destruct (bool_decide (typ = Directory)); [|exact Hs2].
  apply (inv_put_attr_ge _ parent pa); [exact Hs2|done| |done|apply u32_wrap_range|congruence].
  fs_simpl. by rewrite decide_False.
Qed.

(** *** rmdir *)

Definition rmdir_parent (now : SystemTime) (pa : InodeAttr) : InodeAttr :=
  set_ctime now (set_mtime now (set_nlink (u32_wrap (nlink pa - 1)) pa)).

Lemma rmdir_plan_spec ctx now db parent name skip e ca b :
  FsInv (view db) -> 0 <= parent ->
  rmdir_plan ctx now db parent name skip = Ok ((e, ca), b) ->
  fs_dent (view db) parent name = Some e /\ de_typ e = Directory /\ 0 <= de_inode e /\
  fs_attr (view db) (de_inode e) = Some ca /\ kind ca = Directory /\
  (forall n, fs_dent (view db) (de_inode e) n = None) /\
  exists pa, fs_attr (view db) parent = Some pa /\ kind pa = Directory /\
    check_access ctx pa (Z.lor MODE_MASK_W MODE_MASK_X) = Ok () /\
    sticky_denied ctx pa ca = false /\ mtime pa <= now /\
    denotes b (fun s => when (skip <=? now - mtime pa) (put_attr parent (rmdir_parent now pa))
      (del_attr (de_inode e) (del_dent parent name s))).
Proof.
  unfold rmdir_plan. intros Hs Hp H. inv_ok. to_prop.
  apply view_dent in Hr. apply view_attr in Hr1, Hr3. destruct r5.
  destruct (fi_entry _ Hs _ _ _ Hp Hr) as (_ & _ & Hi & _ & _).
  pose proof (no_children _ _ Hr7) as Hnc.
  unfold duration_since in Hr9. simpl in Hr9. destruct (mtime r1 <=? now) eqn:Hm; [|done].
  injection Hr9 as <-. to_prop.
  unfold is_dir in *. to_prop.
  split_and!; try done. exists r1. split_and!; try done.
  destruct (skip <=? now - mtime r1); denote.
Qed.

Lemma rmdir_plan_inv ctx now db parent name skip r b :
  FsInv (view db) -> 0 <= parent ->
  rmdir_plan ctx now db parent name skip = Ok (r, b) -> FsInv (view (kv_write b db)).
Proof.
  intros Hs Hp H. destruct r as [e ca].
  apply rmdir_plan_spec in H as (He & Ht & Hi & Hca & _ & Hempty & pa & Hpa & Hpk & _ & _ & _ & Hd);
    [|done..].
  rewrite (Hd db).
  assert (Hne : de_inode e <> parent) by (intros E; rewrite E in Hempty; by rewrite Hempty in He).
  assert (Hs1 : FsInv (del_attr (de_inode e) (del_dent parent name (view db)))).
  { apply inv_del_attr; [by apply inv_del_dent|done|by apply dir_unlinked_after|].
    intros n. fs_simpl. case_decide; [done|]. apply Hempty. }
  destruct (skip <=? now - mtime pa); [|exact Hs1].
  apply (inv_put_attr_ge _ parent pa); [exact Hs1|done| |done|apply u32_wrap_range|congruence].
  fs_simpl. by rewrite decide_False.
Qed.

(** *** link *)

Definition link_child (now : SystemTime) (ca : InodeAttr) : InodeAttr :=
  set_parent ZERO_INO (set_nlink (u32_wrap (nlink ca + 1)) (set_ctime now ca)).

Lemma update_if_same now skip pa pa' c :
  update_modification_time_if now skip pa = (pa', c) -> kind pa' = kind pa /\ nlink pa' = nlink pa.
Proof. unfold update_modification_time_if. case_if; intros [= <- <-]; done. Qed.

Lemma link_plan_spec ctx now skip db inode np nn ca' b :
  0 <= inode -> 0 <= np ->
  link_plan ctx now skip db inode np nn = Ok (ca', b) ->
  fs_dent (view db) np nn = None /\
  exists pa ca, fs_attr (view db) np = Some pa /\ kind pa = Directory /\
    check_access ctx pa MODE_MASK_W = Ok () /\
    fs_attr (view db) inode = Some ca /\ kind ca <> Directory /\ is_normal ca = true /\
    ca' = link_child now ca /\
    denotes b (fun s => put_attr inode ca'
      (when (update_modification_time_if now skip pa).2
         (put_attr np (update_modification_time_if now skip pa).1)
         (put_dent np nn (mkDEntry np nn inode (kind ca)) s))).
Proof.
  unfold link_plan. intros Hi Hp H. apply bind_Ok in H as (pa & Hpa & H).
  inv_ok. destruct (update_modification_time_if now skip pa) as [pa' c] eqn:Hu.
  inv_ok. to_prop. unfold is_dir in *. to_prop.
  apply view_attr in Hpa, Hr2. apply view_dent_None in Hr5. destruct r0.
  split; [done|]. exists pa, r2. simpl in Hr6. inv_ok.
  split_and!; try done. rewrite Hu. cbn [fst snd]. destruct c; denote.
Qed.

Lemma link_plan_inv ctx now skip db inode np nn r b :
  FsInv (view db) -> 0 <= inode -> 0 <= np ->
  (forall a, fs_attr (view db) inode = Some a -> nlink a < 2 ^ 32 - 1) ->
  link_plan ctx now skip db inode np nn = Ok (r, b) -> FsInv (view (kv_write b db)).
Proof.
  intros Hs Hi Hp Hmax H.
  apply link_plan_spec in H as (Hnone & pa & ca & Hpa & Hpk & _ & Hca & Hck & _ & -> & Hd); [|done..].
  rewrite (Hd db).
  destruct (update_modification_time_if now skip pa) as [pa' c] eqn:Hu. simpl.
  apply update_if_same in Hu as [Hk Hl].
  pose proof (fi_u32 _ Hs _ _ Hp Hpa) as Hpr. pose proof (fi_u32 _ Hs _ _ Hi Hca) as Hcr.
  specialize (Hmax _ Hca).
  assert (Hn : nlink (link_child now ca) = nlink ca + 1).
  { simpl. unfold u32_wrap. rewrite Z.mod_small; lia. }
  assert (Hne : np <> inode) by congruence.
  assert (Hs1 : FsInv (when c (put_attr np pa') (view db))).
  { destruct c; [|done]. apply (inv_put_attr_ge _ np pa); rewrite ?Hk, ?Hl; done. }
  assert (Hca1 : fs_attr (when c (put_attr np pa') (view db)) inode = Some ca).
  { destruct c; [|done]. simpl when. fs_simpl. by rewrite decide_False. }
  destruct (fi_links _ Hs1 _ _ Hi Hca1 Hck) as (l & Hll & Hlen).
  assert (Hs2 : FsInv (put_attr inode (link_child now ca) (when c (put_attr np pa') (view db)))).
  { apply (inv_put_attr_ge _ inode ca); [done|done|done|done|lia|lia]. }
  assert (Hs3 : FsInv (put_dent np nn (mkDEntry np nn inode (kind (link_child now ca)))
            (put_attr inode (link_child now ca) (when c (put_attr np pa') (view db))))).
  { apply inv_put_dent; try done.
    - by destruct c.
    - destruct c; [exists pa'|exists pa]; simpl when; fs_simpl; rewrite ?decide_True by done;
        rewrite ?decide_False by done; rewrite ?decide_True by done; split; congruence.
    - fs_simpl. by rewrite decide_True.
    - intros _. exists l. split; [done|lia]. }
  destruct c; exact Hs3.
Qed.

(** *** unlink *)

Definition unlink_attr (now : SystemTime) (a : InodeAttr) : InodeAttr :=
  set_nlink (u32_wrap (nlink a - 1)) (set_ctime now a).

(** The inode's attributes stay while it has links or is open. *)
Definition keep_inode (a : InodeAttr) (opened : bool) : bool :=
  (0 <? nlink a) || (bool_decide (kind a = RegularFile) && opened).

Lemma unlink_inode_denotes now2 db sid parent inode a opened b space inodes :
  0 <= inode ->
  unlink_inode now2 db sid parent inode a opened = Ok (b, space, inodes) ->
  denotes b (if keep_inode a opened then put_attr inode a else del_attr inode).
Proof.
  intros Hi H. unfold unlink_inode, keep_inode in *. destruct (0 <? nlink a).
  - inv_ok. simpl.
    assert (Hd : denotes r (fun s => s)).
    { destruct (is_zero (Types.parent a)); inv_ok; [|denote]. destruct (0 <? r0); denote. }
    denote.
  - apply bind_Ok in H as ([[b0 sp] ino] & Hb & H). inv_ok.
    assert (Hx := denotes_purge db FXattr inode Hi ltac:(done)).
    assert (Hpp : denotes (if is_zero (Types.parent a)
        then delete_prefix_in_txn_write_batch db (Key.parent_prefix inode) else []) (fun s => s)).
    { destruct (is_zero (Types.parent a)); [|denote]. by apply (denotes_purge db FParent). }
    assert (Hd : denotes b0 (if bool_decide (kind a = RegularFile) && opened
                             then put_attr inode a else del_attr inode)).
    { destruct (kind a); simpl; inv_ok; try denote.
      destruct opened; inv_ok; [denote|].
      match goal with H : set_delete_chunk_after_in_write_batch _ _ = _ |- _ =>
        apply denotes_delete_after in H end. denote. }
    simpl. destruct (bool_decide (kind a = RegularFile) && opened); denote.
Qed.

Lemma unlink_plan_spec ctx now1 now2 skip oft db parent name sid r b :
  FsInv (view db) -> 0 <= parent ->
  unlink_plan ctx now1 now2 skip oft db parent name sid = Ok (r, b) ->
  exists e pa a, fs_dent (view db) parent name = Some e /\ de_typ e <> Directory /\
    0 <= de_inode e /\
    fs_attr (view db) parent = Some pa /\ kind pa = Directory /\
    fs_attr (view db) (de_inode e) = Some a /\ kind a = de_typ e /\
    sticky_denied ctx pa a = false /\
    let a' := unlink_attr now1 a in
    let opened := is_file a && (nlink a' =? 0) && is_opened_in oft (de_inode e) in
    ul_inode r = de_inode e /\ ul_is_opened r = opened /\
    denotes b (fun s =>
      (if keep_inode a' opened then put_attr (de_inode e) a' else del_attr (de_inode e))
        (del_dent parent name
          (when (update_modification_time_if now1 skip pa).2
            (put_attr parent (update_modification_time_if now1 skip pa).1) s))).
Proof.
  unfold unlink_plan. intros Hs Hp H. apply bind_Ok in H as (e & He & H).
  apply bind_Ok in H as (u & Ht & H). apply bind_Ok in H as (pa & Hpa & H).
  apply bind_Ok in H as (u1 & Hdir & H). apply bind_Ok in H as (u2 & _ & H).
  apply bind_Ok in H as (u3 & _ & H). apply bind_Ok in H as ([a' opened] & Htg & H). destruct (update_modification_time_if now1 skip pa) as [pa' c] eqn:Hu.
  apply bind_Ok in H as ([[b0 sp] ino] & Hb & H). inv_ok. to_prop. unfold is_dir in *. to_prop.
  apply view_dent in He. apply view_attr in Hpa.
  destruct (fi_entry _ Hs _ _ _ Hp He) as (_ & _ & Hi & (a & Ha & Hk) & _).
  unfold unlink_target in Htg. rewrite (proj2 (view_attr _ _ _) Ha) in Htg. inv_ok. to_prop.
  apply unlink_inode_denotes in Hb; [|done].
  exists e, pa, a. split_and!; try done. rewrite Hu. cbn [fst snd].
  change (set_nlink (u32_wrap (nlink a - 1)) (set_ctime now1 a)) with (unlink_attr now1 a) in Hb.
  destruct c; (eapply denotes_app; [denote|eapply denotes_app; [denote|exact Hb| |reflexivity]| |reflexivity]);
    destruct (keep_inode _ _); apply _.
Qed.

(** One entry less leaves one link less. *)
Lemma links_after_del db p n e a :
  FsInv (view db) -> 0 <= p -> fs_dent (view db) p n = Some e ->
  fs_attr (view db) (de_inode e) = Some a -> kind a <> Directory ->
  nlink (set_nlink (u32_wrap (nlink a - 1)) a) = nlink a - 1 /\
  exists l, Links (del_dent p n (view db)) (de_inode e) l /\ Z.of_nat (length l) <= nlink a - 1.
Proof.
  intros Hs Hp He Ha Hk. pose proof (inv_link_pos _ _ _ _ _ Hs Hp He Ha Hk) as Hpos.
  destruct (fi_entry _ Hs _ _ _ Hp He) as (_ & _ & Hi & _).
  pose proof (fi_u32 _ Hs _ _ Hi Ha) as Hr.
  destruct (fi_links _ Hs _ _ Hi Ha Hk) as (l & Hl & Hlen).
  destruct (Links_del_dent _ _ _ _ _ _ Hp He Hl) as (l' & Hl' & Hlen').
  rewrite decide_True in Hlen' by done.
  split; [|exists l'; split; [done|lia]]. simpl. unfold u32_wrap. rewrite Z.mod_small; lia.
Qed.

(** Dropping one entry of a non-directory, then keeping or freeing its inode. *)
Lemma drop_entry_inv db p n e a a' opened :
  FsInv (view db) -> 0 <= p -> fs_dent (view db) p n = Some e -> de_typ e <> Directory ->
  fs_attr (view db) (de_inode e) = Some a ->
  kind a' = kind a -> nlink a' = u32_wrap (nlink a - 1) ->
  FsInv ((if keep_inode a' opened then put_attr (de_inode e) a' else del_attr (de_inode e))
           (del_dent p n (view db))).
Proof.
  intros Hs Hp He Ht Ha Hk Hn.
  destruct (fi_entry _ Hs _ _ _ Hp He) as (_ & _ & Hi & (a0 & Ha0 & Hk0) & _).
  assert (a0 = a) as -> by congruence.
  destruct (links_after_del db p n e a Hs Hp He Ha ltac:(congruence)) as (Hn' & l & Hl & Hlen).
  simpl in Hn'. pose proof (inv_del_dent _ p n Hs Hp) as Hs1.
  pose proof (fi_u32 _ Hs _ _ Hi Ha) as Hr.
  destruct (keep_inode a' opened) eqn:Hkeep.
  - apply (inv_put_attr _ _ a); [done|done|exact Ha|done|lia|]. intros _.
    exists l. split; [done|lia].
  - apply orb_false_iff in Hkeep as [Hz _]. to_prop.
    assert (l = []) as -> by (destruct l; [done|simpl in Hlen; lia]).
    apply inv_del_attr; [done|done|by apply Links_nil|].
    apply (inv_nondir_empty _ _ a); [done|done|exact Ha|congruence].
Qed.

Lemma unlink_plan_inv ctx now1 now2 skip oft db parent name sid r b :
  FsInv (view db) -> 0 <= parent ->
  unlink_plan ctx now1 now2 skip oft db parent name sid = Ok (r, b) -> FsInv (view (kv_write b db)).
Proof.
  intros Hs Hp H.
  apply unlink_plan_spec in H
    as (e & pa & a & He & Ht & Hi & Hpa & Hpk & Ha & Hk & _ & _ & _ & Hd); [|done..].
  rewrite (Hd db). clear Hd.
  set (opened := is_file a && _ && _). set (a' := unlink_attr now1 a).
  pose proof (drop_entry_inv db parent name e a a' opened Hs Hp He Ht Ha eq_refl eq_refl) as Hs1.
  destruct (update_modification_time_if now1 skip pa) as [pa' c] eqn:Hu. simpl.
  apply update_if_same in Hu as [Hpk' Hpl].
  assert (Hne : de_inode e <> parent) by (intros E; rewrite E in Ha; congruence).
  pose proof (fi_u32 _ Hs _ _ Hp Hpa) as Hpr.
  destruct c; [|exact Hs1]. simpl.
  assert (Hs2 : FsInv (put_attr parent pa'
      ((if keep_inode a' opened then put_attr (de_inode e) a' else del_attr (de_inode e))
           (del_dent parent name (view db))))).
  { apply (inv_put_attr_ge _ parent pa); [done|done| |done|lia|lia].
    destruct (keep_inode a' opened); fs_simpl; by rewrite decide_False. }
  eapply FsInv_proper; [|exact Hs2].
  destruct (keep_inode a' opened); (split; [|done]); fs_simpl; intros j Hj;
    repeat case_decide; congruence.
Qed.
End namespace.
