(* ===== verification/Rename.v ===== *)
(** * rename keeps the namespace well formed

    The parts of [rename_plan] (source checks, destination, replacement or
    exchange) are refined to namespace updates; the theorem at the end covers
    every combination of flags, hard links, replaced files and directories,
    and failing writes. *)

From S2P Require Import Prelude Common Types Bincode Slice Keys KV Meta OpenFiles Backend.
From S2P Require Import FsModel Namespace.

Section rename.
Context `{L : Layout} `{KL : KVLaws} `{CL : MetaCodecLaws}.

Lemma rename_source_spec ctx db op np e opa npa oa :
  rename_source ctx db op np e = Ok (opa, npa, oa) ->
  fs_attr (view db) op = Some opa /\ kind opa = Directory /\
  fs_attr (view db) np = Some npa /\ kind npa = Directory /\
  fs_attr (view db) (de_inode e) = Some oa /\ de_inode e <> np.
Proof.
  unfold rename_source. intros H. apply bind_Ok in H as (a1 & H1 & H).
  apply bind_Ok in H as (u1 & Hd1 & H). apply bind_Ok in H as (u2 & _ & H).
  apply bind_Ok in H as (a2 & H2 & H). apply bind_Ok in H as (u3 & Hd2 & H).
  apply bind_Ok in H as (u4 & _ & H). apply bind_Ok in H as (u5 & Hne & H).
  apply bind_Ok in H as (a3 & H3 & H). inv_ok. to_prop. unfold is_dir in *. to_prop.
  apply view_attr in H1, H2, H3. by split_and!.
Qed.

(** The updated attributes of a directory differ only where it does not matter. *)
Definition dir_like (a a' : InodeAttr) : Prop := kind a = Directory -> same_links a a'.

Lemma dir_like_same a : 0 <= nlink a < 2 ^ 32 -> dir_like a a.
Proof. intros Hr Hk. split; [done|]. by split. Qed.

Lemma dir_like_nlink a z : dir_like a (set_nlink (u32_wrap z) a).
Proof. intros Hk. split; [done|]. split; [done|apply u32_wrap_range]. Qed.

Definition dst_spec (db : db_t) (np : Ino) (nn : string) (flags : Z)
    (dst : option (DEntry * InodeAttr)) : Prop :=
  match dst with
  | None => is_exchange flags = false /\ fs_dent (view db) np nn = None
  | Some (d, da') =>
      fs_dent (view db) np nn = Some d /\ bits_contain flags RENAME_NOREPLACE = false /\
      exists da, fs_attr (view db) (de_inode d) = Some da /\ kind da' = kind da /\
        (if is_exchange flags then nlink da' = nlink da
         else if decide (de_typ d = Directory)
         then forall n, fs_dent (view db) (de_inode d) n = None
         else nlink da' = u32_wrap (nlink da - 1))
  end.

Lemma rename_dst_spec ctx now oft db op np nn flags opa npa upd opened dst opa' npa' :
  0 <= nlink opa < 2 ^ 32 -> 0 <= nlink npa < 2 ^ 32 ->
  rename_dst ctx now oft db op np nn flags opa npa = Ok (upd, opened, dst, opa', npa') ->
  dir_like opa opa' /\ dir_like npa npa' /\ dst_spec db np nn flags dst.
Proof.
  unfold rename_dst. intros Ho Hn H.
  destruct (do_get_dentry db np nn) as [d|er|] eqn:Hd; [| |done].
  - apply bind_Ok in H as (u & Hnr & H). apply bind_Ok in H as (da & Hda & H).
    apply bind_Ok in H as (u1 & _ & H).
    apply bind_Ok in H as ([[[[upd' op'] da'] opa1] npa1] & Hmid & H). inv_ok. to_prop.
    apply view_dent in Hd. apply view_attr in Hda. unfold dst_spec.
    destruct (is_exchange flags) eqn:Hx.
    + repeat case_match; inv_ok; (split_and!; [..|eexists; split; [exact Hda|done]]);
        auto using dir_like_same, dir_like_nlink.
    + destruct (decide (de_typ d = Directory)) as [Ht|Ht]; inv_ok; to_prop;
        (split_and!; [..|eexists; split; [exact Hda|split; [done|]]]);
        auto using dir_like_same, dir_like_nlink, no_children.
  - destruct (is_not_found er); [|done]. simpl in H. inv_ok. to_prop.
    split_and!; auto using dir_like_same. split; [done|]. simpl. by rewrite Hd.
Qed.

Lemma rename_replaced_denotes now db sid op opened d da r b :
  0 <= de_inode d ->
  rename_replaced now db sid op opened d da = Ok (r, b) ->
  denotes b (if negb (bool_decide (kind da = Directory)) && keep_inode da opened
             then put_attr (de_inode d) da else del_attr (de_inode d)).
Proof.
  intros Hi H. unfold rename_replaced, keep_inode in *.
  destruct (negb (bool_decide (kind da = Directory)) && (0 <? nlink da)) eqn:Hc.
  - apply andb_true_iff in Hc as [Hc1 Hc2]. rewrite Hc1, Hc2. simpl. inv_ok.
    assert (Hd : denotes r0 (fun s => s)).
    { destruct (is_zero (parent da)); inv_ok; [|denote]. destruct (0 <? r); denote. }
    denote.
  - apply bind_Ok in H as ([r0 b0] & Hb & H). inv_ok.
    assert (Hx := denotes_purge db FXattr (de_inode d) Hi ltac:(done)).
    assert (Hpp : denotes (if is_zero (parent da)
        then delete_prefix_in_txn_write_batch db (Key.parent_prefix (de_inode d)) else []) (fun s => s)).
    { destruct (is_zero (parent da)); [|denote]. by apply (denotes_purge db FParent). }
    assert (Hd : denotes b0 (if bool_decide (kind da = RegularFile) && opened
                             then put_attr (de_inode d) da else del_attr (de_inode d))).
    { destruct (kind da); simpl; inv_ok; try denote.
      destruct opened; inv_ok; [denote|].
      match goal with H : set_delete_chunk_after_in_write_batch _ _ = _ |- _ =>
        apply denotes_delete_after in H end. denote. }
    assert (Heq : negb (bool_decide (kind da = Directory)) &&
              ((0 <? nlink da) || bool_decide (kind da = RegularFile) && opened) =
              bool_decide (kind da = RegularFile) && opened).
    { destruct (kind da); simpl in *; try done; destruct (0 <? nlink da); done. }
    rewrite Heq. destruct (bool_decide (kind da = RegularFile) && opened); denote.
Qed.

Lemma rename_links_denotes db op np i oa b :
  rename_source_links db op np i oa = Ok b -> denotes b (fun s => s).
Proof.
  unfold rename_source_links. destruct (is_zero (parent oa)); intros H; inv_ok; denote.
Qed.

Lemma rename_exchange_denotes db op on np d da b :
  0 <= op -> 0 <= de_inode d ->
  rename_exchange db op on np (Some (d, da)) = Ok b ->
  denotes b (fun s => put_attr (de_inode d) da
    (put_dent op on (mkDEntry op on (de_inode d) (de_typ d)) s)).
Proof.
  unfold rename_exchange. intros Hop Hi H. simpl ok_or in H.
  apply bind_Ok in H as ([d' da'] & Heq & H). injection Heq as <- <-.
  apply bind_Ok in H as (b0 & Hb0 & H). inv_ok.
  assert (Hd : denotes b0 (fun s => s)).
  { destruct (negb (op =? np) && is_zero (parent da)); inv_ok; denote. }
  denote.
Qed.

(** *** The plan as a whole *)

Definition new_entry (np : Ino) (nn : string) (e : DEntry) (oa : InodeAttr) : DEntry :=
  mkDEntry np nn (de_inode e) (kind oa).

(** What the destination part of the batch does. *)
Definition rename_effect (flags : Z) (op : Ino) (on : string) (opened : bool)
    (dst : option (DEntry * InodeAttr)) (s : fs) : fs :=
  match dst with
  | None => del_dent op on s
  | Some (d, da) =>
      if is_exchange flags
      then put_attr (de_inode d) da (put_dent op on (mkDEntry op on (de_inode d) (de_typ d)) s)
      else (if negb (bool_decide (kind da = Directory)) && keep_inode da opened
            then put_attr (de_inode d) da else del_attr (de_inode d)) (del_dent op on s)
  end.

Lemma rename_plan_spec ctx now1 now2 now3 skip oft db sid op on np nn flags r b :
  FsInv (view db) -> 0 <= op -> 0 <= np -> ~ (op = np /\ on = nn) ->
  rename_plan ctx now1 now2 now3 skip oft db sid op on np nn flags = Ok (r, b) ->
  exists e opa npa oa opened dst,
    fs_dent (view db) op on = Some e /\
    fs_attr (view db) op = Some opa /\ kind opa = Directory /\
    fs_attr (view db) np = Some npa /\ kind npa = Directory /\
    fs_attr (view db) (de_inode e) = Some oa /\ de_inode e <> np /\
    dst_spec db np nn flags dst /\
    exists opa' npa' oa' u1 u2,
      same_links opa opa' /\ same_links npa npa' /\ same_links oa oa' /\
      denotes b (fun s => when u2 (put_attr np npa')
        (put_dent np nn (new_entry np nn e oa)
          (put_attr (de_inode e) oa'
            (when u1 (put_attr op opa') (rename_effect flags op on opened dst s))))).
Proof.
  intros Hs Hop Hnp Hdiff H. unfold rename_plan in H.
  apply bind_Ok in H as (e & He & H). apply view_dent in He.
  assert (Hcond : (op =? np) && bool_decide (on = nn) = false).
  { apply not_true_iff_false. intros Hc. to_prop. tauto. }
  rewrite Hcond in H. clear Hcond.
  apply bind_Ok in H as ([[opa npa] oa] & Hsrc & H).
  apply rename_source_spec in Hsrc as (Hopa & Hok & Hnpa & Hnk & Hoa & Hne).
  destruct (fi_entry _ Hs _ _ _ Hop He) as (_ & _ & Hi & _).
  pose proof (fi_u32 _ Hs _ _ Hop Hopa) as Hor. pose proof (fi_u32 _ Hs _ _ Hnp Hnpa) as Hnr.
  pose proof (fi_u32 _ Hs _ _ Hi Hoa) as Hir.
  apply bind_Ok in H as ([[[[upd opened] dst] opa1] npa1] & Hdst & H).
  apply rename_dst_spec in Hdst as (Ho1 & Hn1 & Hds); [|done..].
  specialize (Ho1 Hok). specialize (Hn1 Hnk).
  set (moved := negb (op =? np)) in H.
  set (oa1 := if moved then set_parent np oa else oa) in H.
  set (opa2 := if moved then set_nlink _ opa1 else opa1) in H.
  set (npa2 := if moved then set_nlink _ npa1 else npa1) in H.
  destruct (update_modification_time_if now2 skip opa2) as [opa3 u1] eqn:Hu1.
  destruct (if upd : bool then (update_modification_time_with now2 npa2, true)
            else update_modification_time_if now2 skip npa2) as [npa3 u2] eqn:Hu2.
  apply bind_Ok in H as ([r0 b0] & Hb & H). apply bind_Ok in H as (bl & Hbl & H). inv_ok.
  exists e, opa, npa, oa, opened, dst. split_and!; try done.
  exists opa3, npa3, (set_ctime now2 oa1), (moved && u1), u2.
  assert (Hsl : forall a a', kind a = Directory -> same_links a a' ->
            forall z, same_links a (set_nlink (u32_wrap z) a')).
  { intros a a' Hk (Hk' & _ & _) z. split; [done|]. split; [congruence|apply u32_wrap_range]. }
  assert (Ho2 : same_links opa opa2) by (unfold opa2; destruct moved; auto).
  assert (Hn2 : same_links npa npa2) by (unfold npa2; destruct moved; auto).
  assert (Hsame : forall a a' a'', same_links a a' -> kind a'' = kind a' /\ nlink a'' = nlink a' ->
            same_links a a'').
  { intros a a' a'' (H1 & H2 & H3) [H4 H5]. unfold same_links. rewrite H4, H5. done. }
  split; [apply (Hsame _ opa2); [done|by apply update_if_same in Hu1]|].
  split.
  { apply (Hsame _ npa2); [done|]. destruct upd; [injection Hu2 as <- <-; done|].
    by apply update_if_same in Hu2. }
  split; [unfold oa1, same_links; by destruct moved|].
  assert (Hkk : kind (set_ctime now2 oa1) = kind oa) by (unfold oa1; by destruct moved).
  assert (Hden : denotes b0 (rename_effect flags op on opened dst)).
  { unfold rename_effect. destruct dst as [[d da]|].
    - destruct Hds as (Hd & _). destruct (fi_entry _ Hs _ _ _ Hnp Hd) as (_ & _ & Hj & _).
      destruct (is_exchange flags).
      + apply bind_Ok in Hb as (b1 & Hb1 & Hb). inv_ok. by apply rename_exchange_denotes in Hb1.
      + apply bind_Ok in Hb as ([r1 b1] & Hb1 & Hb). inv_ok.
        apply rename_replaced_denotes in Hb1; [|done].
        eapply denotes_app; [denote|exact Hb1|apply _|reflexivity].
    - destruct Hds as [Hx _]. rewrite Hx in Hb.
      apply bind_Ok in Hb as ([r1 b1] & Hb1 & Hb). inv_ok. denote. }
  assert (Hlinks : denotes bl (fun s => s)).
  { destruct moved; [by apply rename_links_denotes in Hbl|inv_ok; denote]. }
  rewrite Hkk.
  set (f1 := when (moved && u1) (put_attr op opa3)). set (f2 := when u2 (put_attr np npa3)).
  assert (Hd2 : denotes (if u2 then set_attr_in_write_batch np npa3 else []) f2)
    by (by apply denotes_when, denotes_put_attr).
  assert (Hd1 : denotes (if moved && u1 then set_attr_in_write_batch op opa3 else []) f1)
    by (by apply denotes_when, denotes_put_attr).
  assert (Hp1 : Proper (fs_equiv ==> fs_equiv) f1) by apply _.
  assert (Hp2 : Proper (fs_equiv ==> fs_equiv) f2) by apply _.
  clearbody f1 f2 moved oa1.
  denote.
Qed.

(** The attribute updates every rename makes. *)
Definition touch (u1 u2 : bool) (op : Ino) (opa : InodeAttr) (i : Ino) (oa : InodeAttr)
    (np : Ino) (npa : InodeAttr) (s : fs) : fs :=
  when u2 (put_attr np npa) (put_attr i oa (when u1 (put_attr op opa) s)).

Lemma touch_shape s u1 u2 op opa opa' i oa oa' np npa npa' :
  FsInv s -> fs_attr s op = Some opa -> fs_attr s i = Some oa -> fs_attr s np = Some npa ->
  same_links opa opa' -> same_links oa oa' -> same_links npa npa' ->
  shape s (touch u1 u2 op opa' i oa' np npa' s).
Proof.
  intros Hs Ho Hi Hn Hlo Hli Hln. unfold touch.
  eapply shape_when; [|exact Hn|done]. eapply shape_put; [|exact Hi|done].
  eapply shape_when; [|exact Ho|done]. by apply shape_refl.
Qed.

Lemma touch_dent u1 u2 op opa i oa np npa s p n :
  fs_dent (touch u1 u2 op opa i oa np npa s) p n = fs_dent s p n.
Proof. unfold touch. by destruct u1, u2. Qed.

(** Moving the source once the destination name is free. *)
Lemma move_inv s op on e np nn opa opa' npa npa' oa oa' u1 u2 :
  FsInv s -> 0 <= op -> 0 <= np -> fs_dent s op on = Some e -> fs_dent s np nn = None ->
  fs_attr s op = Some opa -> fs_attr s np = Some npa -> kind npa = Directory ->
  fs_attr s (de_inode e) = Some oa ->
  same_links opa opa' -> same_links npa npa' -> same_links oa oa' ->
  FsInv (put_dent np nn (new_entry np nn e oa)
           (del_dent op on (touch u1 u2 op opa' (de_inode e) oa' np npa' s))).
Proof.
  intros Hs Hop Hnp He Hnone Hopa Hnpa Hnk Hoa Ho Hn Hi.
  pose proof (touch_shape s u1 u2 _ _ _ _ _ _ _ _ _ Hs Hopa Hoa Hnpa Ho Hi Hn) as Hsh.
  set (t := touch _ _ _ _ _ _ _ _ _) in *.
  pose proof (shape_inv _ _ Hs Hsh) as Ht.
  destruct (fi_entry _ Hs _ _ _ Hop He) as (_ & _ & Hie & _).
  destruct (shape_attr _ _ _ _ Hsh Hie Hoa) as (a & Ha & Hka & _).
  destruct (shape_attr _ _ _ _ Hsh Hnp Hnpa) as (b & Hb & Hkb & _).
  unfold new_entry. rewrite <- Hka.
  apply inv_move; try done; [by rewrite (proj1 Hsh)|by rewrite (proj1 Hsh)|].
  exists b. split; congruence.
Qed.

(** The state in which the destination name has been freed. *)
Lemma replaced_inv db np nn d da da' opened :
  FsInv (view db) -> 0 <= np -> fs_dent (view db) np nn = Some d ->
  fs_attr (view db) (de_inode d) = Some da -> kind da' = kind da ->
  (if decide (de_typ d = Directory) then forall n, fs_dent (view db) (de_inode d) n = None
   else nlink da' = u32_wrap (nlink da - 1)) ->
  FsInv ((if negb (bool_decide (kind da' = Directory)) && keep_inode da' opened
          then put_attr (de_inode d) da' else del_attr (de_inode d)) (del_dent np nn (view db))).
Proof.
  intros Hs Hnp Hd Hda Hk Hn.
  destruct (fi_entry _ Hs _ _ _ Hnp Hd) as (_ & _ & Hj & (x & Hx & Hkx) & _).
  assert (x = da) as -> by congruence.
  destruct (decide (de_typ d = Directory)) as [Ht|Ht].
  - rewrite bool_decide_true by congruence. simpl.
    apply inv_del_attr; [by apply inv_del_dent|done|by apply dir_unlinked_after|].
    intros n. fs_simpl. case_decide; [done|]. apply Hn.
  - rewrite bool_decide_false by congruence. simpl. by apply (drop_entry_inv db np nn d da da').
Qed.

Lemma rename_plan_inv ctx now1 now2 now3 skip oft db sid op on np nn flags r b :
  FsInv (view db) -> 0 <= op -> 0 <= np -> ~ (op = np /\ on = nn) ->
  rename_plan ctx now1 now2 now3 skip oft db sid op on np nn flags = Ok (r, b) ->
  FsInv (view (kv_write b db)).
Proof.
  intros Hs Hop Hnp Hdiff H.
  apply rename_plan_spec in H as (e & opa & npa & oa & opened & dst & He & Hopa & Hok & Hnpa & Hnk &
    Hoa & Hne & Hds & opa' & npa' & oa' & u1 & u2 & Ho & Hn & Hi & Hd); [|done..].
  rewrite (Hd db). clear Hd.
  pose proof (fi_entry _ Hs _ _ _ Hop He) as (_ & _ & Hie & (x & Hx & Hkx) & _).
  assert (x = oa) as -> by congruence.
  destruct dst as [[d da']|]; unfold rename_effect.
  2: { destruct Hds as [_ Hnone].
    pose proof (move_inv _ op on e np nn _ _ _ _ _ _ u1 u2 Hs Hop Hnp He Hnone Hopa Hnpa Hnk Hoa Ho Hn Hi)
      as Hm. unfold touch in Hm. destruct u1, u2; exact Hm. }
  destruct Hds as (Hd & _ & da & Hda & Hk & Hcase).
  pose proof (fi_entry _ Hs _ _ _ Hnp Hd) as (_ & _ & Hj & (y & Hy & Hky) & _).
  assert (y = da) as -> by congruence.
  destruct (is_exchange flags).
  - assert (Hld : same_links da da').
    { split; [done|]. rewrite Hcase. split; [done|]. eapply fi_u32; eauto. }
    set (t := touch u1 u2 op opa' (de_inode e) oa' np npa' (put_attr (de_inode d) da' (view db))).
    assert (Hsh : shape (view db) t).
    { unfold t, touch. eapply shape_when; [|exact Hnpa|done]. eapply shape_put; [|exact Hoa|done].
      eapply shape_when; [|exact Hopa|done]. eapply shape_put; [|exact Hda|done]. by apply shape_refl. }
    destruct (shape_attr _ _ _ _ Hsh Hie Hoa) as (a & Ha & Hka & _).
    destruct (shape_attr _ _ _ _ Hsh Hj Hda) as (c & Hc & Hkc & _).
    pose proof (inv_swap t op on e np nn d a c (shape_inv _ _ Hs Hsh) Hop Hnp Hdiff) as Hsw.
    rewrite !(proj1 Hsh) in Hsw. specialize (Hsw He Hd Ha Hc).
    rewrite Hka, Hkc, Hky in Hsw. unfold t, touch in Hsw. destruct u1, u2; exact Hsw.
  - destruct (decide (de_inode d = de_inode e)) as [Heq|Hneq].
    + assert (Hs1 := inv_del_dent _ np nn Hs Hnp).
      assert (He1 : fs_dent (del_dent np nn (view db)) op on = Some e)
        by (by rewrite del_dent_ne).
      assert (Hn1 : fs_dent (del_dent np nn (view db)) np nn = None)
        by apply del_dent_eq.
      pose proof (move_inv _ op on e np nn _ _ _ _ _ _ u1 u2 Hs1 Hop Hnp He1 Hn1 Hopa Hnpa Hnk Hoa Ho Hn Hi)
        as Hm. eapply FsInv_proper; [|exact Hm].
      split; unfold touch; destruct u1, u2, (negb _ && _); simpl when; fs_simpl; intros;
        repeat case_decide; congruence || tauto.
    + pose proof (replaced_inv db np nn d da da' opened Hs Hnp Hd Hda Hk Hcase) as Hs1.
      set (dst := if negb _ && _ then put_attr (de_inode d) da' else del_attr (de_inode d)) in *.
      assert (Hdd : forall s p n, fs_dent (dst s) p n = fs_dent s p n)
        by (intros; unfold dst; by destruct (negb _ && _)).
      assert (Hda' : forall s j, de_inode d <> j -> fs_attr (dst s) j = fs_attr s j).
      { intros s j Hj'. unfold dst. destruct (negb _ && _); fs_simpl; by rewrite decide_False. }
      assert (Hnop : de_inode d <> op).
      { intros E. subst op. rewrite Hda in Hopa. injection Hopa as ->.
        rewrite decide_True in Hcase by congruence. by rewrite Hcase in He. }
      assert (Hnnp : de_inode d <> np).
      { intros E. subst np. rewrite Hda in Hnpa. injection Hnpa as ->.
        rewrite decide_True in Hcase by congruence. by rewrite Hcase in Hd. }
      assert (Hm : FsInv (put_dent np nn (new_entry np nn e oa) (del_dent op on
          (touch u1 u2 op opa' (de_inode e) oa' np npa' (dst (del_dent np nn (view db))))))).
      { eapply (move_inv _ op on e np nn opa _ npa); try done; rewrite ?Hdd, ?Hda' by done; try done.
        - by rewrite del_dent_ne.
        - apply del_dent_eq. }
      eapply FsInv_proper; [|exact Hm].
      split; unfold touch; destruct u1, u2; simpl when; fs_simpl; intros;
        rewrite ?Hdd; fs_simpl; unfold dst; destruct (negb _ && _); fs_simpl; try done;
        repeat case_decide; congruence || tauto.
Qed.

Lemma rename_inv env ctx now1 now2 now3 skip oft db sid op on np nn flags r db' :
  FsInv (view db) -> 0 <= op -> 0 <= np ->
  do_rename env ctx now1 now2 now3 skip oft db sid op on np nn flags = (r, db') -> FsInv (view db').
Proof.
  intros Hs Hop Hnp H. unfold do_rename in H.
  destruct (decide (op = np /\ on = nn)) as [[-> ->]|Hdiff].
  - unfold rename_plan in H. destruct (do_get_dentry db np nn); simpl in H;
      rewrite ?Z.eqb_refl, ?bool_decide_true in H by done; simpl in H; by simplify_eq.
  - destruct (rename_plan ctx now1 now2 now3 skip oft db sid op on np nn flags) as [[r' b]| |] eqn:Hp;
      [|simpl in H; by simplify_eq..].
    destruct b as [|o b]; [by simplify_eq|].
    eapply write_plan_inv; [exact Hs| |exact H]. intros a b' Hb. inv_ok.
    eapply rename_plan_inv; [exact Hs|exact Hop|exact Hnp|exact Hdiff|exact Hp].
Qed.
End rename.
