(* ===== verification/Reach.v ===== *)
(** * Every reachable metadata store holds a well-formed namespace

    [ns_step] is the step relation of the metadata store: one constructor per
    backend operation that changes it, with any outcome and any failing write or
    commit.  The operations that check what they are given ([do_mknod], [do_rmdir],
    [do_link], [do_unlink], [do_rename], [do_truncate], [commit_slice]) and the writes
    outside the namespace (chunks, symbolic links, directory statistics, the format,
    the counters, the chunks of a deleted file) take any arguments, up to what no
    check can see: the inode and the attributes of a new node are unused and fit its
    type, and no link count is at its bound.  The two raw writes of the namespace,
    [set_attr] and [set_dentry], check nothing: [set_attr] is for an existing inode
    whose type and link count it keeps, [set_dentry] for a free name in an existing
    directory and an existing inode of the type it writes, which has a link to spare
    or is a directory without an entry.  Without this the backend writes whatever it
    is told, dangling entries included.  The invariant of [FsModel] holds at every
    store reachable from a freshly initialized volume. *)

From S2P Require Import Prelude Common Types Bincode Slice Keys KV Meta OpenFiles Backend.
From S2P Require Import FsModel Namespace Rename.

Section reach.
Context `{L : Layout} `{KL : KVLaws} `{CL : MetaCodecLaws}.

Inductive ns_step : db_t -> db_t -> Prop :=
| st_mknod env ctx now1 now2 db new a0 parent name typ path r db' :
    0 <= parent -> 0 <= new -> fs_attr (view db) new = None ->
    kind a0 = typ -> 0 <= nlink a0 < 2 ^ 32 -> (typ <> Directory -> 1 <= nlink a0) ->
    do_mknod env ctx now1 now2 db new a0 parent name typ path = (r, db') -> ns_step db db'
| st_rmdir env ctx now db parent name skip r db' :
    0 <= parent -> do_rmdir env ctx now db parent name skip = (r, db') -> ns_step db db'
| st_link env ctx now skip db inode np nn r db' :
    0 <= inode -> 0 <= np ->
    (forall a, fs_attr (view db) inode = Some a -> nlink a < 2 ^ 32 - 1) ->
    do_link env ctx now skip db inode np nn = (r, db') -> ns_step db db'
| st_unlink env ctx now1 now2 skip oft db parent name sid r db' :
    0 <= parent -> do_unlink env ctx now1 now2 skip oft db parent name sid = (r, db') -> ns_step db db'
| st_rename env ctx now1 now2 now3 skip oft db sid op on np nn flags r db' :
    0 <= op -> 0 <= np ->
    do_rename env ctx now1 now2 now3 skip oft db sid op on np nn flags = (r, db') -> ns_step db db'
| st_truncate env ctx now1 now2 db inode len skip r db' :
    0 <= inode -> do_truncate env ctx now1 now2 db inode len skip = (r, db') -> ns_step db db'
| st_commit_slice env now1 now2 db inode idx sl r db' :
    0 <= inode -> commit_slice env now1 now2 db inode idx sl = (r, db') -> ns_step db db'
| st_set_attr env db inode a a' r db' :
    0 <= inode -> fs_attr (view db) inode = Some a -> same_links a a' ->
    set_attr env db inode a' = (r, db') -> ns_step db db'
| st_set_dentry env db parent name inode a r db' :
    0 <= parent -> 0 <= inode -> fs_dent (view db) parent name = None ->
    (exists b, fs_attr (view db) parent = Some b /\ kind b = Directory) -> fs_attr (view db) inode = Some a ->
    (kind a = Directory -> unlinked (view db) inode) ->
    (kind a <> Directory -> exists l, Links (view db) inode l /\ Z.of_nat (length l) + 1 <= nlink a) ->
    set_dentry env db parent name inode (kind a) = (r, db') -> ns_step db db'
| st_set_symlink env db inode path r db' : set_symlink env db inode path = (r, db') -> ns_step db db'
| st_set_chunk_slices env db inode idx sls r db' : set_chunk_slices env db inode idx sls = (r, db') -> ns_step db db'
| st_set_raw_chunk_slices env db inode idx buf r db' :
    set_raw_chunk_slices env db inode idx buf = (r, db') -> ns_step db db'
| st_set_dir_stat env db inode d r db' : set_dir_stat env db inode d = (r, db') -> ns_step db db'
| st_delete_chunks env db inode : 0 <= inode -> ns_step db (do_delete_chunks env db inode)
| st_set_format env db f r db' : set_format env db f = (r, db') -> ns_step db db'
| st_increase env db c step r db' : increase_count_by env db c step = (r, db') -> ns_step db db'.

(** *** Operations outside the namespace *)

Lemma view_put_outside db k v : outside k -> fs_equiv (view (kv_put k v db)) (view db).
Proof. intros Hk. apply (denotes_outside [BPut k v]). by apply Forall_singleton. Qed.

Lemma view_txn_put_attr db i a :
  0 <= i -> fs_equiv (view (txn_put_attr db i a)) (put_attr i a (view db)).
Proof. intros Hi. by apply denotes_put_attr. Qed.

Lemma stage_chunk_view db i c s x n db' :
  stage_chunk_slice db i c s = Ok (x, n, db') -> fs_equiv (view db') (view db).
Proof.
  unfold stage_chunk_slice. intros H. destruct (negb (_ =? 0)); [done|].
  destruct (negb (any_chunk_eq _ _ _)); inv_ok; [|done].
  apply view_put_outside. by apply (outside_key (KChunk i c) 0).
Qed.

Lemma truncate_holes_view fuel i pos len db db' :
  truncate_holes fuel i pos len db = Ok db' -> fs_equiv (view db') (view db).
Proof.
  revert pos db. induction fuel as [|fuel IH]; intros pos db H; simpl in H; [by inv_ok|].
  destruct (pos <? len); [|by inv_ok].
  apply bind_Ok in H as ([[x n] db1] & H1 & H).
  apply stage_chunk_view in H1. rewrite <- H1. by eapply IH.
Qed.

Lemma commit_txn_cases {A} env db (m : Result (A * db_t)) r db' :
  commit_txn env db m = (r, db') -> db' = db \/ exists a, m = Ok (a, db').
Proof.
  unfold commit_txn. destruct m as [[a t]| |]; [destruct (commit_ok env)|..];
    intros [= <- <-]; eauto.
Qed.

Lemma put_same_inv s i a a' :
  FsInv s -> fs_attr s i = Some a -> same_links a a' -> FsInv (put_attr i a' s).
Proof.
  intros Hs Ha Hl. eapply shape_inv; [exact Hs|]. eapply shape_put; [|exact Ha|done].
  by apply shape_refl.
Qed.

Lemma truncate_inv env ctx now1 now2 db inode len skip r db' :
  FsInv (view db) -> 0 <= inode ->
  do_truncate env ctx now1 now2 db inode len skip = (r, db') -> FsInv (view db').
Proof.
  intros Hs Hi H. apply commit_txn_cases in H as [->|(a & H)]; [done|].
  apply bind_Ok in H as (oa & Hoa & H). apply bind_Ok in H as (u1 & _ & H).
  apply bind_Ok in H as (u2 & _ & H). apply bind_Ok in H as (u3 & _ & H).
  apply bind_Ok in H as (u4 & _ & H). apply bind_Ok in H as (txn & Ht & H). cbv zeta in H. inv_ok.
  apply view_attr in Hoa.
  assert (Hv : fs_equiv (view txn) (view db)).
  { destruct (attr_length oa <? len); [by eapply truncate_holes_view|by inv_ok]. }
  rewrite view_txn_put_attr, Hv by done. eapply put_same_inv; [done|exact Hoa|].
  split; [done|]. split; [done|]. exact (fi_u32 _ Hs inode oa Hi Hoa).
Qed.

Lemma commit_slice_inv env now1 now2 db inode idx sl r db' :
  FsInv (view db) -> 0 <= inode ->
  commit_slice env now1 now2 db inode idx sl = (r, db') -> FsInv (view db').
Proof.
  intros Hs Hi H. apply commit_txn_cases in H as [->|(a & H)]; [done|].
  apply bind_Ok in H as (oa & Hoa & H). apply bind_Ok in H as (u1 & _ & H).
  apply bind_Ok in H as ([[ins n] txn] & Ht & H). cbv zeta in H. inv_ok.
  apply view_attr in Hoa. apply stage_chunk_view in Ht.
  match goal with |- context [if ?c then txn_put_attr _ _ _ else _] => destruct c end;
    [|by rewrite Ht].
  rewrite view_txn_put_attr, Ht by done. eapply put_same_inv; [done|exact Hoa|].
  pose proof (fi_u32 _ Hs _ _ Hi Hoa) as Hu.
  destruct (negb (_ =? 0)); (split; [done|]; split; [done|exact Hu]).
Qed.

Lemma counter_outside c : outside (Key.counter_key c).
Proof. apply (outside_key (KCounter c) 0); by destruct c. Qed.

Lemma delete_chunks_view db i :
  0 <= i ->
  fs_equiv (view (kv_write (delete_prefix_in_txn_write_batch db (Key.chunk_slices_prefix i)
    ++ [BDelete (Key.delete_chunk_after i)]) db)) (view db).
Proof.
  intros Hi. pose proof (denotes_purge db FChunk i Hi ltac:(done)) as Hp. rewrite kv_write_app.
  assert (Hd : denotes [BDelete (Key.delete_chunk_after i)] (fun s => s)).
  { apply denotes_outside, Forall_singleton. by apply (outside_key (KDelete i) 0). }
  etransitivity; [apply Hd|apply Hp].
Qed.

Lemma db_put_outside_inv env db k v r db' :
  outside k -> db_put env db k v = (r, db') -> FsInv (view db) -> FsInv (view db').
Proof.
  intros Hk H Hs. unfold db_put in H. destruct (write_ok env); injection H as <- <-; [|done]. by rewrite view_put_outside.
Qed.

Lemma set_dentry_inv env db parent name inode a r db' :
  FsInv (view db) -> 0 <= parent -> 0 <= inode -> fs_dent (view db) parent name = None ->
  (exists b, fs_attr (view db) parent = Some b /\ kind b = Directory) -> fs_attr (view db) inode = Some a ->
  (kind a = Directory -> unlinked (view db) inode) ->
  (kind a <> Directory -> exists l, Links (view db) inode l /\ Z.of_nat (length l) + 1 <= nlink a) ->
  set_dentry env db parent name inode (kind a) = (r, db') -> FsInv (view db').
Proof.
  intros Hs Hp Hi Hn Hdir Ha Hd Hl H. unfold set_dentry, db_put in H. destruct (write_ok env); injection H as <- <-; [|done].
  pose proof (denotes_put_dent parent name inode (kind a) Hp db) as Hv.
  change (FsInv (view (kv_write (set_dentry_in_write_batch parent name inode (kind a)) db))). rewrite Hv. by apply inv_put_dent.
Qed.

Lemma ns_step_inv db db' : ns_step db db' -> FsInv (view db) -> FsInv (view db').
Proof.
  intros Hst Hs. destruct Hst.
  - eapply write_plan_inv; [exact Hs| |eassumption]. intros ? ? Hp. eapply mknod_plan_inv; [..|exact Hp]; eassumption.
  - eapply write_plan_inv; [exact Hs| |eassumption]. intros ? ? Hp. eapply rmdir_plan_inv; [..|exact Hp]; eassumption.
  - eapply write_plan_inv; [exact Hs| |eassumption]. intros ? ? Hp. eapply link_plan_inv; [..|exact Hp]; eassumption.
  - eapply write_plan_inv; [exact Hs| |eassumption]. intros ? ? Hp. eapply unlink_plan_inv; [..|exact Hp]; eassumption.
  - eapply rename_inv; [..|eassumption]; eassumption.
  - eapply truncate_inv; [..|eassumption]; eassumption.
  - eapply commit_slice_inv; [..|eassumption]; eassumption.
  - unfold set_attr, db_put in *. destruct (write_ok env); simplify_eq; [|done].
    change (FsInv (view (txn_put_attr db inode a'))). rewrite view_txn_put_attr by done.
    by eapply put_same_inv.
  - eapply set_dentry_inv; [..|eassumption]; eassumption.
  - eapply db_put_outside_inv; [|eassumption|done]. by apply (outside_key (KSymlink inode) 0).
  - eapply db_put_outside_inv; [|eassumption|done]. by apply (outside_key (KChunk inode idx) 0).
  - unfold set_raw_chunk_slices in *. destruct (db_put env db (Key.chunk_slices inode idx) buf) as [r1 db1] eqn:E. simplify_eq.
    eapply db_put_outside_inv; [|exact E|done]. by apply (outside_key (KChunk inode idx) 0).
  - eapply db_put_outside_inv; [|eassumption|done]. by apply (outside_key (KDirStat inode) 0).
  - unfold do_delete_chunks. eapply (write_plan_inv env db); [exact Hs| |apply surjective_pairing].
    intros a b Hb. inv_ok. by rewrite delete_chunks_view.
  - unfold set_format, db_put in *. destruct (write_ok env); simplify_eq; [|done].
    rewrite view_put_outside; [done|]. by apply (outside_key KFormat 0).
  - apply commit_txn_cases in H as [->|(a & H)]; [done|].
    apply bind_Ok in H as (cur & _ & H). cbv zeta in H. inv_ok.
    rewrite view_put_outside; [done|apply counter_outside].
Qed.
End reach.
