(* ===== verification/RefStore.v ===== *)
(** * Concrete instances

    A map-backed store and reference codecs that satisfy the interfaces of
    [KV], [Bincode] and [Backend].  They discharge the interfaces' laws, so
    every theorem proved against them has a model, and they let the definitions
    be evaluated on concrete volumes. *)

From S2P Require Import Prelude Common Types Bincode RangeMap Slice Keys KV Meta OpenFiles.
From S2P Require Import Backend FsModel Namespace.

Definition ref_codec : MetaCodec := {|
  mc_attr := codec_bincode codec_InodeAttr;
  mc_dentry := codec_bincode codec_DEntry;
  mc_format := codec_bincode codec_Format;
  mc_dir_stat := codec_bincode codec_DirStat;
  mc_slice := slice_bincode;
  mc_slices l := le_bytes 8 (Z.of_nat (length l)) ++ (l ≫= slice_ser);
  mc_u64 := codec_bincode codec_Z
|}.

Lemma ref_codec_laws : @MetaCodecLaws ref_codec.
Proof.
  constructor; simpl; try apply codec_bincode_laws; [apply slice_bincode_laws|].
  intros z _. apply (codec_bincode_laws codec_Z).
Qed.

#[export] Existing Instance gmap_store.
#[export] Existing Instance gmap_store_laws.
#[export] Existing Instance ref_codec.
#[export] Existing Instance ref_codec_laws.

(** An empty store and a volume with an initialized root directory. *)
Definition empty_db : db_t := (∅ : gmap string bytes).

Definition ref_root : InodeAttr :=
  mkAttr 0 Directory 0x1FF 0 0 0 0 0 0 0 2 4096 ROOT_INO false.

Definition root_ctx : FuseContext := from_uid_gid_pid 0 0 1.
Definition user_ctx : FuseContext := from_uid_gid_pid 1000 1000 1.

Definition ref_volume : db_t := (initialize_volume good_env empty_db format_default ref_root).2.

(** A new file or directory with the attributes the engine gives it. *)
Definition ref_attr (k : FileType) (parent : Ino) : InodeAttr :=
  mkAttr 0 k 0x1ED 0 0 0 0 0 0 0 (if decide (k = Directory) then 2 else 1)
    (if decide (k = Directory) then 4096 else 0) parent false.

Definition ref_mknod (now : SystemTime) (new : Ino) (k : FileType) (parent : Ino) (name : string)
    (db : db_t) : db_t :=
  (do_mknod good_env root_ctx now now db new (ref_attr k parent) parent name k "").2.
