(* ===== verification/NsThms.v ===== *)
(** * What the namespace operations promise

    The functional behaviour of [do_mknod], [do_rmdir], [do_link], [do_unlink]
    and [do_rename] on the namespace, their error paths, and the invariant of
    every reachable store. *)

From S2P Require Import Prelude Common Types Bincode Slice Keys KV Meta OpenFiles Backend.
From S2P Require Import FsModel Namespace Rename Reach RefStore.

Section thms.
Context `{L : Layout} `{KL : KVLaws} `{CL : MetaCodecLaws}.

(** A store with no inodes and no entries. *)
Definition blank (db : db_t) : Prop :=
  (forall i, 0 <= i -> fs_attr (view db) i = None) /\
  (forall p n, 0 <= p -> fs_dent (view db) p n = None).

Lemma initialize_view env db f root db' :
  initialize_volume env db f root = (Ok (), db') ->
  fs_equiv (view db') (put_attr ROOT_INO root (view db)).
Proof.
  intros H. unfold initialize_volume, commit_txn in H.
  destruct (bool_decide _); simpl in H; [|done].
  destruct (commit_ok env); [|done]. injection H as <-.
  unfold stage_initial_state.
  rewrite view_put_outside by apply counter_outside.
  change (fs_equiv (view (txn_put_attr (kv_put Key.CURRENT_FORMAT (bc_ser f) db) ROOT_INO root))
            (put_attr ROOT_INO root (view db))).
  rewrite view_txn_put_attr by (unfold ROOT_INO; lia).
  rewrite view_put_outside by (by apply (outside_key KFormat 0)). done.
Qed.

Lemma initial_inv env db f root db' :
  blank db -> kind root = Directory -> 0 <= nlink root < 2 ^ 32 ->
  initialize_volume env db f root = (Ok (), db') -> FsInv (view db').
Proof.
  intros [HA HD] Hk Hr H. rewrite (initialize_view _ _ _ _ _ H).
  split.
  - intros p n e Hp He. fs_simpl_in He. by rewrite HD in He.
  - intros i a Hi Ha Hd. fs_simpl_in Ha. case_decide; [congruence|]. by rewrite HA in Ha.
  - intros i a Hi Ha. fs_simpl_in Ha. case_decide; [by injection Ha as <-|]. by rewrite HA in Ha.
  - intros p n e p' n' e' Hp _ He. fs_simpl_in He. by rewrite HD in He.
Qed.

(** C2: every metadata store reachable from a freshly initialized volume by the steps
    of [ns_step], with any errors and failing writes, holds a well-formed namespace:
    no dangling entry, no entry outside a directory, one entry per directory, link
    counts that cover the entries.  The steps are all writing operations of the
    backend, for non-negative inode numbers: mknod with an unused inode and an
    attribute record of its type (link count in 32 bits, at least 1 unless it is a
    directory), link of an inode below the largest link count, set_attr that keeps an
    existing inode's type and link count, set_dentry of a free name in a directory for
    an existing inode of that type with a link to spare (or a directory that has no
    entry), and every other operation with any arguments. *)
Theorem reachable_well_formed env db0 f root db1 db :
  blank db0 -> kind root = Directory -> 0 <= nlink root < 2 ^ 32 ->
  initialize_volume env db0 f root = (Ok (), db1) ->
  rtc ns_step db1 db -> FsInv (view db).
Proof.
  intros Hb Hk Hr Hi Hrtc. apply initial_inv in Hi; [|done..].
  induction Hrtc as [db|db db' db'' Hst _ IH]; [done|]. apply IH. by eapply ns_step_inv.
Qed.

(** C12: a successful mknod adds exactly one entry, leading to exactly one new
    inode record with the requested type and link count; the name was free
    before, and every other entry and every inode but the parent directory is
    unchanged. *)
Theorem do_mknod_adds env ctx now1 now2 db new a0 parent name typ path i a db' :
  0 <= parent -> 0 <= new -> new <> parent ->
  do_mknod env ctx now1 now2 db new a0 parent name typ path = (Ok (i, a), db') ->
  i = new /\ kind a = kind a0 /\ nlink a = nlink a0 /\
  fs_dent (view db) parent name = None /\
  fs_dent (view db') parent name = Some (mkDEntry parent name new typ) /\
  fs_attr (view db') new = Some a /\
  (forall p n, 0 <= p -> (p, n) <> (parent, name) -> fs_dent (view db') p n = fs_dent (view db) p n) /\
  (forall j, 0 <= j -> j <> new -> j <> parent -> fs_attr (view db') j = fs_attr (view db) j).
Proof.
  intros Hp Hn Hne H. apply write_plan_Ok in H as (b & H & ->).
  apply mknod_plan_spec in H as (-> & Hk & Hl & Hnone & pa & Hpa & _ & _ & _ & Hd); [|done..].
  destruct (Hd db) as [HA HD]. split_and!; try done.
  - rewrite HD by done. destruct (bool_decide _); simpl when; fs_simpl; case_decide; tauto.
  - rewrite HA by done. destruct (bool_decide _); simpl when; fs_simpl; repeat case_decide; congruence.
  - intros p n Hp' Hpn. rewrite HD by done.
    destruct (bool_decide _); simpl when; fs_simpl; case_decide; naive_solver.
  - intros j Hj H1 H2. rewrite HA by done.
    destruct (bool_decide _); simpl when; fs_simpl; repeat case_decide; congruence.
Qed.

(** Mknod on a name that is taken fails with EEXIST and writes nothing. *)
Theorem do_mknod_exclusive env ctx now1 now2 db new a0 parent name typ path pa e :
  fs_attr (view db) parent = Some pa -> kind pa = Directory ->
  check_access ctx pa MODE_MASK_W = Ok () -> is_immutable pa = false ->
  fs_dent (view db) parent name = Some e ->
  do_mknod env ctx now1 now2 db new a0 parent name typ path = (Err (LibcError EEXIST), db).
Proof.
  intros Hpa Hk Hacc Him He. unfold do_mknod, mknod_plan.
  apply view_attr in Hpa. apply view_dent in He.
  assert (Hd : is_dir pa = true) by (by apply bool_decide_eq_true).
  rewrite Hpa. cbn [mbind outcome_bind]. rewrite Hd. cbn [ensure mbind outcome_bind].
  rewrite Hacc. cbn [mbind outcome_bind]. rewrite Him, He. done.
Qed.

(** C14: a successful rmdir removed a directory that held no entries: its name
    and its inode record are gone, every other entry and every inode but the
    parent is unchanged. *)
Theorem do_rmdir_removes env ctx now db parent name skip e ca db' :
  FsInv (view db) -> 0 <= parent ->
  do_rmdir env ctx now db parent name skip = (Ok (e, ca), db') ->
  fs_dent (view db) parent name = Some e /\ de_typ e = Directory /\
  (forall n, fs_dent (view db) (de_inode e) n = None) /\
  fs_dent (view db') parent name = None /\ fs_attr (view db') (de_inode e) = None /\
  (forall p n, 0 <= p -> (p, n) <> (parent, name) -> fs_dent (view db') p n = fs_dent (view db) p n) /\
  (forall j, 0 <= j -> j <> de_inode e -> j <> parent -> fs_attr (view db') j = fs_attr (view db) j).
Proof.
  intros Hs Hp H. apply write_plan_Ok in H as (b & H & ->).
  apply rmdir_plan_spec in H as (He & Ht & Hi & Hca & _ & Hempty & pa & Hpa & _ & _ & _ & _ & Hd);
    [|done..].
  assert (Hne : de_inode e <> parent) by (intros E; rewrite E in Hempty; by rewrite Hempty in He).
  destruct (Hd db) as [HA HD]. split_and!; try done.
  - rewrite HD by done. destruct (skip <=? _); apply del_dent_eq.
  - rewrite HA by done. destruct (skip <=? _); simpl when; fs_simpl; repeat case_decide; congruence.
  - intros p n Hp' Hpn. rewrite HD by done.
    destruct (skip <=? _); apply del_dent_ne; intros [-> ->]; done.
  - intros j Hj H1 H2. rewrite HA by done.
    destruct (skip <=? _); simpl when; fs_simpl; repeat case_decide; congruence.
Qed.

(** Rmdir of a directory that still holds an entry fails with ENOTEMPTY and
    writes nothing. *)
Theorem do_rmdir_not_empty env ctx now db parent name skip e pa ca n e' :
  fs_dent (view db) parent name = Some e -> de_typ e = Directory ->
  fs_attr (view db) parent = Some pa -> kind pa = Directory ->
  fs_attr (view db) (de_inode e) = Some ca -> kind ca = Directory ->
  check_access ctx pa (Z.lor MODE_MASK_W MODE_MASK_X) = Ok () -> is_normal pa = true ->
  fs_dent (view db) (de_inode e) n = Some e' ->
  do_rmdir env ctx now db parent name skip = (Err (LibcError ENOTEMPTY), db).
Proof.
  intros He Ht Hpa Hpk Hca Hck Hacc Hnorm He'. unfold do_rmdir, rmdir_plan.
  apply view_dent in He. apply view_attr in Hpa, Hca.
  assert (Hdp : is_dir pa = true) by (by apply bool_decide_eq_true).
  assert (Hdc : is_dir ca = true) by (by apply bool_decide_eq_true).
  assert (Hch : do_check_exist_children db (de_inode e) = true).
  { destruct (do_check_exist_children db (de_inode e)) eqn:E; [done|].
    by rewrite (no_children _ _ E) in He'. }
  rewrite is_normal_spec in Hnorm. apply andb_true_iff in Hnorm as [Hn1 Hn2].
  rewrite He. cbn [mbind outcome_bind]. rewrite bool_decide_true by done.
  cbn [ensure mbind outcome_bind]. rewrite Hpa. cbn [mbind outcome_bind]. rewrite Hdp.
  cbn [ensure mbind outcome_bind]. rewrite Hca. cbn [mbind outcome_bind]. rewrite Hdc.
  cbn [ensure mbind outcome_bind]. rewrite Hacc. cbn [mbind outcome_bind].
  rewrite Hn1, Hn2, Hch. done.
Qed.

(** Removing a directory sooner than [skip_dir_mtime] after its parent's
    last change leaves the parent's stored attributes as they were, so the
    link count keeps counting the removed directory. *)
Theorem do_rmdir_keeps_parent_nlink env ctx now db parent name skip e ca db' pa :
  FsInv (view db) -> 0 <= parent -> fs_attr (view db) parent = Some pa ->
  now - mtime pa < skip ->
  do_rmdir env ctx now db parent name skip = (Ok (e, ca), db') ->
  fs_attr (view db') parent = Some pa.
Proof.
  intros Hs Hp Hpa Hskip H. apply write_plan_Ok in H as (b & H & ->).
  apply rmdir_plan_spec in H as (He & Ht & Hi & Hca & _ & Hempty & pa' & Hpa' & _ & _ & _ & _ & Hd);
    [|done..].
  assert (pa' = pa) as -> by congruence.
  assert (Hne : de_inode e <> parent) by (intros E; rewrite E in Hempty; by rewrite Hempty in He).
  destruct (Hd db) as [HA _]. rewrite HA by done.
  rewrite (proj2 (Z.leb_gt _ _)) by lia. simpl when. fs_simpl. by rewrite decide_False.
Qed.

(** A successful link gives the existing, non-directory inode one more
    entry and one more link; the name was free, and every other entry and every
    inode but the parent directory is unchanged. *)
Theorem do_link_adds env ctx now skip db inode np nn ca' db' :
  0 <= inode -> 0 <= np ->
  do_link env ctx now skip db inode np nn = (Ok ca', db') ->
  exists ca, fs_attr (view db) inode = Some ca /\ kind ca <> Directory /\
    kind ca' = kind ca /\ nlink ca' = u32_wrap (nlink ca + 1) /\
    fs_dent (view db) np nn = None /\
    fs_dent (view db') np nn = Some (mkDEntry np nn inode (kind ca)) /\
    fs_attr (view db') inode = Some ca' /\
    (forall p n, 0 <= p -> (p, n) <> (np, nn) -> fs_dent (view db') p n = fs_dent (view db) p n) /\
    (forall j, 0 <= j -> j <> inode -> j <> np -> fs_attr (view db') j = fs_attr (view db) j).
Proof.
  intros Hi Hp H. apply write_plan_Ok in H as (b & H & ->).
  apply link_plan_spec in H as (Hnone & pa & ca & Hpa & Hpk & _ & Hca & Hck & _ & -> & Hd); [|done..].
  destruct (Hd db) as [HA HD]. exists ca. split_and!; try done.
  - rewrite HD by done. destruct (_.2); simpl when; fs_simpl; case_decide; tauto.
  - rewrite HA by done. fs_simpl. by rewrite decide_True.
  - intros p n Hp' Hpn. rewrite HD by done. destruct (_.2); simpl when; fs_simpl; case_decide; naive_solver.
  - intros j Hj H1 H2. rewrite HA by done.
    destruct (_.2); simpl when; fs_simpl; repeat case_decide; congruence.
Qed.

(** C13: a successful unlink removes exactly the named entry and takes one link
    from its inode; the inode record survives exactly when links remain or the
    file is a regular file that is still open, and is gone otherwise. *)
Theorem do_unlink_removes env ctx now1 now2 skip oft db parent name sid r db' :
  FsInv (view db) -> 0 <= parent ->
  do_unlink env ctx now1 now2 skip oft db parent name sid = (Ok r, db') ->
  exists e a, fs_dent (view db) parent name = Some e /\ de_typ e <> Directory /\
    fs_attr (view db) (de_inode e) = Some a /\ ul_inode r = de_inode e /\
    ul_is_opened r = is_file a && (nlink a =? 1) && is_opened_in oft (de_inode e) /\
    fs_dent (view db') parent name = None /\
    fs_attr (view db') (de_inode e) =
      (if (1 <? nlink a) || ul_is_opened r then Some (unlink_attr now1 a) else None) /\
    nlink (unlink_attr now1 a) = nlink a - 1 /\
    (forall p n, 0 <= p -> (p, n) <> (parent, name) -> fs_dent (view db') p n = fs_dent (view db) p n) /\
    (forall j, 0 <= j -> j <> de_inode e -> j <> parent -> fs_attr (view db') j = fs_attr (view db) j).
Proof.
  intros Hs Hp H. apply write_plan_Ok in H as (b & H & ->).
  apply unlink_plan_spec in H
    as (e & pa & a & He & Ht & Hi & Hpa & Hpk & Ha & Hk & _ & Hri & Hro & Hd); [|done..].
  destruct (links_after_del db parent name e a Hs Hp He Ha ltac:(congruence)) as (Hn & _).
  simpl in Hn. pose proof (inv_link_pos _ _ _ _ _ Hs Hp He Ha ltac:(congruence)) as Hpos.
  assert (Hz : (nlink (unlink_attr now1 a) =? 0) = (nlink a =? 1)).
  { unfold unlink_attr. simpl. rewrite Hn. apply eq_true_iff_eq. rewrite !Z.eqb_eq. lia. }
  rewrite Hz in *.
  assert (Hkeep : keep_inode (unlink_attr now1 a) (ul_is_opened r) = (1 <? nlink a) || ul_is_opened r).
  { unfold keep_inode, unlink_attr. simpl. rewrite Hn, Hro.
    replace (0 <? nlink a - 1) with (1 <? nlink a) by (apply eq_true_iff_eq; rewrite !Z.ltb_lt; lia).
    unfold is_file. destruct (bool_decide (kind a = RegularFile)); done. }
  rewrite <- Hro in Hd. rewrite Hkeep in Hd.
  destruct (Hd db) as [HA HD]. exists e, a. split_and!; try done.
  - rewrite HD by done. destruct (_ || _); apply del_dent_eq.
  - rewrite HA by done. destruct (_ || _); fs_simpl; by rewrite decide_True.
  - intros p n Hp' Hpn. rewrite HD by done.
    destruct (_ || _); fs_simpl; destruct (_.2); simpl when; fs_simpl; case_decide; naive_solver.
  - intros j Hj H1 H2. rewrite HA by done.
    destruct (_ || _); fs_simpl; destruct (_.2); simpl when; fs_simpl; repeat case_decide; congruence.
Qed.

(** C11: a successful rename makes the new name lead to the source inode; the
    old name is gone, or leads to the former destination under EXCHANGE; under
    NOREPLACE the new name was free; and no other entry changes. *)
Theorem do_rename_moves env ctx now1 now2 now3 skip oft db sid op on np nn flags r db' :
  FsInv (view db) -> 0 <= op -> 0 <= np -> (op, on) <> (np, nn) ->
  do_rename env ctx now1 now2 now3 skip oft db sid op on np nn flags = (Ok r, db') ->
  exists e oa, fs_dent (view db) op on = Some e /\
    fs_attr (view db) (de_inode e) = Some oa /\
    fs_dent (view db') np nn = Some (mkDEntry np nn (de_inode e) (kind oa)) /\
    (if is_exchange flags
     then exists d, fs_dent (view db) np nn = Some d /\
            fs_dent (view db') op on = Some (mkDEntry op on (de_inode d) (de_typ d))
     else fs_dent (view db') op on = None) /\
    (bits_contain flags RENAME_NOREPLACE = true -> fs_dent (view db) np nn = None) /\
    (forall p n, 0 <= p -> (p, n) <> (op, on) -> (p, n) <> (np, nn) ->
       fs_dent (view db') p n = fs_dent (view db) p n).
Proof.
  intros Hs Hop Hnp Hdiff H.
  assert (Hdiff' : ~ (op = np /\ on = nn)) by naive_solver.
  assert (exists b, rename_plan ctx now1 now2 now3 skip oft db sid op on np nn flags = Ok (r, b) /\
            db' = kv_write b db) as (b & Hplan & ->).
  { unfold do_rename in H. destruct (rename_plan _ _ _ _ _ _ _ _ _ _ _ _ _) as [[r' [|o b]]| |];
      [|apply write_plan_Ok in H as (b' & Hb & ->); inv_ok; eauto|done..].
    injection H as <- <-. by exists []. }
  apply rename_plan_spec in Hplan as (e & opa & npa & oa & opened & dst & He & Hopa & Hok & Hnpa &
    Hnk & Hoa & Hne & Hds & opa' & npa' & oa' & u1 & u2 & _ & _ & _ & Hd); [|done..].
  destruct (Hd db) as [_ HD]. clear Hd.
  assert (HD' : forall p n, 0 <= p -> fs_dent (view (kv_write b db)) p n =
            if decide (np = p /\ nn = n) then Some (new_entry np nn e oa)
            else fs_dent (rename_effect flags op on opened dst (view db)) p n).
  { intros p n Hp. rewrite HD by done. destruct u1, u2; done. }
  clear HD. exists e, oa. split_and!; try done.
  - rewrite HD' by done. case_decide; tauto.
  - rewrite HD' by done. rewrite decide_False by naive_solver. unfold rename_effect.
    destruct dst as [[d da]|].
    + destruct Hds as (Hd & _). destruct (is_exchange flags).
      * exists d. split; [done|]. fs_simpl. case_decide; tauto.
      * destruct (negb _ && _); apply del_dent_eq.
    + destruct Hds as [-> _]. apply del_dent_eq.
  - intros Hnr. destruct dst as [[d da]|]; [|by destruct Hds]. destruct Hds as (_ & Hf & _). congruence.
  - intros p n Hp H1 H2. rewrite HD' by done. rewrite decide_False by naive_solver. unfold rename_effect.
    destruct dst as [[d da]|]; [|apply del_dent_ne; naive_solver].
    destruct (is_exchange flags); [fs_simpl; case_decide; naive_solver|].
    destruct (negb _ && _); apply del_dent_ne; naive_solver.
Qed.
End thms.

(** ** Concrete volumes *)

Lemma empty_blank : blank empty_db.
Proof. split; intros; reflexivity. Qed.

Lemma ref_volume_inv : FsInv (view ref_volume).
Proof.
  apply (initial_inv good_env empty_db format_default ref_root);
    [apply empty_blank|reflexivity|simpl; lia|reflexivity].
Qed.

Lemma ref_mknod_inv now new k p n db :
  FsInv (view db) -> 0 <= p -> 0 <= new -> fs_attr (view db) new = None ->
  FsInv (view (ref_mknod now new k p n db)).
Proof.
  intros Hs Hp Hn Hf. eapply ns_step_inv; [|exact Hs].
  eapply (st_mknod good_env root_ctx now now db new (ref_attr k p) p n k "");
    [done|done|done|done| | |apply surjective_pairing]; simpl; case_decide; try lia; done.
Qed.

(** /d (2) with /d/f (3), and /g (4) *)
Definition vol_d : db_t := ref_mknod 10 2 Directory 1 "d" ref_volume.
Definition vol_df : db_t := ref_mknod 20 3 RegularFile 2 "f" vol_d.
Definition vol_dfg : db_t := ref_mknod 30 4 RegularFile 1 "g" vol_df.

Lemma vol_d_inv : FsInv (view vol_d).
Proof. apply ref_mknod_inv; [apply ref_volume_inv|lia|lia|reflexivity]. Qed.
Lemma vol_df_inv : FsInv (view vol_df).
Proof. apply ref_mknod_inv; [apply vol_d_inv|lia|lia|reflexivity]. Qed.
Lemma vol_dfg_inv : FsInv (view vol_dfg).
Proof. apply ref_mknod_inv; [apply vol_df_inv|lia|lia|reflexivity]. Qed.

Definition stamped (t : SystemTime) (a : InodeAttr) : InodeAttr :=
  set_ctime t (set_mtime t (set_atime t a)).

Lemma reachable_well_formed_witness :
  fs_dent (view vol_d) 1 "d" = Some (mkDEntry 1 "d" 2 Directory) /\ FsInv (view vol_d).
Proof.
  split; [reflexivity|].
  apply (reachable_well_formed good_env empty_db format_default ref_root ref_volume vol_d);
    [apply empty_blank|reflexivity|simpl; lia|reflexivity|].
  apply rtc_once.
  apply (st_mknod good_env root_ctx 10 10 ref_volume 2 (ref_attr Directory 1) 1 "d" Directory ""
    (Ok (2, stamped 10 (ref_attr Directory 1))));
    [lia|lia|reflexivity|reflexivity|simpl; lia|done|reflexivity].
Defined.

Lemma do_mknod_adds_witness :
  fs_attr (view vol_d) 2 = Some (stamped 10 (ref_attr Directory 1)) /\
  fs_dent (view vol_d) 1 "x" = fs_dent (view ref_volume) 1 "x".
Proof.
  assert (Hrun : do_mknod good_env root_ctx 10 10 ref_volume 2 (ref_attr Directory 1) 1 "d" Directory ""
    = (Ok (2, stamped 10 (ref_attr Directory 1)), vol_d)) by reflexivity.
  apply do_mknod_adds in Hrun as (_ & _ & _ & _ & _ & Ha & Hd & _); [|lia..].
  split; [exact Ha|]. apply Hd; [lia|congruence].
Defined.

Lemma do_mknod_exclusive_witness :
  do_mknod good_env user_ctx 50 50 vol_d 9 (ref_attr RegularFile 1) 1 "d" RegularFile ""
  = (Err (LibcError EEXIST), vol_d).
Proof.
  eapply do_mknod_exclusive; [reflexivity|reflexivity|reflexivity|reflexivity|].
  instantiate (1 := mkDEntry 1 "d" 2 Directory). reflexivity.
Defined.

Lemma do_rmdir_removes_witness :
  fs_attr (view (do_rmdir good_env root_ctx 90 vol_d 1 "d" 5).2) 2 = None.
Proof.
  assert (Hrun : do_rmdir good_env root_ctx 90 vol_d 1 "d" 5
    = (Ok (mkDEntry 1 "d" 2 Directory, stamped 10 (ref_attr Directory 1)),
       (do_rmdir good_env root_ctx 90 vol_d 1 "d" 5).2)) by reflexivity.
  apply do_rmdir_removes in Hrun as (_ & _ & _ & _ & Ha & _); [|apply vol_d_inv|lia]. exact Ha.
Defined.

Lemma do_rmdir_not_empty_witness :
  do_rmdir good_env root_ctx 90 vol_df 1 "d" 5 = (Err (LibcError ENOTEMPTY), vol_df).
Proof.
  apply (do_rmdir_not_empty good_env root_ctx 90 vol_df 1 "d" 5 (mkDEntry 1 "d" 2 Directory)
    (set_ctime 10 (set_mtime 10 (set_nlink 3 ref_root))) (stamped 10 (ref_attr Directory 1)) "f"
    (mkDEntry 2 "f" 3 RegularFile)); reflexivity.
Defined.

(** Created at time 10 with link count 3, the root still has 3 links after its
    only subdirectory is removed at time 12 under a window of 100. *)
Lemma do_rmdir_keeps_parent_nlink_witness :
  fs_dent (view (do_rmdir good_env root_ctx 12 vol_d 1 "d" 100).2) 1 "d" = None /\
  fs_attr (view (do_rmdir good_env root_ctx 12 vol_d 1 "d" 100).2) 1
  = Some (set_ctime 10 (set_mtime 10 (set_nlink 3 ref_root))).
Proof.
  split; [reflexivity|].
  apply (do_rmdir_keeps_parent_nlink good_env root_ctx 12 vol_d 1 "d" 100 (mkDEntry 1 "d" 2 Directory)
    (stamped 10 (ref_attr Directory 1))); [apply vol_d_inv|lia|reflexivity|simpl; lia|reflexivity].
Defined.

Lemma do_link_adds_witness :
  fs_dent (view (do_link good_env root_ctx 40 5 vol_dfg 4 2 "h").2) 2 "h"
  = Some (mkDEntry 2 "h" 4 RegularFile).
Proof.
  assert (Hrun : do_link good_env root_ctx 40 5 vol_dfg 4 2 "h"
    = (Ok (link_child 40 (stamped 30 (ref_attr RegularFile 1))),
       (do_link good_env root_ctx 40 5 vol_dfg 4 2 "h").2)) by reflexivity.
  apply do_link_adds in Hrun as (ca & Hca & _ & _ & _ & _ & Hd & _); [|lia..].
  assert (Hk : fs_attr (view vol_dfg) 4 = Some (stamped 30 (ref_attr RegularFile 1))) by reflexivity.
  rewrite Hk in Hca. apply (inj Some) in Hca. subst ca. exact Hd.
Defined.

Lemma do_unlink_removes_witness :
  let r := do_unlink good_env root_ctx 40 40 5 (open_files_new 0) vol_dfg 1 "g" 0 in
  fs_dent (view r.2) 1 "g" = None.
Proof.
  intros r.
  assert (Hrun : do_unlink good_env root_ctx 40 40 5 (open_files_new 0) vol_dfg 1 "g" 0
    = (Ok (mkUnlink 4 (Some (unlink_attr 40 (stamped 30 (ref_attr RegularFile 1)))) 0 1 false), r.2))
    by reflexivity.
  apply do_unlink_removes in Hrun as (e & a & _ & _ & _ & _ & _ & Hd & _);
    [|apply vol_dfg_inv|lia]. exact Hd.
Defined.

Lemma do_rename_moves_witness :
  let r := do_rename good_env root_ctx 40 40 40 5 (open_files_new 0) vol_dfg 0 1 "g" 2 "f" 0 in
  fs_dent (view r.2) 2 "f" = Some (mkDEntry 2 "f" 4 RegularFile) /\ fs_dent (view r.2) 1 "g" = None.
Proof.
  intros r.
  assert (Hrun : do_rename good_env root_ctx 40 40 40 5 (open_files_new 0) vol_dfg 0 1 "g" 2 "f" 0
    = (Ok (mkRename (Some (3, false)) 4096 1), r.2)) by reflexivity.
  apply do_rename_moves in Hrun as (e & oa & He & Ha & Hn & Ho & _);
    [|apply vol_dfg_inv|lia|lia|congruence].
  assert (Hk : fs_dent (view vol_dfg) 1 "g" = Some (mkDEntry 1 "g" 4 RegularFile)) by reflexivity.
  rewrite Hk in He. apply (inj Some) in He. subst e.
  assert (Hb : fs_attr (view vol_dfg) 4 = Some (stamped 30 (ref_attr RegularFile 1))) by reflexivity.
  cbn [de_inode] in Ha. rewrite Hb in Ha. apply (inj Some) in Ha. subst oa.
  split; [exact Hn|exact Ho].
Defined.
