(* ===== verification/Chunks.v ===== *)
(** * Chunk slices: committing, reading back, truncating

    What [commit_slice], [get_chunk_slices] and [do_truncate] of the backend do
    to the slice lists of a file's chunks, down to the position: [latest] (see
    Slice) is the slice a reader of the chunk is served from. *)

From S2P Require Import Prelude Common Types Bincode RangeMap Slice Keys KV Meta OpenFiles.
From S2P Require Import Backend FsModel Namespace Reach RefStore.

Definition hole_at (pos len : Z) : Slice := new_owned pos EMPTY_SLICE_ID len.

Section chunks.
Context `{L : Layout} `{KL : KVLaws} `{CL : MetaCodecLaws}.

Abbreviation wf_slices := (Forall (fun s => slice_wf s = true)).

(** The stored value of a chunk is the encoding of a list of slices; a chunk
    without a value holds the empty list. *)
Definition holds (db : db_t) (i : Ino) (c : Z) (l : list Slice) : Prop :=
  default [] (kv_get db (Key.chunk_slices i c)) = slices_encode l /\ wf_slices l.

Lemma slices_encode_cons s l : slices_encode (s :: l) = bc_ser s ++ slices_encode l.
Proof. apply bind_cons. Qed.

Lemma slices_encode_app l1 l2 : slices_encode (l1 ++ l2) = slices_encode l1 ++ slices_encode l2.
Proof. apply bind_app. Qed.

Lemma slice_ser_len s : slice_wf s = true -> length (bc_ser s) = 28%nat.
Proof. intros H. apply slice_ser_length in H. unfold zlen, SLICE_BYTES in H. lia. Qed.

Lemma slice_ser_inj s t :
  slice_wf s = true -> slice_wf t = true -> bc_ser s = bc_ser t -> s = t.
Proof.
  intros Hs Ht E. apply slice_roundtrip in Hs, Ht. rewrite E in Hs. congruence.
Qed.

Lemma any_chunk_eq_spec fuel l s :
  wf_slices l -> slice_wf s = true -> (length l <= fuel)%nat ->
  any_chunk_eq fuel (slices_encode l) (bc_ser s) = bool_decide (s ∈ l).
Proof.
  intros Hl Hs. revert fuel. induction Hl as [|t l Ht Hl IH]; intros fuel Hf.
  - destruct fuel; reflexivity.
  - destruct fuel as [|fuel]; [simpl in Hf; lia|]. cbn [any_chunk_eq].
    rewrite slices_encode_cons. pose proof (slice_ser_len t Ht) as Hlen.
    rewrite zlen_app. pose proof (zlen_nonneg (slices_encode l)).
    replace (zlen (bc_ser t)) with SLICE_BYTES by (symmetry; by apply slice_ser_length).
    rewrite (proj2 (Z.ltb_ge _ _)) by lia. change (Z.to_nat SLICE_BYTES) with 28%nat.
    rewrite take_app_length', drop_app_length' by done.
    rewrite IH by (simpl in Hf; lia).
    apply eq_true_iff_eq. rewrite orb_true_iff, !bool_decide_eq_true, elem_of_cons.
    split; (intros [E|E]; [left|by right]); [symmetry; by apply slice_ser_inj|by rewrite E].
Qed.

Lemma holds_decode db i c l :
  holds db i c l -> l <> [] -> get_chunk_slices db i c = Ok l.
Proof.
  intros [Hb Hl] Hne. unfold get_chunk_slices.
  destruct (kv_get db (Key.chunk_slices i c)) as [buf|]; simpl in *.
  - subst buf. rewrite slices_decode_encode_aux by done. simpl. by rewrite bool_decide_false.
  - destruct l as [|s l]; [done|]. rewrite slices_encode_cons in Hb.
    pose proof (slice_ser_len s). apply Forall_cons in Hl as [Hs _].
    apply (f_equal length) in Hb. rewrite length_app, slice_ser_len in Hb by done. simpl in Hb. lia.
Qed.

(** *** Staging one slice *)

Definition add_slice (s : Slice) (l : list Slice) : list Slice :=
  if decide (s ∈ l) then l else l ++ [s].

Lemma stage_chunk_slice_spec db i c s l :
  holds db i c l -> slice_wf s = true ->
  exists db', stage_chunk_slice db i c s =
      Ok (negb (bool_decide (s ∈ l)), Z.of_nat (length (add_slice s l)), db') /\
    holds db' i c (add_slice s l) /\
    (forall k, k <> Key.chunk_slices i c -> kv_get db' k = kv_get db k).
Proof.
  intros [Hb Hl] Hs. unfold stage_chunk_slice. rewrite Hb.
  pose proof (slices_encode_length l Hl) as Hlen.
  rewrite Hlen, Z.mul_comm, Z.mod_mul by done. simpl negb. cbv iota.
  rewrite any_chunk_eq_spec; [|done|done|unfold zlen, SLICE_BYTES in Hlen; lia].
  unfold add_slice. case_decide as Hin.
  - rewrite bool_decide_true by done. simpl negb. cbv iota. exists db. split_and!; [|by split|done].
    by rewrite Z.div_mul.
  - rewrite bool_decide_false by done. simpl negb. cbv iota. eexists.
    assert (Henc : slices_encode l ++ bc_ser s = slices_encode (l ++ [s])).
    { rewrite slices_encode_app, slices_encode_cons. by rewrite app_nil_r. }
    assert (Hl' : wf_slices (l ++ [s])) by (apply Forall_app; split; [done|by constructor]).
    split_and!; [|split|].
    + rewrite Henc, (slices_encode_length _ Hl'), Z.mul_comm, Z.div_mul by done. done.
    + rewrite kv_get_put_eq. simpl. done.
    + done.
    + intros k Hk. by apply kv_get_put_ne.
Qed.

(** Staging leaves other chunks, and the namespace, alone. *)
Lemma holds_frame db db' i c k l :
  0 <= i -> 0 <= c -> 0 <= k -> c <> k ->
  (forall key, key <> Key.chunk_slices i c -> kv_get db' key = kv_get db key) ->
  holds db i k l <-> holds db' i k l.
Proof.
  intros Hi Hc Hk Hne Hf. unfold holds. rewrite Hf; [done|].
  intros E. apply chunk_key_inj in E as [_ E]; congruence || lia.
Qed.

Lemma txn_put_attr_holds db i j a c l : holds (txn_put_attr db j a) i c l <-> holds db i c l.
Proof. unfold holds, txn_put_attr. rewrite kv_get_put_ne; [done|]. key_ne. Qed.

(** *** Committing a slice *)

Definition slice_end (c : Z) (s : Slice) : Z := c * CHUNK_SIZE + get_chunk_pos s + get_size s.

Lemma slice_wf_range s : slice_wf s = true -> 0 <= get_chunk_pos s < 2 ^ 32 /\ 0 <= get_size s < 2 ^ 32.
Proof.
  destruct s; simpl; unfold is_u32, is_u64; intros H; to_prop; [lia|].
  pose proof (u32_wrap_range (chunk_pos + off)). lia.
Qed.

(** C27: committing a slice to a regular file appends it to its chunk (once: a
    retry of the same slice changes nothing), grows the file to the end of the
    slice when it lies beyond the old end and never shrinks it, and leaves every
    other chunk alone; the result reports the growth and the slice count. *)
Theorem commit_slice_appends now1 now2 db i c s l a :
  0 <= i -> 0 <= c -> slice_end c s < 2 ^ 64 -> slice_wf s = true ->
  holds db i c l -> fs_attr (view db) i = Some a -> kind a = RegularFile ->
  0 <= attr_length a ->
  exists r db', commit_slice good_env now1 now2 db i c s = (Ok r, db') /\
    holds db' i c (add_slice s l) /\
    inserted r = negb (bool_decide (s ∈ l)) /\
    slice_count r = Z.of_nat (length (add_slice s l)) /\
    grew_by r = Z.max 0 (slice_end c s - attr_length a) /\
    (exists a', fs_attr (view db') i = Some a' /\ attr_length a' = Z.max (attr_length a) (slice_end c s)) /\
    (forall k l', 0 <= k -> k <> c -> holds db i k l' -> holds db' i k l').
Proof.
  intros Hi Hc Hend Hs Hl Ha Hk Hlen.
  destruct (stage_chunk_slice_spec db i c s l Hl Hs) as (db1 & Hst & Hl1 & Hf).
  pose proof (slice_wf_range s Hs) as [Hp Hz]. pose proof chunk_size_pos as HC.
  unfold commit_slice, stage_slice_commit.
  rewrite (proj2 (view_attr db i a) Ha). cbn [mbind outcome_bind].
  replace (is_file a) with true by (symmetry; by apply bool_decide_eq_true).
  cbn [ensure mbind outcome_bind]. rewrite Hst. cbn [mbind outcome_bind].
  assert (Hnl : u64_wrap (u64_wrap (c * CHUNK_SIZE) + get_chunk_pos s + get_size s) = slice_end c s).
  { unfold slice_end, u64_wrap in *. rewrite (Z.mod_small (c * CHUNK_SIZE)) by nia.
    apply Z.mod_small. nia. }
  rewrite Hnl. set (grow := saturating_sub (slice_end c s) (attr_length a)).
  assert (Hg : grow = Z.max 0 (slice_end c s - attr_length a)) by reflexivity.
  set (ins := negb (bool_decide (s ∈ l))).
  set (a' := if negb (grow =? 0) then set_length (slice_end c s) a else a).
  assert (Hla : attr_length a' = Z.max (attr_length a) (slice_end c s)).
  { unfold a'. destruct (grow =? 0) eqn:E; to_prop; simpl; lia. }
  cbn [commit_txn commit_ok good_env].
  eexists _, _. split; [reflexivity|]. cbn [inserted slice_count grew_by].
  pose proof (stage_chunk_view _ _ _ _ _ _ _ Hst) as [Hv _].
  split_and!; try done.
  - destruct (ins || _); [by apply txn_put_attr_holds|done].
  - destruct (ins || negb (grow =? 0)) eqn:E.
    + eexists. split.
      * destruct (view_txn_put_attr db1 i (update_modification_time now1 now2 a') Hi) as [Hv2 _].
        rewrite Hv2 by done. fs_simpl. by rewrite decide_True.
      * done.
    + exists a. split; [by rewrite Hv|]. apply orb_false_iff in E as [_ E]. to_prop. lia.
  - intros k l' Hk' Hne Hh. apply (holds_frame db db1 i c k l' Hi Hc Hk' (not_eq_sym Hne) Hf) in Hh.
    destruct (ins || _); [by apply txn_put_attr_holds|done].
Qed.

(** What a successful commit leaves in the chunk. *)
Lemma commit_holds env now1 now2 db i c s l r db' :
  slice_wf s = true -> holds db i c l ->
  commit_slice env now1 now2 db i c s = (Ok r, db') -> holds db' i c (add_slice s l).
Proof.
  intros Hs Hl H. unfold commit_slice, commit_txn in H.
  destruct (stage_slice_commit now1 now2 db i c s) as [[r1 txn]| |] eqn:Hst; [|done..].
  destruct (commit_ok env); [|done]. injection H as <- <-.
  unfold stage_slice_commit in Hst. apply bind_Ok in Hst as (a & _ & Hst).
  apply bind_Ok in Hst as (u & _ & Hst).
  destruct (stage_chunk_slice_spec db i c s l Hl Hs) as (db1 & Hst1 & Hl1 & _).
  rewrite Hst1 in Hst. cbn [mbind outcome_bind] in Hst. cbv zeta in Hst. inv_ok.
  destruct (_ || _); [by apply txn_put_attr_holds|done].
Qed.

(** A slice that was committed is read back: the chunk then decodes to the
    committed list, and the slice is the latest one over each of its positions. *)
Theorem commit_then_read now1 now2 db i c s l a r db' :
  0 <= i -> 0 <= c -> slice_wf s = true -> holds db i c l -> s ∉ l ->
  fs_attr (view db) i = Some a -> kind a = RegularFile ->
  commit_slice good_env now1 now2 db i c s = (Ok r, db') ->
  get_chunk_slices db' i c = Ok (l ++ [s]) /\
  (forall x, latest (l ++ [s]) x = if covers x s then Some s else latest l x).
Proof.
  intros Hi Hc Hs Hl Hnin Ha Hk H. apply (commit_holds _ _ _ _ _ _ _ l) in H; [|done..].
  unfold add_slice in H. rewrite decide_False in H by done. split.
  - apply holds_decode; [done|by destruct l].
  - intros x. rewrite latest_app. simpl. by destruct (covers x s).
Qed.

(** *** Truncation *)

(** The hole an extension from [pos] to [new] puts into chunk [c], if any. *)
Definition chunk_hole (pos new c : Z) : option Slice :=
  let s := Z.max pos (c * CHUNK_SIZE) in
  let e := Z.min new ((c + 1) * CHUNK_SIZE) in
  if s <? e then Some (hole_at (s - c * CHUNK_SIZE) (e - s)) else None.

Definition add_hole (pos new c : Z) (l : list Slice) : list Slice :=
  match chunk_hole pos new c with Some h => add_slice h l | None => l end.

Lemma hole_wf pos len :
  0 <= pos < CHUNK_SIZE -> 0 < len <= CHUNK_SIZE ->
  slice_wf (hole_at pos len) = true /\
  get_chunk_pos (hole_at pos len) = pos /\ get_size (hole_at pos len) = len.
Proof.
  intros Hp Hl. pose proof chunk_size_u32. unfold hole_at, new_owned, u32_wrap. simpl.
  rewrite !Z.mod_small by lia. unfold is_u32, is_u64. split; [|done].
  rewrite !andb_true_iff, !Z.leb_le, !Z.ltb_lt. unfold EMPTY_SLICE_ID. lia.
Qed.

(** One iteration of the loop handles exactly the chunk of [pos]. *)
Lemma chunk_hole_step pos new :
  0 <= pos < new ->
  let c0 := pos / CHUNK_SIZE in
  let h := Z.min (CHUNK_SIZE - pos `mod` CHUNK_SIZE) (new - pos) in
  0 <= c0 /\ 0 <= pos `mod` CHUNK_SIZE < CHUNK_SIZE /\ 0 < h <= CHUNK_SIZE /\
  chunk_hole pos new c0 = Some (hole_at (pos `mod` CHUNK_SIZE) h) /\
  chunk_hole (pos + h) new c0 = None /\
  (forall c, c <> c0 -> chunk_hole (pos + h) new c = chunk_hole pos new c) /\
  (pos + h = new \/ (pos + h) / CHUNK_SIZE = c0 + 1).
Proof.
  intros Hp c0 h. pose proof chunk_size_pos as HC.
  assert (Hdm : pos = c0 * CHUNK_SIZE + pos `mod` CHUNK_SIZE)
    by (unfold c0; pose proof (Z.div_mod pos CHUNK_SIZE); lia).
  pose proof (Z.mod_pos_bound pos CHUNK_SIZE HC) as Hm. set (m := pos `mod` CHUNK_SIZE) in *.
  assert (Hc0 : 0 <= c0) by (apply Z.div_pos; lia). subst h.
  assert (Hnext : (c0 + 1) * CHUNK_SIZE = c0 * CHUNK_SIZE + CHUNK_SIZE) by lia.
  split_and!; try lia.
  - unfold chunk_hole. rewrite Hnext, (proj2 (Z.ltb_lt _ _)) by lia. do 2 f_equal; lia.
  - unfold chunk_hole. rewrite Hnext, (proj2 (Z.ltb_ge _ _)) by lia. done.
  - intros c Hc. unfold chunk_hole.
    assert (c * CHUNK_SIZE + CHUNK_SIZE = (c + 1) * CHUNK_SIZE) by lia.
    assert (c + 1 <= c0 \/ c0 + 1 <= c) as [Hlt|Hgt] by lia.
    + assert ((c + 1) * CHUNK_SIZE <= c0 * CHUNK_SIZE) by nia.
      rewrite !(proj2 (Z.ltb_ge _ _)) by lia. done.
    + assert ((c0 + 1) * CHUNK_SIZE <= c * CHUNK_SIZE) by nia.
      rewrite !Z.max_r by lia. done.
  - destruct (decide (CHUNK_SIZE - m <= new - pos)) as [Hle|Hgt]; [right|left; lia].
    rewrite Z.min_l by lia. replace (pos + (CHUNK_SIZE - m)) with ((c0 + 1) * CHUNK_SIZE) by lia.
    apply Z.div_mul. lia.
Qed.

Lemma truncate_holes_spec fuel i pos new db sl :
  0 <= i -> 0 <= pos ->
  (pos < new -> (truncate_fuel pos new <= fuel)%nat) ->
  (forall c, 0 <= c -> holds db i c (sl c)) ->
  exists db', truncate_holes fuel i pos new db = Ok db' /\
    (forall c, 0 <= c -> holds db' i c (add_hole pos new c (sl c))) /\
    fs_equiv (view db') (view db).
Proof.
  intros Hi. pose proof chunk_size_pos as HC. revert pos db sl.
  assert (Hdone : forall pos db sl, new <= pos -> (forall c, 0 <= c -> holds db i c (sl c)) ->
            exists db', Ok (E:=Error) db = Ok db' /\
              (forall c, 0 <= c -> holds db' i c (add_hole pos new c (sl c))) /\
              fs_equiv (view db') (view db)).
  { intros pos db sl Hge Hh. exists db. split_and!; [done| |reflexivity]. intros c Hc.
    unfold add_hole, chunk_hole. rewrite (proj2 (Z.ltb_ge _ _)) by lia. auto. }
  induction fuel as [|fuel IH]; intros pos db sl Hp Hf Hh.
  - apply Hdone; [|done]. destruct (decide (pos < new)) as [Hlt|]; [|lia].
    specialize (Hf Hlt). unfold truncate_fuel in Hf.
    assert (pos / CHUNK_SIZE <= new / CHUNK_SIZE) by (apply Z.div_le_mono; lia). lia.
  - simpl. destruct (pos <? new) eqn:E; to_prop; [|by apply Hdone].
    destruct (chunk_hole_step pos new ltac:(lia)) as (Hc0 & Hm & Hlen & Hhole & Hnone & Hother & Hnext).
    set (c0 := pos / CHUNK_SIZE) in *. set (h := Z.min _ _) in *.
    destruct (hole_wf _ _ Hm Hlen) as [Hwf _].
    destruct (stage_chunk_slice_spec db i c0 _ (sl c0) (Hh c0 Hc0) Hwf) as (db1 & Hst & Hh1 & Hfr).
    unfold hole_at in Hst. rewrite Hst. cbn [mbind outcome_bind].
    destruct (IH (pos + h) db1 (fun c => if decide (c = c0) then add_slice (hole_at (pos `mod` CHUNK_SIZE) h) (sl c0) else sl c))
      as (db2 & Hrun & Hh2 & Hv2).
    + lia.
    + intros Hlt. specialize (Hf E). unfold truncate_fuel in *.
      destruct Hnext as [Hn|Hn]; [lia|]. rewrite Hn.
      assert (c0 + 1 <= new / CHUNK_SIZE) by (rewrite <- Hn; apply Z.div_le_mono; lia). lia.
    + intros c Hc. destruct (decide (c = c0)) as [->|Hne]; [done|].
      eapply holds_frame; [..|apply Hh]; [exact Hi|exact Hc0|done|congruence| |done].
      intros key Hkey. symmetry. by apply Hfr.
    + exists db2. split_and!; [done| |].
      * intros c Hc. specialize (Hh2 c Hc). cbv beta in Hh2. unfold add_hole in *.
        destruct (decide (c = c0)) as [->|Hne]; [by rewrite Hhole, Hnone in *|by rewrite Hother in Hh2].
      * rewrite Hv2. by eapply stage_chunk_view.
Qed.

(** A truncation that passes its guards runs to completion. *)
Lemma do_truncate_run ctx now1 now2 db i new skip a sl :
  0 <= i -> 0 <= new -> fs_attr (view db) i = Some a -> kind a = RegularFile ->
  is_normal a = true -> (skip = false -> check_access ctx a MODE_MASK_W = Ok ()) ->
  0 <= attr_length a -> new <> attr_length a ->
  (forall c, 0 <= c -> holds db i c (sl c)) ->
  exists db', do_truncate good_env ctx now1 now2 db i new skip
      = (Ok (update_length new now1 now2 a), db') /\
    fs_attr (view db') i = Some (update_length new now1 now2 a) /\
    (forall c, 0 <= c -> holds db' i c (add_hole (attr_length a) new c (sl c))).
Proof.
  intros Hi Hn Ha Hk Hnorm Hacc Hlen Hne Hh. unfold do_truncate.
  rewrite (proj2 (view_attr db i a) Ha). cbn [mbind outcome_bind].
  replace (is_file a) with true by (symmetry; by apply bool_decide_eq_true).
  cbn [ensure mbind outcome_bind].
  rewrite is_normal_spec in Hnorm. apply andb_true_iff in Hnorm as [H1 H2].
  apply negb_true_iff in H1, H2. rewrite H1, H2. cbn [orb negb ensure mbind outcome_bind].
  assert (Hc : (if negb skip then check_access ctx a MODE_MASK_W else Ok ()) = Ok ()).
  { destruct skip; simpl; auto. }
  rewrite Hc. cbn [mbind outcome_bind].
  rewrite (proj2 (Z.eqb_neq _ _)) by done. cbn [negb rust_assert mbind outcome_bind].
  assert (Hrun : exists txn,
    (if attr_length a <? new
     then truncate_holes (truncate_fuel (attr_length a) new) i (attr_length a) new db else Ok db) = Ok txn /\
    (forall c, 0 <= c -> holds txn i c (add_hole (attr_length a) new c (sl c)))).
  { destruct (attr_length a <? new) eqn:E; to_prop.
    - destruct (truncate_holes_spec (truncate_fuel (attr_length a) new) i (attr_length a) new db sl)
        as (txn & Ht & Hs & _); auto. eauto.
    - exists db. split; [done|]. intros c Hc'. unfold add_hole, chunk_hole.
      rewrite (proj2 (Z.ltb_ge _ _)) by lia. auto. }
  destruct Hrun as (txn & Ht & Hs). rewrite Ht. cbn [mbind outcome_bind commit_txn commit_ok good_env].
  eexists. split; [reflexivity|]. split.
  - destruct (view_txn_put_attr txn i (update_length new now1 now2 a) Hi) as [Hv _].
    rewrite Hv by done. fs_simpl. by rewrite decide_True.
  - intros c Hc'. apply txn_put_attr_holds. auto.
Qed.

Lemma add_slice_nonempty s l : add_slice s l <> [].
Proof.
  unfold add_slice. destruct (decide (s ∈ l)) as [Hin|]; [|by destruct l].
  intros ->. by apply not_elem_of_nil in Hin.
Qed.

Lemma latest_in l y s : latest l y = Some s -> s ∈ l.
Proof.
  induction l as [|t l IH]; simpl; [done|]. destruct (latest l y) as [u|].
  - intros [= ->]. right. auto.
  - case_if; intros [= <-]. left.
Qed.

Lemma chunk_split x :
  x = x / CHUNK_SIZE * CHUNK_SIZE + x `mod` CHUNK_SIZE /\ 0 <= x `mod` CHUNK_SIZE < CHUNK_SIZE.
Proof.
  pose proof chunk_size_pos as HC. split; [pose proof (Z.div_mod x CHUNK_SIZE); lia|].
  by apply Z.mod_pos_bound.
Qed.

(** The hole of a chunk covers exactly the extended positions of it. *)
Lemma chunk_hole_covers old new x h :
  0 <= old -> 0 <= x -> chunk_hole old new (x / CHUNK_SIZE) = Some h ->
  covers (x `mod` CHUNK_SIZE) h = bool_decide (old <= x < new) /\ get_id h = EMPTY_SLICE_ID.
Proof.
  intros Ho Hx H. pose proof chunk_size_pos as HC. unfold chunk_hole in H.
  destruct (chunk_split x) as [Hdm Hm].
  assert (0 <= x / CHUNK_SIZE) by (apply Z.div_pos; lia).
  set (c := x / CHUNK_SIZE) in *. set (y := x `mod` CHUNK_SIZE) in *.
  assert (Hcc : (c + 1) * CHUNK_SIZE = c * CHUNK_SIZE + CHUNK_SIZE) by lia.
  rewrite Hcc in H. destruct (_ <? _) eqn:E; [|done]. to_prop. injection H as <-.
  destruct (hole_wf (Z.max old (c * CHUNK_SIZE) - c * CHUNK_SIZE)
    (Z.min new (c * CHUNK_SIZE + CHUNK_SIZE) - Z.max old (c * CHUNK_SIZE))) as (_ & Hp & Hz); [lia|lia|].
  split; [|done]. unfold covers, in_range. rewrite Hp, Hz. simpl.
  apply eq_true_iff_eq. rewrite andb_true_iff, Z.leb_le, Z.ltb_lt, bool_decide_eq_true. lia.
Qed.

Lemma chunk_hole_at old new x :
  0 <= old <= x -> x < new -> exists h, chunk_hole old new (x / CHUNK_SIZE) = Some h.
Proof.
  intros Ho Hx. pose proof chunk_size_pos as HC. unfold chunk_hole.
  pose proof (chunk_split x).
  rewrite (proj2 (Z.ltb_lt _ _)) by lia. eauto.
Qed.

(** C28: if no chunk already holds the very hole slice the extension adds to it,
    extending a writable regular file sets the new length and makes every position
    between the old and the new end read as a hole (the latest slice over it is an
    empty one), while positions below the old end keep their latest slice.  Without
    that condition old data can show: see [reextend_exposes_old_data]. *)
Theorem truncate_extend_zeroes ctx now1 now2 db i new skip a sl :
  0 <= i -> fs_attr (view db) i = Some a -> kind a = RegularFile ->
  is_normal a = true -> (skip = false -> check_access ctx a MODE_MASK_W = Ok ()) ->
  0 <= attr_length a < new ->
  (forall c, 0 <= c -> holds db i c (sl c)) ->
  (forall c h, 0 <= c -> chunk_hole (attr_length a) new c = Some h -> h ∉ sl c) ->
  exists a' db', do_truncate good_env ctx now1 now2 db i new skip = (Ok a', db') /\
    attr_length a' = new /\ fs_attr (view db') i = Some a' /\
    (forall x, attr_length a <= x < new ->
       exists l h, get_chunk_slices db' i (x / CHUNK_SIZE) = Ok l /\
         latest l (x `mod` CHUNK_SIZE) = Some h /\ get_id h = EMPTY_SLICE_ID) /\
    (forall x, 0 <= x < attr_length a ->
       exists l, holds db' i (x / CHUNK_SIZE) l /\
         latest l (x `mod` CHUNK_SIZE) = latest (sl (x / CHUNK_SIZE)) (x `mod` CHUNK_SIZE)).
Proof.
  intros Hi Ha Hk Hnorm Hacc Hlen Hh Hfresh. pose proof chunk_size_pos as HC.
  destruct (do_truncate_run ctx now1 now2 db i new skip a sl) as (db' & Hrun & Ha' & Hh'); auto; try lia.
  eexists _, db'. split; [exact Hrun|]. split; [done|]. split; [done|].
  assert (Hlat : forall x, 0 <= x -> latest (add_hole (attr_length a) new (x / CHUNK_SIZE) (sl (x / CHUNK_SIZE)))
              (x `mod` CHUNK_SIZE) =
            match chunk_hole (attr_length a) new (x / CHUNK_SIZE) with
            | Some h => if covers (x `mod` CHUNK_SIZE) h then Some h
                        else latest (sl (x / CHUNK_SIZE)) (x `mod` CHUNK_SIZE)
            | None => latest (sl (x / CHUNK_SIZE)) (x `mod` CHUNK_SIZE)
            end).
  { intros x Hx. unfold add_hole. destruct (chunk_hole _ _ _) as [h|] eqn:E; [|done].
    assert (0 <= x / CHUNK_SIZE) by (apply Z.div_pos; lia).
    unfold add_slice. rewrite decide_False by eauto. rewrite latest_app. simpl. by destruct (covers _ h). }
  split.
  - intros x Hx. assert (Hc : 0 <= x / CHUNK_SIZE) by (apply Z.div_pos; lia).
    destruct (chunk_hole_at (attr_length a) new x) as (h & Hhole); [lia|lia|].
    destruct (chunk_hole_covers (attr_length a) new x h) as [Hcov Hid]; [lia|lia|done|].
    specialize (Hlat x ltac:(lia)). rewrite Hhole, Hcov, bool_decide_true in Hlat by lia.
    exists (add_hole (attr_length a) new (x / CHUNK_SIZE) (sl (x / CHUNK_SIZE))), h. split_and!; try done.
    apply holds_decode; [auto|]. unfold add_hole. rewrite Hhole. apply add_slice_nonempty.
  - intros x Hx. assert (Hc : 0 <= x / CHUNK_SIZE) by (apply Z.div_pos; lia).
    eexists. split; [by apply Hh'|]. rewrite Hlat by lia.
    destruct (chunk_hole _ _ _) as [h|] eqn:E; [|done].
    destruct (chunk_hole_covers (attr_length a) new x h) as [Hcov _]; [lia|lia|done|].
    by rewrite Hcov, bool_decide_false by lia.
Qed.

(** When a chunk already holds the very hole an extension would add, the
    extension leaves the chunk's slices as they are: whatever was latest over
    those positions stays latest. *)
Theorem truncate_extend_duplicate_hole ctx now1 now2 db i new skip a sl c h :
  0 <= i -> fs_attr (view db) i = Some a -> kind a = RegularFile ->
  is_normal a = true -> (skip = false -> check_access ctx a MODE_MASK_W = Ok ()) ->
  0 <= attr_length a < new ->
  (forall c, 0 <= c -> holds db i c (sl c)) -> 0 <= c ->
  chunk_hole (attr_length a) new c = Some h -> h ∈ sl c ->
  exists a' db', do_truncate good_env ctx now1 now2 db i new skip = (Ok a', db') /\
    attr_length a' = new /\ get_chunk_slices db' i c = Ok (sl c).
Proof.
  intros Hi Ha Hk Hnorm Hacc Hlen Hh Hc Hhole Hin.
  destruct (do_truncate_run ctx now1 now2 db i new skip a sl) as (db' & Hrun & Ha' & Hh'); auto; try lia.
  eexists _, db'. split; [exact Hrun|]. split; [done|].
  specialize (Hh' c Hc). unfold add_hole, add_slice in Hh'.
  rewrite Hhole, decide_True in Hh' by done. apply holds_decode; [done|].
  intros E. rewrite E in Hin. by apply not_elem_of_nil in Hin.
Qed.

(** Shrinking a file changes its length only: no slice is dropped or
    masked, so the positions beyond the new end keep their latest slice. *)
Theorem truncate_shrink_keeps_slices ctx now1 now2 db i new skip a sl :
  0 <= i -> fs_attr (view db) i = Some a -> kind a = RegularFile ->
  is_normal a = true -> (skip = false -> check_access ctx a MODE_MASK_W = Ok ()) ->
  0 <= new < attr_length a ->
  (forall c, 0 <= c -> holds db i c (sl c)) ->
  exists a' db', do_truncate good_env ctx now1 now2 db i new skip = (Ok a', db') /\
    attr_length a' = new /\ (forall c, 0 <= c -> holds db' i c (sl c)).
Proof.
  intros Hi Ha Hk Hnorm Hacc Hlen Hh.
  destruct (do_truncate_run ctx now1 now2 db i new skip a sl) as (db' & Hrun & Ha' & Hh'); auto; try lia.
  eexists _, db'. split; [exact Hrun|]. split; [done|]. intros c Hc.
  specialize (Hh' c Hc). unfold add_hole, chunk_hole in Hh'.
  by rewrite (proj2 (Z.ltb_ge _ _)) in Hh' by lia.
Qed.

(** Truncating a regular file to the length it already has aborts the
    process: the length comparison is an assertion. *)
Theorem truncate_same_length_panics env ctx now1 now2 db i skip a :
  fs_attr (view db) i = Some a -> kind a = RegularFile -> is_normal a = true ->
  (skip = false -> check_access ctx a MODE_MASK_W = Ok ()) ->
  do_truncate env ctx now1 now2 db i (attr_length a) skip = (Panic, db).
Proof.
  intros Ha Hk Hnorm Hacc. unfold do_truncate.
  rewrite (proj2 (view_attr db i a) Ha). cbn [mbind outcome_bind].
  replace (is_file a) with true by (symmetry; by apply bool_decide_eq_true).
  cbn [ensure mbind outcome_bind].
  rewrite is_normal_spec in Hnorm. apply andb_true_iff in Hnorm as [H1 H2].
  apply negb_true_iff in H1, H2. rewrite H1, H2. cbn [orb negb ensure mbind outcome_bind].
  assert (Hc : (if negb skip then check_access ctx a MODE_MASK_W else Ok ()) = Ok ()).
  { destruct skip; simpl; auto. }
  rewrite Hc. cbn [mbind outcome_bind]. by rewrite Z.eqb_refl.
Qed.
End chunks.

(** ** Concrete volumes *)

(** An empty regular file (inode 3) in the root directory. *)
Definition vol_file : db_t := ref_mknod 10 3 RegularFile 1 "f" ref_volume.

Definition vol_file_attr : InodeAttr := set_ctime 10 (set_mtime 10 (set_atime 10 (ref_attr RegularFile 1))).

Lemma vol_file_chunks i c : kv_get vol_file (Key.chunk_slices i c) = None.
Proof.
  change vol_file with
    (kv_put (Key.attr 3) (bc_ser vol_file_attr)
      (kv_put (Key.dentry 1 "f") (bc_ser (mkDEntry 1 "f" 3 RegularFile))
        (kv_put (Key.counter_key Key.NextInode) (bc_ser 2)
          (kv_put (Key.attr ROOT_INO) (bc_ser ref_root)
            (kv_put Key.CURRENT_FORMAT (bc_ser format_default) empty_db))))).
  rewrite !kv_get_put_ne; [reflexivity|..]; key_ne.
Qed.

Lemma vol_file_holds c : holds vol_file 3 c [].
Proof. split; [|constructor]. by rewrite vol_file_chunks. Qed.

Lemma commit_slice_appends_witness :
  exists r db', commit_slice good_env 20 20 vol_file 3 0 (Owned 0 7 5 0) = (Ok r, db') /\
    grew_by r = 5 /\ inserted r = true.
Proof.
  destruct (commit_slice_appends 20 20 vol_file 3 0 (Owned 0 7 5 0) [] vol_file_attr)
    as (r & db' & Hrun & _ & Hins & _ & Hg & _);
    [lia|lia|reflexivity|reflexivity|apply vol_file_holds|reflexivity|reflexivity|simpl; lia|].
  exists r, db'. split_and!; [exact Hrun|exact Hg|exact Hins].
Defined.

Lemma commit_then_read_witness :
  get_chunk_slices (commit_slice good_env 20 20 vol_file 3 0 (Owned 0 7 5 0)).2 3 0
  = Ok [Owned 0 7 5 0].
Proof.
  destruct (commit_then_read 20 20 vol_file 3 0 (Owned 0 7 5 0) [] vol_file_attr (mkSCR 5 1 true)
    (commit_slice good_env 20 20 vol_file 3 0 (Owned 0 7 5 0)).2) as [H _];
    [lia|lia|reflexivity|apply vol_file_holds|apply not_elem_of_nil|reflexivity|reflexivity|reflexivity|].
  exact H.
Defined.

Lemma truncate_extend_zeroes_witness :
  exists a' db', do_truncate good_env root_ctx 20 20 vol_file 3 8 false = (Ok a', db') /\
    exists l h, get_chunk_slices db' 3 0 = Ok l /\ latest l 5 = Some h /\ get_id h = 0.
Proof.
  destruct (truncate_extend_zeroes root_ctx 20 20 vol_file 3 8 false vol_file_attr (fun _ => []))
    as (a' & db' & Hrun & _ & _ & Hx & _);
    [lia|reflexivity|reflexivity|reflexivity|reflexivity|simpl; lia|intros; apply vol_file_holds|
     intros; apply not_elem_of_nil|].
  exists a', db'. split; [exact Hrun|]. apply (Hx 5). simpl. lia.
Defined.

(** The file's chunk holds a hole over [0, 8) and data written over it. *)
Definition stale_slices : list Slice := [hole_at 0 8; Owned 0 7 8 0].
Definition vol_stale : db_t := kv_put (Key.chunk_slices 3 0) (slices_encode stale_slices) vol_file.

Lemma vol_stale_holds c : 0 <= c -> holds vol_stale 3 c (if decide (c = 0) then stale_slices else []).
Proof.
  intros Hc. unfold holds, vol_stale. destruct (decide (c = 0)) as [->|Hne].
  - rewrite kv_get_put_eq. split; [done|]. repeat constructor.
  - rewrite kv_get_put_ne; [rewrite vol_file_chunks; by split|].
    intros E. apply chunk_key_inj in E as [_ E]; lia.
Qed.

(** The operations that lead to such a chunk, and the stale data they expose:
    extend to 8, write 8 bytes, shrink to 0, extend to 8 again. *)
Example reextend_exposes_old_data :
  let db1 := (do_truncate good_env root_ctx 20 20 vol_file 3 8 false).2 in
  let db2 := (commit_slice good_env 30 30 db1 3 0 (Owned 0 7 8 0)).2 in
  let db3 := (do_truncate good_env root_ctx 40 40 db2 3 0 false).2 in
  let db4 := (do_truncate good_env root_ctx 50 50 db3 3 8 false).2 in
  get_chunk_slices db4 3 0 = Ok stale_slices /\ latest stale_slices 5 = Some (Owned 0 7 8 0).
Proof. vm_compute. split; reflexivity. Qed.

Lemma truncate_extend_duplicate_hole_witness :
  exists a' db', do_truncate good_env root_ctx 50 50 vol_stale 3 8 false = (Ok a', db') /\
    get_chunk_slices db' 3 0 = Ok stale_slices.
Proof.
  destruct (truncate_extend_duplicate_hole root_ctx 50 50 vol_stale 3 8 false vol_file_attr
    (fun c => if decide (c = 0) then stale_slices else []) 0 (hole_at 0 8)) as (a' & db' & Hrun & _ & Hl);
    [lia|reflexivity|reflexivity|reflexivity|reflexivity|simpl; lia|apply vol_stale_holds|lia|reflexivity|
     apply list_elem_of_here|].
  exists a', db'. split; [exact Hrun|exact Hl].
Defined.

Definition vol_long : db_t := txn_put_attr vol_stale 3 (set_length 8 vol_file_attr).

Lemma truncate_shrink_keeps_slices_witness :
  exists a' db', do_truncate good_env root_ctx 50 50 vol_long 3 2 false = (Ok a', db') /\
    attr_length a' = 2 /\ holds db' 3 0 stale_slices.
Proof.
  destruct (truncate_shrink_keeps_slices root_ctx 50 50 vol_long 3 2 false (set_length 8 vol_file_attr)
    (fun c => if decide (c = 0) then stale_slices else [])) as (a' & db' & Hrun & Hlen & Hl);
    [lia|reflexivity|reflexivity|reflexivity|reflexivity|simpl; lia|
     intros c Hc; apply txn_put_attr_holds; by apply vol_stale_holds|].
  exists a', db'. split_and!; [exact Hrun|exact Hlen|exact (Hl 0 ltac:(lia))].
Defined.

Lemma truncate_same_length_panics_witness :
  do_truncate good_env root_ctx 20 20 vol_file 3 0 false = (Panic, vol_file).
Proof.
  apply (truncate_same_length_panics good_env root_ctx 20 20 vol_file 3 false vol_file_attr); reflexivity.
Defined.
