(* ===== verification/IdTable.v ===== *)
(** * Identifier allocation (components/meta/src/id_table.rs)

    A table hands out identifiers from a range it reserved by advancing a
    counter of the metadata store.  The range is forgotten on restart; the
    counter is not.  The theorem follows any sequence of allocations and
    restarts, including allocations whose commit fails. *)

From S2P Require Import Prelude Common Types Bincode Slice Keys KV Meta OpenFiles Backend.
From S2P Require Import FsModel Namespace Reach RefStore.

(** [next_max_pair]; the backend is passed to [id_next], the counter with it. *)
Record IdTable := mkIdTable { id_lo : Z; id_max : Z }.

Definition id_table_new : IdTable := mkIdTable 0 0.

(** The [while next <= 1] loop: it runs at most twice from 0. *)
Fixpoint skip_reserved (fuel : nat) (next lo : Z) : Z * Z :=
  match fuel with
  | O => (next, lo)
  | S fuel => if next <=? 1 then skip_reserved fuel lo (u64_wrap (lo + 1)) else (next, lo)
  end.

Section id_table.
Context `{K : KVStore} `{C : MetaCodec}.

(** The part of [next] that makes sure the table has an identifier left. *)
Definition id_refill (env : Env) (counter : Key.Counter) (db : db_t) (t : IdTable)
    : Result IdTable * db_t :=
  if id_max t <=? id_lo t then
    match Key.get_step (E:=Error) counter with
    | Ok step =>
        let '(r, db) := increase_count_by env db counter step in
        (new_max ← r; Ok (mkIdTable (u64_wrap (new_max - step)) new_max), db)
    | Err e => (Err e, db)
    | Panic => (Panic, db)
    end
  else (Ok t, db).

(** [IdTable::next] *)
Definition id_next (env : Env) (counter : Key.Counter) (db : db_t) (t : IdTable)
    : Result Z * IdTable * db_t :=
  let '(r, db) := id_refill env counter db t in
  match r with
  | Ok t =>
      let '(next, lo) := skip_reserved 3 (id_lo t) (u64_wrap (id_lo t + 1)) in
      (Ok next, mkIdTable lo (id_max t), db)
  | Err e => (Err e, t, db)
  | Panic => (Panic, t, db)
  end.

(** The value of a counter, 0 before it is first written. *)
Definition counter_value (db : db_t) (counter : Key.Counter) : option Z :=
  match kv_get db (Key.counter_key counter) with
  | Some v => bc_de v
  | None => Some 0
  end.

(** ** Runs *)

Inductive id_op := INext (env : Env) | IRestart.

(** The state of a run: store, table, and the identifiers handed out, newest first. *)
Definition id_step (counter : Key.Counter) (st : db_t * IdTable * list Z) (o : id_op)
    : db_t * IdTable * list Z :=
  let '(db, t, out) := st in
  match o with
  | IRestart => (db, id_table_new, out)
  | INext env =>
      let '(r, t, db) := id_next env counter db t in
      (db, t, match r with Ok n => n :: out | _ => out end)
  end.
End id_table.

Section id_facts.
Context `{KL : KVLaws} `{CL : MetaCodecLaws}.

Lemma increase_count_spec env db counter step v :
  counter_value db counter = Some v -> 0 <= v + step < 2 ^ 64 ->
  exists r db', increase_count_by env db counter step = (r, db') /\
    ((r = Ok (v + step) /\ counter_value db' counter = Some (v + step)) \/
     (r = Err RocksdbError /\ db' = db)).
Proof.
  intros Hv Hr. unfold increase_count_by, counter_value in *.
  assert (Hcur : match kv_get db (Key.counter_key counter) with
     | Some b => ok_or (bc_de b) (ModelError (Corruption MCounter (Key.counter_key counter)))
     | None => Ok 0 end = Ok v).
  { destruct (kv_get db (Key.counter_key counter)) as [b|]; [by rewrite Hv|by injection Hv as <-]. }
  rewrite Hcur. cbn [mbind outcome_bind commit_txn].
  unfold u64_wrap. rewrite Z.mod_small by lia.
  destruct (commit_ok env); eexists _, _; (split; [reflexivity|]); [left|by right].
  split; [done|]. rewrite kv_get_put_eq. apply ml_u64. unfold is_u64.
  apply andb_true_iff. rewrite Z.leb_le, Z.ltb_lt. lia.
Qed.

Lemma skip_reserved_spec n :
  0 <= n < 2 ^ 64 - 3 ->
  skip_reserved 3 n (u64_wrap (n + 1)) = (Z.max 2 n, Z.max 2 n + 1).
Proof.
  intros Hn. unfold u64_wrap. rewrite Z.mod_small by lia.
  assert (n = 0 \/ n = 1 \/ 2 <= n) as [->|[->|Hn2]] by lia; [reflexivity|reflexivity|].
  simpl. rewrite (proj2 (Z.leb_gt _ _)) by lia. f_equal; lia.
Qed.

(** The next identifier the store and table allow: below it lie all that were used. *)
Definition id_floor (t : IdTable) (v : Z) : Z := if id_lo t <? id_max t then id_lo t else v.

(** Invariant of a run, with [v] the counter's value and [step] its step. *)
Definition id_inv (counter : Key.Counter) (st : db_t * IdTable * list Z) (v : Z) : Prop :=
  let '(db, t, out) := st in
  counter_value db counter = Some v /\ 0 <= v /\ 0 <= id_lo t /\ id_max t <= v /\
  (id_lo t < id_max t -> 2 <= id_lo t) /\
  (forall x, x ∈ out -> 2 <= x < id_floor t v) /\ NoDup out.

Lemma id_step_inv counter step st v o :
  Key.get_step (E:=Error) counter = Ok step -> 4 <= step -> v + step < 2 ^ 64 - 3 ->
  id_inv counter st v ->
  exists v', v <= v' <= v + step /\ id_inv counter (id_step counter st o) v'.
Proof.
  intros Hstep Hs4 Hb. destruct st as [[db t] out]. intros (Hv & Hv0 & Hlo & Hmax & Htwo & Hout & Hnd).
  destruct o as [env|]; simpl.
  2: { exists v. split; [lia|]. split_and!; simpl; try done; try lia.
       intros x Hx. specialize (Hout x Hx). unfold id_floor in *. simpl.
       destruct (id_lo t <? id_max t) eqn:E; to_prop; lia. }
  assert (Hfin : forall db' t' v', counter_value db' counter = Some v' -> v <= v' <= v + step ->
            id_lo t' < id_max t' -> id_max t' <= v' -> id_floor t v <= id_lo t' ->
            0 <= id_lo t' -> (id_lo t' + 3 <= id_max t' \/ 2 <= id_lo t') ->
            exists v'', v <= v'' <= v + step /\
              id_inv counter
                (let '(r, t, db) :=
                   (let '(next, lo) := skip_reserved 3 (id_lo t') (u64_wrap (id_lo t' + 1)) in
                    (Ok (E:=Error) next, mkIdTable lo (id_max t'), db')) in
                 (db, t, match r with Ok n => n :: out | _ => out end)) v'').
  { intros db' t' v' Hv' Hle Hlt Hm Hfl H0 Hroom. exists v'. split; [done|].
    rewrite skip_reserved_spec by lia. simpl.
    split_and!; simpl; try done; try lia.
    - intros x Hx. apply elem_of_cons in Hx as [->|Hx].
      + unfold id_floor. simpl. case_if; lia.
      + specialize (Hout x Hx). unfold id_floor. simpl. case_if; lia.
    - constructor; [|done]. intros Hx. specialize (Hout _ Hx). lia. }
  unfold id_next, id_refill. destruct (id_max t <=? id_lo t) eqn:E; to_prop.
  - rewrite Hstep.
    destruct (increase_count_spec env db counter step v Hv ltac:(lia)) as (r & db' & -> & Hr).
    destruct Hr as [[-> Hv']|[-> ->]]; cbn [mbind outcome_bind].
    + apply (Hfin db' (mkIdTable (u64_wrap (v + step - step)) (v + step)) (v + step));
        simpl; unfold u64_wrap; rewrite ?Z.mod_small by lia; try done; try lia.
      unfold id_floor. case_if; lia.
    + exists v. split; [lia|]. by split_and!.
  - apply (Hfin db t v); try done; try lia. unfold id_floor. case_if; lia.
Qed.

(** An allocation whose commit succeeds returns an identifier. *)
Lemma id_next_ok env counter step db t v :
  Key.get_step (E:=Error) counter = Ok step -> 0 <= step -> 0 <= v -> v + step < 2 ^ 64 ->
  counter_value db counter = Some v -> commit_ok env = true ->
  exists n t' db', id_next env counter db t = (Ok n, t', db').
Proof.
  intros Hstep Hs0 Hv0 Hb Hv Hc. unfold id_next, id_refill.
  destruct (id_max t <=? id_lo t); [|destruct (skip_reserved _ _ _); eauto].
  rewrite Hstep. destruct (increase_count_spec env db counter step v Hv ltac:(lia)) as (r & db' & E & Hr).
  rewrite E. destruct Hr as [[-> _]|[-> ->]].
  - cbn [mbind outcome_bind]. destruct (skip_reserved _ _ _); eauto.
  - exfalso. unfold increase_count_by, commit_txn in E. rewrite Hc in E.
    unfold counter_value in Hv. destruct (kv_get db (Key.counter_key counter)) as [b|]; simpl in E.
    + rewrite Hv in E. simpl in E. congruence.
    + congruence.
Qed.

Definition op_env (o : id_op) : option Env := match o with INext env => Some env | IRestart => None end.

(** How many allocations of a run succeed. *)
Fixpoint nexts (ops : list id_op) : nat :=
  match ops with
  | [] => 0
  | INext env :: ops => if commit_ok env then S (nexts ops) else nexts ops
  | IRestart :: ops => nexts ops
  end.

Lemma id_step_count counter step st v o :
  Key.get_step (E:=Error) counter = Ok step -> 0 <= step -> v + step < 2 ^ 64 ->
  id_inv counter st v ->
  (length st.2 + nexts [o] <= length (id_step counter st o).2)%nat.
Proof.
  intros Hstep Hs0 Hb. destruct st as [[db t] out]. intros (Hv & Hv0 & _).
  destruct o as [env|]; simpl; [|lia].
  destruct (commit_ok env) eqn:Hc.
  - destruct (id_next_ok env counter step db t v) as (n & t' & db' & ->); try done. simpl. lia.
  - destruct (id_next env counter db t) as [[[n| |] t'] db']; simpl; lia.
Qed.

Lemma id_run counter step ops st v :
  Key.get_step (E:=Error) counter = Ok step -> 4 <= step ->
  v + step * (Z.of_nat (length ops)) < 2 ^ 64 - 3 ->
  id_inv counter st v ->
  (exists v', id_inv counter (foldl (id_step counter) st ops) v') /\
  (length st.2 + nexts ops <= length (foldl (id_step counter) st ops).2)%nat.
Proof.
  intros Hstep Hs4. revert st v. induction ops as [|o ops IH]; intros st v Hb Hinv; simpl.
  { split; [by exists v|lia]. }
  simpl length in Hb. rewrite Nat2Z.inj_succ, Z.mul_succ_r in Hb.
  assert (Hpos : 0 <= step * Z.of_nat (length ops)) by nia.
  destruct (id_step_inv counter step st v o) as (v' & Hv' & Hinv'); try done; try lia.
  destruct (IH (id_step counter st o) v') as [Hex Hlen]; [lia|done|]. split; [done|].
  assert (Hs0 : 0 <= step) by lia. assert (Hvs : v + step < 2 ^ 64) by lia.
  pose proof (id_step_count counter step st v o Hstep Hs0 Hvs Hinv) as Hc.
  destruct o as [env|]; simpl in *; [destruct (commit_ok env)|]; lia.
Qed.

(** C32: across any sequence of allocations and restarts, identifiers are never
    handed out twice and never 0 or 1 (the root inode), and every allocation
    whose commit succeeds hands one out; for the inode and the slice counter,
    while the counter stays below the 64-bit limit. *)
Theorem ids_never_repeat counter ops db v :
  counter = Key.NextInode \/ counter = Key.NextSlice ->
  counter_value db counter = Some v -> 0 <= v ->
  v + 4096 * Z.of_nat (length ops) < 2 ^ 64 - 3 ->
  let out := (foldl (id_step counter) (db, id_table_new, []) ops).2 in
  NoDup out /\ (forall x, x ∈ out -> 2 <= x) /\ (nexts ops <= length out)%nat.
Proof.
  intros Hc Hv Hv0 Hb out.
  assert (exists step, Key.get_step (E:=Error) counter = Ok step /\ 4 <= step <= 4096) as (step & Hstep & Hs).
  { destruct Hc as [-> | ->]; [exists 1024|exists 4096]; (split; [reflexivity|lia]). }
  assert (Hinv : id_inv counter (db, id_table_new, []) v).
  { split_and!; simpl; try done; try lia; [|constructor]. intros x Hx. by apply not_elem_of_nil in Hx. }
  assert (Hs4 : 4 <= step) by lia.
  assert (Hb' : v + step * Z.of_nat (length ops) < 2 ^ 64 - 3) by nia.
  destruct (id_run counter step ops (db, id_table_new, []) v Hstep Hs4 Hb' Hinv)
    as [(v' & Hfin) Hlen].
  unfold out. destruct (foldl _ _ ops) as [[db' t'] o']. destruct Hfin as (_ & _ & _ & _ & _ & Hx & Hnd).
  simpl. split; [done|]. split; [|exact Hlen]. intros x Hin. apply (Hx x Hin).
Qed.
End id_facts.

Lemma ids_never_repeat_witness :
  let out := (foldl (id_step Key.NextInode) (ref_volume, id_table_new, [])
    [INext good_env; INext (mkEnv true false); IRestart; INext (mkEnv true false); INext good_env]).2 in
  out = [1026; 3; 2] /\ NoDup out.
Proof.
  intros out. split; [reflexivity|].
  apply (ids_never_repeat Key.NextInode
    [INext good_env; INext (mkEnv true false); IRestart; INext (mkEnv true false); INext good_env]
    ref_volume 2); [by left|reflexivity|lia|simpl; lia].
Defined.
