(* ===== verification/Engine.v ===== *)
(** * The metadata engine (components/meta/src/engine.rs)

    [MetaEngine] is the state the engine keeps next to the backend: open files,
    caches, id tables, statistics.  An operation is a function from the state
    to a result and the state it leaves; it takes the environment of the call
    ([World]: the successive clock reads and the fate of the successive writes)
    as an argument.  Background deletion is a queue of inodes drained by
    [run_delete].  Metrics, tracing and the no-op lock operations are left out. *)

From S2P Require Import Prelude Common Types Bincode Slice Keys KV Meta OpenFiles Backend.
From S2P Require Import FsModel Namespace IdTable.

Record MetaConfig := mkMetaConfig {
  dsn : string;
  read_only : bool;
  open_cache : Duration;
  open_cache_limit : Z;
  skip_dir_mtime : Duration
}.

Definition O_WRONLY : Z := 1.
Definition O_RDWR : Z := 2.
Definition O_TRUNC : Z := 0x200.
Definition O_APPEND : Z := 0x400.

(** The environment of one call: clock reads and write outcomes, in order. *)
Record World := mkWorld { clk : nat -> SystemTime; wenv : nat -> Env }.
Definition later (k : nat) (w : World) : World :=
  mkWorld (fun n => clk w (k + n)%nat) (fun n => wenv w (k + n)%nat).

Module Engine.
Section engine.
Context `{L : Layout} `{K : KVStore} `{C : MetaCodec}.

Record MetaEngine := mkEngine {
  config : MetaConfig;
  format : Format;
  root : Ino;
  session_id : Z;
  open_files : OpenFiles;
  symlinks : gmap Z bytes;
  removed_files : gset Z;
  dir_parents : gmap Z Z;
  fs_stat_used_size : Z;
  fs_stat_file_count : Z;
  free_inodes : IdTable;
  free_slices : IdTable;
  pending_deletes : list Ino;
  backend : db_t
}.

Definition set_open_files (v : OpenFiles) (e : MetaEngine) : MetaEngine :=
  mkEngine (config e) (format e) (root e) (session_id e) v (symlinks e) (removed_files e)
    (dir_parents e) (fs_stat_used_size e) (fs_stat_file_count e) (free_inodes e) (free_slices e)
    (pending_deletes e) (backend e).
Definition set_symlinks (v : gmap Z bytes) (e : MetaEngine) : MetaEngine :=
  mkEngine (config e) (format e) (root e) (session_id e) (open_files e) v (removed_files e)
    (dir_parents e) (fs_stat_used_size e) (fs_stat_file_count e) (free_inodes e) (free_slices e)
    (pending_deletes e) (backend e).
Definition set_removed (v : gset Z) (e : MetaEngine) : MetaEngine :=
  mkEngine (config e) (format e) (root e) (session_id e) (open_files e) (symlinks e) v
    (dir_parents e) (fs_stat_used_size e) (fs_stat_file_count e) (free_inodes e) (free_slices e)
    (pending_deletes e) (backend e).
Definition set_dir_parents (v : gmap Z Z) (e : MetaEngine) : MetaEngine :=
  mkEngine (config e) (format e) (root e) (session_id e) (open_files e) (symlinks e)
    (removed_files e) v (fs_stat_used_size e) (fs_stat_file_count e) (free_inodes e)
    (free_slices e) (pending_deletes e) (backend e).
Definition set_stats (used count : Z) (e : MetaEngine) : MetaEngine :=
  mkEngine (config e) (format e) (root e) (session_id e) (open_files e) (symlinks e)
    (removed_files e) (dir_parents e) used count (free_inodes e) (free_slices e)
    (pending_deletes e) (backend e).
Definition set_free_inodes (v : IdTable) (e : MetaEngine) : MetaEngine :=
  mkEngine (config e) (format e) (root e) (session_id e) (open_files e) (symlinks e)
    (removed_files e) (dir_parents e) (fs_stat_used_size e) (fs_stat_file_count e) v
    (free_slices e) (pending_deletes e) (backend e).
Definition set_free_slices (v : IdTable) (e : MetaEngine) : MetaEngine :=
  mkEngine (config e) (format e) (root e) (session_id e) (open_files e) (symlinks e)
    (removed_files e) (dir_parents e) (fs_stat_used_size e) (fs_stat_file_count e)
    (free_inodes e) v (pending_deletes e) (backend e).
Definition set_pending (v : list Ino) (e : MetaEngine) : MetaEngine :=
  mkEngine (config e) (format e) (root e) (session_id e) (open_files e) (symlinks e)
    (removed_files e) (dir_parents e) (fs_stat_used_size e) (fs_stat_file_count e)
    (free_inodes e) (free_slices e) v (backend e).
Definition set_backend (v : db_t) (e : MetaEngine) : MetaEngine :=
  mkEngine (config e) (format e) (root e) (session_id e) (open_files e) (symlinks e)
    (removed_files e) (dir_parents e) (fs_stat_used_size e) (fs_stat_file_count e)
    (free_inodes e) (free_slices e) (pending_deletes e) v.

(** *** Operations with state *)

Definition eng (A : Type) : Type := MetaEngine -> Result A * MetaEngine.

#[local] Instance eng_ret : MRet eng := fun A a e => (Ok a, e).
#[local] Instance eng_bind : MBind eng := fun A B f m e =>
  match m e with
  | (Ok a, e') => f a e'
  | (Err x, e') => (Err x, e')
  | (Panic, e') => (Panic, e')
  end.

Definition lift {A} (r : Result A) : eng A := fun e => (r, e).
Definition gets {A} (f : MetaEngine -> A) : eng A := fun e => (Ok (f e), e).
Definition modify (f : MetaEngine -> MetaEngine) : eng () := fun e => (Ok (), f e).
Definition fail {A} (x : Error) : eng A := lift (Err x).
Definition guard (b : bool) (x : Error) : eng () := lift (ensure b x).

(** Run a backend operation on the store. *)
Definition on_backend {A} (f : db_t -> Result A * db_t) : eng A := fun e =>
  let '(r, db) := f (backend e) in (r, set_backend db e).
(** Read from the backend. *)
Definition from_backend {A} (f : db_t -> Result A) : eng A := fun e => (f (backend e), e).
Definition on_files (f : OpenFiles -> OpenFiles) : eng () :=
  modify (fun e => set_open_files (f (open_files e)) e).

(** *** Helpers *)

Definition add_dir2parent_mapping (inode parent : Ino) : eng () :=
  modify (fun e =>
    match dir_parents e !! inode with
    | Some _ => e
    | None => set_dir_parents (<[inode := parent]> (dir_parents e)) e
    end).

Definition del_dir2parents_mapping (inode : Ino) : eng () :=
  modify (fun e => set_dir_parents (delete inode (dir_parents e)) e).

Definition next_slice_id (w : World) : eng SliceID := fun e =>
  let '(r, t, db) := id_next (wenv w 0) Key.NextSlice (backend e) (free_slices e) in
  (r, set_backend db (set_free_slices t e)).

Definition next_inode_id (w : World) : eng Ino := fun e =>
  let '(r, t, db) := id_next (wenv w 0) Key.NextInode (backend e) (free_inodes e) in
  (r, set_backend db (set_free_inodes t e)).

Definition stat_fs : eng FSStat :=
  gets (fun e => mkFSStat (default U64_MAX (max_capacity (format e))) (fs_stat_used_size e)
                   (fs_stat_file_count e)).

Definition check_root (e : MetaEngine) (inode : Ino) : Ino :=
  if is_zero inode then ROOT_INO else if inode =? ROOT_INO then root e else inode.

Definition add_stats (used count : Z) : eng () :=
  modify (fun e => set_stats (u64_wrap (fs_stat_used_size e + used))
                     (u64_wrap (fs_stat_file_count e + count)) e).

(** *** Attributes *)

Definition get_attr (w : World) (inode : Ino) : eng InodeAttr :=
  inode ← gets (fun e => check_root e inode);
  cached ← (fun e =>
    if negb (open_cache (config e) =? 0) then
      (fst <$> load_attr (clk w 0) inode false (open_files e), e)
    else (Ok None, e));
  match cached with
  | Some attr => mret attr
  | None =>
      attr ← from_backend (fun db => Backend.get_attr db inode);
      attr ← (fun e =>
        let '(attr, fs) := refresh_attr (clk w 1) inode attr (open_files e) in
        (Ok attr, set_open_files fs e));
      _ ← (if is_filetype attr Directory && negb (is_root inode)
           then add_dir2parent_mapping inode (parent attr) else mret ());
      mret attr
  end.

Definition do_lookup (parent : Ino) (name : string) : eng (Ino * InodeAttr) :=
  entry_info ← from_backend (fun db => get_dentry db parent name);
  attr ← from_backend (fun db => Backend.get_attr db (de_inode entry_info));
  mret (de_inode entry_info, attr).

Definition lookup (w : World) (ctx : FuseContext) (parent : Ino) (name : string)
    (check_perm : bool) : eng (Ino * InodeAttr) :=
  parent ← gets (fun e => check_root e parent);
  _ ← (if check_perm then
         parent_attr ← get_attr w parent;
         lift (check_access ctx parent_attr MODE_MASK_X)
       else mret ());
  root ← gets root;
  if bool_decide (name = DOT_DOT) && negb (parent =? root) then
    parent_attr ← get_attr (later 2 w) parent;
    _ ← guard (bool_decide (kind parent_attr = Directory)) (LibcError ENOTDIR);
    attr ← get_attr (later 4 w) (Types.parent parent_attr);
    mret (Types.parent parent_attr, attr)
  else if bool_decide (name = DOT) || bool_decide (name = DOT_DOT) then
    attr ← get_attr (later 2 w) parent;
    mret (parent, attr)
  else
    '(inode, attr) ← do_lookup parent name;
    _ ← (if bool_decide (kind attr = Directory) then add_dir2parent_mapping inode parent else mret ());
    mret (inode, attr).

(** The loop of [do_read_dir]. *)
Fixpoint read_dir_entries (inode : Ino) (plus : bool) (entries : list DEntry) : eng (list Entry) :=
  match entries with
  | [] => mret []
  | de :: entries =>
      entry ← (if plus then
                 attr ← from_backend (fun db => Backend.get_attr db (de_inode de));
                 mret (EFull (mkFullEntry inode (de_name de) attr))
               else mret (EDEntry de));
      rest ← read_dir_entries inode plus entries;
      mret (entry :: rest)
  end.

Definition do_read_dir (inode : Ino) (plus : bool) (limit : Z) : eng (list Entry) :=
  entries ← from_backend (fun db => list_dentry db inode limit);
  read_dir_entries inode plus entries.

Definition read_dir (w : World) (ctx : FuseContext) (inode : Ino) (plus : bool)
    : eng (list Entry) :=
  inode ← gets (fun e => check_root e inode);
  attr ← get_attr w inode;
  let mmask := if plus then Z.lor MODE_MASK_R MODE_MASK_X else MODE_MASK_X in
  _ ← lift (check_access ctx attr mmask);
  do_read_dir inode plus (-1).

(** *** Creating and removing nodes *)

(** The attributes a new node starts with. *)
Definition new_node_attr (now : SystemTime) (ctx : FuseContext) (parent : Ino) (typ : FileType)
    (mode umask rdev : Z) (path : string) : InodeAttr :=
  let attr :=
    set_parent parent (set_uid (ctx_uid ctx) (set_gid (ctx_gid ctx)
      (set_kind typ (set_mode (Z.ldiff mode umask) (attr_default now))))) in
  match typ with
  | Directory => set_length (Z.shiftl 4 10) (set_nlink 2 attr)
  | Symlink => set_length (Z.of_nat (String.length path)) (set_nlink 1 attr)
  | _ => set_rdev rdev (set_length 0 (set_nlink 1 attr))
  end.

Definition mknod (w : World) (ctx : FuseContext) (parent : Ino) (name : string) (typ : FileType)
    (mode umask rdev : Z) (path : string) : eng (Ino * InodeAttr) :=
  ro ← gets (fun e => read_only (config e));
  _ ← guard (negb ro) (LibcError EROFS);
  _ ← guard (negb (bool_decide (name = ""))) (LibcError ENOENT);
  parent ← gets (fun e => check_root e parent);
  new_inode ← next_inode_id w;
  let attr := new_node_attr (clk w 0) ctx parent typ mode umask rdev path in
  r ← on_backend (fun db =>
    do_mknod (wenv w 1) ctx (clk w 1) (clk w 2) db new_inode attr parent name typ path);
  _ ← add_stats 4096 1;
  mret r.

Definition mkdir (w : World) (ctx : FuseContext) (parent : Ino) (name : string) (mode umask : Z)
    : eng (Ino * InodeAttr) :=
  r ← mknod w ctx parent name Directory mode umask 0 "";
  _ ← add_dir2parent_mapping r.1 parent;
  mret r.

Definition rmdir (w : World) (ctx : FuseContext) (parent : Ino) (name : string) : eng () :=
  parent ← gets (fun e => check_root e parent);
  skip ← gets (fun e => skip_dir_mtime (config e));
  '(dentry, _) ← on_backend (fun db => do_rmdir (wenv w 0) ctx (clk w 0) db parent name skip);
  _ ← add_stats (-4096) (-1);
  del_dir2parents_mapping (de_inode dentry).

Definition create (w : World) (ctx : FuseContext) (parent : Ino) (name : string) (mode umask : Z)
    : eng (Ino * InodeAttr) := fun e =>
  let '(r, e) := mknod w ctx parent name RegularFile mode umask 0 "" e in
  let '(x, e) :=
    match r with
    | Ok r => (Ok r, e)
    | Err (LibcError errno) =>
        if errno =? EEXIST then do_lookup parent name e else (Err (LibcError errno), e)
    | Err x => (Err x, e)
    | Panic => (Panic, e)
    end in
  match x with
  | Ok (ino, attr) =>
      let '(attr, fs) := of_open (clk w 3) ino attr (open_files e) in
      (Ok (ino, attr), set_open_files fs e)
  | Err x => (Err x, e)
  | Panic => (Panic, e)
  end.

(** *** Setting attributes *)

(** The set-id bits of a file whose owner and group change (Linux): the new
    modes of the dirty and the requested attributes. *)
Definition clear_setid (ctx : FuseContext) (dirty new_attr : InodeAttr) : InodeAttr * InodeAttr :=
  if negb (is_dir dirty) then
    let mask :=
      if negb (ctx_uid ctx =? 0) || negb (Z.land (Z.shiftr (mode dirty) 3) 1 =? 0)
      then 0x3FF else 0x7FF in
    (set_mode (Z.land (mode dirty) mask) dirty, set_mode (Z.land (mode new_attr) mask) new_attr)
  else (dirty, new_attr).

(** The GID block: error, or the group and whether it changed. *)
Definition merge_gid (ctx : FuseContext) (flags : Z) (cur new_attr : InodeAttr)
    (st : InodeAttr * bool) : Result (InodeAttr * bool) :=
  let '(dirty, changed) := st in
  if bits_contain flags SA_GID then
    _ ← ensure ((ctx_uid ctx =? 0) || (ctx_uid ctx =? uid cur)) (LibcError EPERM);
    if negb (gid cur =? gid new_attr) then
      _ ← ensure (negb (ctx_check_permission ctx && negb (uid cur =? 0)
                        && negb (contains_gid ctx (gid new_attr)))) (LibcError EPERM);
      Ok (set_gid (gid new_attr) dirty, true)
    else Ok (dirty, changed)
  else Ok (dirty, changed).

Definition merge_uid (ctx : FuseContext) (flags : Z) (cur new_attr : InodeAttr)
    (st : InodeAttr * bool) : Result (InodeAttr * bool) :=
  let '(dirty, changed) := st in
  if bits_contain flags SA_UID && negb (uid cur =? uid new_attr) then
    _ ← ensure (ctx_uid ctx =? 0) (LibcError EPERM);
    Ok (set_uid (uid new_attr) dirty, true)
  else Ok (dirty, changed).

Definition merge_mode (ctx : FuseContext) (flags : Z) (cur new_attr : InodeAttr)
    (st : InodeAttr * bool) : Result (InodeAttr * InodeAttr * bool) :=
  let '(dirty, changed) := st in
  if bits_contain flags SA_MODE then
    let new_attr :=
      if negb (ctx_uid ctx =? 0) && negb (Z.land (mode new_attr) 0x400 =? 0)
         && negb (ctx_uid ctx =? gid cur)
      then set_mode (Z.land (mode new_attr) 0xBFF) new_attr else new_attr in
    if negb (mode cur =? mode new_attr) then
      _ ← ensure (negb (negb (ctx_uid ctx =? 0) && negb (ctx_uid ctx =? uid cur)
             && (negb (Z.land (mode cur) 0x3FF =? Z.land (mode new_attr) 0x3FF)
                 || (Z.land (mode cur) 0x400 <? Z.land (mode new_attr) 0x400)
                 || (Z.land (mode cur) 0x800 <? Z.land (mode new_attr) 0x800))))
           (LibcError EPERM);
      Ok (set_mode (mode new_attr) dirty, new_attr, true)
    else Ok (dirty, new_attr, changed)
  else Ok (dirty, new_attr, changed).

(** One of the two timestamp blocks: its NOW and explicit forms, the errno the
    NOW form uses, and the setter. *)
Definition merge_time (ctx : FuseContext) (flags now_flag time_flag now_errno : Z)
    (cur : InodeAttr) (now explicit : SystemTime) (set : SystemTime -> InodeAttr -> InodeAttr)
    (st : InodeAttr * bool) : Result (InodeAttr * bool) :=
  let '(dirty, changed) := st in
  let owner := ctx_uid ctx =? uid cur in
  if bits_contain flags now_flag then
    _ ← (if negb (is_ok (check_access ctx cur MODE_MASK_W))
         then ensure owner (LibcError now_errno) else Ok ());
    Ok (set now dirty, true)
  else if bits_contain flags time_flag then
    _ ← ensure owner (LibcError EACCES);
    _ ← (if negb (is_ok (check_access ctx cur MODE_MASK_W))
         then ensure owner (LibcError EACCES) else Ok ());
    Ok (set explicit dirty, true)
  else Ok (dirty, changed).

(** Returns the merged attributes and the requested ones as mutated. *)
Definition merge_attr (ctx : FuseContext) (flags : Z) (cur new_attr : InodeAttr)
    (now : SystemTime) : Result (InodeAttr * InodeAttr) :=
  let uid_gid := bits_contain flags (Z.lor SA_UID SA_GID) in
  let dirty :=
    if bits_contain flags SA_MODE && uid_gid
    then set_mode (Z.lor (mode cur) (Z.land (mode cur) 0xC00)) cur else cur in
  let setid := negb (Z.land (mode cur) 0xC00 =? 0) && uid_gid in
  let '(dirty, new_attr) := if setid then clear_setid ctx dirty new_attr else (dirty, new_attr) in
  st ← merge_gid ctx flags cur new_attr (dirty, setid);
  st ← merge_uid ctx flags cur new_attr st;
  '(dirty, new_attr, changed) ← merge_mode ctx flags cur new_attr st;
  st ← merge_time ctx flags SA_ATIME_NOW SA_ATIME EPERM cur now (atime new_attr) set_atime
         (dirty, changed);
  '(dirty, changed) ← merge_time ctx flags SA_MTIME_NOW SA_MTIME EACCES cur now (mtime new_attr)
         set_mtime st;
  let '(dirty, changed) :=
    if bits_contain flags SA_FLAG && negb (Types.flags dirty =? Types.flags new_attr)
    then (set_flags (Types.flags new_attr) dirty, true) else (dirty, changed) in
  Ok (if changed then dirty else cur, new_attr).

Definition check_set_attr (w : World) (ctx : FuseContext) (ino : Ino) (flags : Z)
    (new_attr : InodeAttr) : eng InodeAttr :=
  inode ← gets (fun e => check_root e ino);
  cur ← get_attr w inode;
  '(_, new_attr) ← lift (merge_attr ctx flags cur new_attr (clk w 2));
  mret new_attr.

Definition set_attr (w : World) (ctx : FuseContext) (flags : Z) (ino : Ino) (new_attr : InodeAttr)
    : eng InodeAttr :=
  inode ← gets (fun e => check_root e ino);
  cur ← from_backend (fun db => Backend.get_attr db inode);
  let now := clk w 0 in
  '(dirty, new_attr) ← lift (merge_attr ctx flags cur new_attr now);
  _ ← on_backend (fun db => Backend.set_attr (wenv w 0) db inode (set_ctime now dirty));
  mret new_attr.

(** *** Open, read, write, close *)

Definition open_mask (flags : Z) : Result Z :=
  match Z.land flags 3 with
  | 0 => Ok MODE_MASK_R
  | 1 => Ok MODE_MASK_W
  | 2 => Ok (Z.lor MODE_MASK_W MODE_MASK_R)
  | _ => Err (LibcError EINVAL)
  end.

Definition any_bit (flags mask : Z) : bool := negb (Z.land flags mask =? 0).

(** The checks of [open_inode] on attributes read from the backend. *)
Definition open_checks (ctx : FuseContext) (attr : InodeAttr) (oflags : Z) : Result () :=
  mask ← open_mask oflags;
  _ ← check_access ctx attr mask;
  f ← ok_or (if flags attr <? 256 then from_bits 3 (flags attr) else None) (LibcError EIO);
  let writes := any_bit oflags (Z.lor O_WRONLY O_RDWR) in
  _ ← ensure (negb (bits_contain f FLAG_IMMUTABLE && writes)) (LibcError EPERM);
  if bits_contain f FLAG_APPEND then
    _ ← ensure (negb (writes && negb (any_bit oflags O_APPEND))) (LibcError EPERM);
    ensure (negb (any_bit oflags O_TRUNC)) (LibcError EPERM)
  else Ok ().

(** [self.open_files.open(inode, &mut attr)] *)
Definition open_file (now : SystemTime) (inode : Ino) (attr : InodeAttr) : eng InodeAttr := fun e =>
  let '(attr, fs) := of_open now inode attr (open_files e) in (Ok attr, set_open_files fs e).

Definition open_inode (w : World) (ctx : FuseContext) (inode : Ino) (oflags : Z) : eng InodeAttr :=
  ro ← gets (fun e => read_only (config e));
  _ ← guard (negb (ro && any_bit oflags (Z.lor (Z.lor O_WRONLY O_RDWR) (Z.lor O_TRUNC O_APPEND))))
        (LibcError EROFS);
  cached ← (fun e =>
    if negb (open_cache (config e) =? 0) then
      match load_attr (clk w 0) inode true (open_files e) with
      | Ok (a, fs) => (Ok a, set_open_files fs e)
      | Err x => (Err x, e)
      | Panic => (Panic, e)
      end
    else (Ok None, e));
  match cached with
  | Some attr => mret attr
  | None =>
      attr ← from_backend (fun db => Backend.get_attr db inode);
      _ ← lift (open_checks ctx attr oflags);
      open_file (clk w 1) inode attr
  end.

Definition write_slice (w : World) (inode : Ino) (chunk_idx chunk_pos : Z) (slice : Slice) : eng () :=
  _ ← lift (rust_assert (match slice with Owned _ _ _ _ => true | _ => false end));
  _ ← guard (get_chunk_pos slice =? chunk_pos) (LibcError EINVAL);
  commit ← on_backend (fun db =>
    commit_slice (wenv w 0) (clk w 0) (clk w 1) db inode chunk_idx slice);
  _ ← (if 0 <? grew_by commit then add_stats (grew_by commit) 0 else mret ());
  on_files (invalid inode (OneChunk chunk_idx)).

Definition read_slice (w : World) (inode : Ino) (chunk_index : Z) : eng (option (list Slice)) :=
  cached ← (fun e => (load_slices (clk w 0) inode chunk_index (open_files e), e));
  match cached with
  | Some slices => mret (Some slices)
  | None =>
      slices ← from_backend (fun db => get_chunk_slices db inode chunk_index);
      _ ← on_files (refresh_slices inode chunk_index slices);
      mret (Some slices)
  end.

Definition fallocate (mode : Z) : eng () := lift (validate_fallocate_mode mode).

Definition close (inode : Ino) : eng () := fun e =>
  let '(fs, last) := of_close inode (open_files e) in
  let e := set_open_files fs e in
  (Ok (), if last then set_removed (removed_files e ∖ {[inode]}) e else e).

Definition truncate (w : World) (ctx : FuseContext) (inode : Ino) (size : Z) (skip_perm_check : bool)
    : eng InodeAttr :=
  cached ← gets (fun e => of_load (open_files e) inode);
  match cached with
  | Some f =>
      if attr_length (of_attr f) =? size then mret (of_attr f)
      else
        attr ← on_backend (fun db =>
          do_truncate (wenv w 0) ctx (clk w 0) (clk w 1) db inode size skip_perm_check);
        _ ← on_files (invalid inode All);
        mret attr
  | None =>
      attr ← on_backend (fun db =>
        do_truncate (wenv w 0) ctx (clk w 0) (clk w 1) db inode size skip_perm_check);
      _ ← on_files (invalid inode All);
      mret attr
  end.

(** *** Links *)

Definition link (w : World) (ctx : FuseContext) (inode new_parent : Ino) (new_name : string)
    : eng InodeAttr :=
  current_attr ← get_attr w inode;
  _ ← guard (negb (is_dir current_attr)) (LibcError EPERM);
  skip ← gets (fun e => skip_dir_mtime (config e));
  new_attr ← on_backend (fun db => do_link (wenv w 0) ctx (clk w 2) skip db inode new_parent new_name);
  _ ← on_files (invalid inode OnlyAttr);
  mret new_attr.

(** An opened file waits for its last close, any other is queued for deletion. *)
Definition delete_file (opened : bool) (inode : Ino) : eng () :=
  modify (fun e => if opened then set_removed ({[inode]} ∪ removed_files e) e
                   else set_pending (pending_deletes e ++ [inode]) e).

(** The spawned task: delete the chunks of the first queued inode. *)
Definition run_delete (env : Env) (e : MetaEngine) : MetaEngine :=
  match pending_deletes e with
  | [] => e
  | inode :: rest => set_pending rest (set_backend (do_delete_chunks env (backend e) inode) e)
  end.

Definition unlink (w : World) (ctx : FuseContext) (parent : Ino) (name : string) : eng () :=
  skip ← gets (fun e => skip_dir_mtime (config e));
  sid ← gets session_id;
  fs ← gets open_files;
  r ← on_backend (fun db => do_unlink (wenv w 0) ctx (clk w 0) (clk w 1) skip fs db parent name sid);
  _ ← add_stats (- ul_freed_space r) (- ul_freed_inode r);
  _ ← on_files (invalid (ul_inode r) OnlyAttr);
  if bool_decide (ul_removed r = None) then mret () else delete_file (ul_is_opened r) (ul_inode r).

Definition symlink (w : World) (ctx : FuseContext) (parent : Ino) (link_name target : string)
    : eng (Ino * InodeAttr) :=
  mknod w ctx parent link_name Symlink 0x1FF 0 0 target.

Definition readlink (inode : Ino) : eng bytes :=
  cached ← gets (fun e => symlinks e !! inode);
  match cached with
  | Some target => mret target
  | None =>
      t ← from_backend (fun db => do_readlink db inode);
      _ ← modify (fun e => set_symlinks (<[inode := t]> (symlinks e)) e);
      mret t
  end.

Definition rename (w : World) (ctx : FuseContext) (old_parent : Ino) (old_name : string)
    (new_parent : Ino) (new_name : string) (flags : Z) : eng () :=
  rename_flags ← lift (validate_rename_flags flags);
  skip ← gets (fun e => skip_dir_mtime (config e));
  sid ← gets session_id;
  fs ← gets open_files;
  r ← on_backend (fun db =>
    do_rename (wenv w 0) ctx (clk w 0) (clk w 1) (clk w 2) skip fs db sid old_parent old_name
      new_parent new_name rename_flags);
  match rn_need_delete r with
  | Some (inode, opened) => delete_file opened inode
  | None => mret ()
  end.

(** *** Volume *)

(** The root directory of a new volume. *)
Definition initial_root (now : SystemTime) : InodeAttr :=
  set_mode 0x1FF (set_parent ROOT_INO (set_length (Z.shiftl 4 10)
    (set_nlink 2 (set_kind Directory (attr_default now))))).

(** [update_format], on the opened backend. *)
Definition update_format (env : Env) (now : SystemTime) (db : db_t) (requested : Format)
    (force : bool) : Result () * db_t :=
  match load_format db with
  | Ok stored =>
      if negb force then (Err AlreadyInitialized, db)
      else
        match layout_mismatch stored requested with
        | Some m => (Err (IncompatibleFormat (mm_field m) (mm_stored m) (mm_requested m)), db)
        | None => set_format env db (merge_mutable_from stored requested)
        end
  | Err UninitializedEngine => initialize_volume env db requested (initial_root now)
  | Err x => (Err x, db)
  | Panic => (Panic, db)
  end.

(** [open], on the opened backend. *)
Definition open (config : MetaConfig) (db : db_t) : Result MetaEngine :=
  format ← load_format db;
  Ok (mkEngine config format ROOT_INO 0 (open_files_new (open_cache config)) ∅ ∅ ∅ 0 0
        id_table_new id_table_new [] db).
End engine.
End Engine.
