(* ===== verification/Records.v ===== *)
(** * What the backend's batches touch

    Every batch an operation writes is made of records (keys beginning with A,
    D, K, S or U), so it never touches a counter, and no operation but mknod
    brings an inode into being.  The engine's invariant rests on both. *)

From S2P Require Import Prelude Common Types Bincode Slice Keys KV Meta OpenFiles Backend.
From S2P Require Import FsModel Namespace Rename Reach IdTable.

(** ** Records never share a key with a counter *)

(** Records begin with one of the letters A, D, K, S, U. *)
Definition is_record_key (k : string) : bool :=
  match k with
  | String c _ => existsb (Nat.eqb (Ascii.nat_of_ascii c)) [65; 68; 75; 83; 85]%nat
  | EmptyString => false
  end.

Definition record_batch (b : batch) : Prop := Forall (fun o => is_record_key (op_key o) = true) b.

Lemma record_not_counter k c : is_record_key k = true -> k <> Key.counter_key c.
Proof. intros H ->. by destruct c. Qed.

Lemma record_prefix p k : is_record_key p = true -> String.prefix p k = true -> is_record_key k = true.
Proof.
  intros Hp H. apply prefix_app in H as [r ->]. destruct p as [|c p]; [done|]. 
  change (is_record_key (String c (p +:+ r)) = true). exact Hp.
Qed.

Section records_base.
Context `{L : Layout} `{KL : KVLaws} `{CL : MetaCodecLaws}.

Lemma record_app b1 b2 : record_batch b1 -> record_batch b2 -> record_batch (b1 ++ b2).
Proof. intros. by apply Forall_app. Qed.

Lemma record_purge db p : is_record_key p = true -> record_batch (delete_prefix_in_txn_write_batch db p).
Proof.
  intros Hp. apply Forall_forall. intros o Ho.
  apply list_elem_of_fmap in Ho as ([k v] & -> & Hkv). simpl.
  apply kv_scan_spec in Hkv as [_ Hpre]. by eapply record_prefix.
Qed.

Lemma record_delete_after now i b :
  set_delete_chunk_after_in_write_batch now i = Ok b -> record_batch b.
Proof. unfold set_delete_chunk_after_in_write_batch. intros H. inv_ok. by repeat constructor. Qed.

Lemma record_counter db b c : record_batch b -> counter_value (kv_write b db) c = counter_value db c.
Proof.
  intros Hb. unfold counter_value. rewrite kv_get_write.
  assert (Hn : batch_find b (Key.counter_key c) = None).
  { induction Hb as [|o b Ho _ IH]; simpl; [done|]. rewrite IH, decide_False; [done|].
    by apply record_not_counter. }
  by rewrite Hn.
Qed.

End records_base.

(** Prove a batch made of record builders. *)
Ltac records :=
  repeat first
    [ apply record_app
    | apply record_purge; reflexivity
    | eassumption
    | apply Forall_cons; split; [reflexivity|]
    | apply Forall_nil; exact I
    | match goal with |- record_batch (if ?c then _ else _) => destruct c end
    | match goal with |- Forall _ (if ?c then _ else _) => destruct c end ].

Section records.
Context `{L : Layout} `{KL : KVLaws} `{CL : MetaCodecLaws}.

Lemma mknod_plan_records ctx n1 n2 db new a p n t path r b :
  mknod_plan ctx n1 n2 db new a p n t path = Ok (r, b) -> record_batch b.
Proof. unfold mknod_plan. intros H. inv_ok. records. Qed.

Lemma rmdir_plan_records ctx now db p n skip r b :
  rmdir_plan ctx now db p n skip = Ok (r, b) -> record_batch b.
Proof. unfold rmdir_plan. intros H. inv_ok. records. Qed.

Lemma link_plan_records ctx now skip db i np nn r b :
  link_plan ctx now skip db i np nn = Ok (r, b) -> record_batch b.
Proof.
  unfold link_plan. intros H. apply bind_Ok in H as (pa & Hpa & H). inv_ok.
  destruct (update_modification_time_if now skip pa) as [pa' c]. simpl in H. inv_ok. records.
Qed.

Lemma unlink_inode_records now db sid p i a o b sp n :
  unlink_inode now db sid p i a o = Ok (b, sp, n) -> record_batch b.
Proof.
  unfold unlink_inode. destruct (0 <? nlink a); intros H.
  - inv_ok. assert (record_batch r).
    { destruct (is_zero (Types.parent a)); inv_ok; records. }
    records.
  - apply bind_Ok in H as ([[b0 s0] n0] & Hb & H). inv_ok.
    assert (record_batch b0).
    { destruct (kind a); inv_ok; records.
      destruct o; inv_ok; records. by eapply record_delete_after. }
    records.
Qed.

Lemma unlink_plan_records ctx n1 n2 skip oft db p n sid r b :
  unlink_plan ctx n1 n2 skip oft db p n sid = Ok (r, b) -> record_batch b.
Proof.
  unfold unlink_plan. intros H. apply bind_Ok in H as (e & _ & H). apply bind_Ok in H as (u & _ & H).
  apply bind_Ok in H as (pa & _ & H). apply bind_Ok in H as (u1 & _ & H).
  apply bind_Ok in H as (u2 & _ & H). apply bind_Ok in H as (u3 & _ & H).
  apply bind_Ok in H as ([a o] & _ & H).
  destruct (update_modification_time_if n1 skip pa) as [pa' c].
  apply bind_Ok in H as ([[b0 s0] n0] & Hb & H). inv_ok.
  apply unlink_inode_records in Hb. records.
Qed.

Lemma rename_replaced_records now db sid op o d da r b :
  rename_replaced now db sid op o d da = Ok (r, b) -> record_batch b.
Proof.
  unfold rename_replaced. destruct (negb _ && _); intros H.
  - inv_ok. assert (record_batch r0).
    { destruct (is_zero (parent da)); inv_ok; records. }
    records.
  - apply bind_Ok in H as ([r0 b0] & Hb & H). inv_ok.
    assert (record_batch b0).
    { destruct (kind da); inv_ok; records.
      destruct o; inv_ok; records. by eapply record_delete_after. }
    records.
Qed.

Lemma rename_exchange_records db op on np dst b :
  rename_exchange db op on np dst = Ok b -> record_batch b.
Proof.
  unfold rename_exchange. intros H. apply bind_Ok in H as ([d da] & _ & H).
  apply bind_Ok in H as (b0 & Hb0 & H). inv_ok.
  assert (record_batch b0) by (destruct (negb _ && _); inv_ok; records).
  records.
Qed.

Lemma rename_plan_records ctx n1 n2 n3 skip oft db sid op on np nn flags r b :
  rename_plan ctx n1 n2 n3 skip oft db sid op on np nn flags = Ok (r, b) -> record_batch b.
Proof.
  unfold rename_plan. intros H. apply bind_Ok in H as (e & _ & H).
  destruct ((op =? np) && bool_decide (on = nn)); [inv_ok; constructor|].
  apply bind_Ok in H as ([[opa npa] oa] & _ & H).
  apply bind_Ok in H as ([[[[upd o] dst] opa1] npa1] & _ & H).
  destruct (update_modification_time_if n2 skip _) as [opa3 u1].
  destruct (if upd : bool then _ else _) as [npa3 u2].
  apply bind_Ok in H as ([r0 b0] & Hb & H). apply bind_Ok in H as (bl & Hbl & H). inv_ok.
  assert (record_batch b0).
  { destruct (is_exchange flags).
    - apply bind_Ok in Hb as (b1 & Hb1 & Hb). inv_ok. by eapply rename_exchange_records.
    - apply bind_Ok in Hb as ([r1 b1] & Hb1 & Hb). inv_ok.
      assert (record_batch b1); [|records].
      destruct dst as [[d da]|]; [by eapply rename_replaced_records|inv_ok; constructor]. }
  assert (record_batch bl).
  { destruct (negb (op =? np)); [|inv_ok; constructor].
    unfold rename_source_links in Hbl. destruct (is_zero _); inv_ok; records. }
  records.
Qed.

(** ** No operation but mknod brings an inode into being *)

Definition no_new (db db' : db_t) : Prop :=
  forall i, 0 <= i -> fs_attr (view db') i <> None -> fs_attr (view db) i <> None.

Lemma no_new_refl db : no_new db db.
Proof. by intros i Hi. Qed.

Lemma rmdir_no_new ctx now db p n skip r b :
  FsInv (view db) -> 0 <= p -> rmdir_plan ctx now db p n skip = Ok (r, b) -> no_new db (kv_write b db).
Proof.
  intros Hs Hp H i Hi. destruct r as [e ca].
  apply rmdir_plan_spec in H as (_ & _ & _ & _ & _ & _ & pa & Hpa & _ & _ & _ & _ & Hd); [|done..].
  destruct (Hd db) as [HA _]. rewrite HA by done.
  destruct (skip <=? _); simpl when; fs_simpl; repeat case_decide; congruence.
Qed.

Lemma link_no_new ctx now skip db j np nn r b :
  0 <= j -> 0 <= np -> link_plan ctx now skip db j np nn = Ok (r, b) -> no_new db (kv_write b db).
Proof.
  intros Hj Hp H i Hi.
  apply link_plan_spec in H as (_ & pa & ca & Hpa & _ & _ & Hca & _ & _ & _ & Hd); [|done..].
  destruct (Hd db) as [HA _]. rewrite HA by done.
  destruct (_.2); simpl when; fs_simpl; repeat case_decide; congruence.
Qed.

Lemma unlink_no_new ctx n1 n2 skip oft db p n sid r b :
  FsInv (view db) -> 0 <= p ->
  unlink_plan ctx n1 n2 skip oft db p n sid = Ok (r, b) -> no_new db (kv_write b db).
Proof.
  intros Hs Hp H i Hi.
  apply unlink_plan_spec in H as (e & pa & a & _ & _ & _ & Hpa & _ & Ha & _ & _ & _ & _ & Hd); [|done..].
  destruct (Hd db) as [HA _]. rewrite HA by done.
  destruct (keep_inode _ _), (_.2); simpl when; fs_simpl; repeat case_decide; congruence.
Qed.

Lemma rename_no_new ctx n1 n2 n3 skip oft db sid op on np nn flags r b :
  FsInv (view db) -> 0 <= op -> 0 <= np ->
  rename_plan ctx n1 n2 n3 skip oft db sid op on np nn flags = Ok (r, b) -> no_new db (kv_write b db).
Proof.
  intros Hs Hop Hnp H. destruct (decide (op = np /\ on = nn)) as [[-> ->]|Hd].
  { unfold rename_plan in H. apply bind_Ok in H as (e & _ & H).
    rewrite Z.eqb_refl, bool_decide_true in H by done. simpl in H. inv_ok. apply no_new_refl. }
  intros i Hi.
  apply rename_plan_spec in H as (e & opa & npa & oa & o & dst & _ & Hopa & _ & Hnpa & _ & Hoa & _ &
    Hds & opa' & npa' & oa' & u1 & u2 & _ & _ & _ & Hden); [|done..].
  destruct (Hden db) as [HA _]. rewrite HA by done.
  assert (Hdst : fs_attr (rename_effect flags op on o dst (view db)) i <> None ->
                 fs_attr (view db) i <> None).
  { unfold rename_effect. destruct dst as [[d da]|]; [|done].
    destruct Hds as (_ & _ & da0 & Hda & _).
    destruct (is_exchange flags); [|destruct (negb _ && _)]; fs_simpl; repeat case_decide; congruence. }
  destruct u1, u2; simpl when; fs_simpl; repeat case_decide; auto; congruence.
Qed.
End records.
