(* ===== verification/EngineInv.v ===== *)
(** * The engine keeps the namespace well formed

    [EngInv]: the store holds a well-formed namespace and every inode in use
    lies below what the engine's inode table and counter may hand out next.
    Every engine operation that changes the store keeps it; in particular a new
    node never takes an inode number that is in use. *)

From S2P Require Import Prelude Common Types Bincode Slice Keys KV Meta OpenFiles Backend.
From S2P Require Import FsModel Namespace Rename Reach RefStore NsThms IdTable Engine Records.
Import Engine.

Section engine_inv.
Context `{L : Layout} `{KL : KVLaws} `{CL : MetaCodecLaws}.

(** Table and counter agree, and everything in use lies below them. *)
Definition ids_ok (db : db_t) (t : IdTable) (v : Z) : Prop :=
  counter_value db Key.NextInode = Some v /\ 2 <= v /\ 0 <= id_lo t /\ id_max t <= v /\
  (id_lo t < id_max t -> 2 <= id_lo t).

Definition EngInv (e : MetaEngine) : Prop :=
  FsInv (view (backend e)) /\ 0 <= root e /\
  exists v, ids_ok (backend e) (free_inodes e) v /\
    forall i, 0 <= i -> fs_attr (view (backend e)) i <> None -> i < id_floor (free_inodes e) v.

Lemma increase_view env db c step r db' :
  increase_count_by env db c step = (r, db') -> fs_equiv (view db') (view db).
Proof.
  intros H. apply commit_txn_cases in H as [->|(a & H)]; [done|].
  apply bind_Ok in H as (cur & _ & H). cbv zeta in H. inv_ok.
  apply view_put_outside, counter_outside.
Qed.

Lemma id_next_fresh env db t v r t' db' :
  ids_ok db t v -> v + 1024 < 2 ^ 64 - 3 ->
  id_next env Key.NextInode db t = (r, t', db') ->
  fs_equiv (view db') (view db) /\
  exists v', ids_ok db' t' v' /\ id_floor t v <= id_floor t' v' /\
    (forall n, r = Ok n -> 2 <= n /\ id_floor t v <= n < id_floor t' v').
Proof.
  intros (Hv & Hv2 & Hlo & Hmax & Htwo) Hb. unfold id_next, id_refill.
  destruct (id_max t <=? id_lo t) eqn:E; to_prop.
  - simpl Key.get_step. cbv iota. change (Z.shiftl 1 10) with 1024.
    destruct (increase_count_by env db Key.NextInode 1024) as [r1 db1] eqn:Hinc.
    pose proof (increase_view _ _ _ _ _ _ Hinc) as Hview.
    destruct (increase_count_spec env db Key.NextInode 1024 v Hv) as (r2 & db2 & Hinc2 & Hr); [lia|].
    rewrite Hinc in Hinc2. injection Hinc2 as <- <-.
    destruct Hr as [[-> Hv']|[-> ->]]; cbn [mbind outcome_bind].
    + cbn [id_lo id_max].
      replace (u64_wrap (v + 1024 - 1024)) with v by (unfold u64_wrap; rewrite Z.mod_small; lia).
      rewrite skip_reserved_spec by lia. intros [= <- <- <-]. split; [done|].
      exists (v + 1024). unfold ids_ok, id_floor. simpl.
      rewrite (proj2 (Z.ltb_ge (id_lo t) _)), (proj2 (Z.ltb_lt _ (v + 1024))) by lia.
      split_and!; try done; try lia. intros n [= <-]. lia.
    + intros [= <- <- <-]. split; [done|]. exists v. split; [by split_and!|].
      split; [lia|]. intros n Hn. discriminate Hn.
  - rewrite skip_reserved_spec by lia. intros [= <- <- <-]. split; [done|].
    exists v. unfold ids_ok, id_floor. cbn [id_lo id_max].
    rewrite (proj2 (Z.ltb_lt (id_lo t) _)) by lia.
    split; [split_and!; try done; lia|].
    split; [case_if; lia|]. intros n [= <-]. case_if; lia.
Qed.

(** ** Operations that keep the invariant *)

Definition keeps {A} (m : eng A) : Prop :=
  forall e r e', EngInv e -> m e = (r, e') -> EngInv e'.

(** Changes of the state around the store and the inode table. *)
Lemma EngInv_same e e' :
  backend e' = backend e -> free_inodes e' = free_inodes e -> root e' = root e -> EngInv e -> EngInv e'.
Proof. unfold EngInv. by intros -> -> ->. Qed.

(** Changes of the store that keep the namespace well formed, the counters
    and add no inode. *)
Lemma EngInv_backend e db' :
  EngInv e -> FsInv (view db') -> no_new (backend e) db' ->
  counter_value db' Key.NextInode = counter_value (backend e) Key.NextInode ->
  EngInv (set_backend db' e).
Proof.
  intros (Hs & Hr & v & (Hv & Hrest) & Hdom) Hs' Hn Hc. split; [done|]. split; [done|].
  exists v. split; [split; [by rewrite <- Hv, <- Hc|done]|].
  intros i Hi Ha. apply Hdom; [done|]. by apply Hn.
Qed.

Lemma keeps_bind {A B} (m : eng A) (f : A -> eng B) :
  keeps m -> (forall a, keeps (f a)) -> keeps (eng_bind A B f m).
Proof.
  intros Hm Hf e r e' He H. unfold eng_bind in H.
  destruct (m e) as [[a|x|] e1] eqn:E; [|by simplify_eq; eapply Hm..].
  eapply Hf; [|exact H]. by eapply Hm.
Qed.

(** Operations that leave the store, the inode table and the root alone. *)
Definition quiet {A} (m : eng A) : Prop :=
  forall e, backend (m e).2 = backend e /\ free_inodes (m e).2 = free_inodes e /\
            root (m e).2 = root e.

Lemma keeps_quiet {A} (m : eng A) : quiet m -> keeps m.
Proof.
  intros H e r e' He Hm. destruct (H e) as (H1 & H2 & H3). rewrite Hm in *. simpl in *.
  by eapply EngInv_same.
Qed.

Lemma quiet_bind {A B} (m : eng A) (f : A -> eng B) :
  quiet m -> (forall a, quiet (f a)) -> quiet (eng_bind A B f m).
Proof.
  intros Hm Hf e. unfold eng_bind. specialize (Hm e).
  destruct (m e) as [[a|x|] e1]; [|done..]. simpl in Hm. destruct Hm as (<- & <- & <-). apply Hf.
Qed.

Lemma keeps_on_backend {A} (f : db_t -> Result A * db_t) :
  (forall db r db', FsInv (view db) -> f db = (r, db') ->
     FsInv (view db') /\ no_new db db' /\
     counter_value db' Key.NextInode = counter_value db Key.NextInode) -> keeps (on_backend f).
Proof.
  intros Hf e r e' He H. unfold on_backend in H. destruct (f (backend e)) as [r1 db1] eqn:E.
  injection H as <- <-. destruct (Hf _ _ _ (proj1 He) E) as (H1 & H2 & H3). by apply EngInv_backend.
Qed.

(** The three obligations for an operation that writes a planned batch. *)
Lemma plan_obligations {A} env db (plan : Result (A * batch)) r db' :
  FsInv (view db) ->
  (forall a b, plan = Ok (a, b) ->
     FsInv (view (kv_write b db)) /\ no_new db (kv_write b db) /\ record_batch b) ->
  write_plan env db plan = (r, db') ->
  FsInv (view db') /\ no_new db db' /\
  counter_value db' Key.NextInode = counter_value db Key.NextInode.
Proof.
  intros Hs Hp H. apply write_plan_cases in H as [->|(a & b & Hplan & ->)].
  - split_and!; [done|apply no_new_refl|done].
  - destruct (Hp a b Hplan) as (H1 & H2 & H3). split_and!; [done|done|by apply record_counter].
Qed.

Lemma quiet_ret {A} (a : A) : quiet (eng_ret A a).
Proof. by intros e. Qed.
Lemma quiet_lift {A} (r : Result A) : quiet (lift r).
Proof. by intros e. Qed.
Lemma quiet_gets {A} (f : MetaEngine -> A) : quiet (gets f).
Proof. by intros e. Qed.
Lemma quiet_from_backend {A} (f : db_t -> Result A) : quiet (from_backend f).
Proof. by intros e. Qed.
Lemma quiet_on_files f : quiet (on_files f).
Proof. by intros e. Qed.
Lemma quiet_add_stats u c : quiet (add_stats u c).
Proof. by intros e. Qed.
Lemma quiet_add_dir i p : quiet (add_dir2parent_mapping i p).
Proof. intros e. unfold add_dir2parent_mapping, modify. simpl. by case_match. Qed.
Lemma quiet_del_dir i : quiet (del_dir2parents_mapping i).
Proof. by intros e. Qed.
Lemma quiet_delete_file o i : quiet (delete_file o i).
Proof. intros e. by destruct o. Qed.

Ltac split_op :=
  match goal with
  | |- _ (if ?c then _ else _) => destruct c
  | |- _ (let '(_, _) := ?c in _) => destruct c
  | |- _ (match ?c with _ => _ end) => destruct c
  end.
Ltac quiet1 :=
  first [ apply quiet_ret | apply quiet_lift | apply quiet_gets | apply quiet_from_backend
        | apply quiet_on_files | apply quiet_add_stats | apply quiet_add_dir | apply quiet_del_dir
        | apply quiet_delete_file | assumption ].
Ltac quiets := repeat first [quiet1 | split_op | apply quiet_bind; [|intros ?]].

Lemma quiet_get_attr w i : quiet (get_attr w i).
Proof.
  unfold get_attr. apply quiet_bind; [quiet1|intros j]. apply quiet_bind; [|intros [a|]; quiets].
  - intros e. by destruct (negb _).
  - intros e. by destruct (refresh_attr _ _ _ _).
Qed.

Ltac keepa :=
  repeat first [apply keeps_quiet, quiet_get_attr | apply keeps_quiet; quiet1 | split_op
    | apply keeps_bind; [|intros ?]].

Lemma keeps_lookup w ctx p n c : keeps (lookup w ctx p n c).
Proof. unfold lookup, do_lookup. keepa. Qed.

Lemma keeps_gets_bind {A B} (f : MetaEngine -> A) (k : A -> eng B) :
  (forall e, EngInv e -> keeps (k (f e))) -> keeps (eng_bind A B k (gets f)).
Proof. intros Hk e r e' He H. by eapply (Hk e He). Qed.

(** *** Operations that change the namespace *)

Lemma check_root_nonneg e i : EngInv e -> 0 <= i -> 0 <= check_root e i.
Proof. intros (_ & Hr & _) Hi. unfold check_root, ROOT_INO. repeat case_if; lia. Qed.

Lemma keeps_rmdir w ctx p n : 0 <= p -> keeps (rmdir w ctx p n).
Proof.
  intros Hp. unfold rmdir. apply keeps_gets_bind. intros e He.
  pose proof (check_root_nonneg e p He Hp) as Hcr. keepa.
  apply keeps_on_backend. intros db r db' Hs H.
  eapply plan_obligations; [exact Hs| |exact H]. intros ? ? Hb.
  split_and!; [eapply rmdir_plan_inv|eapply rmdir_no_new|eapply rmdir_plan_records]; eassumption.
Qed.

Lemma keeps_unlink w ctx p n : 0 <= p -> keeps (unlink w ctx p n).
Proof.
  intros Hp. unfold unlink. keepa.
  apply keeps_on_backend. intros db r db' Hs H.
  eapply plan_obligations; [exact Hs| |exact H]. intros ? ? Hb.
  split_and!; [eapply unlink_plan_inv|eapply unlink_no_new|eapply unlink_plan_records]; eassumption.
Qed.

Lemma keeps_rename w ctx op on np nn flags : 0 <= op -> 0 <= np -> keeps (rename w ctx op on np nn flags).
Proof.
  intros Hop Hnp. unfold rename. keepa.
  apply keeps_on_backend. intros db r db' Hs H. pose proof H as H'.
  apply rename_inv in H'; [|done..]. split; [done|].
  unfold do_rename in H.
  destruct (rename_plan _ _ _ _ _ _ _ _ _ _ _ _ _) as [[r' b]| |] eqn:Hpl;
    [|simpl in H; simplify_eq; split; [apply no_new_refl|done]..].
  destruct b as [|o b]; [simplify_eq; split; [apply no_new_refl|done]|].
  apply write_plan_cases in H as [->|(x & y & Hxy & ->)]; [split; [apply no_new_refl|done]|].
  inv_ok. split; [eapply rename_no_new; [..|eassumption]; eassumption|].
  by eapply record_counter, rename_plan_records.
Qed.

(** *** Operations that stage a transaction *)

Lemma counter_put_record db k v c :
  is_record_key k = true -> counter_value (kv_put k v db) c = counter_value db c.
Proof.
  intros Hk. unfold counter_value. rewrite kv_get_put_ne; [done|]. by apply record_not_counter.
Qed.

Lemma stage_chunk_counter db i c s x n db' k :
  stage_chunk_slice db i c s = Ok (x, n, db') -> counter_value db' k = counter_value db k.
Proof.
  unfold stage_chunk_slice. intros H. destruct (negb (_ =? 0)); [done|].
  destruct (negb (any_chunk_eq _ _ _)); inv_ok; [|done]. by apply counter_put_record.
Qed.

Lemma truncate_holes_counter fuel i pos len db db' k :
  truncate_holes fuel i pos len db = Ok db' -> counter_value db' k = counter_value db k.
Proof.
  revert pos db. induction fuel as [|fuel IH]; intros pos db H; simpl in H; [by inv_ok|].
  destruct (pos <? len); [|by inv_ok]. apply bind_Ok in H as ([[x n] db1] & H1 & H).
  apply stage_chunk_counter with (k := k) in H1. rewrite <- H1. by eapply IH.
Qed.

(** Rewriting the attributes of an inode that exists adds none. *)
Lemma put_attr_no_new db txn i a a0 :
  0 <= i -> fs_attr (view db) i = Some a0 -> fs_equiv (view txn) (view db) ->
  no_new db (txn_put_attr txn i a).
Proof.
  intros Hi Ha [Hv _] j Hj. destruct (view_txn_put_attr txn i a Hi) as [HA _].
  rewrite HA by done. fs_simpl. case_decide; [congruence|]. by rewrite Hv.
Qed.

Lemma truncate_obligations env ctx n1 n2 db i len skip r db' :
  0 <= i -> FsInv (view db) -> do_truncate env ctx n1 n2 db i len skip = (r, db') ->
  FsInv (view db') /\ no_new db db' /\
  counter_value db' Key.NextInode = counter_value db Key.NextInode.
Proof.
  intros Hi Hs H. split; [eapply truncate_inv; [..|exact H]; eassumption|].
  apply commit_txn_cases in H as [->|(a & H)]; [split; [apply no_new_refl|done]|].
  apply bind_Ok in H as (oa & Hoa & H). apply bind_Ok in H as (u1 & _ & H).
  apply bind_Ok in H as (u2 & _ & H). apply bind_Ok in H as (u3 & _ & H).
  apply bind_Ok in H as (u4 & _ & H). apply bind_Ok in H as (txn & Ht & H). cbv zeta in H. inv_ok.
  apply view_attr in Hoa.
  assert (Hv : fs_equiv (view txn) (view db) /\
               counter_value txn Key.NextInode = counter_value db Key.NextInode).
  { destruct (attr_length oa <? len); [|by inv_ok].
    split; [eapply truncate_holes_view; eassumption|eapply truncate_holes_counter; eassumption]. }
  destruct Hv as [Hv Hc]. split; [eapply put_attr_no_new; eassumption|].
  unfold txn_put_attr. by rewrite counter_put_record.
Qed.

Lemma commit_slice_obligations env n1 n2 db i c s r db' :
  0 <= i -> FsInv (view db) -> commit_slice env n1 n2 db i c s = (r, db') ->
  FsInv (view db') /\ no_new db db' /\
  counter_value db' Key.NextInode = counter_value db Key.NextInode.
Proof.
  intros Hi Hs H. split; [eapply commit_slice_inv; [..|exact H]; eassumption|].
  apply commit_txn_cases in H as [->|(a & H)]; [split; [apply no_new_refl|done]|].
  apply bind_Ok in H as (oa & Hoa & H). apply bind_Ok in H as (u1 & _ & H).
  apply bind_Ok in H as ([[ins n] txn] & Ht & H). cbv zeta in H. inv_ok.
  apply view_attr in Hoa. pose proof (stage_chunk_view _ _ _ _ _ _ _ Ht) as Hv.
  pose proof (stage_chunk_counter _ _ _ _ _ _ _ Key.NextInode Ht) as Hc.
  match goal with |- context [if ?b then txn_put_attr _ _ _ else _] => destruct b end.
  - split; [eapply put_attr_no_new; eassumption|]. unfold txn_put_attr. by rewrite counter_put_record.
  - split; [|done]. intros j Hj. by rewrite (proj1 Hv).
Qed.

Lemma keeps_truncate w ctx i size skip : 0 <= i -> keeps (truncate w ctx i size skip).
Proof.
  intros Hi. unfold truncate. keepa; apply keeps_on_backend; intros db r db' Hs H;
    eapply truncate_obligations; [..|exact H]; eassumption.
Qed.

Lemma keeps_write_slice w i c pos s : 0 <= i -> keeps (write_slice w i c pos s).
Proof.
  intros Hi. unfold write_slice. keepa. apply keeps_on_backend. intros db r db' Hs H.
  eapply commit_slice_obligations; [..|exact H]; eassumption.
Qed.

(** *** set_attr: merging never touches type or link count *)

Definition same_node (a a' : InodeAttr) : Prop :=
  kind a' = kind a /\ nlink a' = nlink a /\ attr_length a' = attr_length a /\ parent a' = parent a /\
  rdev a' = rdev a /\ crtime a' = crtime a.

Lemma merge_gid_same ctx flags cur new d c d' c' :
  merge_gid ctx flags cur new (d, c) = Ok (d', c') -> same_node d d'.
Proof.
  unfold merge_gid. intros H. destruct (bits_contain flags SA_GID); [|by inv_ok].
  apply bind_Ok in H as (u & _ & H). destruct (negb (gid cur =? _)); by inv_ok.
Qed.

Lemma merge_uid_same ctx flags cur new d c d' c' :
  merge_uid ctx flags cur new (d, c) = Ok (d', c') -> same_node d d'.
Proof. unfold merge_uid. intros H. destruct (_ && _); by inv_ok. Qed.

Lemma merge_mode_same ctx flags cur new d c d' n' c' :
  merge_mode ctx flags cur new (d, c) = Ok (d', n', c') -> same_node d d'.
Proof.
  unfold merge_mode. intros H. destruct (bits_contain flags SA_MODE); [|by inv_ok].
  cbv zeta in H. destruct (negb (mode cur =? _)); by inv_ok.
Qed.

Lemma merge_time_same ctx flags f1 f2 er cur now t1 set d c d' c' :
  (forall t a, same_node a (set t a)) ->
  merge_time ctx flags f1 f2 er cur now t1 set (d, c) = Ok (d', c') -> same_node d d'.
Proof.
  unfold merge_time. intros Hset H. cbv zeta in H.
  destruct (bits_contain flags f1); [inv_ok; apply Hset|].
  destruct (bits_contain flags f2); inv_ok; [apply Hset|done].
Qed.

#[local] Instance same_node_trans : Transitive same_node.
Proof.
  intros a b c (? & ? & ? & ? & ? & ?) (? & ? & ? & ? & ? & ?). split_and!; congruence.
Qed.

Lemma merge_attr_same_node ctx flags cur new now d n :
  merge_attr ctx flags cur new now = Ok (d, n) -> same_node cur d.
Proof.
  unfold merge_attr. intros H. cbv zeta in H.
  match type of H with (let '(_, _) := ?x in _) = _ => destruct x as [d1 n1] eqn:E1 end.
  assert (H1 : same_node cur d1).
  { unfold clear_setid in E1. destruct (bits_contain flags SA_MODE && _), (negb (_ =? 0) && _);
      try destruct (negb (is_dir _)); by simplify_eq. }
  apply bind_Ok in H as ([d2 c2] & E2%merge_gid_same & H).
  apply bind_Ok in H as ([d3 c3] & E3%merge_uid_same & H).
  apply bind_Ok in H as ([[d4 n4] c4] & E4%merge_mode_same & H).
  apply bind_Ok in H as ([d5 c5] & E5%merge_time_same & H); [|by intros ? ?].
  apply bind_Ok in H as ([d6 c6] & E6%merge_time_same & H); [|by intros ? ?].
  assert (H6 : same_node cur d6) by (do 5 (etransitivity; [eassumption|]); done).
  destruct (bits_contain flags SA_FLAG && _); cbv beta iota in H; inv_ok; [done|].
  by destruct c6.
Qed.

(** *** mknod: the new inode is not in use *)

(** The inode counter is below the end of the 64-bit range. *)
Definition room (e : MetaEngine) : Prop :=
  forall v, counter_value (backend e) Key.NextInode = Some v -> v + 1024 < 2 ^ 64 - 3.

Lemma next_inode_view w e r e1 :
  next_inode_id w e = (r, e1) -> fs_equiv (view (backend e1)) (view (backend e)).
Proof.
  unfold next_inode_id, id_next, id_refill. intros H. destruct (id_max _ <=? _).
  - simpl Key.get_step in H. cbv iota in H. destruct (increase_count_by _ _ _ _) as [r1 db] eqn:E.
    apply increase_view in E. destruct r1; cbn [mbind outcome_bind] in H;
      [destruct (skip_reserved _ _ _)|..]; injection H as <- <-; exact E.
  - destruct (skip_reserved _ _ _). by injection H as <- <-.
Qed.

Lemma next_inode_keeps w e r e1 :
  EngInv e -> room e -> next_inode_id w e = (r, e1) ->
  EngInv e1 /\ root e1 = root e /\
  forall n, r = Ok n -> 2 <= n /\ fs_attr (view (backend e1)) n = None /\
    exists v, ids_ok (backend e1) (free_inodes e1) v /\ n < id_floor (free_inodes e1) v /\
      forall i, 0 <= i -> fs_attr (view (backend e1)) i <> None -> i < id_floor (free_inodes e1) v.
Proof.
  intros (Hs & Hr & v & Hids & Hdom) Hroom H. unfold next_inode_id in H.
  destruct (id_next _ _ _ _) as [[r1 t1] db1] eqn:E. injection H as <- <-.
  apply (id_next_fresh _ _ _ v) in E as (Hv & v1 & Hids1 & Hfl & Hn); [|done|by apply Hroom, Hids].
  assert (Hdom1 : forall i, 0 <= i -> fs_attr (view db1) i <> None -> i < id_floor t1 v1).
  { intros i Hi. rewrite (proj1 Hv) by done. intros Ha. specialize (Hdom i Hi Ha). lia. }
  split; [split; [by rewrite Hv|split; [done|by exists v1]]|]. split; [done|].
  intros n ->. destruct (Hn n eq_refl) as (H2 & Hlo & Hhi). cbn [backend set_backend set_free_inodes free_inodes]. split; [done|]. split.
  - change (backend (set_backend db1 (set_free_inodes t1 e))) with db1; rewrite (proj1 Hv) by lia. destruct (fs_attr (view (backend e)) n) as [a|] eqn:Ha; [|done].
    assert (n < id_floor (free_inodes e) v) by (apply Hdom; [lia|congruence]). lia.
  - by exists v1.
Qed.

Lemma new_node_attr_links now ctx p t m u d path :
  kind (new_node_attr now ctx p t m u d path) = t /\
  0 <= nlink (new_node_attr now ctx p t m u d path) < 2 ^ 32 /\
  1 <= nlink (new_node_attr now ctx p t m u d path).
Proof. by destruct t. Qed.

Lemma mknod_attrs ctx n1 n2 db new a p n t path r b i :
  0 <= p -> 0 <= new -> 0 <= i ->
  mknod_plan ctx n1 n2 db new a p n t path = Ok (r, b) ->
  fs_attr (view (kv_write b db)) i <> None -> i = new \/ fs_attr (view db) i <> None.
Proof.
  intros Hp Hn Hi H. destruct r as [j a'].
  apply mknod_plan_spec in H as (-> & _ & _ & _ & pa & Hpa & _ & _ & _ & Hd); [|done..].
  destruct (Hd db) as [HA _]. rewrite HA by done.
  destruct (bool_decide _); simpl when; fs_simpl; repeat case_decide; subst; auto. right; congruence.
Qed.

Lemma mknod_keeps w ctx p n t m u d path e r e' :
  EngInv e -> room e -> 0 <= p -> mknod w ctx p n t m u d path e = (r, e') -> EngInv e'.
Proof.
  intros He Hroom Hp H. unfold mknod in H. unfold mbind, eng_bind, gets, guard, lift in H.
  destruct (ensure _ _) as [u1| |]; [|by simplify_eq..].
  destruct (ensure _ _) as [u2| |]; [|by simplify_eq..].
  pose proof (check_root_nonneg e p He Hp) as Hp'.
  destruct (next_inode_id w e) as [r1 e1] eqn:Hnx.
  apply next_inode_keeps in Hnx as (He1 & _ & Hfresh); [|done..].
  destruct r1 as [new| |]; [|by simplify_eq..].
  destruct (Hfresh new eq_refl) as (H2 & Hnone & v & Hids & Hlt & Hdom). clear Hfresh.
  set (a := new_node_attr _ _ _ _ _ _ _ _) in H.
  destruct (new_node_attr_links (clk w 0) ctx (check_root e p) t m u d path) as (Hk & Hl & Hl1).
  fold a in Hk, Hl, Hl1. unfold on_backend in H.
  destruct (do_mknod _ _ _ _ _ _ _ _ _ _ _) as [r2 db2] eqn:Hmk.
  assert (He2 : EngInv (set_backend db2 e1)).
  2:{ destruct r2; injection H as <- <-; [eapply EngInv_same; [..|exact He2]; reflexivity|done..]. }
  unfold do_mknod in Hmk. apply write_plan_cases in Hmk as [->|(x & b & Hpl & ->)]; [by destruct e1|].
  split.
  { eapply mknod_plan_inv; [..|exact Hpl];
      [apply He1|exact Hp'|lia|exact Hnone|exact Hk|exact Hl|intros _; exact Hl1]. }
  split; [apply He1|]. exists v. destruct Hids as (Hv & Hrest). split; [split; [|done]|].
  - simpl. rewrite record_counter; [done|]. by eapply mknod_plan_records.
  - simpl. intros i Hi Ha. eapply mknod_attrs in Ha; [|exact Hp'| |exact Hi|exact Hpl]; [|lia].
    destruct Ha as [->|Ha]; [done|by apply Hdom].
Qed.

(** *** The other operations *)

Lemma keeps_at_bind {A B} (m : eng A) (f : A -> eng B) e r e' :
  (forall r1 e1, m e = (r1, e1) -> EngInv e1) -> (forall a, keeps (f a)) ->
  eng_bind A B f m e = (r, e') -> EngInv e'.
Proof.
  intros Hm Hf H. unfold eng_bind in H.
  destruct (m e) as [[a|x|] e1] eqn:E; [|by simplify_eq; eapply Hm..].
  eapply Hf; [|exact H]. by eapply Hm.
Qed.

Lemma mkdir_keeps w ctx p n m u e r e' :
  EngInv e -> room e -> 0 <= p -> mkdir w ctx p n m u e = (r, e') -> EngInv e'.
Proof.
  intros He Hr Hp. apply keeps_at_bind; [|intros a; keepa].
  intros r1 e1 H. eapply mknod_keeps; [..|exact H]; done.
Qed.

Lemma create_keeps w ctx p n m u e r e' :
  EngInv e -> room e -> 0 <= p -> create w ctx p n m u e = (r, e') -> EngInv e'.
Proof.
  intros He Hr Hp H. unfold create in H.
  destruct (mknod _ _ _ _ _ _ _ _ _ e) as [r1 e1] eqn:Hm.
  apply mknod_keeps in Hm; [|done..].
  match type of H with (let '(_, _) := ?y in _) = _ => destruct y as [x e2] eqn:Hx end.
  assert (He2 : EngInv e2).
  { assert (Hlk : keeps (do_lookup p n)) by (unfold do_lookup; keepa).
    destruct r1 as [y|[]|]; try destruct (_ =? EEXIST); simplify_eq; try done;
      eapply Hlk; [|exact Hx]; done. }
  destruct x as [[i a]| |]; [|by simplify_eq..].
  destruct (of_open _ _ _ _) as [a' fs]. simplify_eq. by eapply EngInv_same; [..|exact He2].
Qed.

Lemma link_keeps w ctx i np nn e r e' :
  EngInv e -> 0 <= i -> 0 <= np ->
  (forall a, fs_attr (view (backend e)) i = Some a -> nlink a < 2 ^ 32 - 1) ->
  link w ctx i np nn e = (r, e') -> EngInv e'.
Proof.
  intros He Hi Hp Hmax H. unfold link in H. unfold mbind at 1, eng_bind at 1 in H.
  pose proof (quiet_get_attr w i e) as (Hb & _ & _).
  pose proof (keeps_quiet _ (quiet_get_attr w i) e) as Hk.
  destruct (get_attr w i e) as [r1 e1]. simpl in Hb. specialize (Hk _ _ He eq_refl).
  destruct r1 as [a| |]; [|by simplify_eq..]. rewrite <- Hb in Hmax. clear He Hb.
  unfold mbind at 1, eng_bind at 1, guard, lift in H.
  destruct (ensure _ _) as [u| |]; [|by simplify_eq..].
  unfold mbind at 1, eng_bind at 1, gets in H. revert H. apply keeps_at_bind; [|intros x; keepa].
  intros r1 e2 H. unfold on_backend in H. destruct (do_link _ _ _ _ _ _ _ _) as [r2 db2] eqn:Hl.
  injection H as <- <-.
  assert (Hob : FsInv (view db2) /\ no_new (backend e1) db2 /\
    counter_value db2 Key.NextInode = counter_value (backend e1) Key.NextInode).
  { eapply plan_obligations; [apply Hk| |exact Hl]. intros x b Hpl. split_and!.
    - eapply link_plan_inv; [..|exact Hpl]; [apply Hk|done..].
    - eapply link_no_new; [..|exact Hpl]; done.
    - by eapply link_plan_records. }
  destruct Hob as (H1 & H2 & H3). by apply EngInv_backend.
Qed.

Lemma set_attr_keeps w ctx flags i a : 0 <= i -> keeps (set_attr w ctx flags i a).
Proof.
  intros Hi e r e' He H. unfold set_attr in H.
  unfold mbind, eng_bind, gets, from_backend, lift, on_backend in H.
  pose proof (check_root_nonneg e i He Hi) as Hc.
  destruct (Backend.get_attr _ _) as [cur| |] eqn:Hcur; [|by simplify_eq..].
  destruct (merge_attr _ _ _ _ _) as [[d n]| |] eqn:Hm; [|by simplify_eq..].
  apply merge_attr_same_node in Hm as (Hk & Hl & _). apply view_attr in Hcur.
  destruct (Backend.set_attr _ _ _ _) as [r1 db1] eqn:Hset.
  assert (He1 : EngInv (set_backend db1 e)); [|by destruct r1; injection H as <- <-].
  unfold Backend.set_attr, db_put in Hset. destruct (write_ok _); simplify_eq; [|by destruct e].
  pose proof (fi_u32 _ (proj1 He) _ _ Hc Hcur) as Hu.
  apply EngInv_backend; [done| | |by apply counter_put_record].
  - change (FsInv (view (txn_put_attr (backend e) (check_root e i) (set_ctime (clk w 0) d)))).
    rewrite view_txn_put_attr by done. eapply put_same_inv; [apply He|exact Hcur|].
    split; [done|]. split; [done|]. simpl. by rewrite Hl.
  - by eapply (put_attr_no_new _ (backend e)).
Qed.

Lemma do_delete_chunks_obligations env db i :
  0 <= i -> FsInv (view db) ->
  FsInv (view (do_delete_chunks env db i)) /\ no_new db (do_delete_chunks env db i) /\
  counter_value (do_delete_chunks env db i) Key.NextInode = counter_value db Key.NextInode.
Proof.
  intros Hi Hs. unfold do_delete_chunks.
  match goal with |- context [write_plan env db ?p] => destruct (write_plan env db p) as [r db'] eqn:H end.
  simpl. eapply (plan_obligations _ _ _ _ _ Hs); [|exact H]. intros a b Hb. inv_ok.
  pose proof (delete_chunks_view db i Hi) as Hv.
  split; [by rewrite Hv|]. split.
  - intros j Hj. by rewrite (proj1 Hv).
  - records.
Qed.

Lemma run_delete_keeps env e : EngInv e -> Forall (Z.le 0) (pending_deletes e) -> EngInv (run_delete env e).
Proof.
  intros He Hp. unfold run_delete. destruct (pending_deletes e) as [|i rest]; [done|].
  apply Forall_cons in Hp as [Hi _].
  destruct (do_delete_chunks_obligations env (backend e) i Hi (proj1 He)) as (H1 & H2 & H3).
  eapply (EngInv_same (set_backend (do_delete_chunks env (backend e) i) e)); [done..|].
  by apply EngInv_backend.
Qed.

Lemma increase_other env db c c' step r db' :
  c <> c' -> increase_count_by env db c step = (r, db') -> counter_value db' c' = counter_value db c'.
Proof.
  intros Hne H. apply commit_txn_cases in H as [->|(a & H)]; [done|].
  apply bind_Ok in H as (cur & _ & H). cbv zeta in H. inv_ok.
  unfold counter_value. rewrite kv_get_put_ne; [done|]. by destruct c, c'.
Qed.

Lemma next_slice_id_keeps w : keeps (next_slice_id w).
Proof.
  intros e r e' He H. unfold next_slice_id, id_next, id_refill in H.
  destruct (id_max (free_slices e) <=? _).
  2:{ destruct (skip_reserved _ _ _). injection H as <- <-. by eapply EngInv_same; [..|exact He]. }
  simpl Key.get_step in H. cbv iota in H.
  destruct (increase_count_by _ _ _ _) as [r1 db] eqn:E.
  pose proof (increase_view _ _ _ _ _ _ E) as Hv.
  apply (increase_other _ _ _ Key.NextInode) in E; [|done].
  assert (He1 : EngInv (set_backend db e)).
  { apply EngInv_backend; [done|rewrite Hv; apply He| |done]. intros i Hi. by rewrite (proj1 Hv). }
  destruct r1; cbn [mbind outcome_bind] in H; [destruct (skip_reserved _ _ _)|..];
    injection H as <- <-; by eapply EngInv_same; [..|exact He1].
Qed.

Lemma quiet_read_dir_entries i plus l : quiet (read_dir_entries i plus l).
Proof. induction l as [|de l IH]; simpl; quiets. Qed.

Lemma quiet_read_dir w ctx i plus : quiet (read_dir w ctx i plus).
Proof.
  unfold read_dir, do_read_dir. cbv zeta.
  repeat first [apply quiet_get_attr | apply quiet_read_dir_entries | quiet1 | apply quiet_bind; [|intros ?]].
Qed.

Lemma quiet_open_inode w ctx i f : quiet (open_inode w ctx i f).
Proof.
  unfold open_inode, open_file. quiets; intros e.
  - destruct (negb _); [|done]. by destruct (load_attr _ _ _ _) as [[? ?]| |].
  - by destruct (of_open _ _ _ _).
Qed.

Lemma quiet_close i : quiet (close i).
Proof. intros e. unfold close. destruct (of_close _ _) as [fs b]. by destruct b. Qed.

Lemma quiet_read_slice w i c : quiet (read_slice w i c).
Proof. unfold read_slice. quiets. by intros e. Qed.

Lemma quiet_readlink i : quiet (readlink i).
Proof. unfold readlink. quiets. by intros e. Qed.

(** ** Steps of an engine *)

Inductive eng_step : MetaEngine -> MetaEngine -> Prop :=
| es_mknod w ctx p n t m u d path e r e' :
    room e -> 0 <= p -> mknod w ctx p n t m u d path e = (r, e') -> eng_step e e'
| es_mkdir w ctx p n m u e r e' :
    room e -> 0 <= p -> mkdir w ctx p n m u e = (r, e') -> eng_step e e'
| es_create w ctx p n m u e r e' :
    room e -> 0 <= p -> create w ctx p n m u e = (r, e') -> eng_step e e'
| es_symlink w ctx p n target e r e' :
    room e -> 0 <= p -> symlink w ctx p n target e = (r, e') -> eng_step e e'
| es_rmdir w ctx p n e r e' : 0 <= p -> rmdir w ctx p n e = (r, e') -> eng_step e e'
| es_unlink w ctx p n e r e' : 0 <= p -> unlink w ctx p n e = (r, e') -> eng_step e e'
| es_rename w ctx op on np nn flags e r e' :
    0 <= op -> 0 <= np -> rename w ctx op on np nn flags e = (r, e') -> eng_step e e'
| es_link w ctx i np nn e r e' :
    0 <= i -> 0 <= np ->
    (forall a, fs_attr (view (backend e)) i = Some a -> nlink a < 2 ^ 32 - 1) ->
    link w ctx i np nn e = (r, e') -> eng_step e e'
| es_set_attr w ctx flags i a e r e' : 0 <= i -> set_attr w ctx flags i a e = (r, e') -> eng_step e e'
| es_truncate w ctx i size skip e r e' :
    0 <= i -> truncate w ctx i size skip e = (r, e') -> eng_step e e'
| es_write_slice w i c pos s e r e' : 0 <= i -> write_slice w i c pos s e = (r, e') -> eng_step e e'
| es_next_slice w e r e' : next_slice_id w e = (r, e') -> eng_step e e'
| es_get_attr w i e r e' : get_attr w i e = (r, e') -> eng_step e e'
| es_lookup w ctx p n c e r e' : lookup w ctx p n c e = (r, e') -> eng_step e e'
| es_read_dir w ctx i plus e r e' : read_dir w ctx i plus e = (r, e') -> eng_step e e'
| es_open_inode w ctx i f e r e' : open_inode w ctx i f e = (r, e') -> eng_step e e'
| es_read_slice w i c e r e' : read_slice w i c e = (r, e') -> eng_step e e'
| es_readlink i e r e' : readlink i e = (r, e') -> eng_step e e'
| es_close i e r e' : close i e = (r, e') -> eng_step e e'
| es_run_delete env e :
    Forall (Z.le 0) (pending_deletes e) -> eng_step e (run_delete env e)
| es_restart cfg e e' : open cfg (backend e) = Ok e' -> eng_step e e'.

(** A restarted engine starts from the counter. *)
Lemma open_inv cfg db e v :
  open cfg db = Ok e -> FsInv (view db) -> counter_value db Key.NextInode = Some v -> 2 <= v ->
  (forall i, 0 <= i -> fs_attr (view db) i <> None -> i < v) -> EngInv e.
Proof.
  intros H Hs Hv H2 Hdom. apply bind_Ok in H as (f & _ & H). inv_ok.
  split; [done|]. split; [done|]. exists v.
  split; [|exact Hdom]. unfold ids_ok. simpl. split_and!; [done|done|done|lia|lia].
Qed.

Lemma restart_inv cfg e e' : EngInv e -> open cfg (backend e) = Ok e' -> EngInv e'.
Proof.
  intros (Hs & _ & v & (Hv & H2 & Hlo & Hmax & _) & Hdom) H.
  eapply open_inv; [exact H|done|exact Hv|done|]. intros i Hi Ha. specialize (Hdom i Hi Ha).
  unfold id_floor in Hdom. destruct (id_lo _ <? _) eqn:E; to_prop; lia.
Qed.

Lemma eng_step_inv e e' : eng_step e e' -> EngInv e -> EngInv e'.
Proof.
  intros Hst He. destruct Hst.
  - eapply mknod_keeps; [..|eassumption]; eassumption.
  - eapply mkdir_keeps; [..|eassumption]; eassumption.
  - eapply create_keeps; [..|eassumption]; eassumption.
  - unfold symlink in *. eapply mknod_keeps; [..|eassumption]; eassumption.
  - eapply keeps_rmdir; [..|exact He|eassumption]; assumption.
  - eapply keeps_unlink; [..|exact He|eassumption]; assumption.
  - eapply keeps_rename; [..|exact He|eassumption]; assumption.
  - eapply link_keeps; [..|eassumption]; eassumption.
  - eapply set_attr_keeps; [..|exact He|eassumption]; assumption.
  - eapply keeps_truncate; [..|exact He|eassumption]; assumption.
  - eapply keeps_write_slice; [..|exact He|eassumption]; assumption.
  - eapply next_slice_id_keeps; [exact He|eassumption].
  - eapply keeps_quiet; [apply quiet_get_attr|exact He|eassumption].
  - eapply keeps_lookup; [exact He|eassumption].
  - eapply keeps_quiet; [apply quiet_read_dir|exact He|eassumption].
  - eapply keeps_quiet; [apply quiet_open_inode|exact He|eassumption].
  - eapply keeps_quiet; [apply quiet_read_slice|exact He|eassumption].
  - eapply keeps_quiet; [apply quiet_readlink|exact He|eassumption].
  - eapply keeps_quiet; [apply quiet_close|exact He|eassumption].
  - by apply run_delete_keeps.
  - by eapply restart_inv.
Qed.

(** The engine of a volume formatted on an empty store. *)
Lemma format_open_inv env now db0 f force db1 cfg e :
  blank db0 -> load_format db0 = Err UninitializedEngine ->
  update_format env now db0 f force = (Ok (), db1) -> open cfg db1 = Ok e -> EngInv e.
Proof.
  intros Hb Hl Hu Ho. unfold update_format in Hu. rewrite Hl in Hu.
  pose proof (initialize_view _ _ _ _ _ Hu) as [HA _].
  assert (Hv : counter_value db1 Key.NextInode = Some 2).
  { unfold initialize_volume, commit_txn in Hu. destruct (bool_decide _); [|done]. simpl in Hu.
    destruct (commit_ok env); [|done]. injection Hu as <-. unfold counter_value, stage_initial_state.
    rewrite kv_get_put_eq. by apply ml_u64. }
  eapply open_inv; [exact Ho| |exact Hv|done|].
  - eapply initial_inv; [exact Hb| |  |exact Hu]; [done|simpl; lia].
  - intros i Hi. rewrite HA by done. fs_simpl. rewrite (proj1 Hb) by done.
    case_decide; [subst; unfold ROOT_INO; lia|done].
Qed.

(** C1: whatever sequence of engine operations runs on a volume formatted on
    an empty store, with any arguments, any failing writes, any clock, queued
    deletions run at any time and restarts in between, the store holds a
    well-formed namespace and every inode in use lies below what the engine
    may hand out next, so no new node takes over an inode in use. *)
Theorem engine_reachable_inv env now db0 f force db1 cfg e0 e :
  blank db0 -> load_format db0 = Err UninitializedEngine ->
  update_format env now db0 f force = (Ok (), db1) -> open cfg db1 = Ok e0 ->
  rtc eng_step e0 e -> EngInv e.
Proof.
  intros Hb Hl Hu Ho Hrtc. apply (format_open_inv env now db0 f force db1) in Ho; [|done..].
  induction Hrtc as [e|e e1 e2 Hst _ IH]; [done|]. apply IH. by eapply eng_step_inv.
Qed.
End engine_inv.

(** A run: format an empty store, make a directory, put a file in it, rename it. *)
Definition ref_config : MetaConfig := mkMetaConfig "rocksdb:mem" false 0 0 0.
Definition ref_world (t : Z) : World := mkWorld (fun n => t + Z.of_nat n) (fun _ => good_env).
Definition ref_db : db_t := (update_format good_env 1 empty_db format_default false).2.
Definition ref_e0 : MetaEngine :=
  mkEngine ref_config format_default ROOT_INO 0 (open_files_new 0) ∅ ∅ ∅ 0 0 id_table_new id_table_new
    [] ref_db.
Definition ref_e1 : MetaEngine := (mkdir (ref_world 10) root_ctx 1 "d" 0x1FF 0 ref_e0).2.
Definition ref_e2 : MetaEngine := (rename (ref_world 20) root_ctx 1 "d" 1 "x" 0 ref_e1).2.

Lemma engine_reachable_inv_witness :
  (mkdir (ref_world 10) root_ctx 1 "d" 0x1FF 0 ref_e0).1
    = Ok (2, stamped 12 (new_node_attr 10 root_ctx 1 Directory 0x1FF 0 0 "")) /\
  fs_dent (view (backend ref_e2)) 1 "x" = Some (mkDEntry 1 "x" 2 Directory) /\ EngInv ref_e2.
Proof.
  split; [vm_compute; reflexivity|]. split; [vm_compute; reflexivity|].
  apply (engine_reachable_inv good_env 1 empty_db format_default false ref_db ref_config ref_e0);
    [apply empty_blank|reflexivity|reflexivity|vm_compute; reflexivity|].
  apply (rtc_l _ _ ref_e1).
  - apply (es_mkdir (ref_world 10) root_ctx 1 "d" 0x1FF 0 ref_e0
      (mkdir (ref_world 10) root_ctx 1 "d" 0x1FF 0 ref_e0).1); [|done|apply surjective_pairing].
    intros v Hv. vm_compute in Hv. injection Hv as <-. lia.
  - apply rtc_once. apply (es_rename (ref_world 20) root_ctx 1 "d" 1 "x" 0 ref_e1
      (rename (ref_world 20) root_ctx 1 "d" 1 "x" 0 ref_e1).1); [done|done|apply surjective_pairing].
Defined.
