(* ===== verification/EngineThms.v ===== *)
(** * What the engine promises its callers

    Who may change which attribute, read-your-writes of slices through the
    open-file cache, lookup after mknod, and the fixed layout of a volume. *)

From S2P Require Import Prelude Common Types Bincode RangeMap Slice Keys KV Meta OpenFiles.
From S2P Require Import Backend FsModel Namespace Reach RefStore NsThms Chunks IdTable Engine.
From S2P Require Import Records EngineInv.
Import Engine.

(** ** Attribute changes *)

Lemma bits_contain_lor f a b : bits_contain f (Z.lor a b) = true -> bits_contain f b = true.
Proof.
  unfold bits_contain. rewrite !Z.eqb_eq. intros H. apply Z.bits_inj'. intros n Hn.
  apply (f_equal (fun z => Z.testbit z n)) in H. rewrite Z.land_spec, Z.lor_spec in H.
  rewrite Z.land_spec. by destruct (Z.testbit f n), (Z.testbit a n), (Z.testbit b n).
Qed.

(** A caller with authority over an inode: root or its owner. *)
Definition authority (ctx : FuseContext) (cur : InodeAttr) : Prop :=
  ctx_uid ctx = 0 \/ ctx_uid ctx = uid cur.

(** The permission and sticky bits agree and no set-id bit is gained. *)
Definition no_more_mode (cur d : InodeAttr) : Prop :=
  Z.land (mode d) 0x3FF = Z.land (mode cur) 0x3FF /\
  Z.land (mode d) 0x400 <= Z.land (mode cur) 0x400 /\
  Z.land (mode d) 0x800 <= Z.land (mode cur) 0x800.

Lemma merge_gid_rule ctx flags cur new d c d' c' :
  merge_gid ctx flags cur new (d, c) = Ok (d', c') ->
  uid d' = uid d /\ mode d' = mode d /\
  (bits_contain flags SA_GID = true -> authority ctx cur) /\
  (bits_contain flags SA_GID = false -> d' = d).
Proof.
  unfold merge_gid. intros H. destruct (bits_contain flags SA_GID); [|by inv_ok].
  apply bind_Ok in H as (u & Hu & H). apply ensure_Ok in Hu.
  assert (Ha : authority ctx cur) by (apply orb_true_iff in Hu as [Hu|Hu]; to_prop; [by left|by right]).
  destruct (negb (gid cur =? _)); inv_ok; done.
Qed.

Lemma merge_uid_rule ctx flags cur new d c d' c' :
  merge_uid ctx flags cur new (d, c) = Ok (d', c') ->
  gid d' = gid d /\ mode d' = mode d /\ (d' = d \/ ctx_uid ctx = 0 /\ bits_contain flags SA_UID = true).
Proof.
  unfold merge_uid. intros H.
  destruct (bits_contain flags SA_UID) eqn:Hf; [|cbn [andb] in H; inv_ok; by auto].
  cbn [andb] in H. destruct (negb (uid cur =? _)); inv_ok; [|auto].
  by to_prop; auto.
Qed.

Lemma merge_mode_rule ctx flags cur new d c d' n' c' :
  merge_mode ctx flags cur new (d, c) = Ok (d', n', c') ->
  uid d' = uid d /\ gid d' = gid d /\
  (authority ctx cur \/ mode d' = mode d \/ no_more_mode cur d').
Proof.
  unfold merge_mode. intros H. destruct (bits_contain flags SA_MODE); [|inv_ok; auto].
  cbv zeta in H. set (n1 := if _ && _ then _ else new) in H. clearbody n1.
  destruct (negb (mode cur =? mode n1)); [|inv_ok; auto].
  apply bind_Ok in H as (u & Hu & H). inv_ok. split; [done|]. split; [done|].
  unfold authority, no_more_mode. simpl.
  destruct (Z.eq_dec (ctx_uid ctx) 0) as [?|H0]; [auto|].
  destruct (Z.eq_dec (ctx_uid ctx) (uid cur)) as [?|H1]; [auto|]. right; right.
  rewrite (proj2 (Z.eqb_neq _ _) H0), (proj2 (Z.eqb_neq _ _) H1) in Hu. simpl in Hu.
  to_prop. lia.
Qed.

Lemma merge_time_rule ctx flags f1 f2 er cur now t1 set d c d' c' :
  (forall t a, uid (set t a) = uid a /\ gid (set t a) = gid a /\ mode (set t a) = mode a) ->
  merge_time ctx flags f1 f2 er cur now t1 set (d, c) = Ok (d', c') ->
  uid d' = uid d /\ gid d' = gid d /\ mode d' = mode d.
Proof.
  unfold merge_time. intros Hset H. cbv zeta in H.
  destruct (bits_contain flags f1); [inv_ok; apply Hset|].
  destruct (bits_contain flags f2); inv_ok; [apply Hset|done].
Qed.

(** Who may change the owner, the group and the mode. *)
Lemma merge_attr_owner ctx flags cur new now d n :
  merge_attr ctx flags cur new now = Ok (d, n) ->
  (uid d <> uid cur -> ctx_uid ctx = 0 /\ bits_contain flags SA_UID = true) /\
  (gid d <> gid cur -> authority ctx cur /\ bits_contain flags SA_GID = true) /\
  (authority ctx cur \/ no_more_mode cur d).
Proof.
  intros H.
  unfold merge_attr in H. cbv zeta in H.
  match type of H with (let '(_, _) := ?x in _) = _ => destruct x as [d1 n1] eqn:E1 end.
  assert (H1 : uid d1 = uid cur /\ gid d1 = gid cur /\
    (bits_contain flags SA_GID = false -> d1 = cur)).
  { destruct (bits_contain flags (Z.lor SA_UID SA_GID)) eqn:Hb.
    - apply bits_contain_lor in Hb. rewrite Hb. unfold clear_setid in E1.
      destruct (bits_contain flags SA_MODE && true), (negb (_ =? 0) && true);
        try destruct (negb (is_dir _)); by simplify_eq.
    - rewrite !andb_false_r in E1. by simplify_eq. }
  destruct H1 as (Hu1 & Hg1 & Hc1).
  apply bind_Ok in H as ([d2 c2] & (Hu2 & Hm2 & Ha2 & Hc2)%merge_gid_rule & H).
  apply bind_Ok in H as ([d3 c3] & (Hg3 & Hm3 & Hc3)%merge_uid_rule & H).
  apply bind_Ok in H as ([[d4 n4] c4] & (Hu4 & Hg4 & Hc4)%merge_mode_rule & H).
  apply bind_Ok in H as ([d5 c5] & (Hu5 & Hg5 & Hm5)%merge_time_rule & H); [|done].
  apply bind_Ok in H as ([d6 c6] & (Hu6 & Hg6 & Hm6)%merge_time_rule & H); [|done].
  assert (Hd : uid d = uid d6 /\ gid d = gid d6 /\ mode d = mode d6 \/ d = cur).
  { destruct (bits_contain flags SA_FLAG && _); cbv beta iota in H; inv_ok; [by left|].
    destruct c6; auto. }
  destruct Hd as [(Hud & Hgd & Hmd)|Hd];
    [rewrite Hud, Hgd|subst d; split; [done|]; split; [done|]; right; unfold no_more_mode; lia].
  split_and!.
  - intros Hne. destruct Hc3 as [->|Hc3]; [congruence|done].
  - intros Hne. destruct (bits_contain flags SA_GID); [by split; [apply Ha2|]|].
    rewrite Hg6, Hg5, Hg4, Hg3, (Hc2 eq_refl) in Hne. congruence.
  - destruct (bits_contain flags SA_GID); [left; by apply Ha2|].
    destruct Hc4 as [?|[Hm4|Hm4]]; [by left|right..].
    + rewrite <- (Hc1 eq_refl), <- (Hc2 eq_refl). unfold no_more_mode.
      replace (mode d) with (mode d2) by congruence. lia.
    + unfold no_more_mode in *. by replace (mode d) with (mode d4) by congruence.
Qed.

(** *** Times and flags *)

Definition stamps (a : InodeAttr) : SystemTime * SystemTime * Z := (atime a, mtime a, Types.flags a).

(** How a time may change: to the present, for a caller who may write to the
    inode or owns it; to the requested value, for the owner. *)
Definition time_rule (ctx : FuseContext) (flags now_flag time_flag : Z) (cur : InodeAttr)
    (now explicit before after : SystemTime) : Prop :=
  after = before \/
  bits_contain flags now_flag = true /\ (check_access ctx cur MODE_MASK_W = Ok () \/ ctx_uid ctx = uid cur) /\ after = now \/
  bits_contain flags time_flag = true /\ ctx_uid ctx = uid cur /\ after = explicit.

Lemma merge_gid_stamps ctx flags cur new d c d' c' :
  merge_gid ctx flags cur new (d, c) = Ok (d', c') -> stamps d' = stamps d.
Proof. unfold merge_gid. intros H. repeat case_match; inv_ok; done. Qed.

Lemma merge_uid_stamps ctx flags cur new d c d' c' :
  merge_uid ctx flags cur new (d, c) = Ok (d', c') -> stamps d' = stamps d.
Proof. unfold merge_uid. intros H. repeat case_match; inv_ok; done. Qed.

Lemma merge_mode_stamps ctx flags cur new d c d' n' c' :
  merge_mode ctx flags cur new (d, c) = Ok (d', n', c') -> stamps d' = stamps d /\ stamps n' = stamps new.
Proof. unfold merge_mode. cbv zeta. intros H. repeat case_match; inv_ok; done. Qed.

Lemma merge_time_cases ctx flags f1 f2 er cur now t set d c d' c' :
  merge_time ctx flags f1 f2 er cur now t set (d, c) = Ok (d', c') ->
  d' = d \/ exists t', d' = set t' d /\ forall before, time_rule ctx flags f1 f2 cur now t before t'.
Proof.
  unfold merge_time. cbv zeta. intros H. destruct (bits_contain flags f1) eqn:E1.
  - right. exists now. apply bind_Ok in H as (u & Hu & H). inv_ok. split; [done|].
    intros before. right; left. split_and!; [done| |done].
    destruct (check_access ctx cur MODE_MASK_W) as [[]|e|]; [by left|right..]; apply ensure_Ok in Hu; by to_prop.
  - destruct (bits_contain flags f2) eqn:E2; [|left; by inv_ok].
    right. exists t. apply bind_Ok in H as (u & Hu & H). apply bind_Ok in H as (u' & _ & H). inv_ok.
    split; [done|]. intros before. right; right. by to_prop.
Qed.

Lemma merge_attr_stamps ctx flags cur new now d n :
  merge_attr ctx flags cur new now = Ok (d, n) ->
  time_rule ctx flags SA_ATIME_NOW SA_ATIME cur now (atime new) (atime cur) (atime d) /\
  time_rule ctx flags SA_MTIME_NOW SA_MTIME cur now (mtime new) (mtime cur) (mtime d) /\
  (Types.flags d = Types.flags cur \/ bits_contain flags SA_FLAG = true /\ Types.flags d = Types.flags new).
Proof.
  unfold merge_attr. cbv zeta. intros H.
  match type of H with (let '(_, _) := ?x in _) = _ => destruct x as [d1 n1] eqn:E1 end.
  assert (H1 : stamps d1 = stamps cur /\ stamps n1 = stamps new).
  { unfold clear_setid in E1. repeat case_match; by simplify_eq. }
  destruct H1 as [S1 N1].
  apply bind_Ok in H as ([d2 c2] & S2%merge_gid_stamps & H).
  apply bind_Ok in H as ([d3 c3] & S3%merge_uid_stamps & H).
  apply bind_Ok in H as ([[d4 n4] c4] & [S4 N4]%merge_mode_stamps & H).
  apply bind_Ok in H as ([d5 c5] & T5%merge_time_cases & H).
  apply bind_Ok in H as ([d6 c6] & T6%merge_time_cases & H).
  assert (S : stamps d4 = stamps cur) by congruence. assert (N : stamps n4 = stamps new) by congruence.
  clear S1 N1 S2 S3 S4 N4 E1. unfold stamps in S, N. injection S as Sa Sm Sf. injection N as Na Nm Nf.
  rewrite Na in T5. rewrite Nm in T6.
  assert (A5 : time_rule ctx flags SA_ATIME_NOW SA_ATIME cur now (atime new) (atime cur) (atime d5) /\
    mtime d5 = mtime cur /\ Types.flags d5 = Types.flags cur).
  { destruct T5 as [->|(t & -> & Ht)]; cbn; split_and!; try done; by left. }
  destruct A5 as (A5 & M5 & F5).
  assert (A6 : atime d6 = atime d5 /\ Types.flags d6 = Types.flags cur /\
    time_rule ctx flags SA_MTIME_NOW SA_MTIME cur now (mtime new) (mtime cur) (mtime d6)).
  { destruct T6 as [->|(t & -> & Ht)]; cbn; split_and!; try done; by left. }
  destruct A6 as (A6 & F6 & M6). rewrite <- A6 in A5.
  destruct (bits_contain flags SA_FLAG && negb (Types.flags d6 =? Types.flags n4)) eqn:Ef; cbv beta iota in H; inv_ok.
  - apply andb_true_iff in Ef as [Ef _]. split_and!; [exact A5|exact M6|right]. split; [exact Ef|exact Nf].
  - destruct c6; split_and!; try done; by left.
Qed.

(** C34: merging requested attributes never changes an inode's type, link count,
    length, parent, device or creation time.  Only root changes the owner; only
    root or the owner changes the group; a caller who is neither keeps the
    permission and sticky bits as they are and gains no set-id bit.  A time changes
    to the present for a caller who may write to the inode or owns it, and to a
    requested value only for the owner.  The flags change only when asked for and
    to the requested value; no authority is needed for them. *)
Theorem merge_attr_authority ctx flags cur new now d n :
  merge_attr ctx flags cur new now = Ok (d, n) ->
  same_node cur d /\
  (uid d <> uid cur -> ctx_uid ctx = 0 /\ bits_contain flags SA_UID = true) /\
  (gid d <> gid cur -> authority ctx cur /\ bits_contain flags SA_GID = true) /\
  (authority ctx cur \/ no_more_mode cur d) /\
  time_rule ctx flags SA_ATIME_NOW SA_ATIME cur now (atime new) (atime cur) (atime d) /\
  time_rule ctx flags SA_MTIME_NOW SA_MTIME cur now (mtime new) (mtime cur) (mtime d) /\
  (Types.flags d = Types.flags cur \/ bits_contain flags SA_FLAG = true /\ Types.flags d = Types.flags new).
Proof.
  intros H. pose proof (merge_attr_stamps _ _ _ _ _ _ _ H) as (Ht & Hm & Hf).
  destruct (merge_attr_owner _ _ _ _ _ _ _ H) as (Hu & Hg & Hp). split_and!; try done.
  by eapply merge_attr_same_node.
Qed.

(** ** Slices through the open-file cache *)

Section engine_thms.
Context `{L : Layout} `{KL : KVLaws} `{CL : MetaCodecLaws}.

Lemma eng_bind_Ok {A B} (m : eng A) (f : A -> eng B) e b e' :
  eng_bind A B f m e = (Ok b, e') -> exists a e1, m e = (Ok a, e1) /\ f a e1 = (Ok b, e').
Proof. unfold eng_bind. destruct (m e) as [[a| |] e1]; [by eauto|done..]. Qed.

Lemma lift_Ok {A} (r : Result A) e a e' : lift r e = (Ok a, e') -> r = Ok a /\ e' = e.
Proof. by intros [= <- <-]. Qed.

Lemma gets_Ok {A} (f : MetaEngine -> A) e a e' : gets f e = (Ok a, e') -> a = f e /\ e' = e.
Proof. by intros [= <- <-]. Qed.

Lemma on_backend_Ok {A} (f : db_t -> Result A * db_t) e a e' :
  on_backend f e = (Ok a, e') -> exists db, f (backend e) = (Ok a, db) /\ e' = set_backend db e.
Proof. unfold on_backend. destruct (f (backend e)) as [r db]. intros [= -> <-]. by exists db. Qed.

(** After a write of a slice succeeds, a read of the chunk through the
    engine returns the slices it had with the new one on top, whatever the
    open-file cache held before. *)
Theorem write_then_read w w' i c pos s l e e1 :
  slice_wf s = true -> holds (backend e) i c l ->
  (forall f, of_load (open_files e) i = Some f -> last_check f <= clk w' 0) ->
  write_slice w i c pos s e = (Ok (), e1) ->
  exists e2, read_slice w' i c e1 = (Ok (Some (add_slice s l)), e2) /\ backend e2 = backend e1.
Proof.
  intros Hs Hl Hclk H. unfold write_slice in H.
  apply eng_bind_Ok in H as ([] & e0 & [_ ->]%lift_Ok & H).
  apply eng_bind_Ok in H as ([] & e0 & [_ ->]%lift_Ok & H).
  apply eng_bind_Ok in H as (r & e0 & (db & Hc & ->)%on_backend_Ok & H).
  eapply commit_holds in Hc; [|exact Hs|exact Hl].
  assert (He1 : backend e1 = db /\ open_files e1 = invalid i (OneChunk c) (open_files e)).
  { apply eng_bind_Ok in H as ([] & e2 & Hst & H). injection H as <-.
    destruct (0 <? grew_by r); by injection Hst as <-. }
  destruct He1 as [Hb Hf]. unfold read_slice, mbind, eng_bind.
  assert (Hcache : load_slices (E:=Error) (clk w' 0) i c (open_files e1) = Ok None).
  { rewrite Hf. unfold load_slices, invalid, of_load in *. simpl files.
    rewrite lookup_alter_eq. destruct (files (open_files e) !! i) as [f|]; simpl; [|done].
    unfold elapsed, duration_since. simpl last_check.
    rewrite (proj2 (Z.leb_le _ _)) by (by apply Hclk). simpl. rewrite lookup_delete_eq.
    by destruct (clk w' 0 - last_check f <? _). }
  rewrite Hcache. unfold from_backend. rewrite Hb, (holds_decode db i c (add_slice s l) Hc).
  - eexists. split; [reflexivity|]. done.
  - unfold add_slice. case_decide; [|by destruct l]. intros ->. by apply not_elem_of_nil in H0.
Qed.

(** *** Lookup *)

Lemma do_lookup_spec e p n de a :
  fs_dent (view (backend e)) p n = Some de -> fs_attr (view (backend e)) (de_inode de) = Some a ->
  do_lookup p n e = (Ok (de_inode de, a), e).
Proof.
  intros Hd Ha. apply view_dent in Hd. apply view_attr in Ha.
  unfold do_lookup, mbind, eng_bind, from_backend, get_dentry, Backend.get_attr.
  by rewrite Hd, Ha.
Qed.

Lemma lookup_spec w ctx p n e de a :
  n <> DOT -> n <> DOT_DOT ->
  fs_dent (view (backend e)) (check_root e p) n = Some de ->
  fs_attr (view (backend e)) (de_inode de) = Some a ->
  (lookup w ctx p n false e).1 = Ok (de_inode de, a).
Proof.
  intros H1 H2 Hd Ha. unfold lookup, mbind, eng_bind, gets, mret, eng_ret.
  rewrite (bool_decide_false (n = DOT_DOT)), (bool_decide_false (n = DOT)) by done.
  cbn [andb orb]. cbv iota beta. rewrite (do_lookup_spec e _ n de a) by done. by destruct (bool_decide _).
Qed.

(** A node that mknod reports is found again under its name with the
    attributes mknod returned, and the inode number it got was not in use. *)
Theorem mknod_then_lookup w w' ctx ctx' p n t m u d path e i a e1 :
  EngInv e -> room e -> 0 <= p -> n <> DOT -> n <> DOT_DOT ->
  mknod w ctx p n t m u d path e = (Ok (i, a), e1) ->
  fs_attr (view (backend e)) i = None /\ kind a = t /\
  (lookup w' ctx' p n false e1).1 = Ok (i, a).
Proof.
  intros He Hroom Hp Hn1 Hn2 H. unfold mknod in H.
  apply eng_bind_Ok in H as (ro & e0 & [_ ->]%gets_Ok & H).
  apply eng_bind_Ok in H as ([] & e0 & [_ ->]%lift_Ok & H).
  apply eng_bind_Ok in H as ([] & e0 & [_ ->]%lift_Ok & H).
  apply eng_bind_Ok in H as (p' & e0 & [-> ->]%gets_Ok & H).
  apply eng_bind_Ok in H as (new & e2 & Hnx & H). pose proof Hnx as Hnx'.
  apply next_inode_keeps in Hnx as (He2 & Hr & Hfresh); [|done..].
  destruct (Hfresh new eq_refl) as (Hge & Hnone & _).
  apply eng_bind_Ok in H as ([i' a'] & e3 & (db & Hmk & ->)%on_backend_Ok & H).
  apply eng_bind_Ok in H as ([] & e4 & Hst & H). injection H as <- <- <-. injection Hst as <-.
  pose proof (check_root_nonneg e p He Hp) as Hcr.
  apply write_plan_Ok in Hmk as (b & Hpl & ->).
  apply mknod_plan_spec in Hpl as (-> & Hk & _ & _ & pa & Hpa & _ & _ & _ & Hd); [|lia..].
  destruct (new_node_attr_links (clk w 0) ctx (check_root e p) t m u d path) as (Hkt & _).
  destruct (Hd (backend e2)) as [HA HD].
  assert (Hne : check_root e p <> new) by congruence.
  split_and!.
  - rewrite <- Hnone. symmetry. destruct (next_inode_view _ _ _ _ Hnx') as [Hv _]. apply Hv. lia.
  - congruence.
  - apply (lookup_spec _ _ _ _ _ (mkDEntry (check_root e p) n new t)); [done|done| |].
    + simpl backend. replace (check_root _ p) with (check_root e p) by (unfold check_root; by rewrite <- Hr).
      rewrite HD by done. destruct (bool_decide _); simpl when; fs_simpl; by rewrite decide_True.
    + cbn [backend set_backend set_stats de_inode]. rewrite HA by lia. destruct (bool_decide _); simpl when; fs_simpl;
        rewrite ?decide_False by done; by rewrite decide_True.
Qed.

(** *** The format of a volume *)

Lemma load_set_format env db f r db' :
  set_format env db f = (r, db') -> load_format db' = Ok f \/ db' = db /\ r = Err RocksdbError.
Proof.
  unfold set_format, db_put, load_format. destruct (write_ok env); intros [= <- <-]; [left|by right].
  rewrite kv_get_put_eq. simpl. by rewrite bc_roundtrip.
Qed.

(** Formatting a volume that is already formatted never changes its chunk,
    block or page size: without force it is refused, a request with another
    layout is refused, and neither changes the store; a forced request with the
    same layout stores the requested name and limits. *)
Theorem update_format_keeps_layout env now db stored req force r db' :
  load_format db = Ok stored -> update_format env now db req force = (r, db') ->
  (force = false -> r = Err AlreadyInitialized /\ db' = db) /\
  (layout_mismatch stored req <> None -> r <> Ok () /\ db' = db) /\
  (r = Ok () -> load_format db' = Ok (merge_mutable_from stored req)) /\
  exists f, load_format db' = Ok f /\ chunk_size f = chunk_size stored /\
    block_size f = block_size stored /\ page_size f = page_size stored.
Proof.
  intros Hl H. unfold update_format in H. rewrite Hl in H.
  destruct force; simpl in H; [|injection H as <- <-; split_and!; [done|done|done|by exists stored]].
  split; [done|].
  destruct (layout_mismatch stored req) as [mm|].
  - injection H as <- <-. split_and!; [done|done|by exists stored].
  - split; [done|]. apply load_set_format in H as [H|[-> ->]].
    + split; [done|]. by eexists.
    + split; [done|]. by exists stored.
Qed.

(** *** Truncation trusts the cached length *)

(** A truncation to the length the open-file table has cached returns the cached
    attributes and leaves the store alone, also when the stored length is
    another: after a write through [write_slice], which invalidates the chunk
    but not the attributes, truncating to the old length does nothing. *)
Theorem truncate_trusts_cache w ctx i size skip e f :
  of_load (open_files e) i = Some f -> attr_length (of_attr f) = size ->
  truncate w ctx i size skip e = (Ok (of_attr f), e).
Proof.
  intros Hf Hs. unfold truncate, mbind, eng_bind, gets. rewrite Hf. simpl.
  by rewrite (proj2 (Z.eqb_eq _ _) Hs).
Qed.

(** The flags an open decodes are the ones the predicates read. *)
Lemma open_flags_of a f :
  ok_or (E:=Error) (if flags a <? 256 then from_bits 3 (flags a) else None) (LibcError EIO) = Ok f ->
  bits_contain f FLAG_IMMUTABLE = is_immutable a /\ bits_contain f FLAG_APPEND = is_append_only a.
Proof.
  intros H. destruct (flags a <? 256) eqn:Hl; [|done]. unfold from_bits in H.
  destruct (Z.land (flags a) 3 =? flags a) eqn:Hf; [|done]. injection H as <-. to_prop.
  unfold is_immutable, is_append_only, Flags_from_bits_truncate, u8_wrap.
  rewrite Z.mod_small; [by rewrite Hf|]. split; [|lia].
  rewrite <- Hf. by apply Z.land_nonneg; right.
Qed.

(** *** Opening checks permissions, unless the attributes are cached *)

(** Without an attribute cache, an inode is opened only for a caller with
    the access the open flags ask for; an immutable file is never opened for
    writing, an append-only one only in append mode and never truncated; on a
    read-only mount no open may write. *)
Theorem open_inode_checked w ctx i oflags e a e' :
  open_cache (config e) = 0 -> open_inode w ctx i oflags e = (Ok a, e') ->
  exists at0 mask, fs_attr (view (backend e)) i = Some at0 /\ open_mask oflags = Ok mask /\
    check_access ctx at0 mask = Ok () /\
    (any_bit oflags (Z.lor O_WRONLY O_RDWR) = true -> is_immutable at0 = false /\
       (is_append_only at0 = true -> any_bit oflags O_APPEND = true) /\ read_only (config e) = false) /\
    (is_append_only at0 = true -> any_bit oflags O_TRUNC = false).
Proof.
  intros Hc H. unfold open_inode in H.
  apply eng_bind_Ok in H as (ro & e0 & [-> ->]%gets_Ok & H).
  apply eng_bind_Ok in H as ([] & e0 & [Hro ->]%lift_Ok & H). apply ensure_Ok in Hro.
  unfold mbind at 1 in H. apply (eng_bind_Ok (A:=option InodeAttr)) in H as (ca & e0 & Hca & H).
  rewrite Hc in Hca. injection Hca as <- <-.
  apply eng_bind_Ok in H as (at0 & e0 & Hg & H). unfold from_backend in Hg. injection Hg as Hg <-.
  apply eng_bind_Ok in H as ([] & e0 & [Hck ->]%lift_Ok & _).
  apply view_attr in Hg. unfold open_checks in Hck.
  apply bind_Ok in Hck as (mask & Hm & Hck). apply bind_Ok in Hck as ([] & Hacc & Hck).
  apply bind_Ok in Hck as (f & Hf & Hck). cbv zeta in Hck.
  apply bind_Ok in Hck as ([] & Him & Hck). apply ensure_Ok in Him.
  pose proof (open_flags_of at0 f Hf) as [Hi Ha]. rewrite Hi, Ha in *.
  exists at0, mask. split_and!; try done.
  - intros Hw. rewrite Hw in *. rewrite andb_true_r in Him. to_prop. split; [done|]. split.
    + intros Hap. rewrite Hap in Hck. apply bind_Ok in Hck as ([] & Hx & _). apply ensure_Ok in Hx.
      simpl in Hx. by rewrite negb_involutive in Hx.
    + apply andb_false_iff in Hro as [?|Hro]; [done|].
      unfold any_bit in *. to_prop.
      assert (Z.land oflags (Z.lor O_WRONLY O_RDWR) = 0); [|done].
      rewrite Z.land_lor_distr_r in Hro. by apply Z.lor_eq_0_l in Hro.
  - intros Hap. rewrite Hap in Hck. apply bind_Ok in Hck as ([] & _ & Hck). inv_ok. by to_prop.
Qed.

(** *** Listing with attributes *)

(** A listing with attributes reports the directory's own inode number for
    every entry, next to the attributes of the entry's inode. *)
Theorem read_dir_plus_inode i l e es e' :
  read_dir_entries i true l e = (Ok es, e') -> Forall (fun en => get_inode en = i) es.
Proof.
  revert es e. induction l as [|de l IH]; intros es e H; simpl in H.
  - by injection H as <- <-.
  - apply eng_bind_Ok in H as (en & e1 & H1 & H). apply eng_bind_Ok in H as (rest & e2 & H2 & H).
    injection H as <- <-. apply eng_bind_Ok in H1 as (a & e3 & _ & H1). injection H1 as <- <-.
    constructor; [done|by eapply IH].
Qed.
End engine_thms.

(** ** On concrete volumes *)

Lemma ref_e0_inv : EngInv ref_e0 /\ room ref_e0.
Proof.
  split.
  - apply (format_open_inv good_env 1 empty_db format_default false ref_db ref_config);
      [apply empty_blank|reflexivity|reflexivity|vm_compute; reflexivity].
  - intros v Hv. vm_compute in Hv. injection Hv as <-. lia.
Qed.

Lemma merge_attr_authority_witness :
  exists d n, merge_attr user_ctx SA_MODE (ref_attr RegularFile 1) (set_mode 0x9ED (ref_attr RegularFile 1)) 9
    = Err (LibcError EPERM) /\
  merge_attr root_ctx (Z.lor SA_MODE SA_UID) (ref_attr RegularFile 1)
    (set_mode 0x1FF (set_uid 1000 (ref_attr RegularFile 1))) 9 = Ok (d, n) /\
  uid d = 1000 /\ same_node (ref_attr RegularFile 1) d.
Proof.
  eexists _, _. split; [reflexivity|].
  match goal with |- ?m = Ok (?d, ?n) /\ _ => assert (Hrun : m = Ok (d, n)) by reflexivity end.
  split; [exact Hrun|]. split; [reflexivity|]. by apply merge_attr_authority in Hrun as (H & _).
Defined.

(** An engine with a regular file "f" (inode 2) under the root. *)
Definition ref_f : MetaEngine :=
  (mknod (ref_world 10) root_ctx 1 "f" RegularFile 0x1FF 0 0 "" ref_e0).2.
Definition ref_f_attr : InodeAttr :=
  stamped 12 (new_node_attr 10 root_ctx 1 RegularFile 0x1FF 0 0 "").
Definition ref_fw : MetaEngine := (write_slice (ref_world 20) 2 0 0 (Owned 0 7 5 0) ref_f).2.

Lemma mknod_then_lookup_witness : (lookup (ref_world 20) user_ctx 1 "f" false ref_f).1 = Ok (2, ref_f_attr).
Proof.
  assert (Hrun : mknod (ref_world 10) root_ctx 1 "f" RegularFile 0x1FF 0 0 "" ref_e0
    = (Ok (2, ref_f_attr), ref_f)).
  { apply injective_projections; [vm_compute; reflexivity|reflexivity]. }
  apply (mknod_then_lookup _ (ref_world 20) _ user_ctx) in Hrun as (_ & _ & H);
    [exact H|apply ref_e0_inv|apply ref_e0_inv|lia|done|done].
Defined.

Lemma ref_f_holds : holds (backend ref_f) 2 0 [].
Proof. split; [|constructor]. vm_compute. reflexivity. Qed.

Lemma write_then_read_witness :
  (read_slice (ref_world 30) 2 0 ref_fw).1 = Ok (Some [Owned 0 7 5 0]).
Proof.
  assert (Hrun : write_slice (ref_world 20) 2 0 0 (Owned 0 7 5 0) ref_f = (Ok (), ref_fw)).
  { apply injective_projections; [vm_compute; reflexivity|reflexivity]. }
  apply (write_then_read _ (ref_world 30) _ _ _ _ []) in Hrun as (e2 & H & _);
    [by rewrite H|reflexivity|apply ref_f_holds|].
  intros f Hf. vm_compute in Hf. discriminate Hf.
Defined.

Lemma update_format_keeps_layout_witness :
  update_format good_env 5 ref_db (mkFormat "x" 1 2 3 None None) true
    = (Err (IncompatibleFormat ChunkSize (chunk_size format_default) 1), ref_db) /\
  load_format ref_db = Ok format_default.
Proof.
  assert (Hl : load_format ref_db = Ok format_default) by (vm_compute; reflexivity).
  split; [|exact Hl].
  destruct (update_format good_env 5 ref_db (mkFormat "x" 1 2 3 None None) true) as [r db] eqn:Hrun.
  pose proof (update_format_keeps_layout _ _ _ _ _ _ _ _ Hl Hrun) as (_ & H & _).
  destruct H as [_ ->]; [vm_compute; discriminate|]. f_equal.
  change r with (r, ref_db).1. rewrite <- Hrun. vm_compute. reflexivity.
Defined.

Lemma open_inode_checked_witness :
  (open_inode (ref_world 30) user_ctx 2 O_RDWR ref_f).1 = Ok (set_keep_cache true ref_f_attr) /\
  check_access user_ctx ref_f_attr (Z.lor MODE_MASK_W MODE_MASK_R) = Ok ().
Proof.
  assert (H1 : (open_inode (ref_world 30) user_ctx 2 O_RDWR ref_f).1 = Ok (set_keep_cache true ref_f_attr))
    by (vm_compute; reflexivity).
  split; [exact H1|].
  destruct (open_inode (ref_world 30) user_ctx 2 O_RDWR ref_f) as [r e] eqn:Hrun. simpl in H1. subst r.
  apply open_inode_checked in Hrun as (a & mask & Ha & Hm & Hc & _); [|reflexivity].
  assert (Ha' : fs_attr (view (backend ref_f)) 2 = Some ref_f_attr) by (vm_compute; reflexivity).
  rewrite Ha' in Ha. injection Ha as <-. injection Hm as <-. exact Hc.
Defined.

(** Create, write five bytes, truncate to nothing: the file keeps its length. *)
Example truncate_after_write_lost :
  let e := (create (ref_world 10) root_ctx 1 "f" 0x1FF 0 ref_e0).2 in
  let e := (write_slice (ref_world 20) 2 0 0 (Owned 0 7 5 0) e).2 in
  let '(r, e) := truncate (ref_world 30) root_ctx 2 0 false e in
  is_ok r = true /\ (attr_length <$> fs_attr (view (backend e)) 2) = Some 5.
Proof. vm_compute. done. Qed.
