(* ===== verification/Pool.v ===== *)
(** * The page pools (components/storage/src/pool)

    A page is a buffer of [page_size] bytes.  The memory pool owns a queue of
    buffers and clears a buffer when its page is dropped; the disk pool owns a
    queue of page numbers into one memory-mapped file; the hybrid pool serves a
    page from memory first.  The pool is shared by all buffers of a mount, so
    every operation takes it and gives it back.

    [pool_wf p ps]: the pool is consistent and [ps] are the pages handed out.
    Dropping a [Page] is the explicit step [page_drop]. *)

From S2P Require Import Prelude Common.

(** ** Errors of the storage layer (storage/src/err.rs) *)

Inductive StorageError :=
| ObjectStorageError (not_found : bool)
| CacheError
| UnknownIOError
| JoinErr
| FlushBlockFailed
| InvalidSliceBufferWriteOffset
| InvalidRange (subject : string) (offset length bound : Z)
| InvalidPagePoolConfig (page_size capacity : Z)
| MissingDiskPagePoolPath
| PagePoolExhausted
| UnexpectedLength (subject : string) (expected actual : Z)
| DiskPoolMmapError
| ErrStageNoMoreSpace.

Abbreviation SResult := (outcome StorageError).

Definition storage_not_found (e : StorageError) : bool :=
  match e with ObjectStorageError nf => nf | _ => false end.

Definition storage_no_space (e : StorageError) : bool :=
  match e with PagePoolExhausted | ErrStageNoMoreSpace => true | _ => false end.

(** [capacity.is_multiple_of(page_size)], with both non-zero. *)
Definition validate_page_pool_config (page_size capacity : Z) : SResult () :=
  if (page_size =? 0) || (capacity =? 0) || negb (capacity `mod` page_size =? 0)
  then Err (InvalidPagePoolConfig page_size capacity) else Ok ().

(** ** The memory pool *)

Record MemoryPagePool := mkMemPool {
  mp_page_size : Z;
  mp_capacity : Z;
  mp_queue : list bytes
}.

Definition mp_total_page_cnt (p : MemoryPagePool) : Z := mp_capacity p / mp_page_size p.
Definition mp_remain_page_cnt (p : MemoryPagePool) : Z := zlen (mp_queue p).

Definition memory_pool_new (page_size capacity : Z) : SResult MemoryPagePool :=
  _ ← validate_page_pool_config page_size capacity;
  Ok (mkMemPool page_size capacity (replicate (Z.to_nat (capacity / page_size)) (zeros page_size))).

Definition mp_try_acquire_page (p : MemoryPagePool) : option (bytes * MemoryPagePool) :=
  match mp_queue p with
  | [] => None
  | b :: q => Some (b, mkMemPool (mp_page_size p) (mp_capacity p) q)
  end.

(** [ArrayQueue::push] fails on a full queue; the buffer is then freed. *)
Definition mp_recycle (buffer : bytes) (p : MemoryPagePool) : MemoryPagePool :=
  if mp_remain_page_cnt p <? mp_total_page_cnt p
  then mkMemPool (mp_page_size p) (mp_capacity p) (mp_queue p ++ [zeros (zlen buffer)])
  else p.

(** ** The disk pool *)

Record DiskPagePool := mkDiskPool {
  dp_page_size : Z;
  dp_capacity : Z;
  dp_queue : list Z;
  dp_file : bytes
}.

Definition dp_total_page_cnt (p : DiskPagePool) : Z := dp_capacity p / dp_page_size p.
Definition dp_remain_page_cnt (p : DiskPagePool) : Z := zlen (dp_queue p).

(** [mmap_ok]: creating and truncating the file succeeds; it is then all zero. *)
Definition disk_pool_new (mmap_ok : bool) (page_size capacity : Z) : SResult DiskPagePool :=
  _ ← validate_page_pool_config page_size capacity;
  _ ← ensure mmap_ok DiskPoolMmapError;
  Ok (mkDiskPool page_size capacity (seqZ 0 (capacity / page_size)) (zeros capacity)).

Definition dp_try_acquire_page (p : DiskPagePool) : option (Z * DiskPagePool) :=
  match dp_queue p with
  | [] => None
  | i :: q => Some (i, mkDiskPool (dp_page_size p) (dp_capacity p) q (dp_file p))
  end.

(** The page number goes back as it is: [push(..).unwrap()]. *)
Definition dp_release (i : Z) (p : DiskPagePool) : SResult DiskPagePool :=
  if dp_remain_page_cnt p <? dp_total_page_cnt p
  then Ok (mkDiskPool (dp_page_size p) (dp_capacity p) (dp_queue p ++ [i]) (dp_file p))
  else Panic.

(** ** The hybrid pool *)

Record HybridPagePool := mkPool {
  hp_page_size : Z;
  hp_memory_capacity : Z;
  hp_disk_capacity : Z;
  hp_total_page_cnt : Z;
  hp_memory : MemoryPagePool;
  hp_disk : option DiskPagePool
}.

Inductive Page := PMemory (buffer : bytes) | PDisk (page_id : Z).

(** [PagePoolBuilder::build]; [path] tells whether a disk path was given. *)
Definition pool_build (mmap_ok : bool) (page_size memory_capacity : Z) (disk_capacity : option Z)
    (path : bool) : SResult HybridPagePool :=
  _ ← validate_page_pool_config page_size memory_capacity;
  let cnt := memory_capacity / page_size in
  mem ← memory_pool_new page_size memory_capacity;
  match disk_capacity with
  | Some dc =>
      _ ← validate_page_pool_config page_size dc;
      _ ← ensure path MissingDiskPagePoolPath;
      disk ← disk_pool_new mmap_ok page_size dc;
      Ok (mkPool page_size memory_capacity dc (cnt + dc / page_size) mem (Some disk))
  | None => Ok (mkPool page_size memory_capacity 0 cnt mem None)
  end.

Definition set_memory (m : MemoryPagePool) (p : HybridPagePool) : HybridPagePool :=
  mkPool (hp_page_size p) (hp_memory_capacity p) (hp_disk_capacity p) (hp_total_page_cnt p) m (hp_disk p).
Definition set_disk (d : DiskPagePool) (p : HybridPagePool) : HybridPagePool :=
  mkPool (hp_page_size p) (hp_memory_capacity p) (hp_disk_capacity p) (hp_total_page_cnt p) (hp_memory p) (Some d).

Definition try_acquire_page (p : HybridPagePool) : option (Page * HybridPagePool) :=
  match mp_try_acquire_page (hp_memory p) with
  | Some (b, m) => Some (PMemory b, set_memory m p)
  | None =>
      match hp_disk p with
      | Some d =>
          match dp_try_acquire_page d with
          | Some (i, d) => Some (PDisk i, set_disk d p)
          | None => None
          end
      | None => None
      end
  end.

(** One turn of [acquire_page]: [None] waits for a notification. *)
Definition acquire_page_poll (p : HybridPagePool) : option (Page * HybridPagePool) :=
  match (if 0 <? mp_remain_page_cnt (hp_memory p) then try_acquire_page p else None) with
  | Some r => Some r
  | None =>
      match hp_disk p with
      | Some d =>
          match dp_try_acquire_page d with
          | Some (i, d) => Some (PDisk i, set_disk d p)
          | None => None
          end
      | None =>
          match mp_try_acquire_page (hp_memory p) with
          | Some (b, m) => Some (PMemory b, set_memory m p)
          | None => None
          end
      end
  end.

Definition hp_remain (p : HybridPagePool) : Z :=
  mp_remain_page_cnt (hp_memory p) +
  match hp_disk p with Some d => dp_remain_page_cnt d | None => 0 end.

(** [Drop for Page] *)
Definition page_drop (pg : Page) (p : HybridPagePool) : SResult HybridPagePool :=
  match pg, hp_disk p with
  | PMemory b, _ => Ok (set_memory (mp_recycle b (hp_memory p)) p)
  | PDisk i, Some d => d ← dp_release i d; Ok (set_disk d p)
  | PDisk _, None => Panic
  end.

(** ** Page contents *)

(** The bytes of a page: its own buffer, or its part of the pool's file. *)
Definition page_bytes (p : HybridPagePool) (pg : Page) : bytes :=
  match pg, hp_disk p with
  | PMemory b, _ => b
  | PDisk i, Some d => sublist (i * dp_page_size d) (dp_page_size d) (dp_file d)
  | PDisk _, None => []
  end.

Definition checked_range (subject : string) (offset length bound : Z) : SResult () :=
  match checked_add64 offset length with
  | Some e => if e <=? bound then Ok () else Err (InvalidRange subject offset length bound)
  | None => Err (InvalidRange subject offset length bound)
  end.

Definition page_bound (p : HybridPagePool) (pg : Page) : string * Z :=
  match pg, hp_disk p with
  | PMemory b, _ => ("memory page", zlen b)
  | PDisk _, Some d => ("disk page", dp_page_size d)
  | PDisk _, None => ("disk page", 0)
  end.

(** [copy_to_writer]: the bytes it hands to the writer. *)
Definition copy_to_writer (p : HybridPagePool) (pg : Page) (offset length : Z) : SResult bytes :=
  let '(subject, bound) := page_bound p pg in
  _ ← checked_range subject offset length bound;
  Ok (sublist offset length (page_bytes p pg)).

(** [copy_from_reader], with a reader that holds exactly [src]. *)
Definition copy_from_reader (p : HybridPagePool) (pg : Page) (offset : Z) (src : bytes)
    : SResult (Page * HybridPagePool) :=
  let '(subject, bound) := page_bound p pg in
  _ ← checked_range subject offset (zlen src) bound;
  match pg, hp_disk p with
  | PMemory b, _ => Ok (PMemory (splice offset src b), p)
  | PDisk i, Some d =>
      Ok (PDisk i, set_disk (mkDiskPool (dp_page_size d) (dp_capacity d) (dp_queue d)
        (splice (i * dp_page_size d + offset) src (dp_file d))) p)
  | PDisk _, None => Panic
  end.

(** ** Consistency *)

Definition mem_pages (ps : list Page) : list bytes :=
  omap (fun pg => match pg with PMemory b => Some b | PDisk _ => None end) ps.
Definition disk_ids (ps : list Page) : list Z :=
  omap (fun pg => match pg with PMemory _ => None | PDisk i => Some i end) ps.

Definition disk_total (p : HybridPagePool) : Z :=
  match hp_disk p with Some d => dp_total_page_cnt d | None => 0 end.

(** The disk pool: every page number is either free or handed out, once. *)
Definition disk_wf (sz : Z) (d : DiskPagePool) (ids : list Z) : Prop :=
  dp_page_size d = sz /\ 0 <= dp_total_page_cnt d /\
  dp_queue d ++ ids ≡ₚ seqZ 0 (dp_total_page_cnt d) /\
  zlen (dp_file d) = dp_total_page_cnt d * sz.

Record pool_wf (p : HybridPagePool) (ps : list Page) : Prop := {
  pw_size : 0 < hp_page_size p < 2 ^ 64;
  pw_mem_size : mp_page_size (hp_memory p) = hp_page_size p;
  pw_zero : Forall (fun b => b = zeros (hp_page_size p)) (mp_queue (hp_memory p));
  pw_len : Forall (fun b => zlen b = hp_page_size p) (mem_pages ps);
  pw_cnt : zlen (mp_queue (hp_memory p)) + zlen (mem_pages ps) = mp_total_page_cnt (hp_memory p);
  pw_disk : match hp_disk p with
            | Some d => disk_wf (hp_page_size p) d (disk_ids ps)
            | None => disk_ids ps = []
            end;
  pw_total : hp_total_page_cnt p = mp_total_page_cnt (hp_memory p) + disk_total p
}.

#[export] Instance mem_pages_proper : Proper (Permutation ==> Permutation) mem_pages.
Proof. intros l1 l2 H. unfold mem_pages. by rewrite H. Qed.
#[export] Instance disk_ids_proper : Proper (Permutation ==> Permutation) disk_ids.
Proof. intros l1 l2 H. unfold disk_ids. by rewrite H. Qed.

Lemma zlen_perm {A} (l1 l2 : list A) : l1 ≡ₚ l2 -> zlen l1 = zlen l2.
Proof. intros H. unfold zlen. by rewrite H. Qed.

(** The order of the handed-out pages does not matter. *)
#[export] Instance pool_wf_proper p : Proper (Permutation ==> iff) (pool_wf p).
Proof.
  assert (Himp : forall l1 l2, l1 ≡ₚ l2 -> pool_wf p l1 -> pool_wf p l2); [|by split; apply Himp].
  intros l1 l2 H [H1 H2 H3 H4 H5 H6 H7]. constructor; try done.
  - by rewrite <- H.
  - rewrite <- (zlen_perm _ _ (mem_pages_proper _ _ H)). done.
  - destruct (hp_disk p) as [d|].
    + destruct H6 as (? & ? & ? & ?). unfold disk_wf. by rewrite <- H.
    + apply Permutation_nil. by rewrite <- H, H6.
Qed.

Lemma mem_pages_cons pg ps :
  mem_pages (pg :: ps) = match pg with PMemory b => b :: mem_pages ps | PDisk _ => mem_pages ps end.
Proof. by destruct pg. Qed.
Lemma disk_ids_cons pg ps :
  disk_ids (pg :: ps) = match pg with PMemory _ => disk_ids ps | PDisk i => i :: disk_ids ps end.
Proof. by destruct pg. Qed.
Lemma zlen_cons {A} (x : A) l : zlen (x :: l) = 1 + zlen l.
Proof. unfold zlen. simpl. lia. Qed.

Lemma pages_split ps : zlen ps = zlen (mem_pages ps) + zlen (disk_ids ps).
Proof.
  induction ps as [|pg ps IH]; [done|]. rewrite mem_pages_cons, disk_ids_cons, zlen_cons.
  destruct pg; rewrite zlen_cons; lia.
Qed.

Lemma zlen_seqZ m n : 0 <= n -> zlen (seqZ m n) = n.
Proof. intros H. unfold zlen. rewrite length_seqZ. lia. Qed.

(** Free and handed-out pages add up to the pool. *)
Lemma pool_accounting p ps : pool_wf p ps -> hp_remain p + zlen ps = hp_total_page_cnt p.
Proof.
  intros [_ _ _ _ Hc Hd Ht]. rewrite Ht, pages_split.
  unfold hp_remain, mp_remain_page_cnt, disk_total in *.
  destruct (hp_disk p) as [d|]; [|rewrite Hd in *; change (zlen []) with 0; lia].
  destruct Hd as (_ & Hn & Hperm & _). apply zlen_perm in Hperm.
  rewrite zlen_app, zlen_seqZ in Hperm by done. unfold dp_remain_page_cnt. lia.
Qed.

(** Acquiring hands out one more page; no page changes. *)
Lemma acquire_wf p ps pg p' :
  pool_wf p ps -> try_acquire_page p = Some (pg, p') ->
  pool_wf p' (pg :: ps) /\ (forall q, page_bytes p' q = page_bytes p q) /\
  hp_page_size p' = hp_page_size p /\ zlen (page_bytes p' pg) = hp_page_size p.
Proof.
  intros [H1 H2 H3 H4 H5 H6 H7] H. unfold try_acquire_page, mp_try_acquire_page in H.
  destruct (mp_queue (hp_memory p)) as [|b q] eqn:Hq.
  - destruct (hp_disk p) as [d|] eqn:Hdk; [|done]. unfold dp_try_acquire_page in H.
    destruct (dp_queue d) as [|i q] eqn:Hdq; [done|]. injection H as <- <-.
    destruct H6 as (Hs & Hn & Hp & Hf).
    assert (Hi : 0 <= i < dp_total_page_cnt d).
    { apply elem_of_seqZ with (m := 0). rewrite <- Hp, Hdq. left. }
    split_and!; [|intros [|]; simpl; by rewrite ?Hdk|done|].
    + constructor; simpl; rewrite ?Hq; try done; [|by unfold disk_total in *; rewrite Hdk in H7].
      unfold disk_wf, dp_total_page_cnt in *. simpl. split_and!; [done|done| |done].
      rewrite <- Permutation_middle, <- Hp, Hdq. done.
    + simpl. rewrite Hs. rewrite zlen_sublist; nia.
  - injection H as <- <-. apply Forall_cons in H3 as [-> H3].
    split_and!; [|by intros []|done|apply zlen_zeros; lia].
    constructor; simpl; try done.
    + constructor; [apply zlen_zeros; lia|done].
    + rewrite zlen_cons. rewrite zlen_cons in H5. fold (mem_pages ps). unfold mp_total_page_cnt in *. simpl. lia.
Qed.

(** A page from memory comes zeroed. *)
Lemma acquire_memory_zero p ps b p' :
  pool_wf p ps -> try_acquire_page p = Some (PMemory b, p') -> b = zeros (hp_page_size p).
Proof.
  intros Hw H. unfold try_acquire_page, mp_try_acquire_page in H. pose proof (pw_zero _ _ Hw) as Hz.
  destruct (mp_queue (hp_memory p)) as [|b' q].
  - destruct (hp_disk p) as [d|]; [|done]. by destruct (dp_try_acquire_page d) as [[]|].
  - injection H as <- <-. by apply Forall_cons in Hz as [-> _].
Qed.

(** Every free page is zero: always so in memory. *)
Definition clean (p : HybridPagePool) : Prop :=
  match hp_disk p with
  | Some d => Forall (fun i => sublist (i * dp_page_size d) (dp_page_size d) (dp_file d)
                                 = zeros (hp_page_size p)) (dp_queue d)
  | None => True
  end.

Lemma acquire_clean p ps pg p' :
  pool_wf p ps -> clean p -> try_acquire_page p = Some (pg, p') ->
  clean p' /\ page_bytes p' pg = zeros (hp_page_size p).
Proof.
  intros Hw Hc H. destruct pg as [b|i].
  - pose proof H as Hz. apply (acquire_memory_zero p ps) in Hz as ->; [|done]. split; [|done].
    unfold try_acquire_page in H. destruct (mp_try_acquire_page _) as [[]|].
    + by injection H as _ <-.
    + destruct (hp_disk p) as [d|]; [|done]. by destruct (dp_try_acquire_page d) as [[]|].
  - unfold try_acquire_page in H. destruct (mp_try_acquire_page _) as [[]|]; [done|].
    unfold clean in Hc. destruct (hp_disk p) as [d|]; [|done]. unfold dp_try_acquire_page in H.
    destruct (dp_queue d) as [|j q]; [done|]. injection H as <- <-.
    apply Forall_cons in Hc as [Hj Hc]. by split.
Qed.

(** An acquisition fails only when every page is handed out. *)
Lemma acquire_None p ps : pool_wf p ps -> try_acquire_page p = None <-> hp_remain p = 0.
Proof.
  intros _. unfold try_acquire_page, mp_try_acquire_page, hp_remain, mp_remain_page_cnt.
  destruct (mp_queue (hp_memory p)) as [|b q].
  - change (zlen (A:=bytes) []) with 0. destruct (hp_disk p) as [d|]; [|done].
    unfold dp_try_acquire_page, dp_remain_page_cnt. destruct (dp_queue d); [done|].
    rewrite zlen_cons. pose proof (zlen_nonneg l). split; [done|lia].
  - rewrite zlen_cons. pose proof (zlen_nonneg q). split; [done|].
    destruct (hp_disk p) as [d|]; [|lia]. unfold dp_remain_page_cnt.
    pose proof (zlen_nonneg (dp_queue d)). lia.
Qed.

(** Dropping a page never panics and takes it back. *)
Lemma remain_nonneg p ps : pool_wf p ps -> 0 <= hp_remain p.
Proof.
  intros _. unfold hp_remain, mp_remain_page_cnt, dp_remain_page_cnt.
  pose proof (zlen_nonneg (mp_queue (hp_memory p))). destruct (hp_disk p) as [d|]; simpl; [|lia].
  pose proof (zlen_nonneg (dp_queue d)). lia.
Qed.

Lemma acquire_remain p ps pg p' :
  pool_wf p ps -> try_acquire_page p = Some (pg, p') -> hp_remain p' = hp_remain p - 1.
Proof.
  intros Hw Ha. destruct (acquire_wf _ _ _ _ Hw Ha) as (Hw' & _).
  pose proof (pool_accounting _ _ Hw). pose proof (pool_accounting _ _ Hw') as H'.
  assert (hp_total_page_cnt p' = hp_total_page_cnt p).
  { unfold try_acquire_page in Ha. repeat case_match; simplify_eq; done. }
  rewrite zlen_cons in H'. lia.
Qed.

Lemma drop_wf p ps pg :
  pool_wf p (pg :: ps) ->
  exists p', page_drop pg p = Ok p' /\ pool_wf p' ps /\ (forall q, page_bytes p' q = page_bytes p q) /\
    hp_page_size p' = hp_page_size p.
Proof.
  intros [H1 H2 H3 H4 H5 H6 H7]. rewrite mem_pages_cons in *. rewrite disk_ids_cons in *.
  destruct pg as [b|i]; simpl.
  - apply Forall_cons in H4 as [Hb H4]. rewrite zlen_cons in H5. eexists. split; [reflexivity|].
    unfold mp_recycle. pose proof (zlen_nonneg (mem_pages ps)).
    unfold mp_remain_page_cnt. rewrite (proj2 (Z.ltb_lt _ _)) by lia.
    split_and!; [|by intros []|done]. constructor; simpl; try done.
    + apply Forall_app. split; [done|]. constructor; [by rewrite Hb|constructor].
    + rewrite zlen_app. change (zlen [_]) with 1. unfold mp_total_page_cnt in *. simpl in *. lia.
  - destruct (hp_disk p) as [d|] eqn:Hd; [|done]. destruct H6 as (Hs & Hn & Hp & Hf).
    assert (Hlen : dp_remain_page_cnt d < dp_total_page_cnt d).
    { apply zlen_perm in Hp. rewrite zlen_app, zlen_cons, zlen_seqZ in Hp by done.
      pose proof (zlen_nonneg (disk_ids ps)). unfold dp_remain_page_cnt. lia. }
    unfold dp_release. rewrite (proj2 (Z.ltb_lt _ _)) by done. simpl. eexists. split; [reflexivity|].
    split_and!; [|intros [|]; simpl; by rewrite ?Hd|done].
    constructor; simpl; try done.
    + unfold disk_wf, dp_total_page_cnt in *. simpl. split_and!; [done|done| |done].
      rewrite <- app_assoc. exact Hp.
    + unfold disk_total in *. rewrite Hd in H7. done.
Qed.

(** *** Reading and writing a page *)

Lemma page_len p ps pg : pool_wf p ps -> pg ∈ ps -> zlen (page_bytes p pg) = hp_page_size p.
Proof.
  intros [H1 H2 H3 H4 H5 H6 H7] Hin. destruct pg as [b|i]; simpl.
  - rewrite Forall_forall in H4. apply H4, list_elem_of_omap. by exists (PMemory b).
  - assert (Hi : i ∈ disk_ids ps) by (apply list_elem_of_omap; by exists (PDisk i)).
    destruct (hp_disk p) as [d|]; [|by rewrite H6 in Hi; apply not_elem_of_nil in Hi].
    destruct H6 as (Hs & Hn & Hp & Hf).
    assert (Hr : 0 <= i < dp_total_page_cnt d).
    { apply elem_of_seqZ with (m := 0). rewrite <- Hp. apply elem_of_app. by right. }
    rewrite Hs. rewrite zlen_sublist; nia.
Qed.

Lemma page_bound_len p ps pg : pool_wf p ps -> pg ∈ ps -> (page_bound p pg).2 = hp_page_size p.
Proof.
  intros Hw Hin. pose proof (page_len _ _ _ Hw Hin) as Hl. destruct pg as [b|i]; simpl in *; [done|].
  pose proof (pw_disk _ _ Hw) as Hd. destruct (hp_disk p) as [d|]; simpl in *; [apply Hd|].
  assert (Hi : i ∈ disk_ids ps) by (apply list_elem_of_omap; by exists (PDisk i)).
  rewrite Hd in Hi. by apply not_elem_of_nil in Hi.
Qed.

Lemma checked_range_Ok s off len bound :
  0 <= off -> 0 <= len -> bound < 2 ^ 64 ->
  checked_range s off len bound = Ok () <-> off + len <= bound.
Proof.
  intros Ho Hl Hb. unfold checked_range, checked_add64.
  destruct (off + len <? 2 ^ 64) eqn:E; [destruct (off + len <=? bound) eqn:E2|]; to_prop;
    split; intros H; try done; lia.
Qed.

(** An access to a handed-out page succeeds exactly when it stays inside it. *)
Lemma copy_to_writer_spec p ps pg off len :
  pool_wf p ps -> pg ∈ ps -> 0 <= off -> 0 <= len -> off + len <= hp_page_size p ->
  copy_to_writer p pg off len = Ok (sublist off len (page_bytes p pg)).
Proof.
  intros Hw Hin Ho Hl Hb. unfold copy_to_writer.
  pose proof (page_bound_len _ _ _ Hw Hin) as He. destruct (page_bound p pg) as [s bound]. simpl in He.
  subst bound. rewrite (proj2 (checked_range_Ok s off len _ Ho Hl (proj2 (pw_size _ _ Hw)))) by done.
  done.
Qed.

Lemma sublist_splice_in i n off (src l : bytes) :
  0 <= i -> 0 <= off -> off + zlen src <= n -> i + n <= zlen l ->
  sublist i n (splice (i + off) src l) = splice off src (sublist i n l).
Proof.
  intros Hi Ho Hs Hl. pose proof (zlen_nonneg src).
  assert (Hn : zlen (sublist i n l) = n) by (apply zlen_sublist; lia).
  apply bytes_ext.
  - rewrite zlen_sublist, zlen_splice; rewrite ?Hn; rewrite ?zlen_splice; lia.
  - intros k Hk. rewrite zlen_sublist in Hk by (rewrite ?zlen_splice; lia).
    rewrite bget_sublist, !bget_splice by (rewrite ?Hn; lia).
    rewrite bget_sublist by lia.
    destruct (i + off <=? i + k) eqn:E1, (off <=? k) eqn:E2, (i + k <? i + off + zlen src) eqn:E3,
      (k <? off + zlen src) eqn:E4; to_prop; try lia; simpl; try done. f_equal. lia.
Qed.

Lemma sublist_splice_out i n off (src l : bytes) :
  0 <= i -> 0 <= n -> 0 <= off -> off + zlen src <= zlen l -> i + n <= zlen l ->
  off + zlen src <= i \/ i + n <= off ->
  sublist i n (splice off src l) = sublist i n l.
Proof.
  intros Hi Hn Ho Hs Hl Hd. pose proof (zlen_nonneg src). apply bytes_ext.
  - rewrite !zlen_sublist; rewrite ?zlen_splice; lia.
  - intros k Hk. rewrite zlen_sublist in Hk by (rewrite ?zlen_splice; lia).
    rewrite !bget_sublist, bget_splice by lia.
    destruct (off <=? i + k) eqn:E1, (i + k <? off + zlen src) eqn:E2; to_prop; try lia; done.
Qed.

Lemma copy_from_reader_spec p ps pg off src :
  pool_wf p (pg :: ps) -> 0 <= off -> off + zlen src <= hp_page_size p ->
  exists pg' p', copy_from_reader p pg off src = Ok (pg', p') /\
    pool_wf p' (pg' :: ps) /\ hp_page_size p' = hp_page_size p /\
    page_bytes p' pg' = splice off src (page_bytes p pg) /\
    (forall q, q ∈ ps -> page_bytes p' q = page_bytes p q).
Proof.
  intros Hw Ho Hs. pose proof (zlen_nonneg src) as Hsrc.
  assert (Hin : pg ∈ pg :: ps) by left.
  pose proof (page_bound_len _ _ _ Hw Hin) as He. pose proof (page_len _ _ _ Hw Hin) as Hlen.
  unfold copy_from_reader. destruct (page_bound p pg) as [s bound]. simpl in He. subst bound.
  rewrite (proj2 (checked_range_Ok s off (zlen src) _ Ho Hsrc (proj2 (pw_size _ _ Hw)))) by done.
  cbn [mbind outcome_bind]. destruct Hw as [H1 H2 H3 H4 H5 H6 H7].
  destruct pg as [b|i].
  - eexists _, _. split; [reflexivity|]. rewrite mem_pages_cons in *. simpl in Hlen.
    split_and!; try done. constructor; try done. rewrite mem_pages_cons.
    apply Forall_cons in H4 as [_ H4]. constructor; [rewrite zlen_splice; lia|done].
  - destruct (hp_disk p) as [d|] eqn:Hd; [|done]. eexists _, _. split; [reflexivity|].
    destruct H6 as (Hsz & Hn & Hp & Hf). rewrite disk_ids_cons in Hp.
    assert (Hr : 0 <= i < dp_total_page_cnt d).
    { apply elem_of_seqZ with (m := 0). rewrite <- Hp. apply elem_of_app. right. left. }
    split_and!; [|done| |].
    + constructor; simpl; try done; [|by unfold disk_total in *; rewrite Hd in H7].
      unfold disk_wf, dp_total_page_cnt in *. simpl. split_and!; [done|done|done|].
      rewrite zlen_splice; nia.
    + simpl. rewrite Hd, Hsz. apply sublist_splice_in; nia.
    + intros [b|j] Hq; simpl; rewrite ?Hd; [done|]. rewrite Hsz.
      assert (Hj : j ∈ disk_ids ps) by (apply list_elem_of_omap; by exists (PDisk j)).
      assert (Hjr : 0 <= j < dp_total_page_cnt d).
      { apply elem_of_seqZ with (m := 0). rewrite <- Hp. apply elem_of_app. right. by right. }
      assert (Hne : i <> j).
      { intros <-. pose proof (NoDup_seqZ 0 (dp_total_page_cnt d)) as Hnd. rewrite <- Hp in Hnd.
        apply NoDup_app in Hnd as (_ & _ & Hnd). by apply NoDup_cons in Hnd as [? _]. }
      apply sublist_splice_out; nia.
Qed.

(** ** Runs *)

(** One operation on a pool and the pages handed out. *)
Inductive pool_step : HybridPagePool * list Page -> HybridPagePool * list Page -> Prop :=
| ps_acquire p ps pg p' : try_acquire_page p = Some (pg, p') -> pool_step (p, ps) (p', pg :: ps)
| ps_poll p ps pg p' : acquire_page_poll p = Some (pg, p') -> pool_step (p, ps) (p', pg :: ps)
| ps_drop p ps1 pg ps2 p' :
    page_drop pg p = Ok p' -> pool_step (p, ps1 ++ pg :: ps2) (p', ps1 ++ ps2)
| ps_write p ps1 pg ps2 off src pg' p' :
    0 <= off -> copy_from_reader p pg off src = Ok (pg', p') ->
    pool_step (p, ps1 ++ pg :: ps2) (p', ps1 ++ pg' :: ps2).

Lemma config_Ok sz cap :
  validate_page_pool_config sz cap = Ok () -> sz <> 0 /\ cap <> 0 /\ cap = cap / sz * sz.
Proof.
  unfold validate_page_pool_config. intros H.
  destruct ((sz =? 0) || (cap =? 0) || negb (cap `mod` sz =? 0)) eqn:E; [done|]. to_prop.
  split; [done|]. split; [done|]. rewrite (Z.div_mod cap sz) at 1 by done. lia.
Qed.

Lemma build_wf ok sz mc dc path p :
  0 <= sz < 2 ^ 64 -> 0 <= mc -> (forall d, dc = Some d -> 0 <= d) ->
  pool_build ok sz mc dc path = Ok p -> pool_wf p [] /\ hp_page_size p = sz.
Proof.
  intros Hsz Hmc Hdc H. unfold pool_build in H. apply bind_Ok in H as ([] & Hv & H). cbv zeta in H.
  apply config_Ok in Hv as (H1 & H2 & H3).
  apply bind_Ok in H as (mem & Hm & H). unfold memory_pool_new in Hm.
  apply bind_Ok in Hm as (u & _ & Hm). inv_ok.
  assert (Hq : 0 <= mc / sz) by (apply Z.div_pos; lia).
  assert (Hz : forall n, Forall (fun b => b = zeros sz) (replicate n (zeros sz))).
  { intros n. apply Forall_forall. intros b Hb. by apply elem_of_replicate in Hb as [-> _]. }
  assert (Hl : zlen (replicate (Z.to_nat (mc / sz)) (zeros sz)) = mc / sz).
  { unfold zlen. rewrite length_replicate. lia. }
  destruct dc as [d|]; inv_ok.
  - match goal with H : validate_page_pool_config _ _ = Ok ?u |- _ => destruct u; apply config_Ok in H as (Hd1 & Hd2 & Hd3) end.
    match goal with H : disk_pool_new _ _ _ = _ |- _ => unfold disk_pool_new in H end. inv_ok.
    specialize (Hdc d eq_refl).
    assert (Hdq : 0 <= d / sz) by (apply Z.div_pos; lia).
    split; [|done]. constructor; simpl; try done.
    + lia.
    + rewrite Hl. change (zlen []) with 0. unfold mp_total_page_cnt. simpl. lia.
    + unfold disk_wf, dp_total_page_cnt. simpl. split_and!; [done|done|by rewrite app_nil_r|].
      rewrite zlen_zeros by lia. lia.
  - split; [|done]. constructor; simpl; try done.
    + lia.
    + rewrite Hl. change (zlen []) with 0. unfold mp_total_page_cnt. simpl. lia.
    + unfold mp_total_page_cnt, disk_total. simpl. lia.
Qed.

(** A poll that succeeds is an acquisition. *)
Lemma poll_acquire p r : acquire_page_poll p = Some r -> try_acquire_page p = Some r.
Proof.
  unfold acquire_page_poll, try_acquire_page, mp_remain_page_cnt, mp_try_acquire_page.
  destruct (mp_queue (hp_memory p)) as [|b q].
  - change (0 <? zlen (A:=bytes) []) with false. cbv iota. by destruct (hp_disk p).
  - rewrite zlen_cons. pose proof (zlen_nonneg q). rewrite (proj2 (Z.ltb_lt _ _)) by lia. done.
Qed.

Lemma pool_step_wf s s' :
  pool_step s s' -> pool_wf s.1 s.2 ->
  pool_wf s'.1 s'.2 /\ hp_total_page_cnt s'.1 = hp_total_page_cnt s.1.
Proof.
  intros Hst Hw. split.
  - destruct Hst as [p ps pg p' H|p ps pg p' H|p ps1 pg ps2 p' H|p ps1 pg ps2 off src pg' p' Ho H]; simpl in *.
    + by apply (acquire_wf p ps).
    + by apply (acquire_wf p ps), poll_acquire.
    + rewrite <- Permutation_middle in Hw. destruct (drop_wf _ _ _ Hw) as (q & Hq & Hw' & _). congruence.
    + rewrite <- Permutation_middle in Hw. rewrite <- Permutation_middle.
      destruct (decide (off + zlen src <= hp_page_size p)) as [Hle|Hgt].
      * destruct (copy_from_reader_spec _ _ _ off src Hw Ho Hle) as (q & p1 & Hq & Hw' & _).
        rewrite H in Hq. by injection Hq as <- <-.
      * exfalso. unfold copy_from_reader in H.
        pose proof (page_bound_len p (pg :: ps1 ++ ps2) pg Hw ltac:(left)) as He.
        destruct (page_bound p pg) as [s bound]. simpl in He. subst bound.
        apply bind_Ok in H as ([] & Hc & _).
        apply checked_range_Ok in Hc; [lia|done|apply zlen_nonneg|apply (pw_size _ _ Hw)].
  - destruct Hst as [p ps pg p' H|p ps pg p' H|p ps1 pg ps2 p' H|p ps1 pg ps2 off src pg' p' Ho H]; simpl in *.
    1: idtac. 2: apply poll_acquire in H.
    1,2: unfold try_acquire_page in H; repeat case_match; by simplify_eq.
    + destruct pg; simpl in H; [by injection H as <-|]. destruct (hp_disk p); [|done]. by inv_ok.
    + unfold copy_from_reader in H. destruct (page_bound p pg). apply bind_Ok in H as ([] & _ & H).
      destruct pg; [by simplify_eq|]. destruct (hp_disk p); by simplify_eq.
Qed.

Lemma pool_run_wf s s' :
  rtc pool_step s s' -> pool_wf s.1 s.2 ->
  pool_wf s'.1 s'.2 /\ hp_total_page_cnt s'.1 = hp_total_page_cnt s.1.
Proof.
  intros H Hw. induction H as [s|s s1 s2 Hst _ IH]; [done|].
  apply pool_step_wf in Hst as [Hw1 Ht1]; [|done]. apply IH in Hw1 as [Hw2 Ht2]. split; [done|congruence].
Qed.

(** C33: however pages are acquired, written and dropped, free and handed-out
    pages add up to the size of the pool, no two handed-out pages share a slot of
    the disk file, dropping a handed-out page never panics, and an acquisition
    fails only when every page is handed out. *)
Theorem pool_reachable ok sz mc dc path p0 p ps :
  0 <= sz < 2 ^ 64 -> 0 <= mc -> (forall d, dc = Some d -> 0 <= d) ->
  pool_build ok sz mc dc path = Ok p0 -> rtc pool_step (p0, []) (p, ps) ->
  hp_remain p + zlen ps = hp_total_page_cnt p0 /\ NoDup (disk_ids ps) /\
  (forall pg, pg ∈ ps -> exists p', page_drop pg p = Ok p') /\
  (try_acquire_page p = None <-> hp_remain p = 0).
Proof.
  intros Hsz Hmc Hdc Hb Hr. apply build_wf in Hb as [Hb _]; [|done..].
  apply pool_run_wf in Hr as [Hw Ht]; [|done]. simpl in *. split_and!.
  - rewrite <- Ht. by apply pool_accounting.
  - pose proof (pw_disk _ _ Hw) as Hd. destruct (hp_disk p) as [d|]; [|rewrite Hd; constructor].
    destruct Hd as (_ & _ & Hp & _). pose proof (NoDup_seqZ 0 (dp_total_page_cnt d)) as Hn.
    rewrite <- Hp in Hn. by apply NoDup_app in Hn as (_ & _ & Hn).
  - intros pg Hin. apply list_elem_of_split in Hin as (l1 & l2 & ->).
    rewrite <- Permutation_middle in Hw. destruct (drop_wf _ _ _ Hw) as (p' & Hp & _). by exists p'.
  - by eapply acquire_None.
Qed.

(** Writing through one handed-out page changes exactly the written range of
    that page and no byte of any other handed-out page. *)
Theorem page_write_isolated p ps1 pg ps2 off src :
  pool_wf p (ps1 ++ pg :: ps2) -> 0 <= off -> off + zlen src <= hp_page_size p ->
  exists pg' p', copy_from_reader p pg off src = Ok (pg', p') /\
    pool_wf p' (ps1 ++ pg' :: ps2) /\
    page_bytes p' pg' = splice off src (page_bytes p pg) /\
    (forall q, q ∈ ps1 ++ ps2 -> page_bytes p' q = page_bytes p q).
Proof.
  intros Hw Ho Hs. rewrite <- Permutation_middle in Hw.
  destruct (copy_from_reader_spec _ _ _ off src Hw Ho Hs) as (pg' & p' & H & Hw' & _ & Hb & Hq).
  exists pg', p'. by rewrite <- Permutation_middle.
Qed.

(** Pages of the disk pool are not cleared when they are dropped. *)
Theorem disk_page_keeps_bytes p i p' :
  page_drop (PDisk i) p = Ok p' -> page_bytes p' (PDisk i) = page_bytes p (PDisk i).
Proof.
  simpl. destruct (hp_disk p) as [d|]; [|done]. unfold dp_release. destruct (_ <? _)%Z; [|done].
  intros H. simpl in H. by injection H as <-.
Qed.

(** *** On a small pool: two memory pages and one disk page of four bytes *)

Definition small_pool : SResult HybridPagePool := pool_build true 4 8 (Some 4) true.
Definition three_pages : option (HybridPagePool * list Page) :=
  match small_pool with
  | Ok p0 =>
      '(a, p1) ← try_acquire_page p0; '(b, p2) ← try_acquire_page p1; '(c, p3) ← try_acquire_page p2;
      Some (p3, [c; b; a])
  | _ => None
  end.

Lemma pool_reachable_witness :
  exists p0 p, small_pool = Ok p0 /\ three_pages = Some (p, [PDisk 0; PMemory (zeros 4); PMemory (zeros 4)]) /\
    hp_remain p = 0 /\ try_acquire_page p = None.
Proof.
  eexists _, _. split; [reflexivity|]. split; [reflexivity|].
  match goal with |- hp_remain ?p = 0 /\ _ =>
    match eval vm_compute in small_pool with Ok ?p0 =>
      destruct (pool_reachable true 4 8 (Some 4) true p0 p [PDisk 0; PMemory (zeros 4); PMemory (zeros 4)])
        as (H1 & _ & _ & H2) end end.
  - lia.
  - lia.
  - intros d [= <-]. lia.
  - reflexivity.
  - eapply rtc_l; [by apply ps_acquire|]. eapply rtc_l; [by apply ps_acquire|].
    eapply rtc_l; [by apply ps_acquire|]. apply rtc_refl.
  - split; [reflexivity|]. apply H2. reflexivity.
Defined.

(** A pool of one disk page and one memory page, both handed out. *)
Definition full_pool : HybridPagePool :=
  mkPool 4 4 4 2 (mkMemPool 4 4 []) (Some (mkDiskPool 4 4 [] (zeros 4))).

Lemma full_pool_wf : pool_wf full_pool [PDisk 0; PMemory (zeros 4)].
Proof.
  constructor; simpl; try done. by repeat constructor.
Qed.

Lemma page_write_isolated_witness :
  exists p', copy_from_reader full_pool (PDisk 0) 1 [Byte.x61; Byte.x62] = Ok (PDisk 0, p') /\
    page_bytes p' (PDisk 0) = [Byte.x00; Byte.x61; Byte.x62; Byte.x00] /\
    page_bytes p' (PMemory (zeros 4)) = zeros 4.
Proof.
  destruct (page_write_isolated full_pool [] (PDisk 0) [PMemory (zeros 4)] 1 [Byte.x61; Byte.x62])
    as (pg & p' & H & _ & Hb & Hq); [apply full_pool_wf|lia|unfold zlen; simpl; lia|].
  assert (pg = PDisk 0) as -> by (vm_compute in H; by injection H as <- <-).
  exists p'. split; [exact H|]. split; [rewrite Hb; reflexivity|]. rewrite Hq by (by left). reflexivity.
Defined.

(** A new disk page shows the bytes of its previous user. *)
Example recycled_disk_page_is_stale :
  match copy_from_reader full_pool (PDisk 0) 0 [Byte.x61; Byte.x62] with
  | Ok (pg, p1) =>
      match page_drop pg p1 with
      | Ok p2 => (fun '(pg, p) => page_bytes p pg) <$> try_acquire_page p2
      | _ => None
      end
  | _ => None
  end = Some [Byte.x61; Byte.x62; Byte.x00; Byte.x00].
Proof. reflexivity. Qed.
