(* ===== verification/SliceKey.v ===== *)
(** * Names of slice blocks (components/types/src/slice.rs, [SliceKey])

    A block of a slice is stored under a textual name made of its slice, its
    index and its length, in the stage directory and in the object store.  The
    name is parsed back when staged blocks are recovered after a crash. *)

From S2P Require Import Prelude Common Slice Keys.
From Stdlib Require Import Ascii.

Record SliceKey := mkSliceKey {
  sk_slice_id : Z;
  sk_block_idx : Z;
  sk_block_size : Z
}.

#[export] Instance slice_key_eq_dec : EqDecision SliceKey.
Proof. solve_decision. Defined.
#[export] Program Instance slice_key_countable : Countable SliceKey :=
  inj_countable' (fun k => (sk_slice_id k, sk_block_idx k, sk_block_size k))
                 (fun t => mkSliceKey t.1.1 t.1.2 t.2) _.
Next Obligation. by intros []. Qed.

(** ** Upper-case hexadecimal *)

Definition hex_char (d : Z) : Ascii.ascii :=
  Ascii.ascii_of_N (Z.to_N (if d <? 10 then 48 + d else 55 + d)).

(** The digits of a number; 16 of them hold a [u64]. *)
Fixpoint hex_digits (fuel : nat) (n : Z) : string :=
  match fuel with
  | O => ""
  | S fuel =>
      if n <? 16 then String (hex_char n) ""
      else hex_digits fuel (n / 16) +:+ String (hex_char (n `mod` 16)) ""
  end.

Fixpoint repeat_zero (k : nat) : string :=
  match k with O => "" | S k => String "0"%char (repeat_zero k) end.

(** [format!("{:08X}", n)] *)
Definition fmt_hex8 (n : Z) : string :=
  let d := hex_digits 16 n in repeat_zero (8 - String.length d) +:+ d.

(** [char::to_digit(16)]: both cases. *)
Definition hex_value (c : Ascii.ascii) : option Z :=
  let n := Z.of_N (Ascii.N_of_ascii c) in
  if (48 <=? n) && (n <=? 57) then Some (n - 48)
  else if (65 <=? n) && (n <=? 70) then Some (n - 55)
  else if (97 <=? n) && (n <=? 102) then Some (n - 87)
  else None.

Fixpoint hex_fold (acc : Z) (s : string) : option Z :=
  match s with
  | "" => Some acc
  | String c s =>
      d ← hex_value c;
      let acc := acc * 16 + d in
      if acc <? 2 ^ 64 then hex_fold acc s else None
  end.

(** [u64::from_str_radix(s, 16)]: a leading plus sign is accepted, an empty
    string and an overflow are not. *)
Definition from_str_radix16 (s : string) : option Z :=
  match s with
  | "" => None
  | String c rest =>
      if Ascii.eqb c "+"%char then (if String.eqb rest "" then None else hex_fold 0 rest)
      else hex_fold 0 s
  end.

(** [s.split(sep)] *)
Fixpoint split_on (sep : Ascii.ascii) (s : string) : list string :=
  match s with
  | "" => [""]
  | String c s =>
      if Ascii.eqb c sep then "" :: split_on sep s
      else match split_on sep s with
           | f :: fs => String c f :: fs
           | [] => [String c ""]
           end
  end.

(** [s.strip_prefix(p)] *)
Fixpoint strip_prefix (p s : string) : option string :=
  match p, s with
  | "", _ => Some s
  | String a p, String b s => if Ascii.eqb a b then strip_prefix p s else None
  | _, _ => None
  end.

(** ** The key *)

(** [Display for SliceKey] *)
Definition slice_key_fmt (k : SliceKey) : string :=
  fmt_hex8 (sk_slice_id k / 1000 / 1000) +:+ "_" +:+ fmt_hex8 (sk_slice_id k / 1000) +:+ "_" +:+
  fmt_hex8 (sk_slice_id k) +:+ "_" +:+ fmt_hex8 (sk_block_idx k) +:+ "_" +:+ fmt_hex8 (sk_block_size k).

Definition gen_path_for_local_sto (k : SliceKey) : string := slice_key_fmt k.
Definition gen_path_for_object_sto (k : SliceKey) : string := "chunks" +:+ slice_key_fmt k.

Definition make_slice_object_key (slice_id block_idx block_size : Z) : string :=
  gen_path_for_object_sto (mkSliceKey slice_id block_idx block_size).

(** [FromStr for SliceKey]; [usize] is 64 bits wide, so [usize::try_from]
    succeeds. *)
Definition slice_key_parse (s : string) : outcome SliceError SliceKey :=
  encoded ← ok_or (strip_prefix "chunks" s) (InvalidSliceKeyStr s);
  match split_on "_"%char encoded with
  | [_; _; slice_id; block_idx; block_size] =>
      let parse_hex f := ok_or (from_str_radix16 f) (ParseSliceKeyFailed s) in
      id ← parse_hex slice_id;
      idx ← parse_hex block_idx;
      size ← parse_hex block_size;
      let key := mkSliceKey id idx size in
      _ ← ensure (String.eqb (gen_path_for_object_sto key) s) (InvalidSliceKeyStr s);
      Ok key
  | _ => Err (InvalidSliceKeyStr s)
  end.

(** [PartialOrd for SliceKey] leaves the block size out. *)
Definition slice_key_partial_cmp (a b : SliceKey) : comparison :=
  match Z.compare (sk_slice_id a) (sk_slice_id b) with
  | Eq => Z.compare (sk_block_idx a) (sk_block_idx b)
  | c => c
  end.

(** ** Round trips *)

Definition slice_key_wf (k : SliceKey) : bool :=
  is_u64 (sk_slice_id k) && is_u64 (sk_block_idx k) && is_u64 (sk_block_size k).

Lemma cons_app c (s t : string) : String c s +:+ t = String c (s +:+ t).
Proof. done. Qed.

Lemma hex_value_char d : 0 <= d < 16 -> hex_value (hex_char d) = Some d.
Proof.
  intros H. assert (Hd : d = 0 \/ d = 1 \/ d = 2 \/ d = 3 \/ d = 4 \/ d = 5 \/ d = 6 \/ d = 7 \/ d = 8 \/
    d = 9 \/ d = 10 \/ d = 11 \/ d = 12 \/ d = 13 \/ d = 14 \/ d = 15) by lia.
  repeat (destruct Hd as [->|Hd]; [reflexivity|]). by subst.
Qed.

Lemma hex_char_plain d : 0 <= d < 16 -> Ascii.eqb (hex_char d) "_"%char = false /\ Ascii.eqb (hex_char d) "+"%char = false.
Proof.
  intros H. assert (Hd : d = 0 \/ d = 1 \/ d = 2 \/ d = 3 \/ d = 4 \/ d = 5 \/ d = 6 \/ d = 7 \/ d = 8 \/
    d = 9 \/ d = 10 \/ d = 11 \/ d = 12 \/ d = 13 \/ d = 14 \/ d = 15) by lia.
  repeat (destruct Hd as [->|Hd]; [split; reflexivity|]). by subst.
Qed.

Lemma hex_fold_app a s t : hex_fold a (s +:+ t) = x ← hex_fold a s; hex_fold x t.
Proof.
  revert a. induction s as [|c s IH]; intros a; [done|]. rewrite cons_app. simpl.
  destruct (hex_value c) as [d|]; simpl; [|done]. destruct (_ <? _); [apply IH|done].
Qed.

Lemma hex_fold_digits fuel n :
  0 <= n < 16 ^ Z.of_nat fuel -> n < 2 ^ 64 -> hex_fold 0 (hex_digits fuel n) = Some n.
Proof.
  revert n. induction fuel as [|fuel IH]; intros n H H64.
  { change (16 ^ Z.of_nat 0) with 1 in H. simpl. f_equal. lia. }
  cbn [hex_digits]. destruct (n <? 16) eqn:E; to_prop.
  - cbn [hex_fold]. rewrite hex_value_char by lia. cbn [mbind option_bind].
    rewrite (proj2 (Z.ltb_lt _ _)) by lia. simpl. done.
  - rewrite hex_fold_app, IH.
    + cbn [mbind option_bind hex_fold]. pose proof (Z.mod_pos_bound n 16 ltac:(lia)).
      rewrite hex_value_char by lia. cbn [mbind option_bind].
      pose proof (Z.div_mod n 16 ltac:(lia)). rewrite (proj2 (Z.ltb_lt _ _)) by lia. f_equal. lia.
    + split; [apply Z.div_pos; lia|]. apply Z.div_lt_upper_bound; [lia|].
      rewrite Nat2Z.inj_succ, Z.pow_succ_r in H by lia. lia.
    + pose proof (Z.div_le_upper_bound n 16 n). lia.
Qed.

Lemma hex_fold_zeros k s : hex_fold 0 (repeat_zero k +:+ s) = hex_fold 0 s.
Proof. induction k as [|k IH]; [done|]. cbn [repeat_zero]. rewrite cons_app. simpl. exact IH. Qed.

(** Strings of hexadecimal digits hold no separator and no sign. *)
Fixpoint plain (s : string) : bool :=
  match s with
  | "" => true
  | String c s => negb (Ascii.eqb c "_"%char) && negb (Ascii.eqb c "+"%char) && plain s
  end.

Lemma plain_app s t : plain (s +:+ t) = plain s && plain t.
Proof. induction s as [|c s IH]; [done|]. rewrite cons_app. simpl. by rewrite IH, !andb_assoc. Qed.

Lemma plain_hex_digits fuel n : 0 <= n -> plain (hex_digits fuel n) = true.
Proof.
  revert n. induction fuel as [|fuel IH]; intros n Hn; [done|]. cbn [hex_digits].
  destruct (n <? 16) eqn:E; to_prop.
  - simpl. by destruct (hex_char_plain n) as [-> ->]; [lia|].
  - rewrite plain_app, IH by (apply Z.div_pos; lia). simpl.
    pose proof (Z.mod_pos_bound n 16 ltac:(lia)). by destruct (hex_char_plain (n `mod` 16)) as [-> ->].
Qed.

Lemma plain_zeros k : plain (repeat_zero k) = true.
Proof. by induction k. Qed.

Lemma plain_fmt n : 0 <= n -> plain (fmt_hex8 n) = true.
Proof. intros. unfold fmt_hex8. by rewrite plain_app, plain_zeros, plain_hex_digits. Qed.

Lemma fmt_hex8_parse n : 0 <= n < 2 ^ 64 -> from_str_radix16 (fmt_hex8 n) = Some n.
Proof.
  intros H. assert (Hf : hex_fold 0 (fmt_hex8 n) = Some n).
  { unfold fmt_hex8. rewrite hex_fold_zeros. apply hex_fold_digits; [|lia]. simpl. lia. }
  pose proof (plain_fmt n ltac:(lia)) as Hp. unfold from_str_radix16.
  assert (Hne : fmt_hex8 n <> "").
  { unfold fmt_hex8. cbn [hex_digits]. intros E.
    assert (Hl : String.length (fmt_hex8 n) = O) by (unfold fmt_hex8; cbn [hex_digits]; by rewrite E).
    revert E. destruct (n <? 16); [by destruct (8 - _)%nat|].
    set (t := String (hex_char (n `mod` 16)) ""). clearbody t. clear.
    remember (8 - _)%nat as k eqn:Hk. destruct k; [|done]. destruct (_ +:+ _) eqn:E2; [simpl in Hk; lia|done]. }
  destruct (fmt_hex8 n) as [|c s]; [done|]. simpl in Hp. destruct (Ascii.eqb c "+"); [|done].
  by rewrite andb_false_r in Hp.
Qed.

Lemma split_plain s t : plain s = true ->
  split_on "_"%char (s +:+ "_" +:+ t) = s :: split_on "_"%char t.
Proof.
  induction s as [|c s IH]; intros H; [done|]. rewrite cons_app. simpl in *. to_prop.
  rewrite IH by done. by destruct (Ascii.eqb c "_"%char).
Qed.

Lemma split_last s : plain s = true -> split_on "_"%char s = [s].
Proof.
  induction s as [|c s IH]; intros H; [done|]. simpl in *. to_prop. rewrite IH by done.
  by destruct (Ascii.eqb c "_"%char).
Qed.

Lemma slice_key_split k :
  slice_key_wf k = true ->
  split_on "_"%char (slice_key_fmt k) =
    [fmt_hex8 (sk_slice_id k / 1000 / 1000); fmt_hex8 (sk_slice_id k / 1000); fmt_hex8 (sk_slice_id k);
     fmt_hex8 (sk_block_idx k); fmt_hex8 (sk_block_size k)].
Proof.
  unfold slice_key_wf, is_u64. intros H. to_prop. unfold slice_key_fmt.
  assert (0 <= sk_slice_id k / 1000) by (apply Z.div_pos; lia).
  assert (0 <= sk_slice_id k / 1000 / 1000) by (apply Z.div_pos; lia).
  rewrite !split_plain by (by apply plain_fmt). by rewrite split_last by (by apply plain_fmt).
Qed.

Lemma slice_key_parse_fmt k : slice_key_wf k = true -> slice_key_parse (gen_path_for_object_sto k) = Ok k.
Proof.
  intros H. unfold slice_key_parse.
  change (strip_prefix "chunks" (gen_path_for_object_sto k)) with (Some (slice_key_fmt k)).
  cbn [ok_or mbind outcome_bind]. rewrite (slice_key_split k H).
  unfold slice_key_wf, is_u64 in H. to_prop. rewrite !fmt_hex8_parse by lia.
  cbn [ok_or mbind outcome_bind]. destruct k as [id idx size]. cbn [sk_slice_id sk_block_idx sk_block_size].
  by rewrite String.eqb_refl.
Qed.

Lemma slice_key_parse_inv s k : slice_key_parse s = Ok k -> gen_path_for_object_sto k = s.
Proof.
  unfold slice_key_parse. intros H. apply bind_Ok in H as (e & _ & H).
  destruct (split_on "_"%char e) as [|? [|? [|f1 [|f2 [|f3 []]]]]]; try done.
  apply bind_Ok in H as (id & _ & H). apply bind_Ok in H as (idx & _ & H).
  apply bind_Ok in H as (size & _ & H). apply bind_Ok in H as (? & E & H).
  apply ensure_Ok in E. injection H as <-. by apply String.eqb_eq.
Qed.

Lemma object_key_inj k1 k2 :
  slice_key_wf k1 = true -> slice_key_wf k2 = true ->
  gen_path_for_object_sto k1 = gen_path_for_object_sto k2 -> k1 = k2.
Proof.
  intros H1 H2 H. pose proof (slice_key_parse_fmt _ H1) as P1. rewrite H, slice_key_parse_fmt in P1; [|done].
  by injection P1 as <-.
Qed.

(** Whatever the parser accepts fits the fields. *)
Lemma hex_value_range c d : hex_value c = Some d -> 0 <= d < 16.
Proof.
  unfold hex_value. set (n := Z.of_N _).
  destruct ((48 <=? n) && (n <=? 57)) eqn:E1; [intros [= <-]; to_prop; lia|].
  destruct ((65 <=? n) && (n <=? 70)) eqn:E2; [intros [= <-]; to_prop; lia|].
  destruct ((97 <=? n) && (n <=? 102)) eqn:E3; [intros [= <-]; to_prop; lia|done].
Qed.

Lemma hex_fold_range s acc n : 0 <= acc < 2 ^ 64 -> hex_fold acc s = Some n -> 0 <= n < 2 ^ 64.
Proof.
  revert acc. induction s as [|c s IH]; intros acc Ha H; simpl in H; [by injection H as <-|].
  destruct (hex_value c) as [d|] eqn:E; [|done]. simpl in H. apply hex_value_range in E.
  destruct (acc * 16 + d <? 2 ^ 64) eqn:E2; [|done]. to_prop. apply IH in H; [done|lia].
Qed.

Lemma from_str_radix16_range s n : from_str_radix16 s = Some n -> 0 <= n < 2 ^ 64.
Proof.
  destruct s as [|c s]; [done|]. cbn [from_str_radix16].
  destruct (Ascii.eqb c "+"%char); [destruct (String.eqb s ""); [done|]|]; intros H;
    (eapply hex_fold_range; [|exact H]; lia).
Qed.

Lemma slice_key_parse_wf s k : slice_key_parse s = Ok k -> slice_key_wf k = true.
Proof.
  unfold slice_key_parse. intros H. apply bind_Ok in H as (e & _ & H).
  destruct (split_on "_"%char e) as [|? [|? [|f1 [|f2 [|f3 []]]]]]; try done.
  apply bind_Ok in H as (id & H1 & H). apply bind_Ok in H as (idx & H2 & H).
  apply bind_Ok in H as (size & H3 & H). apply bind_Ok in H as (? & _ & H). injection H as <-.
  destruct (from_str_radix16 f1) eqn:E1, (from_str_radix16 f2) eqn:E2, (from_str_radix16 f3) eqn:E3; try done.
  injection H1 as <-. injection H2 as <-. injection H3 as <-.
  apply from_str_radix16_range in E1, E2, E3. unfold slice_key_wf, is_u64. simpl. lia.
Qed.

(** The name of a block parses back to its key, for every key, and the
    parser accepts no other string for it: the names recovered from the stage
    directory are exactly the names that were written there. *)
Theorem slice_key_roundtrip k s :
  slice_key_wf k = true -> (slice_key_parse s = Ok k <-> s = gen_path_for_object_sto k).
Proof.
  intros H. split.
  - intros P. by rewrite (slice_key_parse_inv s k P).
  - intros ->. by apply slice_key_parse_fmt.
Qed.

Lemma slice_key_roundtrip_witness :
  slice_key_parse "chunks00000B42_002BFB60_ABCDEF12_0000ABCD_00400000" =
    Ok (mkSliceKey 0xABCDEF12 0xABCD 0x400000).
Proof.
  apply (slice_key_roundtrip (mkSliceKey 0xABCDEF12 0xABCD 0x400000)); vm_compute; reflexivity.
Defined.

(** Names in lower case, with a sign or with another prefix are refused. *)
Example slice_key_rejects :
  slice_key_parse "chunks00000000_00000000_0000000a_00000000_00000000" =
    Err (InvalidSliceKeyStr "chunks00000000_00000000_0000000a_00000000_00000000") /\
  is_ok (slice_key_parse "chunks00000000_00000000_+0000001_00000000_00000000") = false /\
  is_ok (slice_key_parse "00000000_00000000_00000000_00000000_00000000") = false /\
  is_ok (slice_key_parse (gen_path_for_object_sto (mkSliceKey (2 ^ 64 - 1) (2 ^ 64 - 1) (2 ^ 64 - 1)))) = true.
Proof. vm_compute. repeat split. Qed.
