(* ===== verification/SliceBuffer.v ===== *)
(** * The slice buffer (components/storage/src/slice_buffer.rs)

    A slice buffer holds up to one chunk of data in blocks of pages taken from
    the shared page pool.  Every operation takes the pool and the buffer and
    gives both back, also when it fails.  Positions, lengths and indices are
    [usize]; the checks that compare them with [CHUNK_SIZE] bound them, so no
    operation here wraps. *)

From S2P Require Import Prelude Common Pool.

(** The object store: what is stored under a key. *)
Abbreviation ObjectStore := (gmap string bytes).

Section slice_buffer.
Context `{L : Layout}.

Record DataBlock := mkDataBlock {
  db_length : Z;
  db_pages : list (option Page)
}.

Inductive Block := BEmpty | BData (d : DataBlock).

Definition new_data_block : DataBlock :=
  mkDataBlock 0 (replicate (Z.to_nat (BLOCK_SIZE / PAGE_SIZE)) None).

Definition is_full (b : Block) : bool :=
  match b with BEmpty => false | BData d => db_length d =? BLOCK_SIZE end.

Record SliceBuffer := mkSB {
  sb_length : Z;
  sb_flushed : Z;
  sb_slots : list Block;
  sb_page_cnt : Z
}.

Definition slice_buffer_new : SliceBuffer :=
  mkSB 0 0 (replicate (Z.to_nat (CHUNK_SIZE / BLOCK_SIZE)) BEmpty) 0.

Definition set_slot (i : Z) (b : Block) (sb : SliceBuffer) : SliceBuffer :=
  mkSB (sb_length sb) (sb_flushed sb) (<[Z.to_nat i := b]> (sb_slots sb)) (sb_page_cnt sb).
Definition set_page_cnt (n : Z) (sb : SliceBuffer) : SliceBuffer :=
  mkSB (sb_length sb) (sb_flushed sb) (sb_slots sb) n.

Definition full_block_cnt (sb : SliceBuffer) : Z := zlen (filter (fun b => is_full b = true) (sb_slots sb)).

(** ** Reading *)

(** The bytes of one page range of a block. *)
Definition read_page (p : HybridPagePool) (b : Block) (page_idx page_offset n : Z) : SResult bytes :=
  match b with
  | BEmpty => Ok (zeros n)
  | BData db =>
      slot ← ok_or (db_pages db !! Z.to_nat page_idx)
               (InvalidRange "data block page" page_idx 1 (zlen (db_pages db)));
      match slot with
      | Some pg => copy_to_writer p pg page_offset n
      | None => Ok (zeros n)
      end
  end.

(** The inner loop of [read_at]. *)
Fixpoint read_pages (fuel : nat) (p : HybridPagePool) (b : Block) (block_offset to_read done : Z)
    : SResult bytes :=
  match fuel with
  | O => Ok []
  | S fuel =>
      if done <? to_read then
        let pos := block_offset + done in
        let n := Z.min (to_read - done) (PAGE_SIZE - pos `mod` PAGE_SIZE) in
        part ← read_page p b (pos / PAGE_SIZE) (pos `mod` PAGE_SIZE) n;
        rest ← read_pages fuel p b block_offset to_read (done + n);
        Ok (part ++ rest)
      else Ok []
  end.

(** The outer loop of [read_at]. *)
Fixpoint read_blocks (fuel : nat) (p : HybridPagePool) (sb : SliceBuffer) (offset expected total : Z)
    : SResult bytes :=
  match fuel with
  | O => Ok []
  | S fuel =>
      if total <? expected then
        let pos := total + offset in
        let block_idx := pos / BLOCK_SIZE in
        let block_offset := pos `mod` BLOCK_SIZE in
        b ← ok_or (sb_slots sb !! Z.to_nat block_idx)
              (InvalidRange "slice buffer block" block_idx 1 (zlen (sb_slots sb)));
        let n := Z.min (expected - total) (BLOCK_SIZE - block_offset) in
        part ← read_pages (S (Z.to_nat n)) p b block_offset n 0;
        rest ← read_blocks fuel p sb offset expected (total + n);
        Ok (part ++ rest)
      else Ok []
  end.

(** The bytes put at the front of [dst]; their number is the result. *)
Definition read_at (p : HybridPagePool) (sb : SliceBuffer) (offset dst_len : Z) : SResult bytes :=
  if sb_length sb <=? offset then Ok []
  else if dst_len =? 0 then Ok []
  else
    let expected := Z.min dst_len (sb_length sb - offset) in
    read_blocks (S (Z.to_nat expected)) p sb offset expected 0.

(** ** Writing *)

Definition get_page (p : HybridPagePool) (db : DataBlock) (page_idx : Z)
    : SResult (Page * bool) * HybridPagePool * DataBlock :=
  match db_pages db !! Z.to_nat page_idx with
  | None => (Err (InvalidRange "data block page" page_idx 1 (zlen (db_pages db))), p, db)
  | Some (Some pg) => (Ok (pg, false), p, db)
  | Some None =>
      match try_acquire_page p with
      | None => (Err PagePoolExhausted, p, db)
      | Some (pg, p) =>
          (Ok (pg, true), p,
           mkDataBlock (db_length db) (<[Z.to_nat page_idx := Some pg]> (db_pages db)))
      end
  end.

(** The inner loop of [write_at]; [cnt] is [self.total_page_cnt]. *)
Fixpoint write_pages (fuel : nat) (p : HybridPagePool) (db : DataBlock)
    (cnt block_offset to_write done total : Z) (data : bytes)
    : SResult () * (HybridPagePool * DataBlock * Z) :=
  match fuel with
  | O => (Ok (), (p, db, cnt))
  | S fuel =>
      if done <? to_write then
        let pos := block_offset + done in
        let page_idx := pos / PAGE_SIZE in
        let page_offset := pos `mod` PAGE_SIZE in
        let '(r, p, db) := get_page p db page_idx in
        match r with
        | Ok (pg, new_one) =>
            let cnt := if new_one : bool then cnt + 1 else cnt in
            let n := Z.min (to_write - done) (PAGE_SIZE - page_offset) in
            match copy_from_reader p pg page_offset (sublist total n data) with
            | Ok (pg, p) =>
                let db := mkDataBlock (Z.max (db_length db) (block_offset + (done + n)))
                            (<[Z.to_nat page_idx := Some pg]> (db_pages db)) in
                write_pages fuel p db cnt block_offset to_write (done + n) (total + n) data
            | Err e => (Err e, (p, db, cnt))
            | Panic => (Panic, (p, db, cnt))
            end
        | Err e => (Err e, (p, db, cnt))
        | Panic => (Panic, (p, db, cnt))
        end
      else (Ok (), (p, db, cnt))
  end.

(** The outer loop of [write_at]. *)
Fixpoint write_blocks (fuel : nat) (p : HybridPagePool) (sb : SliceBuffer) (offset total : Z)
    (data : bytes) : SResult () * HybridPagePool * SliceBuffer :=
  match fuel with
  | O => (Ok (), p, sb)
  | S fuel =>
      if total <? zlen data then
        let pos := offset + total in
        let block_idx := pos / BLOCK_SIZE in
        let block_offset := pos `mod` BLOCK_SIZE in
        match sb_slots sb !! Z.to_nat block_idx with
        | None => (Err (InvalidRange "slice buffer block" block_idx 1 (zlen (sb_slots sb))), p, sb)
        | Some b =>
            let db := match b with BEmpty => new_data_block | BData db => db end in
            let n := Z.min (zlen data - total) (BLOCK_SIZE - block_offset) in
            let '(r, (p, db, cnt)) :=
              write_pages (S (Z.to_nat n)) p db (sb_page_cnt sb) block_offset n 0 total data in
            let sb := set_page_cnt cnt (set_slot block_idx (BData db) sb) in
            match r with
            | Ok _ => write_blocks fuel p sb offset (total + n) data
            | Err e => (Err e, p, sb)
            | Panic => (Panic, p, sb)
            end
        end
      else (Ok (), p, sb)
  end.

(** *** Reserving the pages of a write *)

(** Whether a page of the buffer is missing; indexing panics out of range. *)
Definition needs_page (sb : SliceBuffer) (g : Z) : SResult bool :=
  b ← expect (sb_slots sb !! Z.to_nat (g / (BLOCK_SIZE / PAGE_SIZE)));
  match b with
  | BEmpty => Ok true
  | BData db =>
      slot ← expect (db_pages db !! Z.to_nat (g `mod` (BLOCK_SIZE / PAGE_SIZE)));
      Ok (bool_decide (slot = None))
  end.

Fixpoint missing_pages (sb : SliceBuffer) (gs : list Z) : SResult (list Z) :=
  match gs with
  | [] => Ok []
  | g :: gs => b ← needs_page sb g; rest ← missing_pages sb gs; Ok (if b : bool then g :: rest else rest)
  end.

(** Dropping a vector of pages. *)
Fixpoint drop_pages (ps : list Page) (p : HybridPagePool) : SResult HybridPagePool :=
  match ps with
  | [] => Ok p
  | pg :: ps => p ← page_drop pg p; drop_pages ps p
  end.

Fixpoint acquire_pages (n : nat) (p : HybridPagePool) (reserved : list Page)
    : SResult (list Page) * HybridPagePool :=
  match n with
  | O => (Ok reserved, p)
  | S n =>
      match try_acquire_page p with
      | Some (pg, p) => acquire_pages n p (reserved ++ [pg])
      | None =>
          match drop_pages reserved p with
          | Ok p => (Err PagePoolExhausted, p)
          | _ => (Panic, p)
          end
      end
  end.

Definition install_page (sb : SliceBuffer) (g : Z) (pg : Page) : SliceBuffer :=
  let ppb := BLOCK_SIZE / PAGE_SIZE in
  match sb_slots sb !! Z.to_nat (g / ppb) with
  | Some b =>
      let db := match b with BEmpty => new_data_block | BData db => db end in
      set_slot (g / ppb)
        (BData (mkDataBlock (db_length db) (<[Z.to_nat (g `mod` ppb) := Some pg]> (db_pages db)))) sb
  | None => sb
  end.

Fixpoint install_pages (sb : SliceBuffer) (l : list (Z * Page)) : SliceBuffer :=
  match l with
  | [] => sb
  | (g, pg) :: l => install_pages (install_page sb g pg) l
  end.

Definition reserve_pages_for_write (p : HybridPagePool) (sb : SliceBuffer) (offset write_end : Z)
    : SResult () * HybridPagePool * SliceBuffer :=
  let first_page := offset / PAGE_SIZE in
  let last_page := (write_end - 1) / PAGE_SIZE in
  match missing_pages sb (seqZ first_page (last_page - first_page + 1)) with
  | Ok missing =>
      let '(r, p) := acquire_pages (length missing) p [] in
      match r with
      | Ok reserved =>
          let sb := install_pages sb (zip missing reserved) in
          (Ok (), p, set_page_cnt (sb_page_cnt sb + zlen reserved) sb)
      | Err e => (Err e, p, sb)
      | Panic => (Panic, p, sb)
      end
  | Err e => (Err e, p, sb)
  | Panic => (Panic, p, sb)
  end.

Definition write_at (p : HybridPagePool) (sb : SliceBuffer) (offset : Z) (data : bytes)
    : SResult Z * HybridPagePool * SliceBuffer :=
  let len := zlen data in
  if len =? 0 then (Ok 0, p, sb)
  else
    match (e ← checked_add64 offset len; if e <=? CHUNK_SIZE then Some e else None) with
    | None => (Err (InvalidRange "slice buffer write" offset len CHUNK_SIZE), p, sb)
    | Some write_end =>
        if offset <? sb_flushed sb then (Err InvalidSliceBufferWriteOffset, p, sb)
        else
          let '(r, p, sb) := reserve_pages_for_write p sb offset write_end in
          match r with
          | Ok _ =>
              let '(r, p, sb) := write_blocks (S (Z.to_nat len)) p sb offset 0 data in
              match r with
              | Ok _ =>
                  (Ok len, p, mkSB (Z.max (sb_length sb) write_end) (sb_flushed sb) (sb_slots sb)
                                (sb_page_cnt sb))
              | Err e => (Err e, p, sb)
              | Panic => (Panic, p, sb)
              end
          | Err e => (Err e, p, sb)
          | Panic => (Panic, p, sb)
          end
    end.

(** ** Writing blocks out *)

(** The loop that concatenates the pages of a block, holes as zeroes; [oob] is
    what an index past the pages does. *)
Fixpoint copy_block (oob : Z -> SResult (option Page)) (fuel : nat) (p : HybridPagePool)
    (pages : list (option Page)) (len cur : Z) : SResult bytes :=
  match fuel with
  | O => Ok []
  | S fuel =>
      if cur <? len then
        let page_idx := cur / PAGE_SIZE in
        let page_offset := cur `mod` PAGE_SIZE in
        let n := Z.min (PAGE_SIZE - page_offset) (len - cur) in
        slot ← match pages !! Z.to_nat page_idx with Some s => Ok s | None => oob page_idx end;
        part ← match slot with
               | None => Ok (zeros n)
               | Some pg => copy_to_writer p pg page_offset n
               end;
        rest ← copy_block oob fuel p pages len (cur + n);
        Ok (part ++ rest)
      else Ok []
  end.

(** What [copy_data_block_to_object_storage] writes for a block. *)
Definition data_block_object (p : HybridPagePool) (db : DataBlock) : SResult bytes :=
  copy_block (fun i => Err (InvalidRange "data block page" i 1 (zlen (db_pages db))))
    (S (Z.to_nat (db_length db))) p (db_pages db) (db_length db) 0.

(** The blocks that end at or before [offset]. *)
Definition pending_blocks (sb : SliceBuffer) (offset : Z) : list Z :=
  filter (fun i => match sb_slots sb !! Z.to_nat i with
                   | Some (BData _) => (i + 1) * BLOCK_SIZE <=? offset
                   | _ => false
                   end = true) (seqZ 0 (zlen (sb_slots sb))).

Definition db_pgs (db : DataBlock) : list Page := omap id (db_pages db).


Definition flushed_block (sb : SliceBuffer) (i : Z) (db : DataBlock) : SliceBuffer :=
  let sb := set_slot i BEmpty sb in
  mkSB (sb_length sb) (Z.max (sb_flushed sb) (i * BLOCK_SIZE + db_length db)) (sb_slots sb)
    (sb_page_cnt sb).

(** The loop of [flush_bulk_to]; [put_ok n] tells whether the n-th write of the
    call succeeds.  Overwriting a slot drops the block's pages. *)
Fixpoint flush_blocks (put_ok : nat -> bool) (key_gen : Z -> Z -> string) (idxs : list Z)
    (n : nat) (released : Z) (st : HybridPagePool * SliceBuffer * ObjectStore)
    : SResult Z * (HybridPagePool * SliceBuffer * ObjectStore) :=
  match idxs with
  | [] => (Ok released, st)
  | i :: idxs =>
      let '(p, sb, store) := st in
      match sb_slots sb !! Z.to_nat i with
      | Some (BData db) =>
          match data_block_object p db with
          | Ok obj =>
              if put_ok n then
                let cnt := zlen (db_pgs db) in
                let store := <[key_gen i (db_length db) := obj]> store in
                let sb := flushed_block sb i db in
                match drop_pages (db_pgs db) p with
                | Ok p =>
                    flush_blocks put_ok key_gen idxs (S n) (released + cnt)
                      (p, set_page_cnt (u64_wrap (sb_page_cnt sb - cnt)) sb, store)
                | _ => (Panic, (p, sb, store))
                end
              else (Err UnknownIOError, st)
          | Err e => (Err e, st)
          | Panic => (Panic, st)
          end
      | _ => flush_blocks put_ok key_gen idxs n released st
      end
  end.

Definition flush_bulk_to (put_ok : nat -> bool) (key_gen : Z -> Z -> string) (offset : Z)
    (p : HybridPagePool) (sb : SliceBuffer) (store : ObjectStore)
    : SResult Z * (HybridPagePool * SliceBuffer * ObjectStore) :=
  if offset <? sb_flushed sb then (Err InvalidSliceBufferWriteOffset, (p, sb, store))
  else if CHUNK_SIZE <? offset then
    (Err (InvalidRange "slice buffer flush" offset 0 CHUNK_SIZE), (p, sb, store))
  else flush_blocks put_ok key_gen (pending_blocks sb offset) 0 0 (p, sb, store).

Definition flush_bulk put_ok key_gen p (sb : SliceBuffer) store :=
  flush_bulk_to put_ok key_gen (sb_length sb) p sb store.

(** The end of the block that holds the last byte. *)
Definition last_block_end (sb : SliceBuffer) : Z := ((sb_length sb - 1) / BLOCK_SIZE + 1) * BLOCK_SIZE.

Definition flush put_ok key_gen p (sb : SliceBuffer) store :=
  if sb_length sb =? 0 then (Ok 0, (p, sb, store))
  else flush_bulk_to put_ok key_gen (last_block_end sb) p sb store.

(** *** Staging into a block cache

    [cache_stage] is the cache's [stage] for the slice being flushed: block
    index, length and pages to a result and the cache it leaves. *)

Fixpoint stage_blocks {C} (cache_stage : HybridPagePool -> C -> Z -> Z -> list (option Page) -> SResult (Z * Z) * C)
    (idxs : list Z) (released : Z) (st : HybridPagePool * SliceBuffer * C)
    : SResult Z * (HybridPagePool * SliceBuffer * C) :=
  match idxs with
  | [] => (Ok released, st)
  | i :: idxs =>
      let '(p, sb, cache) := st in
      match sb_slots sb !! Z.to_nat i with
      | Some (BData db) =>
          let '(r, cache) := cache_stage p cache i (db_length db) (db_pages db) in
          match r with
          | Ok (_, cnt) =>
              match drop_pages (db_pgs db) p with
              | Ok p => stage_blocks cache_stage idxs (released + cnt) (p, flushed_block sb i db, cache)
              | _ => (Panic, (p, sb, cache))
              end
          | Err e => (Err e, (p, sb, cache))
          | Panic => (Panic, (p, sb, cache))
          end
      | _ => stage_blocks cache_stage idxs released st
      end
  end.

(** The page count is brought up to date only when every block was staged. *)
Definition sb_stage {C} (cache_stage : HybridPagePool -> C -> Z -> Z -> list (option Page) -> SResult (Z * Z) * C)
    (offset : Z) (p : HybridPagePool) (sb : SliceBuffer) (cache : C)
    : SResult Z * (HybridPagePool * SliceBuffer * C) :=
  if offset <? sb_flushed sb then (Err InvalidSliceBufferWriteOffset, (p, sb, cache))
  else if CHUNK_SIZE <? offset then
    (Err (InvalidRange "slice buffer stage" offset 0 CHUNK_SIZE), (p, sb, cache))
  else
    let '(r, (p, sb, cache)) := stage_blocks cache_stage (pending_blocks sb offset) 0 (p, sb, cache) in
    match r with
    | Ok released =>
        (Ok released, (p, set_page_cnt (u64_wrap (sb_page_cnt sb - released)) sb, cache))
    | Err e => (Err e, (p, sb, cache))
    | Panic => (Panic, (p, sb, cache))
    end.

Definition flush_v2 {C} (cache_stage : HybridPagePool -> C -> Z -> Z -> list (option Page) -> SResult (Z * Z) * C)
    (p : HybridPagePool) (sb : SliceBuffer) (cache : C)
    : SResult Z * (HybridPagePool * SliceBuffer * C) :=
  if sb_length sb =? 0 then (Ok 0, (p, sb, cache))
  else sb_stage cache_stage (last_block_end sb) p sb cache.

(** ** Reading a slice back from the object store *)

Definition cal_object_block_size (len block_idx block_size : Z) : Z :=
  Z.min (u64_wrap (len - block_idx * block_size)) block_size.

(** The reads run concurrently into disjoint parts of [dst]; here in order. *)
Fixpoint read_objects (fuel : nat) (gen_key : Z -> Z -> string) (store : ObjectStore)
    (len offset expected total : Z) : SResult bytes :=
  match fuel with
  | O => Ok []
  | S fuel =>
      if total <? expected then
        let pos := total + offset in
        let block_idx := pos / BLOCK_SIZE in
        let block_offset := pos `mod` BLOCK_SIZE in
        let obj_size := cal_object_block_size len block_idx BLOCK_SIZE in
        let n := Z.min (expected - total) (obj_size - block_offset) in
        obj ← ok_or (store !! gen_key block_idx obj_size) (ObjectStorageError true);
        _ ← ensure (block_offset + n <=? zlen obj) (InvalidRange "object block" block_offset n (zlen obj));
        rest ← read_objects fuel gen_key store len offset expected (total + n);
        Ok (sublist block_offset n obj ++ rest)
      else Ok []
  end.

Definition read_slice_from_object_storage (gen_key : Z -> Z -> string) (store : ObjectStore)
    (len offset dst_len : Z) : SResult bytes :=
  if CHUNK_SIZE <? len then Err (InvalidRange "object slice" 0 len CHUNK_SIZE)
  else if (dst_len =? 0) || (len <=? offset) then Ok []
  else
    let expected := Z.min (len - offset) dst_len in
    read_objects (S (Z.to_nat expected)) gen_key store len offset expected 0.
End slice_buffer.
