(* ===== verification/SliceBufferThms.v ===== *)
(** * What the slice buffer promises

    The contents of a buffer are a function from positions to bytes, zero where
    nothing was written.  A write changes exactly its range, a read returns the
    contents, a failed reservation changes nothing, and a flushed slice reads
    back from the object store. *)

From S2P Require Import Prelude Common Pool SliceBuffer.

Section contents.
Context `{L : Layout}.

(** How far the page counter is ahead of the pages held: zero, unless staging
    failed half way (the counter is brought up to date only at its end). *)
Variable drift : Z.

Lemma pages_per_block_eq : BLOCK_SIZE / PAGE_SIZE = pages_per_block.
Proof. rewrite block_size_eq. apply Z.div_mul. pose proof page_size_pos. lia. Qed.
Lemma blocks_per_chunk_eq : CHUNK_SIZE / BLOCK_SIZE = blocks_per_chunk.
Proof. rewrite chunk_size_eq. apply Z.div_mul. pose proof block_size_pos. lia. Qed.

(** The byte at a position of a block, and of a buffer. *)
Definition db_get (p : HybridPagePool) (db : DataBlock) (x : Z) : Byte.byte :=
  match db_pages db !! Z.to_nat (x / PAGE_SIZE) with
  | Some (Some pg) => bget (page_bytes p pg) (x `mod` PAGE_SIZE)
  | _ => Byte.x00
  end.

Definition block_get (p : HybridPagePool) (b : Block) (x : Z) : Byte.byte :=
  match b with BEmpty => Byte.x00 | BData db => db_get p db x end.

Definition sb_get (p : HybridPagePool) (sb : SliceBuffer) (pos : Z) : Byte.byte :=
  match sb_slots sb !! Z.to_nat (pos / BLOCK_SIZE) with
  | Some b => block_get p b (pos `mod` BLOCK_SIZE)
  | None => Byte.x00
  end.

Definition block_pgs (b : Block) : list Page :=
  match b with BEmpty => [] | BData db => db_pgs db end.
Definition sb_pgs (sb : SliceBuffer) : list Page := sb_slots sb ≫= block_pgs.

Definition block_ok (b : Block) : Prop :=
  match b with
  | BEmpty => True
  | BData db => zlen (db_pages db) = pages_per_block /\ 0 <= db_length db <= BLOCK_SIZE
  end.

(** The buffer and the pool it draws on; [others] are the pages other users
    hold. *)
Record sb_wf (p : HybridPagePool) (sb : SliceBuffer) (others : list Page) : Prop := {
  sw_size : hp_page_size p = PAGE_SIZE;
  sw_pool : pool_wf p (sb_pgs sb ++ others);
  sw_slots : zlen (sb_slots sb) = blocks_per_chunk;
  sw_blocks : Forall block_ok (sb_slots sb);
  sw_cnt : sb_page_cnt sb = zlen (sb_pgs sb) + drift;
  sw_len : 0 <= sb_flushed sb /\ 0 <= sb_length sb <= CHUNK_SIZE
}.

(** *** Replacing one element of a list, up to order *)

Lemma delete_insert {A} (l : list A) i x : delete i (<[i := x]> l) = delete i l.
Proof. rewrite !delete_take_drop, take_insert_ge, drop_insert_lt by lia. done. Qed.

Lemma bind_at {A B} (f : A -> list B) (l : list A) i x :
  l !! i = Some x -> l ≫= f ≡ₚ f x ++ (delete i l ≫= f).
Proof. intros H. rewrite (delete_Permutation _ _ _ H) at 1. done. Qed.

Lemma bind_insert {A B} (f : A -> list B) (l : list A) i x :
  (i < length l)%nat -> <[i := x]> l ≫= f ≡ₚ f x ++ (delete i l ≫= f).
Proof.
  intros H. rewrite (bind_at f _ i x) by (by apply list_lookup_insert_eq). by rewrite delete_insert.
Qed.

Lemma omap_at {A B} (f : A -> option B) (l : list A) i x :
  l !! i = Some x -> omap f l ≡ₚ option_list (f x) ++ omap f (delete i l).
Proof.
  intros H. rewrite (delete_Permutation _ _ _ H) at 1. simpl. by destruct (f x).
Qed.

Lemma omap_insert {A B} (f : A -> option B) (l : list A) i x :
  (i < length l)%nat -> omap f (<[i := x]> l) ≡ₚ option_list (f x) ++ omap f (delete i l).
Proof.
  intros H. rewrite (omap_at f _ i x) by (by apply list_lookup_insert_eq). by rewrite delete_insert.
Qed.

Lemma elem_delete_ne {A} (l : list A) i j x : l !! j = Some x -> i <> j -> x ∈ delete i l.
Proof.
  intros H Hne. apply list_elem_of_lookup. destruct (decide (j < i)%nat).
  - exists j. by rewrite list_lookup_delete_lt.
  - exists (pred j). rewrite list_lookup_delete_ge by lia. rewrite <- H. f_equal. lia.
Qed.

(** *** Writing one page of a block *)

Definition put_page (db : DataBlock) (i : Z) (len : Z) (pg : Page) : DataBlock :=
  mkDataBlock len (<[Z.to_nat i := Some pg]> (db_pages db)).

(** What a block looks like to the loops: its pages are handed out, and those
    of others stay as they are. *)
Definition same_others (p p' : HybridPagePool) (others : list Page) : Prop :=
  forall q, q ∈ others -> page_bytes p' q = page_bytes p q.

Lemma db_write_page p db others i pg off src len :
  hp_page_size p = PAGE_SIZE -> pool_wf p (db_pgs db ++ others) -> 0 <= i ->
  db_pages db !! Z.to_nat i = Some (Some pg) -> 0 <= off -> off + zlen src <= PAGE_SIZE ->
  exists pg' p', copy_from_reader p pg off src = Ok (pg', p') /\
    hp_page_size p' = PAGE_SIZE /\ pool_wf p' (db_pgs (put_page db i len pg') ++ others) /\
    same_others p p' others /\
    (forall x, 0 <= x -> db_get p' (put_page db i len pg') x =
       if (x / PAGE_SIZE =? i) && ((off <=? x `mod` PAGE_SIZE) && (x `mod` PAGE_SIZE <? off + zlen src))
       then bget src (x `mod` PAGE_SIZE - off) else db_get p db x).
Proof.
  intros Hsz Hw Hi Hpg Ho Hs. pose proof (lookup_lt_Some _ _ _ Hpg) as Hlt.
  pose proof page_size_pos as HP.
  set (rest := omap id (delete (Z.to_nat i) (db_pages db))).
  assert (Hperm : db_pgs db ++ others ≡ₚ pg :: (rest ++ others)).
  { unfold db_pgs. rewrite (omap_at id _ _ _ Hpg). done. }
  rewrite Hperm in Hw.
  assert (Hfit : off + zlen src <= hp_page_size p) by (by rewrite Hsz).
  destruct (copy_from_reader_spec p (rest ++ others) pg off src Hw Ho Hfit)
    as (pg' & p' & Hc & Hw' & Hs' & Hb & Hq).
  exists pg', p'. split; [done|]. split; [congruence|]. split_and!.
  - unfold db_pgs, put_page. simpl. rewrite (omap_insert id _ _ _ Hlt). exact Hw'.
  - intros q Hin. apply Hq, elem_of_app. by right.
  - intros x Hx. unfold db_get, put_page. simpl.
    destruct (x / PAGE_SIZE =? i) eqn:E; to_prop.
    + rewrite E, list_lookup_insert_eq, Hpg by done. rewrite Hb.
      rewrite bget_splice; [done|done| |apply Z.mod_pos_bound; lia].
      rewrite (page_len p (pg :: rest ++ others) pg Hw ltac:(left)), Hsz. done.
    + assert (Hne : Z.to_nat i <> Z.to_nat (x / PAGE_SIZE)).
      { pose proof (Z.div_pos x PAGE_SIZE). lia. }
      rewrite list_lookup_insert_ne by done. simpl.
      destruct (db_pages db !! Z.to_nat (x / PAGE_SIZE)) as [[q|]|] eqn:Eq; [|done..].
      rewrite Hq; [done|]. apply elem_of_app. left. unfold rest.
      apply list_elem_of_omap. exists (Some q). split; [|done].
      by eapply elem_delete_ne.
Qed.

(** Splitting a position inside a page-aligned unit. *)
Lemma page_pos x i off n :
  0 <= x -> 0 <= off -> off + n <= PAGE_SIZE ->
  (x / PAGE_SIZE =? i) && ((off <=? x `mod` PAGE_SIZE) && (x `mod` PAGE_SIZE <? off + n)) =
  (i * PAGE_SIZE + off <=? x) && (x <? i * PAGE_SIZE + off + n).
Proof.
  intros Hx Ho Hn. pose proof page_size_pos as HP.
  assert (HP0 : PAGE_SIZE <> 0) by lia. pose proof (Z.div_mod x PAGE_SIZE HP0) as Hdm.
  pose proof (Z.mod_pos_bound x PAGE_SIZE HP) as Hm.
  apply eq_true_iff_eq. rewrite !andb_true_iff, Z.eqb_eq, !Z.leb_le, !Z.ltb_lt. split.
  - intros (<- & H1 & H2). nia.
  - intros [H1 H2]. assert (x / PAGE_SIZE = i) as <-; [|nia].
    symmetry. apply (Z.div_unique _ _ _ (x - i * PAGE_SIZE)); lia.
Qed.

(** *** The inner loop *)

(** Every page of the range [a, b) of a block is there. *)
Definition pages_present (db : DataBlock) (a b : Z) : Prop :=
  forall x, a <= x < b -> exists pg, db_pages db !! Z.to_nat (x / PAGE_SIZE) = Some (Some pg).

Lemma pages_present_put db i len pg a b :
  pages_present db a b -> 0 <= a -> pages_present (put_page db i len pg) a b.
Proof.
  intros H Ha x Hx. destruct (H x Hx) as [q Hq]. unfold put_page. simpl.
  pose proof (lookup_lt_Some _ _ _ Hq).
  destruct (decide (Z.to_nat i = Z.to_nat (x / PAGE_SIZE))) as [->|Hne].
  - exists pg. by rewrite list_lookup_insert_eq.
  - exists q. by rewrite list_lookup_insert_ne.
Qed.

Lemma write_pages_spec fuel p db others cnt bo tw done total data :
  hp_page_size p = PAGE_SIZE -> pool_wf p (db_pgs db ++ others) ->
  0 <= bo -> 0 <= done <= tw -> 0 <= total -> total + (tw - done) <= zlen data ->
  pages_present db (bo + done) (bo + tw) -> (Z.to_nat (tw - done) < fuel)%nat ->
  exists p' db', write_pages fuel p db cnt bo tw done total data = (Ok (), (p', db', cnt)) /\
    hp_page_size p' = PAGE_SIZE /\ pool_wf p' (db_pgs db' ++ others) /\ same_others p p' others /\
    zlen (db_pages db') = zlen (db_pages db) /\ zlen (db_pgs db') = zlen (db_pgs db) /\
    db_length db' = (if done <? tw then Z.max (db_length db) (bo + tw) else db_length db) /\
    (forall x, 0 <= x -> db_get p' db' x =
       if (bo + done <=? x) && (x <? bo + tw) then bget data (total + (x - (bo + done)))
       else db_get p db x).
Proof.
  revert p db done total. induction fuel as [|fuel IH]; intros p db done total Hsz Hw Hbo Hd Ht Hdata Hpp Hf; [lia|].
  pose proof page_size_pos as HP. assert (HP0 : PAGE_SIZE <> 0) by lia. cbn [write_pages]. destruct (done <? tw) eqn:Hlt; to_prop.
  2:{ exists p, db. split_and!; try done. intros x Hx.
      by destruct (bo + done <=? x) eqn:E1, (x <? bo + tw) eqn:E2; to_prop; try lia. }
  set (pos := bo + done). set (off := pos `mod` PAGE_SIZE).
  pose proof (Z.mod_pos_bound pos PAGE_SIZE HP) as Hoff. fold off in Hoff.
  pose proof (Z.div_mod pos PAGE_SIZE HP0) as Hdm. fold off in Hdm.
  set (n := Z.min (tw - done) (PAGE_SIZE - off)).
  destruct (Hpp pos ltac:(lia)) as [pg Hpg]. unfold get_page. rewrite Hpg.
  assert (Hsub : zlen (sublist total n data) = n) by (apply zlen_sublist; lia).
  assert (Hpi : 0 <= pos / PAGE_SIZE) by (apply Z.div_pos; lia).
  assert (Hfit : off + zlen (sublist total n data) <= PAGE_SIZE) by lia.
  destruct (db_write_page p db others (pos / PAGE_SIZE) pg off (sublist total n data)
    (Z.max (db_length db) (bo + (done + n))) Hsz Hw Hpi Hpg (proj1 Hoff) Hfit)
    as (pg' & p1 & Hc & Hsz1 & Hw1 & Ho1 & Hg1).
  rewrite Hc. set (db1 := put_page _ _ _ _) in *.
  destruct (IH p1 db1 (done + n) (total + n)) as (p' & db' & Hrun & Hsz' & Hw' & Ho' & Hl' & Hl2 & Hlen' & Hg');
    try done; try lia.
  { apply pages_present_put; [|lia]. intros y Hy. apply Hpp. lia. }
  exists p', db'. split; [exact Hrun|]. split_and!; try done.
  - intros q Hq. rewrite Ho', Ho1; done.
  - rewrite Hl'. unfold db1, put_page, zlen. simpl. by rewrite length_insert.
  - rewrite Hl2. unfold db1, put_page, db_pgs. simpl. unfold zlen.
    rewrite (omap_insert id _ _ _ (lookup_lt_Some _ _ _ Hpg)), (omap_at id _ _ _ Hpg). done.
  - rewrite Hlen'. unfold db1, put_page. simpl. destruct (done + n <? tw) eqn:E; to_prop; lia.
  - intros x Hx. rewrite Hg', Hg1 by done. rewrite page_pos by lia. rewrite Hsub.
    replace (pos / PAGE_SIZE * PAGE_SIZE + off) with pos by lia.
    destruct (bo + (done + n) <=? x) eqn:E1, (x <? bo + tw) eqn:E2, (pos <=? x) eqn:E3, (x <? pos + n) eqn:E4;
      simpl; to_prop; try lia; try done; unfold pos in *.
    + f_equal. lia.
    + assert (Hdx : x / PAGE_SIZE = (bo + done) / PAGE_SIZE).
      { symmetry. apply (Z.div_unique _ _ _ (off + (x - (bo + done)))); lia. }
      pose proof (Z.div_mod x PAGE_SIZE HP0) as Hmx. rewrite Hdx in Hmx.
      replace (x `mod` PAGE_SIZE - off) with (x - (bo + done)) by lia.
      rewrite bget_sublist by lia. done.
Qed.

(** *** The outer loop *)

Definition sb_present (sb : SliceBuffer) (a b : Z) : Prop :=
  forall x, a <= x < b -> exists db pg, sb_slots sb !! Z.to_nat (x / BLOCK_SIZE) = Some (BData db) /\
    db_pages db !! Z.to_nat ((x `mod` BLOCK_SIZE) / PAGE_SIZE) = Some (Some pg).

(** The written length of a block. *)
Definition blen (sb : SliceBuffer) (i : Z) : Z :=
  match sb_slots sb !! Z.to_nat i with Some (BData db) => db_length db | _ => 0 end.

Definition block_of (b : Block) : DataBlock :=
  match b with BEmpty => new_data_block | BData db => db end.

Lemma sb_pgs_at sb i b :
  sb_slots sb !! Z.to_nat i = Some b ->
  sb_pgs sb ≡ₚ block_pgs b ++ (delete (Z.to_nat i) (sb_slots sb) ≫= block_pgs).
Proof. intros H. by apply bind_at. Qed.

Lemma sb_pgs_set sb i b :
  (Z.to_nat i < length (sb_slots sb))%nat ->
  sb_pgs (set_slot i b sb) ≡ₚ block_pgs b ++ (delete (Z.to_nat i) (sb_slots sb) ≫= block_pgs).
Proof. intros H. by apply bind_insert. Qed.

(** A position of another block is untouched when its pages are. *)
Lemma block_get_other p p' b x :
  (forall q, q ∈ block_pgs b -> page_bytes p' q = page_bytes p q) -> block_get p' b x = block_get p b x.
Proof.
  intros H. destruct b as [|db]; [done|]. simpl. unfold db_get.
  destruct (db_pages db !! Z.to_nat (x / PAGE_SIZE)) as [[q|]|] eqn:E; [|done..].
  rewrite H; [done|]. apply list_elem_of_omap. exists (Some q). split; [|done].
  by eapply list_elem_of_lookup_2.
Qed.

(** Positions split into a block and an offset. *)
Lemma block_pos x i : 0 <= i -> 0 <= x -> (x / BLOCK_SIZE = i <-> i * BLOCK_SIZE <= x < (i + 1) * BLOCK_SIZE).
Proof.
  intros Hi Hx. pose proof block_size_pos as HB. assert (HB0 : BLOCK_SIZE <> 0) by lia.
  pose proof (Z.div_mod x BLOCK_SIZE HB0). pose proof (Z.mod_pos_bound x BLOCK_SIZE HB). split.
  - intros <-. nia.
  - intros Hr. symmetry. apply (Z.div_unique _ _ _ (x - i * BLOCK_SIZE)); lia.
Qed.

(** Replacing one block: the buffer stays well formed. *)
Lemma set_block_wf p p' sb others i b db :
  sb_wf p sb others -> 0 <= i -> sb_slots sb !! Z.to_nat i = Some b ->
  hp_page_size p' = PAGE_SIZE ->
  pool_wf p' (db_pgs db ++ ((delete (Z.to_nat i) (sb_slots sb) ≫= block_pgs) ++ others)) ->
  zlen (db_pages db) = pages_per_block -> 0 <= db_length db <= BLOCK_SIZE ->
  zlen (db_pgs db) = zlen (block_pgs b) ->
  sb_wf p' (set_page_cnt (sb_page_cnt sb) (set_slot i (BData db) sb)) others.
Proof.
  intros [H1 H2 H3 H4 H5 H6] Hi Hb Hsz Hw Hlen Hdl Hcnt. pose proof (lookup_lt_Some _ _ _ Hb) as Hlt.
  constructor; simpl; try done.
  - change (sb_pgs _) with (sb_pgs (set_slot i (BData db) sb)). rewrite (sb_pgs_set sb i _ Hlt).
    by rewrite <- app_assoc.
  - unfold zlen in *. by rewrite length_insert.
  - apply Forall_insert; [done|]. by split.
  - change (sb_pgs _) with (sb_pgs (set_slot i (BData db) sb)). rewrite H5.
    rewrite (zlen_perm _ _ (sb_pgs_set sb i (BData db) Hlt)), (zlen_perm _ _ (sb_pgs_at sb i b Hb)).
    rewrite !zlen_app. simpl. lia.
Qed.

Lemma sb_get_set_eq p sb i db cnt x :
  (Z.to_nat i < length (sb_slots sb))%nat -> x / BLOCK_SIZE = i ->
  sb_get p (set_page_cnt cnt (set_slot i (BData db) sb)) x = db_get p db (x `mod` BLOCK_SIZE).
Proof. intros Hlt <-. unfold sb_get, set_slot. simpl. by rewrite list_lookup_insert_eq. Qed.

(** The other blocks keep their contents when their pages do. *)
Lemma sb_get_set_ne p p' sb i b cnt x :
  0 <= i -> 0 <= x -> x / BLOCK_SIZE <> i ->
  (forall q, q ∈ (delete (Z.to_nat i) (sb_slots sb) ≫= block_pgs) -> page_bytes p' q = page_bytes p q) ->
  sb_get p' (set_page_cnt cnt (set_slot i b sb)) x = sb_get p sb x.
Proof.
  intros Hi Hx Hne Hq. pose proof block_size_pos as HB.
  pose proof (Z.div_pos x BLOCK_SIZE Hx HB) as Hdp.
  assert (Hn : Z.to_nat i <> Z.to_nat (x / BLOCK_SIZE)) by lia.
  unfold sb_get, set_slot. simpl. rewrite list_lookup_insert_ne by done.
  destruct (sb_slots sb !! Z.to_nat (x / BLOCK_SIZE)) as [b'|] eqn:E; [|done].
  apply block_get_other. intros q Hin. apply Hq. apply list_elem_of_bind. exists b'. split; [done|].
  by eapply elem_delete_ne.
Qed.

(** What a write of [len] bytes at [off] does to the length of block [i]. *)
Definition blen_after (sb : SliceBuffer) (off len i : Z) : Z :=
  if (0 <? len) && (off <? (i + 1) * BLOCK_SIZE) && (i * BLOCK_SIZE <? off + len)
  then Z.max (blen sb i) (Z.min BLOCK_SIZE (off + len - i * BLOCK_SIZE)) else blen sb i.

Lemma write_blocks_spec fuel p sb others off total data :
  sb_wf p sb others -> 0 <= off -> 0 <= total <= zlen data -> off + zlen data <= CHUNK_SIZE ->
  sb_present sb (off + total) (off + zlen data) -> (Z.to_nat (zlen data - total) < fuel)%nat ->
  exists p' sb', write_blocks fuel p sb off total data = (Ok (), p', sb') /\
    sb_wf p' sb' others /\ same_others p p' others /\
    sb_length sb' = sb_length sb /\ sb_flushed sb' = sb_flushed sb /\
    (forall i, 0 <= i -> blen sb' i = blen_after sb (off + total) (zlen data - total) i) /\
    (forall x, 0 <= x -> sb_get p' sb' x =
       if (off + total <=? x) && (x <? off + zlen data) then bget data (x - off) else sb_get p sb x).
Proof.
  revert p sb total. induction fuel as [|fuel IH]; intros p sb total Hsw Ho Ht Hc Hpp Hf; [lia|].
  pose proof block_size_pos as HB. assert (HB0 : BLOCK_SIZE <> 0) by lia.
  cbn [write_blocks]. destruct (total <? zlen data) eqn:Hlt; to_prop.
  2:{ exists p, sb. split_and!; try done.
      - intros i Hi. unfold blen_after. by rewrite (proj2 (Z.ltb_ge 0 _)) by lia.
      - intros x Hx. by destruct (off + total <=? x) eqn:E1, (x <? off + zlen data) eqn:E2; to_prop; try lia. }
  set (pos := off + total) in *. set (i := pos / BLOCK_SIZE). set (bo := pos `mod` BLOCK_SIZE).
  pose proof (Z.mod_pos_bound pos BLOCK_SIZE HB) as Hbo. fold bo in Hbo.
  pose proof (Z.div_mod pos BLOCK_SIZE HB0) as Hdm. fold i bo in Hdm.
  assert (Hi : 0 <= i) by (apply Z.div_pos; lia).
  set (n := Z.min (zlen data - total) (BLOCK_SIZE - bo)).
  assert (Hn : 0 < n) by lia.
  assert (Hpos : pos = off + total) by reflexivity.
  assert (Hnd : n = Z.min (zlen data - total) (BLOCK_SIZE - bo)) by reflexivity.
  destruct (Hpp pos) as (db & pg0 & Hdb & _); [lia|]. fold i in Hdb. rewrite Hdb. cbv zeta.
  pose proof (lookup_lt_Some _ _ _ Hdb) as Hil.
  set (rest := delete (Z.to_nat i) (sb_slots sb) ≫= block_pgs).
  assert (Hdbok : zlen (db_pages db) = pages_per_block /\ 0 <= db_length db <= BLOCK_SIZE).
  { pose proof (sw_blocks _ _ _ Hsw) as Hbl. rewrite Forall_forall in Hbl.
    apply (Hbl (BData db)). by eapply list_elem_of_lookup_2. }
  assert (Hw : pool_wf p (db_pgs db ++ (rest ++ others))).
  { rewrite app_assoc. pose proof (sw_pool _ _ _ Hsw) as Hw. by rewrite (sb_pgs_at sb i _ Hdb) in Hw. }
  assert (Hpr : pages_present db (bo + 0) (bo + n)).
  { intros x Hx. destruct (Hpp (i * BLOCK_SIZE + x)) as (db' & pg & Hdb' & Hpg); [lia|].
    assert (Hq : (i * BLOCK_SIZE + x) / BLOCK_SIZE = i) by (apply block_pos; lia).
    assert (Hm : (i * BLOCK_SIZE + x) `mod` BLOCK_SIZE = x).
    { rewrite Z.add_comm, Z.mod_add by done. apply Z.mod_small. lia. }
    rewrite Hq, Hdb in Hdb'. injection Hdb' as <-. rewrite Hm in Hpg. by exists pg. }
  destruct (write_pages_spec (S (Z.to_nat n)) p db (rest ++ others) (sb_page_cnt sb) bo n 0 total data
    (sw_size _ _ _ Hsw) Hw (proj1 Hbo)) as (p1 & db1 & Hrun & Hsz1 & Hw1 & Ho1 & Hl1 & Hc1 & Hlen1 & Hg1);
    [lia|lia|lia|exact Hpr|lia|].
  rewrite Hrun. set (sb1 := set_page_cnt (sb_page_cnt sb) (set_slot i (BData db1) sb)).
  rewrite (proj2 (Z.ltb_lt 0 n) Hn) in Hlen1.
  assert (Hsw1 : sb_wf p1 sb1 others).
  { apply (set_block_wf p p1 sb others i (BData db) db1); try done; lia. }
  assert (Hget1 : forall x, 0 <= x -> sb_get p1 sb1 x =
            if (pos <=? x) && (x <? pos + n) then bget data (x - off) else sb_get p sb x).
  { intros x Hx. destruct (decide (x / BLOCK_SIZE = i)) as [E|E].
    - unfold sb1. rewrite sb_get_set_eq by done.
      pose proof (Z.mod_pos_bound x BLOCK_SIZE HB). pose proof (Z.div_mod x BLOCK_SIZE HB0) as Hdx.
      rewrite E in Hdx. rewrite Hg1 by lia.
      assert (Hold : sb_get p sb x = db_get p db (x `mod` BLOCK_SIZE)).
      { unfold sb_get. by rewrite E, Hdb. }
      rewrite Hold.
      destruct (bo + 0 <=? x `mod` BLOCK_SIZE) eqn:E1, (x `mod` BLOCK_SIZE <? bo + n) eqn:E2,
        (pos <=? x) eqn:E3, (x <? pos + n) eqn:E4; simpl; to_prop; try lia; try done.
      f_equal. lia.
    - unfold sb1. rewrite (sb_get_set_ne p p1) by (try done; intros q Hq; apply Ho1, elem_of_app; by left).
      destruct (pos <=? x) eqn:E3, (x <? pos + n) eqn:E4; simpl; to_prop; try done.
      exfalso. apply E, block_pos; lia. }
  assert (Hbl1 : forall j, 0 <= j -> blen sb1 j = if j =? i then Z.max (blen sb i) (bo + n) else blen sb j).
  { intros j Hj. unfold blen, sb1. simpl. destruct (j =? i) eqn:E; to_prop.
    - subst j. by rewrite list_lookup_insert_eq, Hdb.
    - rewrite list_lookup_insert_ne by lia. done. }
  destruct (IH p1 sb1 (total + n)) as (p' & sb' & Hrun' & Hsw' & Ho' & Hlen' & Hfl' & Hbl' & Hg'); try done; try lia.
  { intros x Hx. destruct (Hpp x) as (db' & pg & Hdb' & Hpg); [lia|].
    destruct (decide (x / BLOCK_SIZE = i)) as [E|E].
    - apply block_pos in E; lia.
    - exists db', pg. split; [|done]. unfold sb1. simpl. rewrite list_lookup_insert_ne; [done|].
      pose proof (Z.div_pos x BLOCK_SIZE). lia. }
  exists p', sb'. split; [exact Hrun'|]. split_and!; try done.
  - intros q Hq. rewrite Ho', Ho1; [done| |done]. apply elem_of_app. by right.
  - intros j Hj. rewrite Hbl' by done. unfold blen_after. rewrite Hbl1 by done.
    destruct (Z.eqb_spec j i) as [->|E].
    + rewrite (proj2 (Z.ltb_lt pos _)) by nia. rewrite (proj2 (Z.ltb_lt 0 (zlen data - total))) by lia.
      rewrite (proj2 (Z.ltb_lt (i * BLOCK_SIZE) (pos + (zlen data - total)))) by nia. simpl.
      destruct (0 <? zlen data - (total + n)) eqn:E1, (off + (total + n) <? (i + 1) * BLOCK_SIZE) eqn:E2,
        (i * BLOCK_SIZE <? off + (total + n) + (zlen data - (total + n))) eqn:E3; simpl; to_prop; lia.
    + replace (off + (total + n) + (zlen data - (total + n))) with (pos + (zlen data - total)) by lia.
      rewrite (proj2 (Z.ltb_lt 0 (zlen data - total))) by lia. simpl.
      destruct (i * BLOCK_SIZE <? pos + (zlen data - total)) eqn:E0; to_prop; [|nia].
      destruct (Z.lt_total j i) as [Hlt'|[?|Hgt]]; [|lia|].
      * rewrite (proj2 (Z.ltb_ge pos _)) by nia. simpl.
        destruct (0 <? zlen data - (total + n)) eqn:E1; simpl; [|done].
        rewrite (proj2 (Z.ltb_ge (off + (total + n)) _)) by nia. done.
      * rewrite (proj2 (Z.ltb_lt pos _)) by nia. simpl.
        destruct (j * BLOCK_SIZE <? pos + (zlen data - total)) eqn:E2; to_prop.
        -- rewrite (proj2 (Z.ltb_lt 0 (zlen data - (total + n)))) by nia. simpl.
           rewrite (proj2 (Z.ltb_lt (off + (total + n)) _)) by nia. done.
        -- rewrite andb_false_r. done.
  - intros x Hx. rewrite Hg', Hget1 by done.
    replace (off + (total + n)) with (pos + n) by lia.
    destruct (pos + n <=? x) eqn:E1, (x <? off + zlen data) eqn:E2, (pos <=? x) eqn:E3, (x <? pos + n) eqn:E4;
      simpl; to_prop; try lia; done.
Qed.

(** *** Pages by their number in the chunk *)

Definition page_at (sb : SliceBuffer) (g : Z) : option Page :=
  match sb_slots sb !! Z.to_nat (g / pages_per_block) with
  | Some (BData db) => default None (db_pages db !! Z.to_nat (g `mod` pages_per_block))
  | _ => None
  end.

Lemma page_number x : 0 <= x ->
  x / PAGE_SIZE / pages_per_block = x / BLOCK_SIZE /\
  (x / PAGE_SIZE) `mod` pages_per_block = x `mod` BLOCK_SIZE / PAGE_SIZE /\
  (x `mod` BLOCK_SIZE) `mod` PAGE_SIZE = x `mod` PAGE_SIZE.
Proof.
  intros Hx. pose proof page_size_pos as HP. pose proof pages_per_block_pos as Hb.
  assert (Hmm : x `mod` BLOCK_SIZE = x `mod` PAGE_SIZE + PAGE_SIZE * ((x / PAGE_SIZE) `mod` pages_per_block)).
  { rewrite block_size_eq, Z.mul_comm. apply Z.rem_mul_r; lia. }
  pose proof (Z.mod_pos_bound x PAGE_SIZE HP).
  split; [|split].
  - rewrite block_size_eq, Z.div_div by lia. f_equal. lia.
  - rewrite Hmm. symmetry. rewrite Z.mul_comm, Z.div_add by lia. rewrite Z.div_small by lia. lia.
  - rewrite Hmm, Z.mul_comm, Z.mod_add by lia. apply Z.mod_small. lia.
Qed.

Lemma sb_get_page p sb x : 0 <= x ->
  sb_get p sb x = match page_at sb (x / PAGE_SIZE) with
                  | Some pg => bget (page_bytes p pg) (x `mod` PAGE_SIZE)
                  | None => Byte.x00
                  end.
Proof.
  intros Hx. destruct (page_number x Hx) as (E1 & E2 & E3). unfold sb_get, page_at. rewrite E1, E2.
  destruct (sb_slots sb !! _) as [[|db]|]; [done| |done]. simpl. unfold db_get. rewrite E3.
  by destruct (db_pages db !! _) as [[pg|]|].
Qed.

Lemma sb_present_page sb a b :
  0 <= a -> (forall x, a <= x < b -> page_at sb (x / PAGE_SIZE) <> None) -> sb_present sb a b.
Proof.
  intros Ha H x Hx. specialize (H x Hx). assert (Hx0 : 0 <= x) by lia.
  destruct (page_number x Hx0) as (E1 & E2 & _). unfold page_at in H. rewrite E1, E2 in H.
  destruct (sb_slots sb !! _) as [[|db]|]; [done| |done]. exists db.
  destruct (db_pages db !! _) as [[pg|]|]; [|done..]. by exists pg.
Qed.

(** *** Installing a page *)

Lemma page_index g : 0 <= g -> 0 <= g `mod` pages_per_block < pages_per_block /\ 0 <= g / pages_per_block.
Proof.
  intros Hg. pose proof pages_per_block_pos as Hb. split; [by apply Z.mod_pos_bound|by apply Z.div_pos].
Qed.

Lemma new_block_pages : zlen (db_pages new_data_block) = pages_per_block /\ db_pgs new_data_block = [].
Proof.
  unfold new_data_block, db_pgs. simpl. rewrite pages_per_block_eq. pose proof pages_per_block_pos. split.
  - unfold zlen. rewrite length_replicate. lia.
  - by induction (Z.to_nat pages_per_block).
Qed.

Definition valid_page (g : Z) : Prop := 0 <= g < blocks_per_chunk * pages_per_block.

Lemma slot_of sb g :
  zlen (sb_slots sb) = blocks_per_chunk -> valid_page g ->
  exists b, sb_slots sb !! Z.to_nat (g / pages_per_block) = Some b.
Proof.
  intros Hl [H0 H1]. pose proof pages_per_block_pos. destruct (page_index g H0) as [_ Hd].
  apply lookup_lt_is_Some_2. unfold zlen in Hl.
  assert (g / pages_per_block < blocks_per_chunk) by (apply Z.div_lt_upper_bound; lia). lia.
Qed.

(** Installing a missing page adds that page and nothing else. *)
Lemma install_page_spec sb g pg :
  zlen (sb_slots sb) = blocks_per_chunk -> Forall block_ok (sb_slots sb) -> valid_page g ->
  page_at sb g = None ->
  let sb' := install_page sb g pg in
  zlen (sb_slots sb') = blocks_per_chunk /\ Forall block_ok (sb_slots sb') /\
  sb_pgs sb' ≡ₚ pg :: sb_pgs sb /\ sb_length sb' = sb_length sb /\ sb_flushed sb' = sb_flushed sb /\
  sb_page_cnt sb' = sb_page_cnt sb /\ (forall i, 0 <= i -> blen sb' i = blen sb i) /\
  (forall g', 0 <= g' -> page_at sb' g' = if g' =? g then Some pg else page_at sb g').
Proof.
  intros Hl Hok Hv Hnone sb'. destruct Hv as [H0 H1]. destruct (slot_of sb g Hl (conj H0 H1)) as [b Hb].
  destruct (page_index g H0) as [Hm Hd]. pose proof (lookup_lt_Some _ _ _ Hb) as Hlt.
  assert (Hbok : zlen (db_pages (block_of b)) = pages_per_block /\ 0 <= db_length (block_of b) <= BLOCK_SIZE).
  { destruct b as [|db]; simpl.
    - split; [apply new_block_pages|]. simpl. pose proof block_size_pos. lia.
    - rewrite Forall_forall in Hok. apply (Hok (BData db)). by eapply list_elem_of_lookup_2. }
  set (i := Z.to_nat (g `mod` pages_per_block)).
  assert (Hi : (i < length (db_pages (block_of b)))%nat) by (unfold zlen in Hbok; lia).
  assert (Hslot : db_pages (block_of b) !! i = Some None).
  { unfold page_at in Hnone. rewrite Hb in Hnone. fold i in Hnone. destruct b as [|db].
    - simpl. rewrite lookup_replicate. split; [done|]. simpl in Hi. by rewrite length_replicate in Hi.
    - simpl in *. destruct (db_pages db !! i) as [[q|]|] eqn:E; [done|done|].
      apply lookup_ge_None in E. lia. }
  set (db' := mkDataBlock (db_length (block_of b)) (<[i := Some pg]> (db_pages (block_of b)))).
  assert (Hsb : sb' = set_slot (g / pages_per_block) (BData db') sb).
  { unfold sb', install_page. rewrite pages_per_block_eq, Hb. by destruct b. }
  assert (Hpgs : db_pgs db' ≡ₚ pg :: block_pgs b).
  { unfold db_pgs, db'. simpl. rewrite (omap_insert id _ i _ Hi). simpl.
    pose proof (omap_at id _ i _ Hslot) as Ho. simpl in Ho. rewrite <- Ho. destruct b as [|db]; [|done].
    change (pg :: db_pgs new_data_block ≡ₚ [pg]). by rewrite (proj2 new_block_pages). }
  rewrite Hsb. split_and!; simpl; try done.
  - unfold zlen in *. by rewrite length_insert.
  - apply Forall_insert; [done|]. simpl. split; [|apply Hbok]. unfold zlen in *. rewrite length_insert. apply Hbok.
  - rewrite (sb_pgs_set sb _ (BData db') Hlt), (sb_pgs_at sb _ b Hb). simpl. by rewrite Hpgs.
  - intros j Hj. unfold blen. simpl. destruct (decide (j = g / pages_per_block)) as [->|Hne].
    + rewrite list_lookup_insert_eq, Hb by done. by destruct b.
    + rewrite list_lookup_insert_ne by lia. done.
  - intros g' Hg'. destruct (page_index g' Hg') as [Hm' Hd']. unfold page_at. simpl.
    pose proof pages_per_block_pos as Hpp. assert (Hpp0 : pages_per_block <> 0) by lia.
    pose proof (Z.div_mod g pages_per_block Hpp0) as Eg. pose proof (Z.div_mod g' pages_per_block Hpp0) as Eg'.
    destruct (decide (g' / pages_per_block = g / pages_per_block)) as [E|E].
    + rewrite E, list_lookup_insert_eq, Hb by done. simpl.
      destruct (Z.eqb_spec g' g) as [->|Hne].
      * fold i. by rewrite list_lookup_insert_eq.
      * rewrite list_lookup_insert_ne by (unfold i; rewrite E in Eg'; lia). destruct b as [|db]; [|done].
        simpl. destruct (replicate _ _ !! _) as [o|] eqn:Er; [|done].
        by apply lookup_replicate in Er as [-> _].
    + rewrite list_lookup_insert_ne by lia. destruct (Z.eqb_spec g' g) as [->|Hne]; [done|done].
Qed.

(** *** Reserving pages *)

Lemma needs_page_spec sb g :
  zlen (sb_slots sb) = blocks_per_chunk -> Forall block_ok (sb_slots sb) -> valid_page g ->
  needs_page sb g = Ok (bool_decide (page_at sb g = None)).
Proof.
  intros Hl Hok Hv. destruct (slot_of sb g Hl Hv) as [b Hb]. unfold needs_page, page_at.
  rewrite pages_per_block_eq, Hb. simpl. destruct b as [|db]; simpl; [done|].
  rewrite Forall_forall in Hok. specialize (Hok (BData db) (list_elem_of_lookup_2 _ _ _ Hb)) as [Hpl _].
  destruct (page_index g (proj1 Hv)) as [Hm _]. unfold zlen in Hpl.
  destruct (db_pages db !! _) as [o|] eqn:E; [by destruct o|]. apply lookup_ge_None in E. lia.
Qed.

Lemma missing_pages_spec sb gs :
  zlen (sb_slots sb) = blocks_per_chunk -> Forall block_ok (sb_slots sb) -> Forall valid_page gs ->
  missing_pages sb gs = Ok (filter (fun g => page_at sb g = None) gs).
Proof.
  intros Hl Hok Hgs. induction Hgs as [|g gs Hg _ IH]; [done|]. simpl missing_pages.
  rewrite needs_page_spec by done. simpl. rewrite IH. simpl. rewrite filter_cons.
  destruct (decide (page_at sb g = None)) as [E|E]; [by rewrite bool_decide_true|by rewrite bool_decide_false].
Qed.

Lemma drop_pages_spec ps p base :
  pool_wf p (ps ++ base) ->
  exists p', drop_pages ps p = Ok p' /\ pool_wf p' base /\ (forall q, page_bytes p' q = page_bytes p q) /\
    hp_page_size p' = hp_page_size p.
Proof.
  revert p. induction ps as [|pg ps IH]; intros p Hw; simpl; [by exists p|].
  destruct (drop_wf p (ps ++ base) pg Hw) as (p1 & -> & Hw1 & Hb1 & Hs1). simpl.
  destruct (IH p1 Hw1) as (p' & -> & Hw' & Hb' & Hs'). exists p'. split_and!; try done.
  - intros q. by rewrite Hb', Hb1.
  - congruence.
Qed.

Lemma acquire_pages_spec n p r base :
  pool_wf p (r ++ base) ->
  exists res p', acquire_pages n p r = (res, p') /\ (forall q, page_bytes p' q = page_bytes p q) /\
    hp_page_size p' = hp_page_size p /\
    ((exists new, res = Ok (r ++ new) /\ length new = n /\ pool_wf p' ((r ++ new) ++ base) /\
        (clean p -> Forall (fun pg => page_bytes p' pg = zeros (hp_page_size p)) new) /\
        Z.of_nat n <= hp_remain p) \/
     (res = Err PagePoolExhausted /\ pool_wf p' base /\ hp_remain p < Z.of_nat n)).
Proof.
  revert p r. induction n as [|n IH]; intros p r Hw; simpl.
  - exists (Ok r), p. split_and!; try done. left. exists []. rewrite app_nil_r.
    split_and!; try done. by eapply remain_nonneg.
  - destruct (try_acquire_page p) as [[pg p1]|] eqn:Ha.
    + destruct (acquire_wf _ _ _ _ Hw Ha) as (Hw1 & Hb1 & Hs1 & _).
      assert (Hw1' : pool_wf p1 ((r ++ [pg]) ++ base)).
      { rewrite <- app_assoc. simpl. by rewrite <- Permutation_middle. }
      destruct (IH p1 (r ++ [pg]) Hw1') as (res & p' & -> & Hb' & Hs' & Hres).
      exists res, p'. split; [done|]. split; [intros q; by rewrite Hb', Hb1|]. split; [congruence|].
      pose proof (acquire_remain _ _ _ _ Hw Ha) as Hrem.
      destruct Hres as [(new & -> & Hlen & Hw' & Hz & Hle)|(-> & Hw' & Hlt)]; [left|right; split_and!; [done..|lia]].
      exists (pg :: new). replace (r ++ pg :: new) with ((r ++ [pg]) ++ new) by (by rewrite <- app_assoc).
      split_and!; [done|simpl; lia|done| |lia]. intros Hc.
      destruct (acquire_clean _ _ _ _ Hw Hc Ha) as [Hc1 Hz1]. constructor.
      * by rewrite Hb'.
      * rewrite <- Hs1. by apply Hz.
    + destruct (drop_pages_spec r p base Hw) as (p' & -> & Hw' & Hb' & Hs').
      exists (Err PagePoolExhausted), p'. split_and!; try done. right. split_and!; try done.
      apply (acquire_None _ _ Hw) in Ha. lia.
Qed.

(** Installing reserved pages at missing places. *)
Lemma install_pages_spec gs pgs sb :
  zlen (sb_slots sb) = blocks_per_chunk -> Forall block_ok (sb_slots sb) -> Forall valid_page gs ->
  NoDup gs -> Forall (fun g => page_at sb g = None) gs -> length gs = length pgs ->
  let sb' := install_pages sb (zip gs pgs) in
  zlen (sb_slots sb') = blocks_per_chunk /\ Forall block_ok (sb_slots sb') /\
  sb_pgs sb' ≡ₚ pgs ++ sb_pgs sb /\ sb_length sb' = sb_length sb /\ sb_flushed sb' = sb_flushed sb /\
  sb_page_cnt sb' = sb_page_cnt sb /\ (forall i, 0 <= i -> blen sb' i = blen sb i) /\
  (forall g, 0 <= g -> g ∉ gs -> page_at sb' g = page_at sb g) /\
  (forall g, g ∈ gs -> exists pg, pg ∈ pgs /\ page_at sb' g = Some pg).
Proof.
  revert pgs sb. induction gs as [|g gs IH]; intros [|pg pgs] sb Hl Hok Hv Hnd Hnone Hlen; try done.
  { cbn zeta. simpl. split_and!; try done. intros g Hg. by apply not_elem_of_nil in Hg. }
  apply Forall_cons in Hv as [Hg Hv]. apply NoDup_cons in Hnd as [Hni Hnd].
  apply Forall_cons in Hnone as [Hgn Hnone].
  destruct (install_page_spec sb g pg Hl Hok Hg Hgn) as (Hl1 & Hok1 & Hp1 & Hlen1 & Hf1 & Hc1 & Hb1 & Hat1).
  set (sb1 := install_page sb g pg) in *.
  assert (Hnone1 : Forall (fun g => page_at sb1 g = None) gs).
  { rewrite Forall_forall in *. intros g' Hin. rewrite Hat1 by (apply Hv; done).
    destruct (Z.eqb_spec g' g) as [->|_]; [done|]. by apply Hnone. }
  destruct (IH pgs sb1 Hl1 Hok1 Hv Hnd Hnone1 ltac:(simpl in Hlen; lia))
    as (Hl2 & Hok2 & Hp2 & Hlen2 & Hf2 & Hc2 & Hb2 & Hat2 & Hin2).
  cbn zeta. simpl. fold sb1. split_and!; try done; try congruence.
  - rewrite Hp2, Hp1. by rewrite Permutation_middle.
  - intros i Hi. by rewrite Hb2, Hb1.
  - intros g' Hg' Hn. apply not_elem_of_cons in Hn as [Hne Hn]. rewrite Hat2, Hat1 by done.
    by rewrite (proj2 (Z.eqb_neq _ _) Hne).
  - intros g' Hin. apply elem_of_cons in Hin as [->|Hin].
    + exists pg. split; [left|]. rewrite Hat2 by (try done; apply Hg). rewrite Hat1 by apply Hg.
      by rewrite Z.eqb_refl.
    + destruct (Hin2 g' Hin) as (q & Hq & Hat). exists q. split; [by right|done].
Qed.

Lemma range_pages off e :
  0 <= off -> off < e -> e <= CHUNK_SIZE ->
  Forall valid_page (seqZ (off / PAGE_SIZE) ((e - 1) / PAGE_SIZE - off / PAGE_SIZE + 1)) /\
  (forall x, off <= x < e -> x / PAGE_SIZE ∈ seqZ (off / PAGE_SIZE) ((e - 1) / PAGE_SIZE - off / PAGE_SIZE + 1)).
Proof.
  intros Ho He Hc. pose proof page_size_pos as HP. rewrite chunk_size_eq, block_size_eq in Hc. split.
  - apply Forall_forall. intros g Hg. apply elem_of_seqZ in Hg.
    pose proof (Z.div_pos off PAGE_SIZE Ho HP).
    assert ((e - 1) / PAGE_SIZE < blocks_per_chunk * pages_per_block).
    { apply Z.div_lt_upper_bound; lia. }
    unfold valid_page. lia.
  - intros x Hx. apply elem_of_seqZ.
    assert (off / PAGE_SIZE <= x / PAGE_SIZE) by (apply Z.div_le_mono; lia).
    assert (x / PAGE_SIZE <= (e - 1) / PAGE_SIZE) by (apply Z.div_le_mono; lia). lia.
Qed.

(** How many pages a write of [off, e) has to take from the pool: the pages of
    its range the buffer does not hold. *)
Definition pages_needed (sb : SliceBuffer) (off e : Z) : Z :=
  zlen (filter (fun g => page_at sb g = None)
          (seqZ (off / PAGE_SIZE) ((e - 1) / PAGE_SIZE - off / PAGE_SIZE + 1))).

Lemma reserve_spec p sb others off e :
  sb_wf p sb others -> 0 <= off -> off < e -> e <= CHUNK_SIZE ->
  exists r p' sb', reserve_pages_for_write p sb off e = (r, p', sb') /\
    sb_wf p' sb' others /\ (forall q, page_bytes p' q = page_bytes p q) /\
    sb_length sb' = sb_length sb /\ sb_flushed sb' = sb_flushed sb /\
    (forall i, 0 <= i -> blen sb' i = blen sb i) /\
    (forall g, 0 <= g -> page_at sb g <> None -> page_at sb' g = page_at sb g) /\
    (clean p -> forall x, 0 <= x -> sb_get p' sb' x = sb_get p sb x) /\
    (r = Err PagePoolExhausted /\ sb' = sb /\ hp_remain p < pages_needed sb off e \/
     r = Ok () /\ (forall x, off <= x < e -> page_at sb' (x / PAGE_SIZE) <> None) /\
       pages_needed sb off e <= hp_remain p).
Proof.
  intros Hsw Ho He Hc. pose proof Hsw as [H1 H2 H3 H4 H5 H6]. unfold reserve_pages_for_write. cbv zeta.
  destruct (range_pages off e Ho He Hc) as [Hval Hcov].
  set (gs := seqZ _ _) in *. rewrite missing_pages_spec by done.
  set (ms := filter (fun g => page_at sb g = None) gs).
  assert (Hms : Forall valid_page ms /\ NoDup ms /\ Forall (fun g => page_at sb g = None) ms).
  { rewrite !Forall_forall in *. split_and!.
    - intros g Hg. apply list_elem_of_filter in Hg as [_ Hg]. by apply Hval.
    - apply NoDup_filter, NoDup_seqZ.
    - intros g Hg. by apply list_elem_of_filter in Hg as [Hg _]. }
  destruct Hms as (Hmv & Hmn & Hmm).
  destruct (acquire_pages_spec (length ms) p [] (sb_pgs sb ++ others) H2) as (res & p' & -> & Hb & Hs & Hres).
  destruct Hres as [(new & -> & Hlen & Hw & Hz & Hle)|(-> & Hw & Hlt)].
  - simpl app. simpl app in Hw.
    destruct (install_pages_spec ms new sb H3 H4 Hmv Hmn Hmm (eq_sym Hlen))
      as (Hl1 & Hok1 & Hp1 & Hlen1 & Hf1 & Hc1 & Hb1 & Hat1 & Hin1).
    set (sb1 := install_pages sb (zip ms new)) in *.
    exists (Ok ()), p', (set_page_cnt (sb_page_cnt sb1 + zlen new) sb1). split; [done|].
    assert (Hpg : forall g, 0 <= g -> page_at sb g <> None -> page_at sb1 g = page_at sb g).
    { intros g Hg Hne. apply Hat1; [done|]. intros Hin. apply list_elem_of_filter in Hin as [Hin _]. done. }
    split_and!; simpl; try done.
    + constructor; simpl; try done; [by rewrite Hs| | |by rewrite Hlen1, Hf1].
      * change (sb_pgs (set_page_cnt _ sb1)) with (sb_pgs sb1). rewrite Hp1, <- app_assoc. exact Hw.
      * change (sb_pgs (set_page_cnt _ sb1)) with (sb_pgs sb1).
        rewrite (zlen_perm _ _ Hp1), zlen_app. rewrite Hc1. lia.
    + intros Hcl x Hx. specialize (Hz Hcl). rewrite Forall_forall in Hz. rewrite !sb_get_page by done.
      change (page_at (set_page_cnt _ sb1)) with (page_at sb1).
      pose proof (Z.div_pos x PAGE_SIZE Hx page_size_pos) as Hg.
      destruct (decide (x / PAGE_SIZE ∈ ms)) as [Hin|Hni].
      * destruct (Hin1 _ Hin) as (pg & Hpgin & ->). rewrite (Hz pg Hpgin), bget_zeros.
        apply list_elem_of_filter in Hin as [-> _]. done.
      * rewrite Hat1 by done. destruct (page_at sb (x / PAGE_SIZE)); [by rewrite Hb|done].
    + right. split_and!; [done| |exact Hle]. intros x Hx. change (page_at (set_page_cnt _ sb1)) with (page_at sb1).
      destruct (decide (page_at sb (x / PAGE_SIZE) = None)) as [E|E].
      * destruct (Hin1 (x / PAGE_SIZE)) as (pg & _ & ->); [|done].
        apply list_elem_of_filter. split; [done|]. by apply Hcov.
      * rewrite Hpg; [done| |done]. apply Z.div_pos; [lia|apply page_size_pos].
  - exists (Err PagePoolExhausted), p', sb. split; [done|]. split_and!; try done; [| |left; split_and!; [done..|exact Hlt]].
    + constructor; try done. congruence.
    + intros _ x Hx. rewrite !sb_get_page by done. destruct (page_at sb _); [by rewrite Hb|done].
Qed.

(** ** The theorems *)

Lemma write_at_effect p sb others off data :
  sb_wf p sb others -> 0 <= off ->
  exists r p' sb', write_at p sb off data = (r, p', sb') /\
    sb_wf p' sb' others /\ same_others p p' others /\
    match r with
    | Ok n => n = zlen data /\
        (0 < n -> sb_flushed sb <= off /\ off + n <= CHUNK_SIZE /\ pages_needed sb off (off + n) <= hp_remain p) /\
        sb_flushed sb' = sb_flushed sb /\
        sb_length sb' = (if n =? 0 then sb_length sb else Z.max (sb_length sb) (off + n)) /\
        (forall i, 0 <= i -> blen sb' i = blen_after sb off n i) /\
        (forall x, off <= x < off + n -> sb_get p' sb' x = bget data (x - off)) /\
        (forall x, 0 <= x -> ~ off <= x < off + n -> clean p \/ page_at sb (x / PAGE_SIZE) <> None ->
           sb_get p' sb' x = sb_get p sb x)
    | Err e => sb' = sb /\ (forall q, page_bytes p' q = page_bytes p q) /\
        (e = InvalidRange "slice buffer write" off (zlen data) CHUNK_SIZE /\ CHUNK_SIZE < off + zlen data \/
         e = InvalidSliceBufferWriteOffset /\ off < sb_flushed sb /\ off + zlen data <= CHUNK_SIZE \/
         e = PagePoolExhausted /\ sb_flushed sb <= off /\ off + zlen data <= CHUNK_SIZE /\
           hp_remain p < pages_needed sb off (off + zlen data))
    | Panic => False
    end.
Proof.
  intros Hsw Ho. unfold write_at. pose proof (zlen_nonneg data) as Hdn.
  destruct (zlen data =? 0) eqn:Hz; to_prop.
  { exists (Ok 0), p, sb. split; [done|]. split_and!; try done; try lia. }
  pose proof chunk_size_u32 as Hcu.
  assert (Hadd : (e ← checked_add64 off (zlen data); if e <=? CHUNK_SIZE then Some e else None) =
                 if off + zlen data <=? CHUNK_SIZE then Some (off + zlen data) else None).
  { unfold checked_add64. destruct (off + zlen data <? 2 ^ 64) eqn:E; simpl; [done|]. to_prop.
    by rewrite (proj2 (Z.leb_gt _ _)) by lia. }
  rewrite Hadd. destruct (off + zlen data <=? CHUNK_SIZE) eqn:Hc; to_prop.
  2:{ eexists _, _, _. split; [reflexivity|]. split_and!; try done. left. done. }
  destruct (off <? sb_flushed sb) eqn:Hfl; to_prop.
  { eexists _, _, _. split; [reflexivity|]. split_and!; try done. right; left. done. }
  destruct (reserve_spec p sb others off (off + zlen data) Hsw Ho ltac:(lia) Hc)
    as (r & p1 & sb1 & -> & Hsw1 & Hb1 & Hlen1 & Hf1 & Hbl1 & Hat1 & Hcl1 & Hres).
  destruct Hres as [(-> & -> & Hlt)|(-> & Hpres & Hle)].
  { eexists _, _, _. split; [reflexivity|]. split_and!; try done; [intros q _; apply Hb1|by right; right]. }
  destruct (write_blocks_spec (S (Z.to_nat (zlen data))) p1 sb1 others off 0 data)
    as (p2 & sb2 & -> & Hsw2 & Ho2 & Hlen2 & Hf2 & Hbl2 & Hg2); try done; try lia.
  { apply sb_present_page; [lia|]. intros x Hx. apply Hpres. lia. }
  eexists _, _, _. split; [reflexivity|]. cbv beta iota. rewrite (proj2 (Z.eqb_neq (zlen data) 0) Hz).
  split_and!; simpl; try done; try lia.
  - destruct Hsw2 as [K1 K2 K3 K4 K5 K6]. constructor; simpl; try done. lia.
  - intros q Hq. rewrite Ho2 by done. apply Hb1.
  - intros i Hi. change (blen (mkSB _ _ (sb_slots sb2) _) i) with (blen sb2 i). rewrite Hbl2 by done.
    unfold blen_after. rewrite Hbl1 by done. by rewrite Z.add_0_r, Z.sub_0_r.
  - intros x Hx. change (sb_get p2 (mkSB _ _ (sb_slots sb2) _) x) with (sb_get p2 sb2 x).
    rewrite Hg2 by lia. rewrite (proj2 (Z.leb_le _ _)), (proj2 (Z.ltb_lt x _)) by lia. done.
  - intros x Hx Hout Hor. change (sb_get p2 (mkSB _ _ (sb_slots sb2) _) x) with (sb_get p2 sb2 x).
    rewrite Hg2 by lia. replace ((off + 0 <=? x) && (x <? off + zlen data)) with false.
    2:{ destruct (off + 0 <=? x) eqn:E1, (x <? off + zlen data) eqn:E2; to_prop; simpl; try done; lia. }
    destruct Hor as [Hcl|Hpg]; [by apply Hcl1|]. rewrite !sb_get_page by done.
    rewrite Hat1; [|apply Z.div_pos; [lia|apply page_size_pos]|done].
    destruct (page_at sb _); [by rewrite Hb1|done].
Qed.

(** C26: a write of some bytes into a slice buffer succeeds exactly when its range lies in
    the chunk, starts at or after the flushed part, and the pool has as many
    pages left as the range has pages the buffer does not hold; otherwise it
    fails with the error that belongs to the first of these conditions that does
    not hold, and the buffer and every page are as they were, with the pages
    reserved so far back in the pool.  When it succeeds it takes the full length: the positions of its range
    hold the data, and another position keeps its byte if its page was already
    in the buffer, or if the pool hands out zeroed pages (a page recycled by the
    disk pool shows the bytes of its previous user).  Pages of other users keep
    their bytes in every case. *)
Theorem write_at_spec p sb others off data :
  sb_wf p sb others -> 0 <= off ->
  exists r p' sb', write_at p sb off data = (r, p', sb') /\
    sb_wf p' sb' others /\ same_others p p' others /\
    match r with
    | Ok n => n = zlen data /\
        (0 < n -> sb_flushed sb <= off /\ off + n <= CHUNK_SIZE /\ pages_needed sb off (off + n) <= hp_remain p) /\
        sb_flushed sb' = sb_flushed sb /\
        sb_length sb' = (if n =? 0 then sb_length sb else Z.max (sb_length sb) (off + n)) /\
        (forall i, 0 <= i -> blen sb' i = blen_after sb off n i) /\
        (forall x, off <= x < off + n -> sb_get p' sb' x = bget data (x - off)) /\
        (forall x, 0 <= x -> ~ off <= x < off + n -> clean p \/ page_at sb (x / PAGE_SIZE) <> None ->
           sb_get p' sb' x = sb_get p sb x)
    | Err e => sb' = sb /\ (forall q, page_bytes p' q = page_bytes p q) /\
        (e = InvalidRange "slice buffer write" off (zlen data) CHUNK_SIZE /\ CHUNK_SIZE < off + zlen data \/
         e = InvalidSliceBufferWriteOffset /\ off < sb_flushed sb /\ off + zlen data <= CHUNK_SIZE \/
         e = PagePoolExhausted /\ sb_flushed sb <= off /\ off + zlen data <= CHUNK_SIZE /\
           hp_remain p < pages_needed sb off (off + zlen data))
    | Panic => False
    end.
Proof. apply write_at_effect. Qed.
End contents.

Arguments sw_size {L drift p sb others} _.
Arguments sw_pool {L drift p sb others} _.
Arguments sw_slots {L drift p sb others} _.
Arguments sw_blocks {L drift p sb others} _.
Arguments sw_cnt {L drift p sb others} _.
Arguments sw_len {L drift p sb others} _.
Arguments write_at_effect {L drift} p sb others off data _ _.
Arguments reserve_spec {L drift} p sb others off e _ _ _ _.
