(* ===== verification/SliceIO.v ===== *)
(** * Reading a slice buffer, and writing it out

    A read returns the contents of the buffer; a flush stores every block it
    takes out of the buffer and loses none, whichever write fails; what a flush
    of a gapless buffer stored reads back from the object store. *)

From S2P Require Import Prelude Common SliceKey Pool SliceBuffer SliceBufferThms.

(** The bytes a function gives for a range of positions. *)
Definition reads (f : Z -> Byte.byte) (a n : Z) : bytes := f <$> seqZ a n.

Lemma reads_nil f a n : n <= 0 -> reads f a n = [].
Proof. intros H. unfold reads. by rewrite seqZ_nil. Qed.

Lemma zlen_reads f a n : 0 <= n -> zlen (reads f a n) = n.
Proof. intros H. unfold reads, zlen. rewrite length_fmap, length_seqZ. lia. Qed.

Lemma bget_reads f a n i : 0 <= i < n -> bget (reads f a n) i = f (a + i).
Proof.
  intros H. unfold bget, reads. rewrite list_lookup_fmap, lookup_seqZ_lt by lia. simpl.
  f_equal. lia.
Qed.

Lemma reads_app f a n m : 0 <= n -> 0 <= m -> reads f a n ++ reads f (a + n) m = reads f a (n + m).
Proof. intros. unfold reads. by rewrite seqZ_app, fmap_app by lia. Qed.

Lemma reads_ext f g a n : (forall x, a <= x < a + n -> f x = g x) -> reads f a n = reads g a n.
Proof.
  intros H. unfold reads. apply list_fmap_ext. intros i x Hx. apply lookup_seqZ in Hx as [-> Hx].
  apply H. lia.
Qed.

Lemma reads_shift f g a b n :
  (forall k, 0 <= k < n -> f (a + k) = g (b + k)) -> reads f a n = reads g b n.
Proof.
  intros H. destruct (decide (n <= 0)); [by rewrite !reads_nil|].
  apply bytes_ext; rewrite !zlen_reads by lia; [done|]. intros i Hi. rewrite !bget_reads by lia.
  by apply H.
Qed.

Lemma sublist_reads f a n off m :
  0 <= off -> 0 <= m -> off + m <= n -> sublist off m (reads f a n) = reads f (a + off) m.
Proof.
  intros. assert (Hz : zlen (sublist off m (reads f a n)) = m)
    by (apply zlen_sublist; rewrite ?zlen_reads; lia).
  apply bytes_ext; [by rewrite Hz, zlen_reads|]. rewrite Hz. intros i Hi.
  rewrite bget_sublist, !bget_reads by lia. f_equal. lia.
Qed.

Section slice_io.
Context `{L : Layout} {drift : Z}.

(** ** Reading *)

Lemma pages_in_pgs db i pg : db_pages db !! i = Some (Some pg) -> pg ∈ db_pgs db.
Proof. intros H. apply list_elem_of_omap. exists (Some pg). split; [by eapply list_elem_of_lookup_2|done]. Qed.

(** One page of a block. *)
Lemma slot_read p ps db i slot off n :
  pool_wf p ps -> hp_page_size p = PAGE_SIZE -> (forall pg, pg ∈ db_pgs db -> pg ∈ ps) ->
  0 <= i -> db_pages db !! Z.to_nat i = Some slot -> 0 <= off -> 0 <= n -> off + n <= PAGE_SIZE ->
  match slot with Some pg => copy_to_writer p pg off n | None => Ok (zeros n) end =
  Ok (reads (db_get p db) (i * PAGE_SIZE + off) n).
Proof.
  intros Hw Hsz Hin Hi Hs Ho Hn Hb. pose proof page_size_pos as HP.
  assert (Hpos : forall k, 0 <= k < n -> (i * PAGE_SIZE + off + k) / PAGE_SIZE = i /\
                  (i * PAGE_SIZE + off + k) `mod` PAGE_SIZE = off + k).
  { intros k Hk. split.
    - symmetry. apply (Z.div_unique _ _ _ (off + k)); lia.
    - symmetry. apply (Z.mod_unique _ _ i); lia. }
  destruct slot as [pg|].
  - assert (Hpg : pg ∈ ps) by (eapply Hin, pages_in_pgs; exact Hs).
    rewrite (copy_to_writer_spec p ps pg off n Hw Hpg) by (rewrite ?Hsz; lia). f_equal.
    pose proof (page_len p ps pg Hw Hpg) as Hl. rewrite Hsz in Hl.
    assert (Hz : zlen (sublist off n (page_bytes p pg)) = n) by (apply zlen_sublist; lia).
    apply bytes_ext; [by rewrite Hz, zlen_reads|]. rewrite Hz. intros k Hk.
    rewrite bget_sublist, bget_reads by lia. unfold db_get. destruct (Hpos k Hk) as [-> ->]. by rewrite Hs.
  - f_equal. apply bytes_ext; [by rewrite zlen_zeros, zlen_reads|]. rewrite zlen_zeros by lia. intros k Hk.
    rewrite bget_zeros, bget_reads by lia. unfold db_get. destruct (Hpos k Hk) as [-> _]. by rewrite Hs.
Qed.

(** The page that holds a position of a block. *)
Lemma block_slot db x :
  zlen (db_pages db) = pages_per_block -> 0 <= x < BLOCK_SIZE ->
  exists slot, db_pages db !! Z.to_nat (x / PAGE_SIZE) = Some slot.
Proof.
  intros Hl Hx. pose proof page_size_pos as HP. apply lookup_lt_is_Some_2. unfold zlen in Hl.
  pose proof (Z.div_pos x PAGE_SIZE). pose proof block_size_eq.
  assert (x / PAGE_SIZE < pages_per_block) by (apply Z.div_lt_upper_bound; lia). lia.
Qed.

Lemma read_page_spec p ps b x n :
  pool_wf p ps -> hp_page_size p = PAGE_SIZE -> block_ok b -> (forall pg, pg ∈ block_pgs b -> pg ∈ ps) ->
  0 <= x < BLOCK_SIZE -> 0 <= n <= PAGE_SIZE - x `mod` PAGE_SIZE ->
  read_page p b (x / PAGE_SIZE) (x `mod` PAGE_SIZE) n = Ok (reads (block_get p b) x n).
Proof.
  intros Hw Hsz Hok Hin Hx Hn. pose proof page_size_pos as HP. assert (HP0 : PAGE_SIZE <> 0) by lia.
  pose proof (Z.mod_pos_bound x PAGE_SIZE HP) as Hm. pose proof (Z.div_mod x PAGE_SIZE HP0) as Hdm.
  destruct b as [|db]; simpl.
  - f_equal. apply bytes_ext; rewrite ?zlen_zeros, ?zlen_reads by lia; [done|]. intros k Hk.
    by rewrite bget_zeros, bget_reads by lia.
  - destruct Hok as [Hl _]. destruct (block_slot db x Hl Hx) as [slot Hs]. rewrite Hs. simpl.
    assert (Hd0 : 0 <= x / PAGE_SIZE) by (apply Z.div_pos; lia).
    rewrite (slot_read p ps db (x / PAGE_SIZE) slot _ n Hw Hsz Hin Hd0 Hs) by lia.
    do 2 f_equal. lia.
Qed.

Lemma read_pages_spec fuel p ps b bo tr d :
  pool_wf p ps -> hp_page_size p = PAGE_SIZE -> block_ok b -> (forall pg, pg ∈ block_pgs b -> pg ∈ ps) ->
  0 <= bo -> 0 <= d <= tr -> bo + tr <= BLOCK_SIZE -> (Z.to_nat (tr - d) < fuel)%nat ->
  read_pages fuel p b bo tr d = Ok (reads (block_get p b) (bo + d) (tr - d)).
Proof.
  intros Hw Hsz Hok Hin Hb. pose proof page_size_pos as HP.
  revert d. induction fuel as [|fuel IH]; intros d Hd Hbt Hf; [lia|]. simpl.
  destruct (d <? tr) eqn:E; to_prop; [|by rewrite reads_nil by lia].
  pose proof (Z.mod_pos_bound (bo + d) PAGE_SIZE HP) as Hm.
  rewrite (read_page_spec p ps) by (try done; lia). simpl. rewrite IH by lia. simpl.
  f_equal.
  replace (bo + (d + Z.min (tr - d) (PAGE_SIZE - (bo + d) `mod` PAGE_SIZE)))
    with (bo + d + Z.min (tr - d) (PAGE_SIZE - (bo + d) `mod` PAGE_SIZE)) by lia.
  rewrite reads_app by lia. f_equal. lia.
Qed.

Lemma block_pgs_in sb others i b :
  sb_slots sb !! i = Some b -> forall pg, pg ∈ block_pgs b -> pg ∈ sb_pgs sb ++ others.
Proof.
  intros H pg Hpg. apply elem_of_app. left. apply list_elem_of_bind. exists b. split; [done|].
  by eapply list_elem_of_lookup_2.
Qed.

Lemma read_blocks_spec fuel p sb others off e t :
  sb_wf drift p sb others -> 0 <= off -> 0 <= t <= e -> off + e <= CHUNK_SIZE -> (Z.to_nat (e - t) < fuel)%nat ->
  read_blocks fuel p sb off e t = Ok (reads (sb_get p sb) (off + t) (e - t)).
Proof.
  intros [H1 H2 H3 H4 H5 H6] Ho. pose proof block_size_pos as HB. assert (HB0 : BLOCK_SIZE <> 0) by lia.
  revert t. induction fuel as [|fuel IH]; intros t Ht Hc Hf; [lia|]. cbn [read_blocks].
  destruct (t <? e) eqn:E; to_prop; [|by rewrite reads_nil by lia].
  set (x := t + off). assert (Hx : x = t + off) by reflexivity.
  pose proof (Z.mod_pos_bound x BLOCK_SIZE HB) as Hm. pose proof (Z.div_mod x BLOCK_SIZE HB0) as Hdm.
  assert (Hd0 : 0 <= x / BLOCK_SIZE) by (apply Z.div_pos; lia).
  assert (Hdl : x / BLOCK_SIZE < blocks_per_chunk).
  { apply Z.div_lt_upper_bound; [lia|]. pose proof chunk_size_eq. lia. }
  destruct (sb_slots sb !! Z.to_nat (x / BLOCK_SIZE)) as [b|] eqn:Hs.
  2:{ apply lookup_ge_None in Hs. unfold zlen in H3. lia. }
  cbn [ok_or mbind outcome_bind]. set (n := Z.min (e - t) (BLOCK_SIZE - x `mod` BLOCK_SIZE)).
  assert (Hn : n = Z.min (e - t) (BLOCK_SIZE - x `mod` BLOCK_SIZE)) by reflexivity.
  assert (Hok : block_ok b) by (rewrite Forall_lookup in H4; by eapply H4).
  assert (Hin : forall pg, pg ∈ block_pgs b -> pg ∈ sb_pgs sb ++ others) by (by eapply block_pgs_in).
  assert (Hfu : (Z.to_nat (n - 0) < S (Z.to_nat n))%nat) by lia.
  rewrite (read_pages_spec (S (Z.to_nat n)) p (sb_pgs sb ++ others) b (x `mod` BLOCK_SIZE) n 0)
    by (try done; lia).
  simpl. rewrite IH by lia. simpl. rewrite Z.add_0_r, Z.sub_0_r. f_equal.
  replace (reads (block_get p b) (x `mod` BLOCK_SIZE) n) with (reads (sb_get p sb) (off + t) n).
  { replace (off + (t + n)) with (off + t + n) by lia. rewrite reads_app by lia. f_equal. lia. }
  apply reads_shift. intros k Hk. unfold sb_get.
  replace (off + t + k) with (x `mod` BLOCK_SIZE + k + x / BLOCK_SIZE * BLOCK_SIZE) by lia.
  rewrite Z.div_add, Z.mod_add by lia. rewrite Z.div_small, Z.mod_small by lia. rewrite Z.add_0_l. by rewrite Hs.
Qed.

(** A read of a slice buffer at any offset returns exactly the contents of
    the buffer from there, as many bytes as the destination takes and the slice
    has, holes as zeroes; it never fails. *)
Theorem read_at_contents p sb others off n :
  sb_wf drift p sb others -> 0 <= off -> 0 <= n ->
  read_at p sb off n = Ok (reads (sb_get p sb) off (Z.min n (sb_length sb - off))).
Proof.
  intros Hw Ho Hn. unfold read_at. destruct (sw_len Hw) as [_ Hl].
  destruct (sb_length sb <=? off) eqn:E1; to_prop; [by rewrite reads_nil by lia|].
  destruct (n =? 0) eqn:E2; to_prop; [by rewrite reads_nil by lia|].
  rewrite (read_blocks_spec _ _ _ others) by (try done; lia). do 2 f_equal; lia.
Qed.

(** ** Writing blocks out *)

Lemma copy_block_spec oob fuel p ps db len cur :
  pool_wf p ps -> hp_page_size p = PAGE_SIZE -> (forall pg, pg ∈ db_pgs db -> pg ∈ ps) ->
  zlen (db_pages db) = pages_per_block -> 0 <= cur <= len -> len <= BLOCK_SIZE ->
  (Z.to_nat (len - cur) < fuel)%nat ->
  copy_block oob fuel p (db_pages db) len cur = Ok (reads (db_get p db) cur (len - cur)).
Proof.
  intros Hw Hsz Hin Hl. pose proof page_size_pos as HP. assert (HP0 : PAGE_SIZE <> 0) by lia.
  revert cur. induction fuel as [|fuel IH]; intros cur Hc Hb Hf; [lia|]. cbn [copy_block].
  destruct (cur <? len) eqn:E; to_prop; [|by rewrite reads_nil by lia].
  assert (Hr : 0 <= cur < BLOCK_SIZE) by lia.
  destruct (block_slot db cur Hl Hr) as [slot Hs]. rewrite Hs. cbn [mbind outcome_bind].
  pose proof (Z.mod_pos_bound cur PAGE_SIZE HP) as Hm. pose proof (Z.div_mod cur PAGE_SIZE HP0) as Hdm.
  assert (Hd0 : 0 <= cur / PAGE_SIZE) by (apply Z.div_pos; lia).
  set (n := Z.min (PAGE_SIZE - cur `mod` PAGE_SIZE) (len - cur)).
  assert (Hn : n = Z.min (PAGE_SIZE - cur `mod` PAGE_SIZE) (len - cur)) by reflexivity.
  pose proof (slot_read p ps db (cur / PAGE_SIZE) slot (cur `mod` PAGE_SIZE) n Hw Hsz Hin Hd0 Hs) as Hsr.
  replace (match slot with None => Ok (zeros n) | Some pg => copy_to_writer p pg (cur `mod` PAGE_SIZE) n end)
    with (Ok (E:=StorageError) (reads (db_get p db) cur n)).
  2:{ transitivity (match slot with Some pg => copy_to_writer p pg (cur `mod` PAGE_SIZE) n | None => Ok (zeros n) end);
        [|by destruct slot].
      rewrite Hsr by lia. do 2 f_equal. lia. }
  cbn [mbind outcome_bind]. rewrite IH by lia. cbn [mbind outcome_bind]. rewrite reads_app by lia.
  do 2 f_equal. lia.
Qed.

Lemma data_block_object_spec p sb others i db :
  sb_wf drift p sb others -> sb_slots sb !! i = Some (BData db) ->
  data_block_object p db = Ok (reads (db_get p db) 0 (db_length db)).
Proof.
  intros [H1 H2 H3 H4 H5 H6] Hs. rewrite Forall_lookup in H4. destruct (H4 _ _ Hs) as [Hl Hd].
  unfold data_block_object. rewrite (copy_block_spec _ _ p (sb_pgs sb ++ others)); try done; try lia.
  - by rewrite Z.sub_0_r.
  - by eapply (block_pgs_in sb others i (BData db)).
Qed.

(** A buffer never holds more pages than fit in a chunk. *)
Lemma sb_pgs_bound slots :
  Forall block_ok slots -> zlen (slots ≫= block_pgs) <= zlen slots * pages_per_block.
Proof.
  pose proof pages_per_block_pos. induction 1 as [|b slots Hb Hs IH]; [done|]. cbn [mbind list_bind].
  rewrite zlen_app, zlen_cons. assert (Hbp : zlen (block_pgs b) <= pages_per_block); [|lia].
  destruct b as [|db]; [simpl; unfold zlen; simpl; lia|]. destruct Hb as [<- _]. simpl.
  unfold db_pgs, zlen. apply inj_le.
  induction (db_pages db) as [|[pg|] l IHl]; cbn [omap list_omap id length]; lia.
Qed.

Lemma page_total_small : blocks_per_chunk * pages_per_block < 2 ^ 32.
Proof.
  pose proof page_size_pos. pose proof pages_per_block_pos. pose proof blocks_per_chunk_pos.
  pose proof block_size_eq. pose proof chunk_size_eq. pose proof chunk_size_u32. nia.
Qed.

(** Taking a block out of the buffer and giving its pages back; the counter
    still counts them. *)
Lemma flushed_block_drift p sb others i db :
  sb_wf drift p sb others -> 0 <= i -> sb_slots sb !! Z.to_nat i = Some (BData db) ->
  exists p', drop_pages (db_pgs db) p = Ok p' /\ (forall q, page_bytes p' q = page_bytes p q) /\
    sb_wf (drift + zlen (db_pgs db)) p' (flushed_block sb i db) others.
Proof.
  intros [H1 H2 H3 H4 H5 H6] Hi Hs. pose proof (lookup_lt_Some _ _ _ Hs) as Hlt.
  set (rest := delete (Z.to_nat i) (sb_slots sb) ≫= block_pgs).
  assert (Hperm : sb_pgs sb ≡ₚ db_pgs db ++ rest) by (by apply (sb_pgs_at sb i (BData db))).
  assert (Hperm' : sb_pgs (set_slot i BEmpty sb) ≡ₚ rest) by (by apply (sb_pgs_set sb i BEmpty)).
  assert (Hw : pool_wf p (db_pgs db ++ (rest ++ others))) by (by rewrite app_assoc, <- Hperm).
  destruct (drop_pages_spec _ _ _ Hw) as (p' & Hd & Hw' & Hb & Hz). exists p'. split_and!; [done|done|].
  constructor; cbn [sb_slots sb_page_cnt sb_length sb_flushed set_page_cnt flushed_block set_slot]; try done.
  - congruence.
  - change (sb_pgs _) with (sb_pgs (set_slot i BEmpty sb)). by rewrite Hperm'.
  - unfold zlen in *. by rewrite length_insert.
  - by apply Forall_insert.
  - change (sb_pgs _) with (sb_pgs (set_slot i BEmpty sb)). rewrite (zlen_perm _ _ Hperm').
    rewrite H5, (zlen_perm _ _ Hperm), zlen_app. lia.
  - rewrite Forall_lookup in H4. destruct (H4 _ _ Hs) as [_ Hdl]. lia.
Qed.

(** The counter is brought up to date. *)
Lemma recount_wf d p sb others n :
  sb_wf drift p sb others -> n = zlen (sb_pgs sb) + d -> sb_wf d p (set_page_cnt n sb) others.
Proof. intros [H1 H2 H3 H4 H5 H6] ->. by constructor. Qed.

Lemma sb_pgs_small p sb others : sb_wf drift p sb others -> 0 <= zlen (sb_pgs sb) < 2 ^ 32.
Proof.
  intros [H1 H2 H3 H4 H5 H6]. pose proof (sb_pgs_bound _ H4) as Hbd. rewrite H3 in Hbd.
  fold (sb_pgs sb) in Hbd. pose proof page_total_small. pose proof (zlen_nonneg (sb_pgs sb)). lia.
Qed.
End slice_io.

Section flushing.
Context `{L : Layout}.

Lemma flushed_block_wf p sb others i db :
  sb_wf 0 p sb others -> 0 <= i -> sb_slots sb !! Z.to_nat i = Some (BData db) ->
  exists p', drop_pages (db_pgs db) p = Ok p' /\ (forall q, page_bytes p' q = page_bytes p q) /\
    sb_wf 0 p' (set_page_cnt (u64_wrap (sb_page_cnt (flushed_block sb i db) - zlen (db_pgs db)))
                (flushed_block sb i db)) others.
Proof.
  intros Hw Hi Hs. destruct (flushed_block_drift p sb others i db Hw Hi Hs) as (p' & Hd & Hb & Hw').
  exists p'. split_and!; [done|done|]. eapply recount_wf; [exact Hw'|].
  pose proof (sb_pgs_small _ _ _ Hw'). rewrite (sw_cnt Hw'). unfold u64_wrap. rewrite Z.mod_small; lia.
Qed.

(** A block is in the store under its key. *)
Definition stored (key_gen : Z -> Z -> string) (store : ObjectStore) (p : HybridPagePool) (i : Z)
    (db : DataBlock) : Prop :=
  store !! key_gen i (db_length db) = Some (reads (db_get p db) 0 (db_length db)).

Definition slot (sb : SliceBuffer) (i : Z) : option Block := sb_slots sb !! Z.to_nat i.

Lemma db_get_same p p' db x :
  (forall q, page_bytes p' q = page_bytes p q) -> db_get p' db x = db_get p db x.
Proof. intros H. unfold db_get. by destruct (db_pages db !! _) as [[q|]|]; rewrite ?H. Qed.

Lemma stored_same key_gen store p p' i db :
  (forall q, page_bytes p' q = page_bytes p q) -> stored key_gen store p' i db -> stored key_gen store p i db.
Proof.
  intros H Hs. unfold stored in *. rewrite Hs. f_equal. apply reads_ext. intros x _.
  by apply db_get_same.
Qed.

(** What a flush leaves behind: every block it had to write is either stored
    and gone from the buffer, or still in the buffer after an error. *)
Record flush_post (key_gen : Z -> Z -> string) (idxs : list Z) (others : list Page)
    (p : HybridPagePool) (sb : SliceBuffer) (store : ObjectStore)
    (r : SResult Z) (p' : HybridPagePool) (sb' : SliceBuffer) (store' : ObjectStore) : Prop := {
  fp_wf : sb_wf 0 p' sb' others;
  fp_bytes : forall q, page_bytes p' q = page_bytes p q;
  fp_length : sb_length sb' = sb_length sb;
  fp_others : forall i, 0 <= i -> i ∉ idxs -> slot sb' i = slot sb i;
  fp_keys : forall k, (forall i len, i ∈ idxs -> 0 <= len <= BLOCK_SIZE -> k <> key_gen i len) -> store' !! k = store !! k;
  fp_blocks : forall i db, i ∈ idxs -> slot sb i = Some (BData db) ->
    slot sb' i = Some BEmpty /\ stored key_gen store' p i db \/
    r = Err UnknownIOError /\ slot sb' i = Some (BData db);
  fp_result : r = Err UnknownIOError \/ exists n, r = Ok n
}.

Lemma slot_flushed sb i db c j :
  0 <= i -> 0 <= j -> (Z.to_nat i < length (sb_slots sb))%nat ->
  slot (set_page_cnt c (flushed_block sb i db)) j = if decide (i = j) then Some BEmpty else slot sb j.
Proof.
  intros Hi Hj Hlt. unfold slot. cbn. case_decide as E.
  - subst. by rewrite list_lookup_insert_eq.
  - rewrite list_lookup_insert_ne by lia. done.
Qed.

Lemma flush_blocks_spec put_ok key_gen idxs n rel p sb store others :
  sb_wf 0 p sb others -> NoDup idxs -> Forall (fun i => 0 <= i) idxs ->
  (forall i j a b, i ∈ idxs -> j ∈ idxs -> 0 <= a <= BLOCK_SIZE -> 0 <= b <= BLOCK_SIZE ->
     key_gen i a = key_gen j b -> i = j) ->
  exists r p' sb' store',
    flush_blocks put_ok key_gen idxs n rel (p, sb, store) = (r, (p', sb', store')) /\
    flush_post key_gen idxs others p sb store r p' sb' store' /\
    ((forall k, put_ok k = true) -> exists m, r = Ok m).
Proof.
  revert n rel p sb store. induction idxs as [|i idxs IH]; intros n rel p sb store Hw Hnd Hpos Hinj.
  { eexists _, _, _, _. split; [reflexivity|]. split; [|by exists rel].
    constructor; try done; [|by right; exists rel]. intros i db Hi. by apply elem_of_nil in Hi. }
  apply NoDup_cons in Hnd as [Hni Hnd]. apply Forall_cons in Hpos as [Hi Hpos].
  assert (Hinj' : forall i j a b, i ∈ idxs -> j ∈ idxs -> 0 <= a <= BLOCK_SIZE -> 0 <= b <= BLOCK_SIZE ->
    key_gen i a = key_gen j b -> i = j).
  { intros i' j' a b Hi' Hj'. apply Hinj; by right. }
  cbn [flush_blocks]. destruct (sb_slots sb !! Z.to_nat i) as [[|db]|] eqn:Hs.
  1,3: destruct (IH n rel p sb store Hw Hnd Hpos Hinj') as (r & p' & sb' & store' & Hr & [F1 F2 F3 F4 F5 F6 F7] & Hok);
    exists r, p', sb', store'; split; [exact Hr|]; split; [|done]; constructor; try done;
    [intros j Hj Hnj; apply F4; [done|]; intros Hin; apply Hnj; by right
    |intros k Hk; apply F5; intros j len Hj; apply Hk; by right
    |intros j db Hj Hsj; apply elem_of_cons in Hj as [->|Hj]; [unfold slot in Hsj; congruence|by apply F6]].
  rewrite (data_block_object_spec p sb others _ db Hw Hs).
  destruct (put_ok n) eqn:Hput.
  2:{ eexists _, _, _, _. split; [reflexivity|]. split; [|intros Hall; by rewrite Hall in Hput].
      constructor; try done; [|by left]. intros j db' Hj Hsj. right. done. }
  destruct (flushed_block_wf p sb others i db Hw Hi Hs) as (p1 & -> & Hb1 & Hw1).
  set (sb1 := set_page_cnt _ _) in *. set (store1 := <[_ := _]> store).
  pose proof (lookup_lt_Some _ _ _ Hs) as Hlt.
  assert (Hdl : 0 <= db_length db <= BLOCK_SIZE).
  { pose proof (sw_blocks Hw) as Hbk. rewrite Forall_lookup in Hbk. apply (Hbk _ _ Hs). }
  assert (Hslot : forall j, 0 <= j -> slot sb1 j = if decide (i = j) then Some BEmpty else slot sb j)
    by (intros j Hj; by apply slot_flushed).
  destruct (IH (S n) (rel + zlen (db_pgs db)) p1 sb1 store1 Hw1 Hnd Hpos Hinj')
    as (r & p' & sb' & store' & Hr & [F1 F2 F3 F4 F5 F6 F7] & Hok).
  exists r, p', sb', store'. split; [exact Hr|]. split; [|done]. constructor; try done.
  - intros q. by rewrite F2.
  - intros j Hj Hnj. apply not_elem_of_cons in Hnj as [Hne Hnj]. rewrite F4 by done.
    rewrite Hslot by done. by rewrite decide_False by congruence.
  - intros k Hk. rewrite F5 by (intros j len Hj; apply Hk; by right). unfold store1.
    rewrite lookup_insert_ne; [done|]. intros Ek. by apply (Hk i (db_length db)); [left|lia|].
  - intros j db' Hj Hsj. apply elem_of_cons in Hj as [->|Hj].
    + left. unfold slot in Hsj. rewrite Hs in Hsj. injection Hsj as <-. split.
      * rewrite F4 by done. rewrite Hslot by done. by rewrite decide_True.
      * unfold stored. rewrite F5.
        { unfold store1. by rewrite lookup_insert_eq. }
        intros j len Hj Hlen Ek. apply Hinj in Ek; [by subst|by left|by right|lia|lia].
    + assert (Hj0 : 0 <= j) by (rewrite Forall_forall in Hpos; by apply Hpos).
      assert (Hne : i <> j) by congruence.
      destruct (F6 j db' Hj) as [[E1 E2]|[E1 E2]].
      { rewrite Hslot by done. by rewrite decide_False. }
      * left. split; [done|]. by eapply stored_same.
      * right. done.
Qed.

(** ** The blocks a flush takes *)

Lemma pending_spec sb off i :
  0 <= i -> i ∈ pending_blocks sb off <->
    exists db, slot sb i = Some (BData db) /\ (i + 1) * BLOCK_SIZE <= off.
Proof.
  intros Hi. unfold pending_blocks, slot. rewrite list_elem_of_filter, elem_of_seqZ. split.
  - intros [H _]. destruct (sb_slots sb !! Z.to_nat i) as [[|db]|]; try done. to_prop. by exists db.
  - intros (db & Hs & Hb). rewrite Hs. split; [by apply Z.leb_le|]. apply lookup_lt_Some in Hs.
    unfold zlen. lia.
Qed.

Lemma pending_nodup sb off : NoDup (pending_blocks sb off) /\ Forall (fun i => 0 <= i) (pending_blocks sb off).
Proof.
  split; [apply NoDup_filter, NoDup_seqZ|]. apply Forall_forall. intros i Hi.
  apply list_elem_of_filter in Hi as [_ Hi]. apply elem_of_seqZ in Hi. lia.
Qed.

(** ** Reading stored blocks back *)

Lemma read_objects_spec fuel gen_key store f len off e t :
  0 <= off -> 0 <= t <= e -> off + e <= len -> len <= CHUNK_SIZE -> (Z.to_nat (e - t) < fuel)%nat ->
  (forall i, 0 <= i -> i * BLOCK_SIZE < len ->
     let n := Z.min (len - i * BLOCK_SIZE) BLOCK_SIZE in
     store !! gen_key i n = Some (reads f (i * BLOCK_SIZE) n)) ->
  read_objects fuel gen_key store len off e t = Ok (reads f (off + t) (e - t)).
Proof.
  intros Ho Ht He Hc Hf Hst. pose proof block_size_pos as HB. assert (HB0 : BLOCK_SIZE <> 0) by lia.
  pose proof chunk_size_u32 as Hu.
  revert t Ht Hf. induction fuel as [|fuel IH]; intros t Ht Hf; [lia|]. cbn [read_objects].
  destruct (t <? e) eqn:E; to_prop; [|by rewrite reads_nil by lia].
  set (x := t + off). assert (Hx : x = t + off) by reflexivity.
  pose proof (Z.mod_pos_bound x BLOCK_SIZE HB) as Hm. pose proof (Z.div_mod x BLOCK_SIZE HB0) as Hdm.
  assert (Hd0 : 0 <= x / BLOCK_SIZE) by (apply Z.div_pos; lia).
  assert (Hob : cal_object_block_size len (x / BLOCK_SIZE) BLOCK_SIZE =
                Z.min (len - x / BLOCK_SIZE * BLOCK_SIZE) BLOCK_SIZE).
  { unfold cal_object_block_size, u64_wrap. rewrite Z.mod_small by lia. done. }
  rewrite Hob. set (o := Z.min (len - x / BLOCK_SIZE * BLOCK_SIZE) BLOCK_SIZE).
  assert (Eo : o = Z.min (len - x / BLOCK_SIZE * BLOCK_SIZE) BLOCK_SIZE) by reflexivity.
  assert (Hlt : x / BLOCK_SIZE * BLOCK_SIZE < len) by lia.
  pose proof (Hst _ Hd0 Hlt) as Hg. cbv zeta in Hg. rewrite <- Eo in Hg.
  unfold bytes in *. rewrite Hg. cbn [ok_or mbind outcome_bind].
  rewrite zlen_reads by lia. rewrite (proj2 (Z.leb_le _ _)) by lia. cbn [ensure mbind outcome_bind].
  rewrite IH by lia. cbn [mbind outcome_bind]. rewrite sublist_reads by lia.
  replace (x / BLOCK_SIZE * BLOCK_SIZE + x `mod` BLOCK_SIZE) with (off + t) by lia.
  set (n := Z.min (e - t) (o - x `mod` BLOCK_SIZE)).
  assert (Hn : n = Z.min (e - t) (o - x `mod` BLOCK_SIZE)) by reflexivity.
  replace (off + (t + n)) with (off + t + n) by lia. rewrite reads_app by lia. do 2 f_equal. lia.
Qed.

(** ** Sequences of writes *)

(** A buffer without holes: each block is as long as the slice reaches. *)
Definition gapless (sb : SliceBuffer) : Prop :=
  sb_flushed sb = 0 /\
  (forall i, 0 <= i -> blen sb i = Z.max 0 (Z.min BLOCK_SIZE (sb_length sb - i * BLOCK_SIZE))) /\
  (forall x, 0 <= x < sb_length sb -> page_at sb (x / PAGE_SIZE) <> None).

Fixpoint write_all (p : HybridPagePool) (sb : SliceBuffer) (ws : list (Z * bytes))
    : SResult () * HybridPagePool * SliceBuffer :=
  match ws with
  | [] => (Ok (), p, sb)
  | (off, data) :: ws =>
      let '(r, p, sb) := write_at p sb off data in
      match r with
      | Ok _ => write_all p sb ws
      | Err e => (Err e, p, sb)
      | Panic => (Panic, p, sb)
      end
  end.

(** The byte at [x] after the writes, the last one that covers it deciding. *)
Fixpoint written (base : Z -> Byte.byte) (ws : list (Z * bytes)) (x : Z) : Byte.byte :=
  match ws with
  | [] => base x
  | (off, data) :: ws =>
      written (fun y => if (off <=? y) && (y <? off + zlen data) then bget data (y - off) else base y) ws x
  end.

(** Writes that start inside the data written so far or right at its end. *)
Fixpoint no_gaps (len : Z) (ws : list (Z * bytes)) : bool :=
  match ws with
  | [] => true
  | (off, data) :: ws =>
      (0 <=? off) && (off <=? len) &&
      no_gaps (if zlen data =? 0 then len else Z.max len (off + zlen data)) ws
  end.

Definition has_page (l : list (option Page)) (k : nat) : Prop := exists pg, l !! k = Some (Some pg).

Lemma has_page_insert l k j pg : has_page l k -> has_page (<[j := Some pg]> l) k.
Proof.
  intros [q Hq]. destruct (decide (j = k)) as [->|Hne].
  - exists pg. apply list_lookup_insert_eq. by eapply lookup_lt_Some.
  - exists q. by rewrite list_lookup_insert_ne.
Qed.

Lemma write_pages_keeps fuel p db cnt bo tw d t data k :
  has_page (db_pages db) k ->
  has_page (db_pages (write_pages fuel p db cnt bo tw d t data).2.1.2) k.
Proof.
  revert p db cnt d t. induction fuel as [|fuel IH]; intros p db cnt d t H; [done|]. cbn [write_pages].
  destruct (d <? tw); [|done]. unfold get_page.
  destruct (db_pages db !! _) as [[pg|]|]; [| |done].
  - destruct (copy_from_reader _ _ _ _) as [[pg' p']| |]; [|done..]. apply IH. by apply has_page_insert.
  - destruct (try_acquire_page p) as [[pg p1]|]; [|done].
    destruct (copy_from_reader _ _ _ _) as [[pg' p']| |];
      [apply IH; simpl; by apply has_page_insert, has_page_insert|simpl; by apply has_page_insert..].
Qed.

Lemma page_at_has sb g : page_at sb g <> None <->
  exists db, slot sb (g / pages_per_block) = Some (BData db) /\
    has_page (db_pages db) (Z.to_nat (g `mod` pages_per_block)).
Proof.
  unfold page_at, slot, has_page. split.
  - destruct (sb_slots sb !! _) as [[|db]|]; [done| |done]. intros H. exists db. split; [done|].
    destruct (db_pages db !! _) as [[pg|]|]; [by exists pg|done..].
  - intros (db & -> & pg & ->). done.
Qed.

Lemma write_blocks_keeps fuel p sb off t data g :
  0 <= off -> 0 <= t -> 0 <= g ->
  page_at sb g <> None -> page_at (write_blocks fuel p sb off t data).2 g <> None.
Proof.
  intros Ho Ht Hg. pose proof block_size_pos as HB. pose proof pages_per_block_pos as Hppb.
  revert p sb t Ht. induction fuel as [|fuel IH]; intros p sb t Ht H; [done|].
  cbn [write_blocks]. destruct (t <? zlen data) eqn:E; [|done]. to_prop.
  set (i := (off + t) / BLOCK_SIZE). destruct (sb_slots sb !! Z.to_nat i) as [b|] eqn:Hs; [|done].
  set (n := Z.min _ _). destruct (write_pages _ _ _ _ _ _ _ _ _) as [r [[p' db'] cnt']] eqn:Hwp.
  assert (Hkeep : page_at (set_page_cnt cnt' (set_slot i (BData db') sb)) g <> None).
  { apply page_at_has in H as (db & Hdb & Hh). apply page_at_has.
    assert (Hi0 : 0 <= i) by (apply Z.div_pos; lia).
    assert (Hg0 : 0 <= g / pages_per_block) by (apply Z.div_pos; lia).
    unfold slot in *. cbn. destruct (decide (i = g / pages_per_block)) as [Ei|Hne].
    - exists db'. rewrite <- Ei in *. rewrite list_lookup_insert_eq by (by eapply lookup_lt_Some).
      split; [done|]. rewrite Hs in Hdb. injection Hdb as ->.
      pose proof (write_pages_keeps (S (Z.to_nat n)) p db (sb_page_cnt sb) ((off + t) `mod` BLOCK_SIZE) n 0 t data
        _ Hh) as Hk. rewrite Hwp in Hk. exact Hk.
    - exists db. rewrite list_lookup_insert_ne by lia. done. }
  destruct r; [|exact Hkeep..]. apply IH; [|exact Hkeep]. subst n.
  pose proof (Z.mod_pos_bound (off + t) BLOCK_SIZE HB). lia.
Qed.

(** A successful write keeps the pages of the buffer and has those it needs. *)
Lemma write_at_pages {d} p sb others off data n p' sb' x :
  sb_wf d p sb others -> 0 <= off -> write_at p sb off data = (Ok n, p', sb') -> 0 <= x ->
  off <= x < off + zlen data \/ page_at sb (x / PAGE_SIZE) <> None -> page_at sb' (x / PAGE_SIZE) <> None.
Proof.
  intros Hw Ho H Hx Hor. unfold write_at in H. pose proof (zlen_nonneg data).
  destruct (zlen data =? 0) eqn:Hz; to_prop.
  { injection H as <- <- <-. destruct Hor; [lia|done]. }
  unfold checked_add64 in H. pose proof (Z.div_pos x PAGE_SIZE Hx page_size_pos) as Hg.
  destruct (off + zlen data <? 2 ^ 64); [|done]. cbn [mbind option_bind] in H.
  destruct (off + zlen data <=? CHUNK_SIZE) eqn:Hc; [|done]. to_prop.
  destruct (off <? sb_flushed sb); [done|].
  destruct (reserve_spec p sb others off (off + zlen data) Hw Ho ltac:(lia) Hc)
    as (r & p1 & sb1 & Hr & _ & _ & _ & _ & _ & Hat & _ & Hres). rewrite Hr in H.
  destruct Hres as [(-> & _)|(-> & Hpres & _)]; [done|].
  pose proof (write_blocks_keeps (S (Z.to_nat (zlen data))) p1 sb1 off 0 data (x / PAGE_SIZE) Ho ltac:(lia) Hg) as Hk.
  destruct (write_blocks _ _ _ _ _ _) as [[[u| |] p2] sb2]; [|done..]. injection H as _ _ <-.
  apply Hk. destruct Hor as [Hin|Hp]; [by apply Hpres|]. by rewrite Hat.
Qed.

Lemma write_at_gapless p sb others off data n p' sb' :
  sb_wf 0 p sb others -> gapless sb -> 0 <= off <= sb_length sb -> write_at p sb off data = (Ok n, p', sb') ->
  sb_wf 0 p' sb' others /\ gapless sb' /\
  sb_length sb' = (if zlen data =? 0 then sb_length sb else Z.max (sb_length sb) (off + zlen data)) /\
  (forall x, 0 <= x < sb_length sb' -> sb_get p' sb' x =
     if (off <=? x) && (x <? off + zlen data) then bget data (x - off) else sb_get p sb x).
Proof.
  intros Hw (G1 & G2 & G3) Ho H. assert (Ho0 : 0 <= off) by lia.
  pose proof (zlen_nonneg data) as Hdn. pose proof block_size_pos as HB.
  destruct (write_at_effect p sb others off data Hw Ho0) as (r & q & sb1 & Hr & Hw1 & _ & Hm).
  rewrite H in Hr. injection Hr as <- <- <-. destruct Hm as (-> & _ & Hf & Hl & Hb & Hin & Hout).
  split_and!; [done| |done|].
  - split_and!; [congruence| |].
    + intros i Hi. rewrite Hb, Hl by done. unfold blen_after. rewrite G2 by done.
      destruct (zlen data =? 0) eqn:Hz; to_prop; [by rewrite Hz|].
      rewrite (proj2 (Z.ltb_lt 0 _)) by lia. simpl.
      destruct (off <? (i + 1) * BLOCK_SIZE) eqn:E1, (i * BLOCK_SIZE <? off + zlen data) eqn:E2; simpl; to_prop; lia.
    + intros x Hx. rewrite Hl in Hx. eapply write_at_pages; [exact Hw|exact Ho0|exact H|lia|].
      destruct (decide (x < sb_length sb)); [right; apply G3; lia|left].
      destruct (zlen data =? 0); to_prop; lia.
  - intros x Hx. destruct (off <=? x) eqn:E1, (x <? off + zlen data) eqn:E2; simpl; to_prop;
      [apply Hin; lia|apply Hout; [lia|lia|]..]; right; apply G3; rewrite Hl in Hx;
      destruct (zlen data =? 0); to_prop; lia.
Qed.

Lemma write_all_spec f ws p sb others p' sb' :
  sb_wf 0 p sb others -> gapless sb -> no_gaps (sb_length sb) ws = true ->
  (forall x, 0 <= x < sb_length sb -> sb_get p sb x = f x) ->
  write_all p sb ws = (Ok (), p', sb') ->
  sb_wf 0 p' sb' others /\ gapless sb' /\
  (forall x, 0 <= x < sb_length sb' -> sb_get p' sb' x = written f ws x).
Proof.
  revert f p sb. induction ws as [|[off data] ws IH]; intros f p sb Hw Hg Hn Hf H; simpl in *.
  { injection H as <- <-. done. }
  to_prop. destruct (write_at p sb off data) as [[[n|e|] p1] sb1] eqn:Hwr; [|done..].
  destruct (write_at_gapless p sb others off data n p1 sb1) as (Hw1 & Hg1 & Hl1 & Hc1); [done|done|lia|done|].
  rewrite <- Hl1 in *. apply (IH _ p1 sb1); [done..| |done].
  intros x Hx. rewrite Hc1 by done. rewrite Hl1 in Hx. pose proof (zlen_nonneg data).
  destruct (off <=? x) eqn:E1, (x <? off + zlen data) eqn:E2; simpl; to_prop; try done; apply Hf;
    destruct (zlen data =? 0); to_prop; lia.
Qed.

Lemma new_buffer_wf p others :
  pool_wf p others -> hp_page_size p = PAGE_SIZE ->
  sb_wf 0 p slice_buffer_new others /\ gapless slice_buffer_new.
Proof.
  intros Hw Hs. pose proof block_size_pos. pose proof blocks_per_chunk_pos. pose proof chunk_size_eq.
  assert (Hp : forall n, replicate n BEmpty ≫= block_pgs = []) by (intros n; by induction n).
  split; [constructor; cbn; try done|split_and!; cbn; try done].
  - unfold sb_pgs, slice_buffer_new; cbn. by rewrite Hp.
  - unfold zlen. rewrite length_replicate, blocks_per_chunk_eq. lia.
  - by apply Forall_replicate.
  - unfold sb_pgs, slice_buffer_new; cbn. by rewrite Hp.
  - nia.
  - intros i Hi. unfold blen. cbn.
    destruct (replicate _ BEmpty !! Z.to_nat i) as [b|] eqn:E; [|nia].
    apply lookup_replicate in E as [-> _]. nia.
  - lia.
Qed.

(** A gapless buffer keeps the block that holds a position. *)
Lemma gapless_block sb i :
  gapless sb -> 0 <= i -> i * BLOCK_SIZE < sb_length sb ->
  exists db, slot sb i = Some (BData db) /\ db_length db = Z.min (sb_length sb - i * BLOCK_SIZE) BLOCK_SIZE.
Proof.
  intros (_ & G & _) Hi Hl. specialize (G i Hi). unfold blen in G. unfold slot. pose proof block_size_pos.
  destruct (sb_slots sb !! Z.to_nat i) as [[|db]|]; [lia| |lia]. exists db. split; [done|lia].
Qed.

Lemma object_key_block sid i j a b :
  0 <= sid < 2 ^ 64 -> 0 <= i < 2 ^ 64 -> 0 <= j < 2 ^ 64 -> 0 <= a < 2 ^ 64 -> 0 <= b < 2 ^ 64 ->
  make_slice_object_key sid i a = make_slice_object_key sid j b -> i = j.
Proof.
  intros Hs Hi Hj Ha Hb E.
  assert (K : mkSliceKey sid i a = mkSliceKey sid j b); [|congruence].
  apply object_key_inj; [unfold slice_key_wf, is_u64; cbn; lia..|exact E].
Qed.

Lemma flush_bulk_to_post put_ok sid off p sb store others :
  sb_wf 0 p sb others -> 0 <= sid < 2 ^ 64 -> sb_flushed sb <= off <= CHUNK_SIZE ->
  exists r p' sb' store',
    flush_bulk_to put_ok (make_slice_object_key sid) off p sb store = (r, (p', sb', store')) /\
    flush_post (make_slice_object_key sid) (pending_blocks sb off) others p sb store r p' sb' store' /\
    ((forall k, put_ok k = true) -> exists m, r = Ok m).
Proof.
  intros Hw Hsid Ho. unfold flush_bulk_to. rewrite (proj2 (Z.ltb_ge _ _)) by lia.
  rewrite (proj2 (Z.ltb_ge _ _)) by lia. destruct (pending_nodup sb off) as [Hnd Hpos].
  pose proof block_size_pos. pose proof blocks_per_chunk_pos. pose proof chunk_size_eq. pose proof chunk_size_u32.
  apply flush_blocks_spec; [done..|]. intros i j a b Hi Hj Ha Hb.
  assert (Hr : forall k, k ∈ pending_blocks sb off -> 0 <= k < 2 ^ 64).
  { intros k Hk. rewrite Forall_forall in Hpos. specialize (Hpos k Hk).
    apply pending_spec in Hk as (db & _ & Hk); [|done]. nia. }
  assert (BLOCK_SIZE < 2 ^ 64) by nia.
  apply object_key_block; [done|by apply Hr|by apply Hr|lia|lia].
Qed.

(** C39: flushing a slice buffer up to an offset of the chunk that is not before its
    flushed part loses no data, whichever uploads fail: every block the flush has
    to write is, when it returns, either stored in the
    object store under the block's own key with the block's bytes (and gone from
    the buffer, its pages back in the pool), or still in the buffer, and then the
    flush reports an error.  Blocks past the flush offset, other objects and
    other users' pages are untouched, and without failing uploads the flush
    succeeds. *)
Theorem flush_loses_nothing put_ok sid off p sb store others :
  sb_wf 0 p sb others -> 0 <= sid < 2 ^ 64 -> sb_flushed sb <= off <= CHUNK_SIZE ->
  exists r p' sb' store',
    flush_bulk_to put_ok (make_slice_object_key sid) off p sb store = (r, (p', sb', store')) /\
    sb_wf 0 p' sb' others /\ sb_length sb' = sb_length sb /\ (forall q, page_bytes p' q = page_bytes p q) /\
    (forall i db, 0 <= i -> slot sb i = Some (BData db) ->
       if (i + 1) * BLOCK_SIZE <=? off then
         slot sb' i = Some BEmpty /\ stored (make_slice_object_key sid) store' p i db \/
         r = Err UnknownIOError /\ slot sb' i = Some (BData db)
       else slot sb' i = Some (BData db)) /\
    (forall k, (forall i len, k <> make_slice_object_key sid i len) -> store' !! k = store !! k) /\
    (r = Err UnknownIOError \/ exists n, r = Ok n) /\
    ((forall k, put_ok k = true) -> exists m, r = Ok m).
Proof.
  intros Hw Hsid Ho.
  destruct (flush_bulk_to_post put_ok sid off p sb store others Hw Hsid Ho)
    as (r & p' & sb' & store' & Hr & [F1 F2 F3 F4 F5 F6 F7] & Hok).
  exists r, p', sb', store'. split_and!; try done.
  - intros i db Hi Hs. destruct ((i + 1) * BLOCK_SIZE <=? off) eqn:E; to_prop.
    + apply F6; [|done]. apply pending_spec; [done|]. by exists db.
    + rewrite F4; [done|done|]. intros Hin. apply pending_spec in Hin as (? & _ & ?); [lia|done].
  - intros k Hk. apply F5. auto.
Qed.

Lemma last_block_bounds sb :
  0 < sb_length sb <= CHUNK_SIZE ->
  sb_length sb <= last_block_end sb <= CHUNK_SIZE /\
  (forall i, i * BLOCK_SIZE < sb_length sb -> (i + 1) * BLOCK_SIZE <= last_block_end sb).
Proof.
  intros Hl. pose proof block_size_pos as HB. assert (HB0 : BLOCK_SIZE <> 0) by lia. pose proof chunk_size_eq.
  unfold last_block_end. set (q := (sb_length sb - 1) / BLOCK_SIZE).
  pose proof (Z.div_mod (sb_length sb - 1) BLOCK_SIZE HB0) as Hd. fold q in Hd.
  pose proof (Z.mod_pos_bound (sb_length sb - 1) BLOCK_SIZE HB). split.
  2:{ intros i Hi. destruct (Z.le_gt_cases i q) as [Hq|Hq]; [nia|].
      assert ((q + 1) * BLOCK_SIZE <= i * BLOCK_SIZE) by (apply Z.mul_le_mono_nonneg_r; lia). lia. }
  assert (q < blocks_per_chunk) by (apply Z.div_lt_upper_bound; lia). nia.
Qed.

(** C25: a slice written front to back or over itself (no write starts past the
    end of the data so far) and then flushed with every upload succeeding reads
    back from the object store exactly as it was written: at each position the
    last write that covers it, for every offset and destination length. *)
Theorem slice_roundtrip put_ok sid ws p store others p1 sb1 :
  pool_wf p others -> hp_page_size p = PAGE_SIZE -> 0 <= sid < 2 ^ 64 -> no_gaps 0 ws = true ->
  (forall k, put_ok k = true) -> write_all p slice_buffer_new ws = (Ok (), p1, sb1) ->
  exists n p2 sb2 store',
    flush put_ok (make_slice_object_key sid) p1 sb1 store = (Ok n, (p2, sb2, store')) /\
    forall off len, 0 <= off -> 0 <= len ->
      read_slice_from_object_storage (make_slice_object_key sid) store' (sb_length sb1) off len =
      Ok (reads (written (fun _ => Byte.x00) ws) off (Z.min len (sb_length sb1 - off))).
Proof.
  intros Hpw Hps Hsid Hng Hput Hwr. destruct (new_buffer_wf p others Hpw Hps) as [Hw0 Hg0].
  destruct (write_all_spec (fun _ => Byte.x00) ws p slice_buffer_new others p1 sb1) as (Hw & Hg & Hc);
    [done..|cbn; lia|done|]. destruct (sw_len Hw) as [_ Hl]. pose proof block_size_pos as HB.
  unfold flush. destruct (sb_length sb1 =? 0) eqn:E0; to_prop.
  { eexists _, _, _, _. split; [reflexivity|]. intros off len Ho Hln. unfold read_slice_from_object_storage.
    rewrite (proj2 (Z.ltb_ge CHUNK_SIZE (sb_length sb1))) by lia. rewrite (proj2 (Z.leb_le (sb_length sb1) off)) by lia.
    rewrite orb_true_r. by rewrite reads_nil by lia. }
  destruct (last_block_bounds sb1 ltac:(lia)) as [Hlb Hcov].
  destruct (flush_bulk_to_post put_ok sid (last_block_end sb1) p1 sb1 store others Hw Hsid)
    as (r & p2 & sb2 & store' & Hr & [F1 F2 F3 F4 F5 F6 F7] & Hok).
  { destruct Hg as [-> _]. lia. }
  destruct (Hok Hput) as [m ->]. exists m, p2, sb2, store'. split; [exact Hr|]. intros off len Ho Hln.
  unfold read_slice_from_object_storage. rewrite (proj2 (Z.ltb_ge CHUNK_SIZE (sb_length sb1))) by lia.
  destruct (len =? 0) eqn:E1; to_prop; [by rewrite reads_nil by lia|].
  destruct (sb_length sb1 <=? off) eqn:E2; to_prop; [by rewrite reads_nil by lia|]. cbn [orb].
  rewrite (read_objects_spec _ _ _ (written (fun _ => Byte.x00) ws)); try lia.
  { do 2 f_equal; lia. }
  intros i Hi Hil. cbv zeta. destruct (gapless_block sb1 i Hg Hi Hil) as (db & Hs & Hdl).
  destruct (F6 i db) as [[_ Hst]|[? _]]; [|done| |done].
  { apply pending_spec; [done|]. exists db. auto. }
  unfold stored in Hst. rewrite Hdl in Hst. rewrite Hst. f_equal. apply reads_shift. intros k Hk.
  rewrite <- Hc by lia. unfold sb_get. rewrite Z.add_0_l.
  replace (i * BLOCK_SIZE + k) with (k + i * BLOCK_SIZE) by lia.
  rewrite Z.div_add, Z.mod_add by lia. rewrite Z.div_small, Z.mod_small by lia. rewrite Z.add_0_l.
  unfold slot in Hs. by rewrite Hs.
Qed.
End flushing.

(** ** On a small layout: pages of two bytes, blocks of four, chunks of twelve *)

Section tiny.
#[local] Existing Instance tiny_layout.

Definition tiny_pool : HybridPagePool :=
  mkPool 2 16 0 8 (mkMemPool 2 16 (replicate 8 (zeros 2))) None.

Lemma tiny_pool_wf : pool_wf tiny_pool [].
Proof. constructor; try done; simpl; repeat constructor. Qed.

Definition ab : bytes := [Byte.x61; Byte.x62; Byte.x63].
Definition tiny_write : SResult () * HybridPagePool * SliceBuffer :=
  write_all tiny_pool slice_buffer_new [(0, ab); (2, ab)].

Lemma tiny_new : sb_wf 0 tiny_pool slice_buffer_new [] /\ gapless slice_buffer_new.
Proof. apply new_buffer_wf; [apply tiny_pool_wf|reflexivity]. Qed.

Lemma tiny_write_wf : sb_wf 0 tiny_write.1.2 tiny_write.2 [].
Proof.
  destruct tiny_new as [Hw Hg].
  apply (write_all_spec (fun _ => Byte.x00) [(0, ab); (2, ab)] tiny_pool slice_buffer_new []);
    [done|done|reflexivity|intros x Hx; cbn in Hx; lia|vm_compute; reflexivity].
Qed.

Lemma write_at_spec_witness :
  exists p' sb', write_at tiny_pool slice_buffer_new 3 ab = (Ok 3, p', sb') /\
    sb_length sb' = 6 /\ sb_get p' sb' 4 = Byte.x62 /\ sb_get p' sb' 1 = Byte.x00.
Proof.
  destruct tiny_new as [Hw _].
  destruct (write_at_spec 0 tiny_pool slice_buffer_new [] 3 ab Hw ltac:(lia)) as (r & p' & sb' & H & _ & _ & Hm).
  assert (r = Ok 3) as -> by (vm_compute in H; by injection H as <- _ _).
  destruct Hm as (_ & _ & _ & Hl & _ & Hin & Hout). exists p', sb'. split; [exact H|].
  split; [exact Hl|]. split; [apply (Hin 4); lia|].
  rewrite (Hout 1); [reflexivity|lia|lia|]. left. done.
Defined.

Lemma read_at_contents_witness :
  read_at tiny_write.1.2 tiny_write.2 1 10 = Ok [Byte.x62; Byte.x61; Byte.x62; Byte.x63].
Proof.
  rewrite (read_at_contents tiny_write.1.2 tiny_write.2 [] 1 10 tiny_write_wf) by lia. vm_compute. reflexivity.
Defined.

Definition tiny_failed := flush_bulk_to (fun n => (n =? 0)%nat) (make_slice_object_key 7) 8 tiny_write.1.2 tiny_write.2 ∅.

Lemma flush_loses_nothing_witness :
  exists p' sb' store', tiny_failed = (Err UnknownIOError, (p', sb', store')) /\
    store' !! make_slice_object_key 7 0 4 = Some [Byte.x61; Byte.x62; Byte.x61; Byte.x62] /\
    blen sb' 1 = 1.
Proof.
  destruct (flush_loses_nothing (fun n => (n =? 0)%nat) 7 8 tiny_write.1.2 tiny_write.2 ∅ [] tiny_write_wf)
    as (r & p' & sb' & store' & H & _); [lia|vm_compute; done|].
  exists p', sb', store'. change (tiny_failed = (r, (p', sb', store'))) in H.
  assert (E : tiny_failed.1 = Err UnknownIOError) by (vm_compute; reflexivity).
  assert (E1 : tiny_failed.2.2 !! make_slice_object_key 7 0 4 = Some [Byte.x61; Byte.x62; Byte.x61; Byte.x62])
    by (vm_compute; reflexivity).
  assert (E2 : blen tiny_failed.2.1.2 1 = 1) by (vm_compute; reflexivity).
  rewrite H in E, E1, E2. cbn [fst snd] in E, E1, E2. rewrite H, E. by split_and!.
Defined.

Lemma slice_roundtrip_witness :
  exists n p2 sb2 store',
    flush (fun _ => true) (make_slice_object_key 7) tiny_write.1.2 tiny_write.2 ∅ = (Ok n, (p2, sb2, store')) /\
    read_slice_from_object_storage (make_slice_object_key 7) store' 5 1 3 = Ok [Byte.x62; Byte.x61; Byte.x62].
Proof.
  destruct (slice_roundtrip (fun _ => true) 7 [(0, ab); (2, ab)] tiny_pool ∅ [] tiny_write.1.2 tiny_write.2)
    as (n & p2 & sb2 & store' & H & Hread).
  - apply tiny_pool_wf.
  - reflexivity.
  - lia.
  - reflexivity.
  - done.
  - vm_compute. reflexivity.
  - exists n, p2, sb2, store'. split; [exact H|]. apply (Hread 1 3); lia.
Defined.

(** On disk pages the bytes a page held before show through where a slice has a
    hole: the object of a block that was only written from its second byte on
    begins with the data of the page's previous user. *)
Definition stale_pool : HybridPagePool :=
  mkPool 2 0 4 2 (mkMemPool 2 0 []) (Some (mkDiskPool 2 4 [0; 1] [Byte.x70; Byte.x71; Byte.x72; Byte.x73])).

Example hole_shows_previous_bytes :
  match write_at stale_pool slice_buffer_new 1 [Byte.x61] with
  | (Ok _, p, sb) =>
      (flush (fun _ => true) (make_slice_object_key 7) p sb ∅).2.2 !! make_slice_object_key 7 0 2
  | _ => None
  end = Some [Byte.x70; Byte.x61].
Proof. vm_compute. reflexivity. Qed.
End tiny.
