(* ===== verification/FileCache.v ===== *)
(** * The write-back block cache (components/storage/src/cache/file_cache.rs)

    Blocks are staged as files of a local directory, indexed by [staged_index],
    and migrated to the object store in the background.  The operating system
    and the object store are arguments: which read, write or delete of a call
    fails.  A local file appears atomically (uring.rs writes a temporary file
    and renames it) and an upload stores all of the object or nothing.  The
    [moka] policy cache is an argument too: what it returns for a key, and which
    entries it evicts, which only starts migrations.  So removing an entry from it
    after an upload is not an operation here: what it answers afterwards is up to
    the environment, which is more than the code leaves open.  A staging is one
    step: stagings do not overlap each other, and the branch that gives back the
    reservation of a second staging of the same key is translated but never taken. *)

From stdpp Require Import sorting.
From Stdlib Require Import Ascii.
From S2P Require Import Prelude Common Keys SliceKey Pool SliceBuffer.
Open Scope Z_scope.

(** [CacheIndex]: the identity of its lock tells generations apart. *)
Record CacheIndex := mkCacheIndex {
  ci_key : SliceKey;
  ci_gen : Z
}.

#[export] Instance cache_index_eq_dec : EqDecision CacheIndex.
Proof. solve_decision. Defined.

Definition same_generation (a b : CacheIndex) : bool := ci_gen a =? ci_gen b.

Record FileCache := mkFC {
  fc_staged : gmap SliceKey CacheIndex;
  fc_local : gmap string bytes;
  fc_remote : gmap string bytes;
  fc_staged_bytes : Z;
  fc_pressure : bool;
  fc_max_stage_size : Z;
  fc_next_gen : Z
}.

Definition set_staged (m : gmap SliceKey CacheIndex) (c : FileCache) : FileCache :=
  mkFC m (fc_local c) (fc_remote c) (fc_staged_bytes c) (fc_pressure c) (fc_max_stage_size c) (fc_next_gen c).
Definition set_local (m : gmap string bytes) (c : FileCache) : FileCache :=
  mkFC (fc_staged c) m (fc_remote c) (fc_staged_bytes c) (fc_pressure c) (fc_max_stage_size c) (fc_next_gen c).
Definition set_remote (m : gmap string bytes) (c : FileCache) : FileCache :=
  mkFC (fc_staged c) (fc_local c) m (fc_staged_bytes c) (fc_pressure c) (fc_max_stage_size c) (fc_next_gen c).
Definition set_staged_bytes (n : Z) (c : FileCache) : FileCache :=
  mkFC (fc_staged c) (fc_local c) (fc_remote c) n (fc_pressure c) (fc_max_stage_size c) (fc_next_gen c).
Definition set_pressure (b : bool) (c : FileCache) : FileCache :=
  mkFC (fc_staged c) (fc_local c) (fc_remote c) (fc_staged_bytes c) b (fc_max_stage_size c) (fc_next_gen c).

(** [CacheIndex::new] allocates a lock. *)
Definition new_cache_index (k : SliceKey) (c : FileCache) : CacheIndex * FileCache :=
  (mkCacheIndex k (fc_next_gen c),
   mkFC (fc_staged c) (fc_local c) (fc_remote c) (fc_staged_bytes c) (fc_pressure c) (fc_max_stage_size c)
     (fc_next_gen c + 1)).

(** ** Files and objects *)

(** [LocalStorage::get] and [ObjectStorage::get]: an absent object is told
    apart from a failing read. *)
Definition store_get (ok : bool) (store : gmap string bytes) (path : string) : SResult bytes :=
  if ok then ok_or (store !! path) (ObjectStorageError true) else Err (ObjectStorageError false).

(** [tmp_path] (uring.rs) *)
Definition tmp_path (path : string) : string := path +:+ ".uring.tmp".

(** [write_atomic] (uring.rs): the temporary file is renamed into place, or
    removed when a step fails. *)
Definition write_atomic (ok : bool) (path : string) (data : bytes) (dir : gmap string bytes)
    : bool * gmap string bytes :=
  if ok then (true, <[path := data]> dir) else (false, dir).

(** A crash during [write_atomic] leaves the part written so far. *)
Definition write_crashed (written : nat) (path : string) (data : bytes) (dir : gmap string bytes)
    : gmap string bytes :=
  <[tmp_path path := take written data]> dir.

(** [read_exact_at] (uring.rs) *)
Definition read_exact_at (dir : gmap string bytes) (path : string) (offset len : Z) : option (option bytes) :=
  match dir !! path with
  | None => None
  | Some data => Some (if offset + len <=? zlen data then Some (sublist offset len data) else None)
  end.

(** ** Space accounting *)

Definition release_stage_bytes (n : Z) (c : FileCache) : FileCache :=
  set_staged_bytes (u64_wrap (fc_staged_bytes c - n)) c.

(** [schedule_pressure_migration]: [pick] is the first entry the hash map
    yields, [spawned] whether the task registry still accepts tasks.  The flag
    stays set until the migration ends. *)
Definition schedule_pressure_migration (pick : option CacheIndex) (spawned : bool) (c : FileCache) : FileCache :=
  if fc_pressure c then c
  else match pick with
       | None => set_pressure false c
       | Some _ => set_pressure spawned c
       end.

Definition reserve_stage_bytes (pick : option CacheIndex) (spawned : bool) (n : Z) (c : FileCache)
    : SResult () * FileCache :=
  match checked_add64 (fc_staged_bytes c) n with
  | None => (Err ErrStageNoMoreSpace, c)
  | Some next =>
      if fc_max_stage_size c <? next then
        let c := if (n <=? fc_max_stage_size c) && negb (fc_staged_bytes c =? 0)
                 then schedule_pressure_migration pick spawned c else c in
        (Err ErrStageNoMoreSpace, c)
      else (Ok (), set_staged_bytes next c)
  end.

Definition remove_staged (k : SliceKey) (c : FileCache) : FileCache :=
  match fc_staged c !! k with
  | Some e => release_stage_bytes (sk_block_size (ci_key e)) (set_staged (delete k (fc_staged c)) c)
  | None => c
  end.

(** ** Migration *)

(** What the environment does during one migration. *)
Record MigrateIo := mkMigrateIo {
  mi_local_get : bool;
  mi_remote_put : bool;
  mi_remote_get : bool;
  mi_local_delete : bool
}.

Definition is_current (e : CacheIndex) (c : FileCache) : bool :=
  match fc_staged c !! ci_key e with Some cur => same_generation cur e | None => false end.

(** The upload of [migrate_from_local_to_remote]; the number of bytes copied. *)
Definition mig_copy (io : MigrateIo) (k : SliceKey) (c : FileCache) : SResult Z * FileCache :=
  match store_get (mi_local_get io) (fc_local c) (gen_path_for_object_sto k) with
  | Ok data =>
      if mi_remote_put io then
        (Ok (zlen data), set_remote (<[gen_path_for_object_sto k := data]> (fc_remote c)) c)
      else (Err UnknownIOError, c)
  | Err e => (Err e, c)
  | Panic => (Panic, c)
  end.

(** Its confirmation and the removal of the local file. *)
Definition mig_confirm (io : MigrateIo) (k : SliceKey) (copy_len : Z) (c : FileCache) : SResult () * FileCache :=
  if negb (copy_len =? sk_block_size k) then (Err FlushBlockFailed, c)
  else
    match store_get (mi_remote_get io) (fc_remote c) (gen_path_for_object_sto k) with
    | Ok remote =>
        if negb (zlen remote =? sk_block_size k) then (Err FlushBlockFailed, c)
        else if mi_local_delete io then
          (Ok (), set_local (delete (gen_path_for_object_sto k) (fc_local c)) c)
        else (Err (ObjectStorageError false), c)
    | Err e => (Err e, c)
    | Panic => (Panic, c)
    end.

Definition migrate_from_local_to_remote (io : MigrateIo) (k : SliceKey) (c : FileCache) : SResult () * FileCache :=
  let '(r, c) := mig_copy io k c in
  match r with
  | Ok copy_len => mig_confirm io k copy_len c
  | Err e => (Err e, c)
  | Panic => (Panic, c)
  end.

(** The entry leaves the index if it is still the one that was migrated. *)
Definition mig_unindex (e : CacheIndex) (c : FileCache) : FileCache :=
  if is_current e c then
    release_stage_bytes (sk_block_size (ci_key e)) (set_staged (delete (ci_key e) (fc_staged c)) c)
  else c.

Definition migrate_once (io : MigrateIo) (e : CacheIndex) (c : FileCache) : SResult () * FileCache :=
  if is_current e c then
    let '(r, c) := migrate_from_local_to_remote io (ci_key e) c in
    match r with
    | Ok _ => (Ok (), mig_unindex e c)
    | Err e => (Err e, c)
    | Panic => (Panic, c)
    end
  else (Ok (), c).

(** Delay before the next attempt, in milliseconds. *)
Definition next_retry_delay (d : Z) : Z := Z.min (d * 2) 1000.

(** [migrate_with_retry]: one element of [ios] per attempt made before the
    cancellation; the result says whether the migration went through. *)
Fixpoint migrate_with_retry (ios : list MigrateIo) (e : CacheIndex) (c : FileCache) : bool * FileCache :=
  match ios with
  | [] => (false, c)
  | io :: ios =>
      let '(r, c) := migrate_once io e c in
      match r with
      | Ok _ => (true, c)
      | _ => migrate_with_retry ios e c
      end
  end.

(** ** Operations *)

Section operations.
Context `{L : Layout}.

(** [gather_block]: [pages[page_idx]] panics out of range. *)
Definition gather_block (p : HybridPagePool) (block_length : Z) (pages : list (option Page)) : SResult bytes :=
  copy_block (fun _ => Panic) (S (Z.to_nat block_length)) p pages block_length 0.

(** What the environment does during one [stage]. *)
Record StageIo := mkStageIo {
  si_policy : option CacheIndex;
  si_write : bool;
  si_pick : option CacheIndex;
  si_spawned : bool
}.

(** The value [index.try_get_with] yields: what the policy cache holds, or a
    new entry for the block written now. *)
Definition stage_entry (io : StageIo) (p : HybridPagePool) (k : SliceKey) (pages : list (option Page))
    (c : FileCache) : SResult CacheIndex * FileCache :=
  match si_policy io with
  | Some e => (Ok e, c)
  | None =>
      match gather_block p (sk_block_size k) pages with
      | Ok data =>
          let '(ok, dir) := write_atomic (si_write io) (gen_path_for_object_sto k) data (fc_local c) in
          let c := set_local dir c in
          if ok then let '(e, c) := new_cache_index k c in (Ok e, c)
          else (Err CacheError, c)
      | Err e => (Err e, c)
      | Panic => (Panic, c)
      end
  end.

Definition fc_stage (io : StageIo) (sid : Z) (p : HybridPagePool) (c : FileCache)
    (block_index block_length : Z) (pages : list (option Page)) : SResult (Z * Z) * FileCache :=
  let key := mkSliceKey sid block_index block_length in
  let cnt := zlen (omap id pages) in
  match fc_staged c !! key with
  | Some _ => (Ok (block_length, cnt), c)
  | None =>
      let '(r, c) := reserve_stage_bytes (si_pick io) (si_spawned io) block_length c in
      match r with
      | Ok _ =>
          let '(r, c) := stage_entry io p key pages c in
          match r with
          | Ok e =>
              let old := fc_staged c !! key in
              let c := set_staged (<[key := e]> (fc_staged c)) c in
              (Ok (block_length, cnt),
               if old is Some _ then release_stage_bytes block_length c else c)
          | Err _ => (Err CacheError, release_stage_bytes block_length c)
          | Panic => (Panic, c)
          end
      | Err e => (Err e, c)
      | Panic => (Panic, c)
      end
  end.
End operations.

Definition remote_block_is_confirmed (ok : bool) (k : SliceKey) (c : FileCache) : SResult bool :=
  match store_get ok (fc_remote c) (gen_path_for_object_sto k) with
  | Ok object => Ok (zlen object =? sk_block_size k)
  | Err (ObjectStorageError true) => Ok false
  | Err e => Err e
  | Panic => Panic
  end.

(** What [get] and [get_range] do when the local file is gone. *)
Definition missing_local (remote_ok : bool) (k : SliceKey) (c : FileCache) : SResult (option bytes) * FileCache :=
  match remote_block_is_confirmed remote_ok k c with
  | Ok true => (Ok None, remove_staged k c)
  | Ok false => (Err FlushBlockFailed, c)
  | Err e => (Err e, c)
  | Panic => (Panic, c)
  end.

Definition fc_get (local_ok remote_ok : bool) (k : SliceKey) (c : FileCache)
    : SResult (option bytes) * FileCache :=
  match fc_staged c !! k with
  | None => (Ok None, c)
  | Some _ =>
      match store_get local_ok (fc_local c) (gen_path_for_object_sto k) with
      | Ok data => (Ok (Some data), c)
      | Err (ObjectStorageError true) => missing_local remote_ok k c
      | Err e => (Err e, c)
      | Panic => (Panic, c)
      end
  end.

Definition get_range (local_ok remote_ok : bool) (k : SliceKey) (offset len : Z) (c : FileCache)
    : SResult (option bytes) * FileCache :=
  match fc_staged c !! k with
  | None => (Ok None, c)
  | Some _ =>
      if negb local_ok then (Err CacheError, c)
      else match read_exact_at (fc_local c) (gen_path_for_object_sto k) offset len with
           | Some (Some data) => (Ok (Some data), c)
           | Some None => (Err CacheError, c)
           | None => missing_local remote_ok k c
           end
  end.

Definition flush_key (io : MigrateIo) (k : SliceKey) (c : FileCache) : SResult () * FileCache :=
  match fc_staged c !! k with
  | None => (Ok (), c)
  | Some e => migrate_once io e c
  end.

(** The loop of [flush_slice] and [flush_all]; one environment per key. *)
Fixpoint flush_keys (io : SliceKey -> MigrateIo) (ks : list SliceKey) (c : FileCache) : SResult () * FileCache :=
  match ks with
  | [] => (Ok (), c)
  | k :: ks =>
      let '(r, c) := flush_key (io k) k c in
      match r with
      | Ok _ => flush_keys io ks c
      | Err e => (Err e, c)
      | Panic => (Panic, c)
      end
  end.

Definition by_block (a b : SliceKey) : Prop := sk_block_idx a <= sk_block_idx b.
Definition by_slice_block (a b : SliceKey) : Prop :=
  sk_slice_id a < sk_slice_id b \/ sk_slice_id a = sk_slice_id b /\ sk_block_idx a <= sk_block_idx b.
#[export] Instance by_block_dec : RelDecision by_block.
Proof. unfold by_block. intros a b. apply _. Defined.
#[export] Instance by_slice_block_dec : RelDecision by_slice_block.
Proof. unfold by_slice_block. intros a b. apply _. Defined.

Definition staged_keys (c : FileCache) : list SliceKey := (map_to_list (fc_staged c)).*1.

Definition slice_keys (sid : Z) (c : FileCache) : list SliceKey :=
  merge_sort by_block (filter (fun k => sk_slice_id k = sid) (staged_keys c)).

Definition flush_slice (io : SliceKey -> MigrateIo) (sid : Z) (c : FileCache) : SResult () * FileCache :=
  flush_keys io (slice_keys sid c) c.

Definition pending_count (c : FileCache) : Z := Z.of_nat (size (fc_staged c)).

Definition flush_all (io : SliceKey -> MigrateIo) (c : FileCache) : SResult Z * FileCache :=
  let '(r, c) := flush_keys io (merge_sort by_slice_block (staged_keys c)) c in
  match r with
  | Ok _ => (Ok (pending_count c), c)
  | Err e => (Err e, c)
  | Panic => (Panic, c)
  end.

(** ** Recovery *)

Fixpoint string_all (f : ascii -> bool) (s : string) : bool :=
  match s with "" => true | String a s => f a && string_all f s end.

(** [s.rsplit_once(sep)]: the last occurrence. *)
Fixpoint rsplit_once (sep s : string) : option (string * string) :=
  match s with
  | "" => if String.eqb sep "" then Some ("", "") else None
  | String a rest =>
      match rsplit_once sep rest with
      | Some (l, r) => Some (String a l, r)
      | None => r ← strip_prefix sep s; Some ("", r)
      end
  end.

Definition is_incomplete_stage_file (file_name : string) : bool :=
  match strip_prefix "." file_name with
  | None => false
  | Some rest =>
      match rsplit_once ".tmp-" rest with
      | None => false
      | Some (canonical, suffix) =>
          let parts := split_on "-"%char suffix in
          is_ok (slice_key_parse canonical) && (length parts =? 2)%nat &&
          forallb (fun part => negb (String.eqb part "") && string_all is_digit part) parts
      end
  end.

(** A directory entry: a file with its contents, or something else. *)
Inductive DirEntry := DFile (data : bytes) | DOther.

(** Which calls of a recovery succeed: opening the directory, and for each entry
    reading it, its type, its metadata and removing it. *)
Record RecoverIo := mkRecoverIo {
  rc_read_dir : bool;
  rc_entry : string -> bool;
  rc_file_type : string -> bool;
  rc_metadata : string -> bool;
  rc_remove_file : string -> bool
}.

(** One entry of the loop of [recover_stage_index]: the recovered key, or
    [None] for an incomplete file, which is removed.  A name that is not UTF-8 is
    no block name either and gives the same error. *)
Definition recover_entry (io : RecoverIo) (name : string) (d : DirEntry) : SResult (option SliceKey) :=
  _ ← ensure (rc_entry io name) UnknownIOError;
  _ ← ensure (rc_file_type io name) UnknownIOError;
  match d with
  | DOther => Err CacheError
  | DFile data =>
      if is_incomplete_stage_file name then
        _ ← ensure (rc_remove_file io name) UnknownIOError; Ok None
      else
        match slice_key_parse name with
        | Ok k =>
            _ ← ensure (rc_metadata io name) UnknownIOError;
            if zlen data =? sk_block_size k then Ok (Some k) else Err CacheError
        | _ => Err CacheError
        end
  end.

(** The keys, and the directory without the incomplete files. *)
Fixpoint recover_entries (io : RecoverIo) (entries : list (string * DirEntry)) (dir : gmap string bytes)
    : SResult (list SliceKey) * gmap string bytes :=
  match entries with
  | [] => (Ok [], dir)
  | (name, d) :: entries =>
      match recover_entry io name d with
      | Ok o =>
          let dir := if o is None then delete name dir else dir in
          let '(r, dir) := recover_entries io entries dir in
          (ks ← r; Ok (if o is Some k then k :: ks else ks), dir)
      | Err e => (Err e, dir)
      | Panic => (Panic, dir)
      end
  end.

Definition recover_stage_index (io : RecoverIo) (entries : list (string * DirEntry)) (dir : gmap string bytes)
    : SResult (list SliceKey) * gmap string bytes :=
  if rc_read_dir io then recover_entries io entries dir else (Err UnknownIOError, dir).

(** The index rebuilt from recovered keys, each with a lock of its own. *)
Fixpoint index_keys (gen : Z) (ks : list SliceKey) : gmap SliceKey CacheIndex :=
  match ks with
  | [] => ∅
  | k :: ks => <[k := mkCacheIndex k gen]> (index_keys (gen + 1) ks)
  end.

Definition sum_sizes (m : gmap SliceKey CacheIndex) : Z :=
  map_fold (fun _ e acc => acc + sk_block_size (ci_key e)) 0 m.

(** [FileCache::new]: [absolute] tells whether the stage directory is an
    absolute path, [spawn_ok] whether every recovered migration was accepted;
    the directory is listed in some order. *)
Definition file_cache_new (io : RecoverIo) (absolute spawn_ok : bool) (max_stage_size : Z) (entries : list (string * DirEntry))
    (dir remote : gmap string bytes) : SResult FileCache * gmap string bytes :=
  if negb absolute then (Err CacheError, dir)
  else
    let '(r, dir) := recover_stage_index io entries dir in
    match r with
    | Ok ks =>
        let index := index_keys 0 ks in
        if spawn_ok || bool_decide (index = ∅) then
          (Ok (mkFC index dir remote (u64_wrap (sum_sizes index)) false max_stage_size (zlen ks)), dir)
        else (Err CacheError, dir)
    | Err e => (Err e, dir)
    | Panic => (Panic, dir)
    end.
