(* ===== verification/FileCacheThms.v ===== *)
(** * What the block cache promises

    Every block whose staging was acknowledged stays readable, as a local file
    or as an object, through failing reads, writes, uploads and deletions,
    cancelled migrations, evictions and restarts, in any interleaving of the
    steps of concurrent migrations; a flushed slice is in the object store; the
    byte count of the staged blocks is exact and bounded. *)

From stdpp Require Import sorting.
From Stdlib Require Import Ascii.
From S2P Require Import Prelude Common Slice Keys SliceKey Pool SliceBuffer FileCache.
Open Scope Z_scope.

(** ** Sizes *)

Lemma sum_sizes_insert m k e :
  m !! k = None -> sum_sizes (<[k := e]> m) = sum_sizes m + sk_block_size (ci_key e).
Proof. intros H. unfold sum_sizes. rewrite map_fold_insert_L; [done|intros; lia|done]. Qed.

Lemma sum_sizes_delete m k e :
  m !! k = Some e -> sum_sizes m = sum_sizes (delete k m) + sk_block_size (ci_key e).
Proof. intros H. unfold sum_sizes. rewrite (map_fold_delete_L _ _ k e m); [done|intros; lia|done]. Qed.

Lemma sum_sizes_nonneg m :
  (forall k e, m !! k = Some e -> 0 <= sk_block_size (ci_key e)) -> 0 <= sum_sizes m.
Proof.
  induction m as [|k e m Hn IH] using map_ind; intros H; [done|]. rewrite sum_sizes_insert by done.
  pose proof (H k e (lookup_insert_eq _ _ _)). cut (0 <= sum_sizes m); [lia|]. apply IH.
  intros k' e' Hk. apply (H k' e'). rewrite lookup_insert_ne; [done|]. intros ->. congruence.
Qed.

(** ** The system: the cache, what was acknowledged, and running migrations *)

Inductive MigPhase := MStarted | MCopied (len : Z) | MDeleted.

Record CacheSys := mkSys {
  cs_cache : FileCache;
  cs_acked : gmap SliceKey bytes;
  cs_entries : list CacheIndex;
  cs_mig : list (CacheIndex * MigPhase)
}.

Definition path (k : SliceKey) : string := gen_path_for_object_sto k.

Definition remote_has (c : FileCache) (k : SliceKey) (b : bytes) : Prop := fc_remote c !! path k = Some b.
Definition local_has (c : FileCache) (k : SliceKey) (b : bytes) : Prop := fc_local c !! path k = Some b.

Definition phase_ok (s : CacheSys) (m : CacheIndex * MigPhase) : Prop :=
  exists b, cs_acked s !! ci_key m.1 = Some b /\
    match m.2 with
    | MStarted => True
    | MCopied len => len = zlen b /\ remote_has (cs_cache s) (ci_key m.1) b
    | MDeleted => remote_has (cs_cache s) (ci_key m.1) b
    end.

Record CacheInv (s : CacheSys) : Prop := {
  ci_keys : forall k b, cs_acked s !! k = Some b -> slice_key_wf k = true /\ zlen b = sk_block_size k;
  ci_staged : forall k e, fc_staged (cs_cache s) !! k = Some e -> ci_key e = k /\ is_Some (cs_acked s !! k);
  ci_flushed : forall k b, cs_acked s !! k = Some b -> fc_staged (cs_cache s) !! k = None -> remote_has (cs_cache s) k b;
  ci_durable : forall k b, cs_acked s !! k = Some b -> local_has (cs_cache s) k b \/ remote_has (cs_cache s) k b;
  ci_local : forall k b, slice_key_wf k = true -> local_has (cs_cache s) k b -> cs_acked s !! k = Some b;
  ci_remote : forall k b, slice_key_wf k = true -> remote_has (cs_cache s) k b -> cs_acked s !! k = Some b;
  ci_bytes : fc_staged_bytes (cs_cache s) = sum_sizes (fc_staged (cs_cache s));
  ci_u64 : fc_staged_bytes (cs_cache s) < 2 ^ 64;
  ci_entries : forall e, e ∈ cs_entries s -> is_Some (cs_acked s !! ci_key e);
  ci_mig : Forall (phase_ok s) (cs_mig s)
}.

Section steps.
Context `{L : Layout}.

(** The stage directory a crash leaves: as it is, with a temporary file, or
    with a block whose staging was not acknowledged yet. *)
Inductive crash_dir (s : CacheSys) : gmap string bytes -> Prop :=
| crash_clean : crash_dir s (fc_local (cs_cache s))
| crash_temp k data n :
    slice_key_wf k = true -> crash_dir s (write_crashed n (path k) data (fc_local (cs_cache s)))
| crash_done k data :
    slice_key_wf k = true -> zlen data = sk_block_size k ->
    (forall b, cs_acked s !! k = Some b -> data = b) ->
    crash_dir s (<[path k := data]> (fc_local (cs_cache s))).

(** The blocks found again after a restart. *)
Definition recovered (c : FileCache) : gmap SliceKey bytes :=
  map_imap (fun k _ => fc_local c !! path k) (fc_staged c).

(** One step of the system.  A policy cache returns for a key only entries that
    were made for it; a block of a slice is written with one content only. *)
Inductive cache_step : CacheSys -> CacheSys -> Prop :=
| cs_stage s io sid p idx len pages data r c' :
    let k := mkSliceKey sid idx len in
    slice_key_wf k = true ->
    gather_block p len pages = Ok data -> zlen data = len ->
    (forall b, cs_acked s !! k = Some b -> data = b) ->
    (forall e, si_policy io = Some e -> e ∈ cs_entries s /\ ci_key e = k) ->
    fc_stage io sid p (cs_cache s) idx len pages = (r, c') ->
    cache_step s (mkSys c' (if r is Ok _ then <[k := data]> (cs_acked s) else cs_acked s)
                    (if r is Ok _ then option_list (fc_staged c' !! k) ++ cs_entries s else cs_entries s)
                    (cs_mig s))
| cs_read s l r k off len :
    cache_step s (mkSys (get_range l r k off len (cs_cache s)).2 (cs_acked s) (cs_entries s) (cs_mig s))
| cs_get s l r k :
    cache_step s (mkSys (fc_get l r k (cs_cache s)).2 (cs_acked s) (cs_entries s) (cs_mig s))
| cs_start s e :
    is_current e (cs_cache s) = true -> (forall m, m ∈ cs_mig s -> same_generation m.1 e = false) ->
    cache_step s (mkSys (cs_cache s) (cs_acked s) (cs_entries s) ((e, MStarted) :: cs_mig s))
| cs_copy s io m1 e m2 r c' :
    cs_mig s = m1 ++ (e, MStarted) :: m2 -> mig_copy io (ci_key e) (cs_cache s) = (r, c') ->
    cache_step s (mkSys c' (cs_acked s) (cs_entries s)
                    (if r is Ok len then m1 ++ (e, MCopied len) :: m2 else m1 ++ m2))
| cs_confirm s io m1 e len m2 r c' :
    cs_mig s = m1 ++ (e, MCopied len) :: m2 -> mig_confirm io (ci_key e) len (cs_cache s) = (r, c') ->
    cache_step s (mkSys c' (cs_acked s) (cs_entries s)
                    (if r is Ok _ then m1 ++ (e, MDeleted) :: m2 else m1 ++ m2))
| cs_unindex s m1 e m2 :
    cs_mig s = m1 ++ (e, MDeleted) :: m2 ->
    cache_step s (mkSys (mig_unindex e (cs_cache s)) (cs_acked s) (cs_entries s) (m1 ++ m2))
| cs_cancel s m1 m m2 :
    cs_mig s = m1 ++ m :: m2 ->
    cache_step s (mkSys (cs_cache s) (cs_acked s) (cs_entries s) (m1 ++ m2))
| cs_pressure s b :
    cache_step s (mkSys (set_pressure b (cs_cache s)) (cs_acked s) (cs_entries s) (cs_mig s))
| cs_restart rio s dir0 entries spawned max c dir' :
    crash_dir s dir0 ->
    entries ≡ₚ prod_map id DFile <$> map_to_list dir0 ->
    file_cache_new rio true spawned max entries dir0 (fc_remote (cs_cache s)) = (Ok c, dir') ->
    sum_sizes (fc_staged c) < 2 ^ 64 ->
    cache_step s (mkSys c (cs_acked s ∪ recovered c) [] []).
End steps.

(** ** The atomic operations *)

Lemma path_inj k1 k2 : slice_key_wf k1 = true -> slice_key_wf k2 = true -> path k1 = path k2 -> k1 = k2.
Proof. apply object_key_inj. Qed.

Lemma acked_wf s k b : CacheInv s -> cs_acked s !! k = Some b -> slice_key_wf k = true.
Proof. intros I H. by apply (ci_keys s I k b). Qed.

Lemma acked_same (m : gmap SliceKey bytes) k b1 b2 : m !! k = Some b1 -> m !! k = Some b2 -> b1 = b2.
Proof. intros H1 H2. rewrite H1 in H2. by injection H2. Qed.

Lemma key_size k : slice_key_wf k = true -> 0 <= sk_block_size k < 2 ^ 64.
Proof. unfold slice_key_wf, is_u64. intros H. to_prop. lia. Qed.

Lemma staged_size s k e :
  CacheInv s -> fc_staged (cs_cache s) !! k = Some e -> 0 <= sk_block_size (ci_key e).
Proof.
  intros I H. destruct (ci_staged s I k e H) as [-> [b Hb]]. pose proof (key_size k (acked_wf s k b I Hb)). lia.
Qed.

(** Dropping an entry whose block is in the object store. *)
Lemma drop_staged_inv s k e :
  CacheInv s -> fc_staged (cs_cache s) !! k = Some e ->
  (forall b, cs_acked s !! k = Some b -> remote_has (cs_cache s) k b) ->
  CacheInv (mkSys (release_stage_bytes (sk_block_size (ci_key e)) (set_staged (delete k (fc_staged (cs_cache s))) (cs_cache s)))
              (cs_acked s) (cs_entries s) (cs_mig s)).
Proof.
  intros I Hk Hr. pose proof (staged_size s k e I Hk) as Hsz.
  pose proof (sum_sizes_delete _ _ _ Hk) as Hd.
  assert (Hnn : 0 <= sum_sizes (delete k (fc_staged (cs_cache s)))).
  { apply sum_sizes_nonneg. intros k' e' H'. apply lookup_delete_Some in H' as [_ H']. by eapply staged_size. }
  destruct I as [I1 I2 I3 I4 I5 I6 I7 I8 I9 I10].
  assert (Hw : u64_wrap (fc_staged_bytes (cs_cache s) - sk_block_size (ci_key e)) =
               sum_sizes (delete k (fc_staged (cs_cache s)))).
  { unfold u64_wrap. rewrite I7, Hd. rewrite Z.mod_small; lia. }
  constructor; simpl; try done.
  - intros k' e' H'. apply lookup_delete_Some in H' as [_ H']. by apply I2.
  - intros k' b Hb Hn. destruct (decide (k' = k)) as [->|Hne]; [by apply Hr|].
    apply I3; [done|]. by rewrite lookup_delete_ne in Hn by done.
  - rewrite Hw. lia.
Qed.

Lemma remove_staged_inv s k :
  CacheInv s -> (forall b, cs_acked s !! k = Some b -> remote_has (cs_cache s) k b) ->
  CacheInv (mkSys (remove_staged k (cs_cache s)) (cs_acked s) (cs_entries s) (cs_mig s)).
Proof.
  intros I Hr. unfold remove_staged. destruct (fc_staged (cs_cache s) !! k) as [e|] eqn:E;
    [by apply drop_staged_inv|by destruct s].
Qed.

(** A block that is missing locally and confirmed remotely is stored. *)
Lemma missing_local_inv s ro k :
  CacheInv s -> is_Some (fc_staged (cs_cache s) !! k) -> fc_local (cs_cache s) !! path k = None ->
  CacheInv (mkSys (missing_local ro k (cs_cache s)).2 (cs_acked s) (cs_entries s) (cs_mig s)).
Proof.
  intros I [e He] Hl. unfold missing_local. assert (Hs : CacheInv (mkSys (cs_cache s) (cs_acked s) (cs_entries s) (cs_mig s)))
    by (by destruct s).
  destruct (remote_block_is_confirmed ro k (cs_cache s)) as [[]| |]; try done. simpl.
  apply remove_staged_inv; [done|]. intros b Hb. destruct (ci_durable s I k b Hb) as [H|H]; [|done].
  unfold local_has in H. congruence.
Qed.

Lemma get_range_inv s l r k off len :
  CacheInv s -> CacheInv (mkSys (get_range l r k off len (cs_cache s)).2 (cs_acked s) (cs_entries s) (cs_mig s)).
Proof.
  intros I. assert (Hs : CacheInv (mkSys (cs_cache s) (cs_acked s) (cs_entries s) (cs_mig s))) by (by destruct s).
  unfold get_range. destruct (fc_staged (cs_cache s) !! k) as [e|] eqn:E; [|done].
  destruct (negb l); [done|]. unfold read_exact_at. fold (path k).
  destruct (fc_local (cs_cache s) !! path k) as [d|] eqn:El; [by destruct (_ <=? _)|].
  by apply missing_local_inv.
Qed.

Lemma fc_get_inv s l r k :
  CacheInv s -> CacheInv (mkSys (fc_get l r k (cs_cache s)).2 (cs_acked s) (cs_entries s) (cs_mig s)).
Proof.
  intros I. assert (Hs : CacheInv (mkSys (cs_cache s) (cs_acked s) (cs_entries s) (cs_mig s))) by (by destruct s).
  unfold fc_get. destruct (fc_staged (cs_cache s) !! k) as [e|] eqn:E; [|done].
  unfold store_get. fold (path k). destruct l; [|done].
  destruct (fc_local (cs_cache s) !! path k) as [d|] eqn:El; [done|]. simpl.
  by apply missing_local_inv.
Qed.

(** The invariant of a state that agrees up to the migrations. *)
Lemma mig_sub_inv s ms :
  CacheInv s -> Forall (phase_ok s) ms ->
  CacheInv (mkSys (cs_cache s) (cs_acked s) (cs_entries s) ms).
Proof. intros [] H. by constructor. Qed.

Lemma mig_copy_inv s io m1 e m2 r c' :
  CacheInv s -> cs_mig s = m1 ++ (e, MStarted) :: m2 -> mig_copy io (ci_key e) (cs_cache s) = (r, c') ->
  CacheInv (mkSys c' (cs_acked s) (cs_entries s)
              (if r is Ok len then m1 ++ (e, MCopied len) :: m2 else m1 ++ m2)).
Proof.
  intros I Hm H. pose proof (ci_mig s I) as HF. rewrite Hm in HF.
  apply Forall_app in HF as [HF1 HF2]. apply Forall_cons in HF2 as [(b & Hb & _) HF2]. simpl in Hb.
  assert (Hdrop : CacheInv (mkSys (cs_cache s) (cs_acked s) (cs_entries s) (m1 ++ m2)))
    by (by apply mig_sub_inv; [|apply Forall_app]).
  unfold mig_copy, store_get in H. fold (path (ci_key e)) in H.
  destruct (mi_local_get io); [|by injection H as <- <-].
  destruct (fc_local (cs_cache s) !! path (ci_key e)) as [d|] eqn:El; [|by injection H as <- <-].
  simpl in H. destruct (mi_remote_put io); [|by injection H as <- <-]. injection H as <- <-.
  pose proof (acked_wf s _ b I Hb) as Hwf.
  assert (d = b) as ->.
  { eapply acked_same; [exact (ci_local s I (ci_key e) d Hwf El)|exact Hb]. }
  assert (Hmono : forall k x, remote_has (cs_cache s) k x -> slice_key_wf k = true ->
      remote_has (set_remote (<[path (ci_key e) := b]> (fc_remote (cs_cache s))) (cs_cache s)) k x).
  { intros k x Hk Hkw. unfold remote_has in *. simpl.
    destruct (decide (path k = path (ci_key e))) as [Ep|Hne]; [|by rewrite lookup_insert_ne].
    rewrite Ep, lookup_insert_eq. f_equal. pose proof (ci_remote s I k x Hkw Hk) as Hx.
    apply path_inj in Ep; [|done|done]. subst k. by eapply acked_same. }
  destruct I as [I1 I2 I3 I4 I5 I6 I7 I8 I9 I10]. constructor; simpl; try done.
  - intros k x Hk Hn. apply Hmono; [by apply I3|by apply (I1 k x)].
  - intros k x Hk. destruct (I4 k x Hk) as [?|?]; [by left|right]. apply Hmono; [done|by apply (I1 k x)].
  - intros k x Hkw Hk. unfold remote_has in Hk. simpl in Hk.
    destruct (decide (path k = path (ci_key e))) as [Ep|Hne].
    + rewrite Ep, lookup_insert_eq in Hk. injection Hk as <-. apply path_inj in Ep; [by rewrite Ep|done|done].
    + rewrite lookup_insert_ne in Hk by done. by apply I6.
  - assert (Hph : forall m, phase_ok s m -> phase_ok (mkSys
      (set_remote (<[path (ci_key e) := b]> (fc_remote (cs_cache s))) (cs_cache s)) (cs_acked s) (cs_entries s)
      (m1 ++ (e, MCopied (zlen b)) :: m2)) m).
    { intros m (x & Hx & Hp). exists x. split; [done|]. pose proof (proj1 (I1 _ _ Hx)).
      destruct (m.2); [done|destruct Hp; split; [done|]|]; by apply Hmono. }
    apply Forall_app. split; [eapply Forall_impl; [exact HF1|exact Hph]|].
    constructor; [|eapply Forall_impl; [exact HF2|exact Hph]].
    exists b. split; [done|]. split; [done|]. unfold remote_has. simpl. by rewrite lookup_insert_eq.
Qed.

Lemma mig_confirm_inv s io m1 e len m2 r c' :
  CacheInv s -> cs_mig s = m1 ++ (e, MCopied len) :: m2 ->
  mig_confirm io (ci_key e) len (cs_cache s) = (r, c') ->
  CacheInv (mkSys c' (cs_acked s) (cs_entries s)
              (if r is Ok _ then m1 ++ (e, MDeleted) :: m2 else m1 ++ m2)).
Proof.
  intros I Hm H. pose proof (ci_mig s I) as HF. rewrite Hm in HF.
  apply Forall_app in HF as [HF1 HF2]. apply Forall_cons in HF2 as [(b & Hb & _ & Hrem) HF2].
  simpl in Hb, Hrem.
  assert (Hdrop : CacheInv (mkSys (cs_cache s) (cs_acked s) (cs_entries s) (m1 ++ m2)))
    by (by apply mig_sub_inv; [|apply Forall_app]).
  unfold mig_confirm in H. destruct (negb (len =? _)); [by injection H as <- <-|].
  destruct (store_get _ _ _) as [d| |]; [|by injection H as <- <-..].
  destruct (negb (zlen d =? _)); [by injection H as <- <-|].
  destruct (mi_local_delete io); [|by injection H as <- <-]. injection H as <- <-.
  fold (path (ci_key e)). pose proof (acked_wf s _ b I Hb) as Hwf.
  destruct I as [I1 I2 I3 I4 I5 I6 I7 I8 I9 I10]. constructor; simpl; try done.
  - intros k x Hk. destruct (decide (path k = path (ci_key e))) as [Ep|Hne].
    + right. apply path_inj in Ep; [|by apply (I1 k x)|done]. subst k.
      assert (x = b) as -> by (by eapply acked_same). exact Hrem.
    + destruct (I4 k x Hk) as [Hl|Hr]; [left|by right]. unfold local_has in *. simpl.
      by rewrite lookup_delete_ne.
  - intros k x Hkw Hk. unfold local_has in Hk. simpl in Hk. apply lookup_delete_Some in Hk as [_ Hk].
    by apply I5.
  - apply Forall_app. split; [exact HF1|]. constructor; [|exact HF2]. by exists b.
Qed.

Lemma mig_unindex_inv s m1 e m2 :
  CacheInv s -> cs_mig s = m1 ++ (e, MDeleted) :: m2 ->
  CacheInv (mkSys (mig_unindex e (cs_cache s)) (cs_acked s) (cs_entries s) (m1 ++ m2)).
Proof.
  intros I Hm. pose proof (ci_mig s I) as HF. rewrite Hm in HF.
  apply Forall_app in HF as [HF1 HF2]. apply Forall_cons in HF2 as [(b & Hb & Hrem) HF2].
  simpl in Hb, Hrem. unfold mig_unindex, is_current.
  destruct (fc_staged (cs_cache s) !! ci_key e) as [cur|] eqn:E;
    [|by apply mig_sub_inv; [|apply Forall_app]].
  destruct (same_generation cur e); [|by apply mig_sub_inv; [|apply Forall_app]].
  destruct (ci_staged s I _ _ E) as [Ek _].
  replace (sk_block_size (ci_key e)) with (sk_block_size (ci_key cur)) by (by rewrite Ek).
  assert (Hd : CacheInv (mkSys (release_stage_bytes (sk_block_size (ci_key cur))
     (set_staged (delete (ci_key e) (fc_staged (cs_cache s))) (cs_cache s))) (cs_acked s) (cs_entries s) (cs_mig s))).
  { apply drop_staged_inv; [done|done|]. intros x Hx. assert (x = b) as -> by (by eapply acked_same). exact Hrem. }
  apply (mig_sub_inv _ (m1 ++ m2)) in Hd; [exact Hd|]. by apply Forall_app.
Qed.

(** ** Staging *)

(** Reserving room changes nothing but the count and the pressure flag. *)
Lemma stage_reserve_spec pick sp n c r c' :
  reserve_stage_bytes pick sp n c = (r, c') ->
  (r = Ok () /\ c' = set_staged_bytes (fc_staged_bytes c + n) c /\
     fc_staged_bytes c + n < 2 ^ 64 /\ fc_staged_bytes c + n <= fc_max_stage_size c) \/
  (r = Err ErrStageNoMoreSpace /\ exists b, c' = set_pressure b c) /\
    (2 ^ 64 <= fc_staged_bytes c + n \/ fc_max_stage_size c < fc_staged_bytes c + n).
Proof.
  unfold reserve_stage_bytes, checked_add64. destruct (_ <? 2 ^ 64) eqn:E1; to_prop.
  - destruct (fc_max_stage_size c <? _) eqn:E2; to_prop; intros H; injection H as <- <-.
    + right. split; [split; [done|]|by right]. unfold schedule_pressure_migration.
      assert (Hid : c = set_pressure (fc_pressure c) c) by (by destruct c).
      destruct (_ && _); [|by exists (fc_pressure c)].
      destruct (fc_pressure c); [by exists true|]. destruct pick; by eexists.
    + left. done.
  - intros H. injection H as <- <-. right. split; [split; [done|]|by left].
    exists (fc_pressure c). by destruct c.
Qed.

Lemma pressure_inv s b :
  CacheInv s -> CacheInv (mkSys (set_pressure b (cs_cache s)) (cs_acked s) (cs_entries s) (cs_mig s)).
Proof. intros []. by constructor. Qed.

(** An acknowledged block is added under its key. *)
Lemma stage_commit_inv s k e data dir pr mx gen es :
  CacheInv s -> slice_key_wf k = true -> fc_staged (cs_cache s) !! k = None -> ci_key e = k ->
  zlen data = sk_block_size k -> (forall b, cs_acked s !! k = Some b -> data = b) ->
  dir = fc_local (cs_cache s) /\ is_Some (cs_acked s !! k) \/ dir = <[path k := data]> (fc_local (cs_cache s)) ->
  fc_staged_bytes (cs_cache s) + sk_block_size k < 2 ^ 64 ->
  (forall x, x ∈ es -> x ∈ cs_entries s \/ ci_key x = k) ->
  CacheInv (mkSys (mkFC (<[k := e]> (fc_staged (cs_cache s))) dir (fc_remote (cs_cache s))
                     (fc_staged_bytes (cs_cache s) + sk_block_size k) pr mx gen)
              (<[k := data]> (cs_acked s)) es (cs_mig s)).
Proof.
  intros I Hwf Hn He Hz Himm Hdir Hu Hes. destruct I as [I1 I2 I3 I4 I5 I6 I7 I8 I9 I10].
  assert (Hmono : forall k' b, cs_acked s !! k' = Some b -> <[k := data]> (cs_acked s) !! k' = Some b).
  { intros k' b Hb. destruct (decide (k' = k)) as [->|Hne]; [|by rewrite lookup_insert_ne].
    rewrite lookup_insert_eq. f_equal. by apply Himm. }
  assert (Hold : forall k' b, <[k := data]> (cs_acked s) !! k' = Some b -> k' <> k -> cs_acked s !! k' = Some b).
  { intros k' b Hb Hne. by rewrite lookup_insert_ne in Hb. }
  assert (Hloc : forall k' b, slice_key_wf k' = true -> dir !! path k' = Some b ->
      <[k := data]> (cs_acked s) !! k' = Some b).
  { intros k' b Hk' Hb. destruct Hdir as [[-> _]| ->]; [by apply Hmono, I5|].
    destruct (decide (path k' = path k)) as [Ep|Hne].
    - rewrite Ep, lookup_insert_eq in Hb. injection Hb as <-. apply path_inj in Ep; [|done|done]. subst.
      by rewrite lookup_insert_eq.
    - rewrite lookup_insert_ne in Hb by done. by apply Hmono, I5. }
  constructor; simpl; try done.
  - intros k' b Hb. destruct (decide (k' = k)) as [->|Hne]; [|by apply I1, Hold].
    rewrite lookup_insert_eq in Hb. by injection Hb as <-.
  - intros k' e' H'. destruct (decide (k' = k)) as [->|Hne].
    + rewrite lookup_insert_eq in H'. injection H' as <-. by rewrite lookup_insert_eq.
    + rewrite lookup_insert_ne in H' by done. destruct (I2 _ _ H') as [? [b Hb]]. split; [done|].
      exists b. by apply Hmono.
  - intros k' b Hb Hn'. destruct (decide (k' = k)) as [->|Hne]; [by rewrite lookup_insert_eq in Hn'|].
    rewrite lookup_insert_ne in Hn' by done. apply I3; [by apply Hold|done].
  - intros k' b Hb. destruct (decide (k' = k)) as [->|Hne].
    + rewrite lookup_insert_eq in Hb. injection Hb as <-. destruct Hdir as [(-> & b & Hb)| ->].
      * rewrite (Himm b Hb). by apply I4.
      * left. unfold local_has. simpl. by rewrite lookup_insert_eq.
    + destruct (I4 k' b (Hold _ _ Hb Hne)) as [Hl|Hr]; [|by right]. left. unfold local_has in *. simpl.
      destruct Hdir as [[-> _]| ->]; [done|]. rewrite lookup_insert_ne; [done|]. intros Ep.
      apply path_inj in Ep; [congruence|done|]. by apply (I1 k' b), Hold.
  - intros k' b Hk' Hb. by apply Hmono, I6.
  - rewrite sum_sizes_insert by done. rewrite I7, He. done.
  - intros x Hx. destruct (Hes x Hx) as [Hin|Hk].
    + destruct (I9 x Hin) as [b Hb]. exists b. by apply Hmono.
    + rewrite Hk, lookup_insert_eq. by eexists.
  - eapply Forall_impl; [exact I10|]. intros m (b & Hb & Hp). exists b. split; [by apply Hmono|done].
Qed.

Section stage_steps.
Context `{L : Layout}.

Lemma fc_stage_inv s io sid p idx len pages data r c' :
  let k := mkSliceKey sid idx len in
  CacheInv s -> slice_key_wf k = true -> gather_block p len pages = Ok data -> zlen data = len ->
  (forall b, cs_acked s !! k = Some b -> data = b) ->
  (forall e, si_policy io = Some e -> e ∈ cs_entries s /\ ci_key e = k) ->
  fc_stage io sid p (cs_cache s) idx len pages = (r, c') ->
  CacheInv (mkSys c' (if r is Ok _ then <[k := data]> (cs_acked s) else cs_acked s)
              (if r is Ok _ then option_list (fc_staged c' !! k) ++ cs_entries s else cs_entries s) (cs_mig s)).
Proof.
  intros k I Hwf Hg Hz Himm Hpol H. assert (Hlen : sk_block_size k = len) by reflexivity.
  assert (Hwf' : 0 <= len) by (pose proof (key_size k Hwf); lia).
  unfold fc_stage in H. fold k in H.
  destruct (fc_staged (cs_cache s) !! k) as [e|] eqn:E.
  { injection H as <- <-. destruct (ci_staged s I _ _ E) as [Ek [b Hb]].
    rewrite insert_id by (by rewrite Hb, (Himm b Hb)). rewrite E. destruct I; constructor; try done.
    simpl. intros x Hx. apply elem_of_cons in Hx as [->|Hx]; [|auto]. rewrite Ek. by exists b. }
  destruct (reserve_stage_bytes _ _ _ _) as [r1 c1] eqn:Hr.
  destruct (stage_reserve_spec _ _ _ _ _ _ Hr) as [(-> & -> & Hu & Hmax)|((-> & b & ->) & _)].
  2:{ injection H as <- <-. by apply pressure_inv. }
  assert (Hnn : 0 <= fc_staged_bytes (cs_cache s)).
  { rewrite (ci_bytes s I). apply sum_sizes_nonneg. intros k' e' H'. by eapply staged_size. }
  unfold stage_entry in H. destruct (si_policy io) as [e|] eqn:Ep.
  - destruct (Hpol e eq_refl) as [Hin Hek]. cbn in H. rewrite E in H. injection H as <- <-. simpl.
    rewrite lookup_insert_eq. apply (stage_commit_inv s k e data); try done.
    + left. split; [done|]. rewrite <- Hek. by apply (ci_entries s I).
    + intros x Hx. apply elem_of_cons in Hx as [->|Hx]; [by right|by left].
  - change (sk_block_size k) with len in H. rewrite Hg in H. destruct (si_write io).
    + cbn in H. rewrite E in H. injection H as <- <-. simpl. rewrite lookup_insert_eq.
      apply (stage_commit_inv s k (mkCacheIndex k (fc_next_gen (cs_cache s))) data); try done.
      * by right.
      * intros x Hx. apply elem_of_cons in Hx as [->|Hx]; [by right|by left].
    + cbn in H. injection H as <- <-.
      replace (release_stage_bytes _ _) with (cs_cache s); [by destruct s|].
      unfold release_stage_bytes, set_local, set_staged_bytes. simpl. unfold u64_wrap.
      replace (fc_staged_bytes (cs_cache s) + len - len) with (fc_staged_bytes (cs_cache s)) by lia.
      rewrite Z.mod_small by (pose proof (ci_u64 s I); lia). by destruct (cs_cache s).
Qed.
End stage_steps.

(** ** Recovery *)

Lemma canonical_complete k : is_incomplete_stage_file (path k) = false.
Proof. done. Qed.

(** The temporary name of a block is not the name of any block. *)
Lemma tmp_not_key k : slice_key_wf k = true -> slice_key_parse (tmp_path (path k)) = Err (ParseSliceKeyFailed (tmp_path (path k))).
Proof.
  intros Hk. unfold slice_key_parse.
  change (strip_prefix "chunks" (tmp_path (path k))) with (Some (slice_key_fmt k +:+ ".uring.tmp")).
  cbn [ok_or mbind outcome_bind].
  assert (Hs : split_on "_"%char (slice_key_fmt k +:+ ".uring.tmp") =
    [fmt_hex8 (sk_slice_id k / 1000 / 1000); fmt_hex8 (sk_slice_id k / 1000); fmt_hex8 (sk_slice_id k);
     fmt_hex8 (sk_block_idx k); fmt_hex8 (sk_block_size k) +:+ ".uring.tmp"]).
  { unfold slice_key_wf, is_u64 in Hk. to_prop.
    assert (0 <= sk_slice_id k / 1000) by (apply Z.div_pos; lia).
    assert (0 <= sk_slice_id k / 1000 / 1000) by (apply Z.div_pos; lia).
    unfold slice_key_fmt. rewrite !append_assoc.
    rewrite !split_plain by (by apply plain_fmt). rewrite split_last; [done|].
    rewrite plain_app, plain_fmt by done. done. }
  rewrite Hs. unfold slice_key_wf, is_u64 in Hk. to_prop. rewrite !fmt_hex8_parse by lia.
  cbn [ok_or mbind outcome_bind].
  assert (Hn : from_str_radix16 (fmt_hex8 (sk_block_size k) +:+ ".uring.tmp") = None).
  { pose proof (fmt_hex8_parse (sk_block_size k) ltac:(lia)) as Hp.
    pose proof (plain_fmt (sk_block_size k) ltac:(lia)) as Hpl.
    destruct (fmt_hex8 (sk_block_size k)) as [|c t]; [done|]. rewrite cons_app. cbn [from_str_radix16] in *.
    simpl in Hpl. destruct (Ascii.eqb c "+"%char); [by rewrite andb_false_r in Hpl|].
    by rewrite <- cons_app, hex_fold_app, Hp. }
  by rewrite Hn.
Qed.

Lemma tmp_not_path k k' : slice_key_wf k = true -> slice_key_wf k' = true -> tmp_path (path k) <> path k'.
Proof.
  intros Hk Hk' E. pose proof (tmp_not_key k Hk) as H. rewrite E in H. unfold path in H.
  by rewrite slice_key_parse_fmt in H.
Qed.

Lemma recover_entry_key io name d k :
  recover_entry io name d = Ok (Some k) -> slice_key_wf k = true /\ name = path k /\
    exists data, d = DFile data /\ zlen data = sk_block_size k.
Proof.
  unfold recover_entry. intros H. apply bind_Ok in H as (? & _ & H). apply bind_Ok in H as (? & _ & H).
  destruct d as [data|]; [|done].
  destruct (is_incomplete_stage_file name); [by apply bind_Ok in H as (? & _ & H)|].
  destruct (slice_key_parse name) as [k'| |] eqn:E; [|done..]. apply bind_Ok in H as (? & _ & H).
  destruct (zlen data =? _) eqn:Ez; [|done]. to_prop. injection H as <-.
  split_and!; [by eapply slice_key_parse_wf|by rewrite <- (slice_key_parse_inv _ _ E)|by exists data].
Qed.

Lemma recover_entry_file io name data o :
  recover_entry io name (DFile data) = Ok o ->
  (if is_incomplete_stage_file name then _ ← ensure (rc_remove_file io name) UnknownIOError; Ok None
   else match slice_key_parse name with
        | Ok k => _ ← ensure (rc_metadata io name) UnknownIOError;
                  if zlen data =? sk_block_size k then Ok (Some k) else Err CacheError
        | _ => Err CacheError
        end) = Ok o.
Proof. unfold recover_entry. intros H. by repeat apply bind_Ok in H as (? & _ & H). Qed.

Lemma recover_entry_other io name o : recover_entry io name DOther <> Ok o.
Proof. unfold recover_entry. intros H. by repeat apply bind_Ok in H as (? & _ & H). Qed.

Lemma recover_spec io entries dir ks dir' :
  recover_stage_index io entries dir = (Ok ks, dir') ->
  (forall k, k ∈ ks -> slice_key_wf k = true /\ exists data, (path k, DFile data) ∈ entries /\ zlen data = sk_block_size k) /\
  (forall k data, slice_key_wf k = true -> (path k, DFile data) ∈ entries -> k ∈ ks /\ zlen data = sk_block_size k) /\
  (forall name, is_incomplete_stage_file name = false -> dir' !! name = dir !! name).
Proof.
  unfold recover_stage_index. destruct (rc_read_dir io); [|done].
  revert dir ks dir'. induction entries as [|[name d] entries IH]; intros dir ks dir' H; simpl in H.
  { injection H as <- <-. split_and!; [intros k Hk; by apply elem_of_nil in Hk| |done].
    intros k data _ Hk. by apply elem_of_nil in Hk. }
  destruct (recover_entry io name d) as [o| |] eqn:Er; [|done..].
  destruct (recover_entries io entries _) as [r dir1] eqn:Hrec. injection H as H <-.
  apply bind_Ok in H as (ks1 & -> & H). injection H as <-.
  destruct (IH _ _ _ Hrec) as (IH1 & IH2 & IH3). split_and!.
  - assert (Hgen : forall k, k ∈ ks1 -> slice_key_wf k = true /\
        exists data, (path k, DFile data) ∈ (name, d) :: entries /\ zlen data = sk_block_size k).
    { intros k Hk. destruct (IH1 k Hk) as (? & data & ? & ?). split; [done|]. exists data. split; [by right|done]. }
    destruct o as [k0|]; [|exact Hgen]. intros k Hk. apply elem_of_cons in Hk as [->|Hk]; [|by apply Hgen].
    destruct (recover_entry_key _ _ _ _ Er) as (Hw & -> & data & -> & Hz). split; [done|].
    exists data. split; [by left|done].
  - intros k data Hw Hin. apply elem_of_cons in Hin as [Heq|Hin].
    + injection Heq as <- <-. apply recover_entry_file in Er. rewrite canonical_complete in Er.
      unfold path in Er. rewrite slice_key_parse_fmt in Er by done. apply bind_Ok in Er as (? & _ & Er).
      destruct (zlen data =? _) eqn:Ez; [|done]. to_prop. injection Er as <-. split; [by left|done].
    + destruct (IH2 k data Hw Hin) as [Hk Hz]. split; [|done]. destruct o; [by right|done].
  - intros n Hn. rewrite IH3 by done. destruct o as [|]; [done|].
    destruct (decide (n = name)) as [->|Hne]; [|by rewrite lookup_delete_ne].
    destruct d as [data|]; [apply recover_entry_file in Er|by apply recover_entry_other in Er]. rewrite Hn in Er.
    destruct (slice_key_parse name); [|done..]. apply bind_Ok in Er as (? & _ & Er). by destruct (_ =? _).
Qed.

Lemma index_keys_spec gen ks k :
  (forall e, index_keys gen ks !! k = Some e -> ci_key e = k /\ k ∈ ks) /\
  (k ∈ ks -> is_Some (index_keys gen ks !! k)).
Proof.
  revert gen. induction ks as [|k0 ks IH]; intros gen; simpl.
  - split; [done|]. intros H. by apply elem_of_nil in H.
  - destruct (IH (gen + 1)) as [IH1 IH2]. destruct (decide (k = k0)) as [->|Hne].
    + rewrite lookup_insert_eq. split; [intros e [= <-]; by split; [|left]|by eexists].
    + rewrite lookup_insert_ne by done. split.
      * intros e He. destruct (IH1 e He). split; [done|by right].
      * intros Hk. apply elem_of_cons in Hk as [->|Hk]; [done|by apply IH2].
Qed.

(** What a crash leaves under the name of a block. *)
Lemma crash_dir_keys s dir0 k :
  CacheInv s -> crash_dir s dir0 -> slice_key_wf k = true ->
  (forall b, dir0 !! path k = Some b -> forall x, cs_acked s !! k = Some x -> x = b) /\
  (is_Some (fc_local (cs_cache s) !! path k) -> is_Some (dir0 !! path k)).
Proof.
  intros I Hd Hk.
  assert (Hbase : forall b, fc_local (cs_cache s) !! path k = Some b -> forall x, cs_acked s !! k = Some x -> x = b).
  { intros b Hb x Hx. eapply acked_same; [exact Hx|]. by apply (ci_local s I). }
  destruct Hd as [|k0 data n Hk0|k0 data Hk0 Hz Himm]; [done| |].
  - unfold write_crashed. rewrite lookup_insert_ne by (by apply tmp_not_path). done.
  - destruct (decide (path k0 = path k)) as [Ep|Hne]; [|by rewrite lookup_insert_ne].
    rewrite Ep, lookup_insert_eq. apply path_inj in Ep; [|done|done]. subst k0. split; [|by eexists].
    intros b [= <-] x Hx. symmetry. by apply Himm.
Qed.

Lemma dir_entry dir0 entries k data :
  entries ≡ₚ prod_map id DFile <$> map_to_list dir0 ->
  (path k, DFile data) ∈ entries <-> dir0 !! path k = Some data.
Proof.
  intros ->. rewrite list_elem_of_fmap. split.
  - intros ([n d] & [= -> ->] & Hin). by apply elem_of_map_to_list in Hin.
  - intros H. exists (path k, data). split; [done|]. by apply elem_of_map_to_list.
Qed.

Lemma file_cache_new_Ok io sp mx entries dir remote c dir' :
  file_cache_new io true sp mx entries dir remote = (Ok c, dir') ->
  exists ks, recover_stage_index io entries dir = (Ok ks, dir') /\
    c = mkFC (index_keys 0 ks) dir' remote (u64_wrap (sum_sizes (index_keys 0 ks))) false mx (zlen ks).
Proof.
  unfold file_cache_new. cbn [negb]. destruct (recover_stage_index io entries dir) as [[ks| |] d1]; [|done..].
  destruct (_ || _); [|done]. intros H. inversion H. by exists ks.
Qed.

Lemma cache_restart_inv io s dir0 entries sp mx c dir' :
  CacheInv s -> crash_dir s dir0 -> entries ≡ₚ prod_map id DFile <$> map_to_list dir0 ->
  file_cache_new io true sp mx entries dir0 (fc_remote (cs_cache s)) = (Ok c, dir') ->
  sum_sizes (fc_staged c) < 2 ^ 64 -> CacheInv (mkSys c (cs_acked s ∪ recovered c) [] []).
Proof.
  intros I Hcd He Hn Hsum. apply file_cache_new_Ok in Hn as (ks & Hrec & Hc).
  destruct (recover_spec _ _ _ _ _ Hrec) as (R1 & R2 & R3).
  assert (Hst : fc_staged c = index_keys 0 ks) by (by rewrite Hc).
  assert (Hlo : forall k, fc_local c !! path k = dir0 !! path k) by (intros k; rewrite Hc; by apply R3).
  assert (Hrem : fc_remote c = fc_remote (cs_cache s)) by (by rewrite Hc).
  assert (Hby : fc_staged_bytes c = u64_wrap (sum_sizes (fc_staged c))) by (by rewrite Hc).
  assert (Hin : forall k, k ∈ ks <-> is_Some (fc_staged c !! k)).
  { intros k. rewrite Hst. destruct (index_keys_spec 0 ks k) as [X1 X2]. split; [done|].
    intros [e Hk]. by apply (X1 e). }
  assert (Hkey : forall k b, slice_key_wf k = true -> dir0 !! path k = Some b ->
             is_Some (fc_staged c !! k) /\ zlen b = sk_block_size k).
  { intros k b Hk Hb. rewrite <- Hin. apply R2; [done|]. by apply (dir_entry dir0). }
  assert (Hst2 : forall k, is_Some (fc_staged c !! k) -> slice_key_wf k = true /\
             exists b, dir0 !! path k = Some b /\ zlen b = sk_block_size k).
  { intros k Hk. apply Hin, R1 in Hk as (Hw & b & Hb & Hz). split; [done|]. exists b.
    split; [by apply (dir_entry dir0 entries)|done]. }
  assert (Hrc : forall k b, recovered c !! k = Some b <-> is_Some (fc_staged c !! k) /\ dir0 !! path k = Some b).
  { intros k b. unfold recovered. rewrite map_lookup_imap, Hlo.
    destruct (fc_staged c !! k); simpl; split; [by intros ->|by intros [_ ->]|done|by intros [[] _]]. }
  assert (Hack : forall k b, (cs_acked s ∪ recovered c) !! k = Some b <->
             cs_acked s !! k = Some b \/ recovered c !! k = Some b).
  { intros k b. rewrite lookup_union_Some_raw. split; [naive_solver|]. intros [H|H]; [by left|].
    destruct (cs_acked s !! k) as [x|] eqn:Ex; [|by right]. left.
    destruct (proj1 (Hrc k b) H) as [Hs Hb]. destruct (Hst2 k Hs) as [Hw _].
    by rewrite (proj1 (crash_dir_keys s dir0 k I Hcd Hw) b Hb x Ex). }
  assert (Hdur : forall k b, cs_acked s !! k = Some b -> dir0 !! path k = Some b \/ remote_has (cs_cache s) k b).
  { intros k b Hb. pose proof (acked_wf s k b I Hb) as Hw.
    destruct (ci_durable s I k b Hb) as [Hl|Hr]; [left|by right].
    destruct (crash_dir_keys s dir0 k I Hcd Hw) as [C1 C2].
    destruct C2 as [b' Hb']; [by exists b|]. rewrite Hb'. f_equal. symmetry. by apply (C1 b'). }
  constructor; simpl.
  - intros k b Hb. apply Hack in Hb as [Hb|Hb]; [by apply (ci_keys s I)|].
    apply Hrc in Hb as [Hs Hb]. destruct (Hst2 k Hs) as [Hw _]. split; [done|]. by apply (Hkey k b).
  - intros k e Hk. split.
    + rewrite Hst in Hk. by apply (index_keys_spec 0 ks k).
    + destruct (Hst2 k) as (Hw & b & Hb & _); [by eexists|]. exists b. apply Hack. right. apply Hrc. by split; [eexists|].
  - intros k b Hb Hnone. apply Hack in Hb as [Hb|Hb].
    + unfold remote_has. rewrite Hrem. destruct (Hdur k b Hb) as [Hd|Hd]; [|done].
      destruct (Hkey k b) as [[e Hx] _]; [by eapply acked_wf|done|]. by rewrite Hx in Hnone.
    + apply Hrc in Hb as [[e Hx] _]. by rewrite Hx in Hnone.
  - intros k b Hb. unfold local_has, remote_has. rewrite Hlo, Hrem. apply Hack in Hb as [Hb|Hb]; [by apply Hdur|].
    apply Hrc in Hb as [_ Hb]. by left.
  - intros k b Hw Hl. unfold local_has in Hl. rewrite Hlo in Hl. apply Hack. right. apply Hrc.
    split; [|done]. by apply (Hkey k b).
  - intros k b Hw Hr. unfold remote_has in Hr. rewrite Hrem in Hr. apply Hack. left. by apply (ci_remote s I).
  - rewrite Hby. unfold u64_wrap. apply Z.mod_small. split; [|done]. apply sum_sizes_nonneg.
    intros k e Hk. rewrite Hst in Hk. destruct (proj1 (index_keys_spec 0 ks k) e Hk) as [-> Hk'].
    destruct (R1 k Hk') as [Hw _]. pose proof (key_size k Hw). lia.
  - rewrite Hby. apply u64_wrap_range.
  - intros e Hx. by apply elem_of_nil in Hx.
  - constructor.
Qed.

Section reach.
Context `{L : Layout}.

Lemma cache_step_inv s s' : cache_step s s' -> CacheInv s -> CacheInv s'.
Proof.
  intros Hst I. destruct Hst.
  - eapply fc_stage_inv; eassumption.
  - by apply get_range_inv.
  - by apply fc_get_inv.
  - apply mig_sub_inv; [done|]. constructor; [|apply (ci_mig s I)].
    unfold is_current in H. destruct (fc_staged (cs_cache s) !! ci_key e) as [cur|] eqn:E; [|done].
    destruct (ci_staged s I _ _ E) as [_ [b Hb]]. by exists b.
  - eapply mig_copy_inv; eassumption.
  - eapply mig_confirm_inv; eassumption.
  - eapply mig_unindex_inv; eassumption.
  - apply mig_sub_inv; [done|]. pose proof (ci_mig s I) as HF. rewrite H in HF.
    apply Forall_app in HF as [HF1 HF2]. apply Forall_cons in HF2 as [_ HF2]. by apply Forall_app.
  - by apply pressure_inv.
  - eapply cache_restart_inv; eassumption.
Qed.

Lemma cache_steps_inv s s' : rtc cache_step s s' -> CacheInv s -> CacheInv s'.
Proof. induction 1; [done|]. eauto using cache_step_inv. Qed.

(** An empty cache in front of an empty store. *)
Definition sys_new (max : Z) : CacheSys := mkSys (mkFC ∅ ∅ ∅ 0 false max 0) ∅ [] [].

Lemma sys_new_inv max : CacheInv (sys_new max).
Proof.
  constructor; cbn; try done; try (intros k b _ H; by apply lookup_empty_Some in H).
  intros e H. by apply elem_of_nil in H.
Qed.

(** C7: through any interleaving of stagings, reads, evictions, the three steps
    of concurrent migrations, their failures and cancellations, and crashes
    followed by recovery, no acknowledged block is lost: each one is, with its
    exact bytes, a complete local file or an object of the store, and one that
    is no longer indexed is in the store; the count of staged bytes is the sum
    of the indexed blocks' sizes. *)
Theorem staged_blocks_survive max s k b :
  rtc cache_step (sys_new max) s -> cs_acked s !! k = Some b ->
  (local_has (cs_cache s) k b \/ remote_has (cs_cache s) k b) /\
  (fc_staged (cs_cache s) !! k = None -> remote_has (cs_cache s) k b) /\
  fc_staged_bytes (cs_cache s) = sum_sizes (fc_staged (cs_cache s)).
Proof.
  intros Hr Hk. pose proof (cache_steps_inv _ _ Hr (sys_new_inv max)) as [_ _ H3 H4 _ _ H7 _ _ _]. auto.
Qed.
End reach.

(** ** Flushing *)

(** [migrate_once] runs the three steps in order. *)
Lemma migrate_once_inv s io e :
  CacheInv s -> CacheInv (mkSys (migrate_once io e (cs_cache s)).2 (cs_acked s) (cs_entries s) (cs_mig s)).
Proof.
  intros I. assert (Hs : CacheInv (mkSys (cs_cache s) (cs_acked s) (cs_entries s) (cs_mig s))) by (by destruct s).
  unfold migrate_once. destruct (is_current e (cs_cache s)) eqn:Hc; [|done].
  assert (I0 : CacheInv (mkSys (cs_cache s) (cs_acked s) (cs_entries s) ([] ++ (e, MStarted) :: cs_mig s))).
  { apply mig_sub_inv; [done|]. constructor; [|apply (ci_mig s I)]. unfold is_current in Hc.
    destruct (fc_staged (cs_cache s) !! ci_key e) as [cur|] eqn:E; [|done].
    destruct (ci_staged s I _ _ E) as [_ [b Hb]]. by exists b. }
  unfold migrate_from_local_to_remote. destruct (mig_copy io (ci_key e) (cs_cache s)) as [r1 c1] eqn:H1.
  pose proof (mig_copy_inv _ io [] e (cs_mig s) r1 c1 I0 eq_refl H1) as I1.
  destruct r1 as [len| |]; [|exact I1..].
  destruct (mig_confirm io (ci_key e) len c1) as [r2 c2] eqn:H2.
  pose proof (mig_confirm_inv _ io [] e len (cs_mig s) r2 c2 I1 eq_refl H2) as I2.
  destruct r2 as [u| |]; [|exact I2..].
  exact (mig_unindex_inv _ [] e (cs_mig s) I2 eq_refl).
Qed.

(** A migration touches no other entry of the index. *)
Lemma migrate_once_staged io e c r c' k :
  migrate_once io e c = (r, c') -> fc_staged c' !! k = fc_staged c !! k \/ fc_staged c' !! k = None.
Proof.
  unfold migrate_once, migrate_from_local_to_remote, mig_copy, mig_confirm, mig_unindex. intros H.
  repeat (case_match; simplify_eq; simpl; try by left).
  all: destruct (decide (k = ci_key e)) as [->|Hne];
    [right; apply lookup_delete_eq|left; apply lookup_delete_ne; congruence].
Qed.

Lemma flush_key_spec s io k r c' :
  CacheInv s -> flush_key io k (cs_cache s) = (r, c') ->
  CacheInv (mkSys c' (cs_acked s) (cs_entries s) (cs_mig s)) /\
  (forall k', fc_staged c' !! k' = fc_staged (cs_cache s) !! k' \/ fc_staged c' !! k' = None) /\
  (r = Ok () -> fc_staged c' !! k = None).
Proof.
  intros I H. unfold flush_key in H. destruct (fc_staged (cs_cache s) !! k) as [e|] eqn:E.
  - pose proof (migrate_once_inv s io e I) as I'. rewrite H in I'. split; [exact I'|].
    split; [intros k'; by eapply migrate_once_staged|]. intros ->.
    destruct (ci_staged s I k e E) as [Ek _]. unfold migrate_once, is_current in H.
    rewrite Ek, E in H. unfold same_generation in H. rewrite Z.eqb_refl in H.
    unfold migrate_from_local_to_remote, mig_copy, mig_confirm in H.
    repeat (case_match; simplify_eq; try done).
    unfold mig_unindex, is_current. simpl. rewrite E. unfold same_generation. rewrite Z.eqb_refl. simpl.
    apply lookup_delete_eq.
  - injection H as <- <-. split; [by destruct s|]. split; [by left|done].
Qed.

Lemma flush_keys_spec io ks s r c' :
  CacheInv s -> flush_keys io ks (cs_cache s) = (r, c') ->
  CacheInv (mkSys c' (cs_acked s) (cs_entries s) (cs_mig s)) /\
  (forall k', fc_staged c' !! k' = fc_staged (cs_cache s) !! k' \/ fc_staged c' !! k' = None) /\
  (r = Ok () -> forall k, k ∈ ks -> fc_staged c' !! k = None).
Proof.
  revert s. induction ks as [|k ks IH]; intros s I H; simpl in H.
  { injection H as <- <-. split; [by destruct s|]. split; [by left|]. intros _ k Hk. by apply elem_of_nil in Hk. }
  destruct (flush_key (io k) k (cs_cache s)) as [r1 c1] eqn:H1.
  destruct (flush_key_spec s (io k) k r1 c1 I H1) as (I1 & S1 & N1).
  destruct r1 as [[]| |]; [|by injection H as <- <-..].
  destruct (IH _ I1 H) as (I2 & S2 & N2). split; [exact I2|].
  assert (Hmono : forall k', fc_staged c' !! k' = fc_staged (cs_cache s) !! k' \/ fc_staged c' !! k' = None).
  { intros k'. destruct (S2 k') as [->|]; [apply S1|by right]. }
  split; [exact Hmono|]. intros -> k' Hk'. apply elem_of_cons in Hk' as [->|Hk']; [|by apply N2].
  destruct (S2 k) as [->|]; [by apply N1|done].
Qed.

(** The keys [flush_slice] collects. *)
Lemma slice_keys_spec sid c k : k ∈ slice_keys sid c <-> sk_slice_id k = sid /\ is_Some (fc_staged c !! k).
Proof.
  unfold slice_keys, staged_keys. rewrite merge_sort_Permutation, list_elem_of_filter, list_elem_of_fmap. split.
  - intros [Hs ([k' e] & -> & Hin)]. apply elem_of_map_to_list in Hin. split; [done|]. by exists e.
  - intros [Hs [e He]]. split; [done|]. exists (k, e). split; [done|]. by apply elem_of_map_to_list.
Qed.

Section barrier.
Context `{L : Layout}.

(** C24: [flush_slice] is a durability barrier: when it returns [Ok], every
    acknowledged block of the slice is in the object store with its exact bytes,
    whatever the failures, evictions, concurrent migrations and restarts before
    it; the other slices' blocks stay available. *)
Theorem flush_slice_durable max s io sid c' :
  rtc cache_step (sys_new max) s -> flush_slice io sid (cs_cache s) = (Ok (), c') ->
  forall k b, cs_acked s !! k = Some b ->
    (sk_slice_id k = sid -> remote_has c' k b) /\ (local_has c' k b \/ remote_has c' k b).
Proof.
  intros Hr H k b Hk. pose proof (cache_steps_inv _ _ Hr (sys_new_inv max)) as I.
  destruct (flush_keys_spec io _ s _ _ I H) as (I' & Hm & Hn). split; [|by apply (ci_durable _ I')].
  intros Hs. apply (ci_flushed _ I' k b Hk). simpl.
  destruct (fc_staged (cs_cache s) !! k) as [e|] eqn:E.
  - apply Hn; [done|]. apply slice_keys_spec. split; [done|by exists e].
  - destruct (Hm k) as [->|]; done.
Qed.

(** The cache never stages beyond its limit: a staging that would exceed it
    fails with the out-of-space error and leaves index, files and count as they
    are, and one that succeeds leaves the count within the limit or unchanged. *)
Theorem stage_respects_limit io sid p c idx len pages r c' :
  fc_stage io sid p c idx len pages = (r, c') -> 0 <= fc_staged_bytes c < 2 ^ 64 -> 0 <= len ->
  (fc_staged c !! mkSliceKey sid idx len = None -> fc_max_stage_size c < fc_staged_bytes c + len ->
     r = Err ErrStageNoMoreSpace /\ fc_staged c' = fc_staged c /\ fc_local c' = fc_local c /\
     fc_staged_bytes c' = fc_staged_bytes c) /\
  (r <> Panic -> fc_staged_bytes c' <= fc_max_stage_size c \/ fc_staged_bytes c' = fc_staged_bytes c).
Proof.
  intros H Hb Hl. unfold fc_stage in H. destruct (fc_staged c !! _) as [e|] eqn:E.
  { injection H as <- <-. split; [done|by right]. }
  destruct (reserve_stage_bytes _ _ _ _) as [r1 c1] eqn:Hr.
  destruct (stage_reserve_spec _ _ _ _ _ _ Hr) as [(-> & -> & Hu & Hmax)|((-> & b & ->) & Hor)].
  2:{ injection H as <- <-. split; [done|by right]. }
  split; [lia|]. intros Hnp. unfold stage_entry in H.
  assert (Hw : u64_wrap (fc_staged_bytes c + len - len) = fc_staged_bytes c).
  { unfold u64_wrap. rewrite Z.mod_small by lia. lia. }
  destruct (si_policy io) as [e|]; [|destruct (gather_block _ _ _); [destruct (si_write io)|..]]; cbn in H;
    rewrite ?E in H; injection H as <- <-; cbn; rewrite ?Hw; auto; done.
Qed.
End barrier.

(** ** What a crash in the middle of a staging leads to *)

Lemma recover_fails io name d entries dir :
  (name, d) ∈ entries -> (forall o, recover_entry io name d <> Ok o) ->
  is_ok (recover_stage_index io entries dir).1 = false.
Proof.
  intros Hin Hbad. unfold recover_stage_index. destruct (rc_read_dir io); [|done]. revert dir. induction entries as [|[n d'] entries IH]; intros dir.
  { by apply elem_of_nil in Hin. }
  simpl. destruct (recover_entry io n d') as [o| |] eqn:E; [|done..].
  apply elem_of_cons in Hin as [Heq|Hin]; [injection Heq as <- <-; by apply Hbad in E|].
  specialize (IH Hin (if o is None then delete n dir else dir)).
  by destruct (recover_entries io entries _) as [[| |] ?].
Qed.

(** A crash while a block is being staged leaves its temporary file, whose
    name the recovery takes neither for an incomplete file nor for a block: the
    next mount's cache cannot be opened, whatever the rest of the directory. *)
Theorem leftover_blocks_recovery io k n data dir entries sp mx remote :
  slice_key_wf k = true ->
  entries ≡ₚ prod_map id DFile <$> map_to_list (write_crashed n (path k) data dir) ->
  is_ok (file_cache_new io true sp mx entries (write_crashed n (path k) data dir) remote).1 = false.
Proof.
  intros Hk He. set (dir0 := write_crashed n (path k) data dir) in *.
  assert (Hf : is_ok (recover_stage_index io entries dir0).1 = false).
  { apply (recover_fails io (tmp_path (path k)) (DFile (take n data))).
    - rewrite He. apply list_elem_of_fmap. exists (tmp_path (path k), take n data). split; [done|].
      apply elem_of_map_to_list. apply lookup_insert_eq.
    - intros o Ho. apply recover_entry_file in Ho.
      change (is_incomplete_stage_file (tmp_path (path k))) with false in Ho.
      by rewrite tmp_not_key in Ho. }
  unfold file_cache_new. cbn [negb]. by destruct (recover_stage_index io entries dir0) as [[| |] ?].
Qed.

(** The name the recovery does look for is another one. *)
Example incomplete_name :
  is_incomplete_stage_file (String "."%char (path (mkSliceKey 7 0 2) +:+ ".tmp-12-3")) = true /\
  is_incomplete_stage_file (tmp_path (path (mkSliceKey 7 0 2))) = false.
Proof. vm_compute. done. Qed.

(** A recovery of which every call succeeds. *)
Definition good_recovery : RecoverIo := mkRecoverIo true (fun _ => true) (fun _ => true) (fun _ => true) (fun _ => true).

Lemma leftover_blocks_recovery_witness :
  is_ok (file_cache_new good_recovery true true 100 [(tmp_path (path (mkSliceKey 7 0 2)), DFile [Byte.x61])]
           (write_crashed 1 (path (mkSliceKey 7 0 2)) [Byte.x61; Byte.x62] ∅) ∅).1 = false.
Proof.
  apply (leftover_blocks_recovery _ (mkSliceKey 7 0 2) 1 [Byte.x61; Byte.x62] ∅); [reflexivity|].
  vm_compute. reflexivity.
Defined.

(** *** A run on the small layout *)

Section run.
#[local] Existing Instance tiny_layout.

Definition run_pool : HybridPagePool := mkPool 2 2 0 1 (mkMemPool 2 2 []) None.
Definition run_pages : list (option Page) := [Some (PMemory [Byte.x61; Byte.x62]); None].
Definition run_key : SliceKey := mkSliceKey 7 0 3.
Definition run_data : bytes := [Byte.x61; Byte.x62; Byte.x00].
Definition run_io : StageIo := mkStageIo None true None false.
Definition run_mig : MigrateIo := mkMigrateIo true true true true.
Definition run_index : CacheIndex := mkCacheIndex run_key 0.

Definition staged_cache : FileCache := (fc_stage run_io 7 run_pool (mkFC ∅ ∅ ∅ 0 false 100 0) 0 3 run_pages).2.
Definition staged_sys : CacheSys := mkSys staged_cache {[run_key := run_data]} [run_index] [].

Lemma run_staged : rtc cache_step (sys_new 100) staged_sys.
Proof.
  apply rtc_once.
  assert (E : fc_stage run_io 7 run_pool (cs_cache (sys_new 100)) 0 3 run_pages = (Ok (3, 1), staged_cache))
    by (vm_compute; reflexivity).
  pose proof (cs_stage (sys_new 100) run_io 7 run_pool 0 3 run_pages run_data (Ok (3, 1)) staged_cache) as H.
  cbv zeta in H. specialize (H eq_refl eq_refl eq_refl).
  assert (Hs : fc_staged staged_cache !! mkSliceKey 7 0 3 = Some run_index) by (vm_compute; reflexivity).
  rewrite Hs in H. apply H; [|done|exact E]. done.
Qed.

Lemma staged_blocks_survive_witness :
  let s := mkSys (mig_copy run_mig run_key staged_cache).2 (cs_acked staged_sys) (cs_entries staged_sys) [(run_index, MCopied 3)] in
  let c := (mig_confirm run_mig run_key 3 (cs_cache s)).2 in
  fc_local c = ∅ /\ (local_has c run_key run_data \/ remote_has c run_key run_data).
Proof.
  intros s c. split; [vm_compute; reflexivity|].
  apply (staged_blocks_survive 100 (mkSys c (cs_acked s) (cs_entries s) [(run_index, MDeleted)]) run_key run_data).
  - transitivity staged_sys; [apply run_staged|].
    eapply rtc_l; [apply (cs_start staged_sys run_index); [vm_compute; reflexivity|intros m Hm; by apply elem_of_nil in Hm]|].
    eapply rtc_l; [apply (cs_copy _ run_mig [] run_index [] (Ok 3) (cs_cache s)); [reflexivity|vm_compute; reflexivity]|].
    eapply rtc_l; [apply (cs_confirm _ run_mig [] run_index 3 [] (Ok ()) c); [reflexivity|vm_compute; reflexivity]|].
    apply rtc_refl.
  - vm_compute. reflexivity.
Defined.

Lemma flush_slice_durable_witness :
  exists c', flush_slice (fun _ => run_mig) 7 staged_cache = (Ok (), c') /\ remote_has c' run_key run_data.
Proof.
  exists (flush_slice (fun _ => run_mig) 7 staged_cache).2.
  assert (H : flush_slice (fun _ => run_mig) 7 (cs_cache staged_sys) =
              (Ok (), (flush_slice (fun _ => run_mig) 7 staged_cache).2)) by (vm_compute; reflexivity).
  split; [exact H|].
  apply (flush_slice_durable 100 staged_sys (fun _ => run_mig) 7 _ run_staged H run_key run_data);
    vm_compute; reflexivity.
Defined.

Lemma stage_respects_limit_witness :
  exists c', fc_stage run_io 7 run_pool (mkFC ∅ ∅ ∅ 99 false 100 0) 0 3 run_pages = (Err ErrStageNoMoreSpace, c') /\
    fc_local c' = ∅.
Proof.
  destruct (fc_stage run_io 7 run_pool (mkFC ∅ ∅ ∅ 99 false 100 0) 0 3 run_pages) as [r c'] eqn:E.
  destruct (stage_respects_limit run_io 7 run_pool (mkFC ∅ ∅ ∅ 99 false 100 0) 0 3 run_pages r c' E) as [H _];
    [simpl; lia|lia|].
  destruct H as (-> & _ & Hl & _); [vm_compute; reflexivity|simpl; lia|]. exists c'. split; [done|exact Hl].
Defined.
End run.
