(* ===== verification/Writer.v ===== *)
(** * The file writer (components/vfs/src/writer.rs)

    A file has one writer, which keeps a chunk writer per chunk; a chunk writer
    keeps slice writers, each with a buffer, and hands full or finished ones to a
    background flusher through a queue.  The model runs the operations one after
    the other: a compare-and-swap on the state of a slice writer compares with the
    state it has, and while a flush of the file goes through its rounds no write and
    no other flush of the same file comes between them.  The metadata engine is an interface ([MetaClient]), the page
    pool and the block cache are the models of those components. *)

From S2P Require Import Prelude Common Slice SliceKey Meta Pool SliceBuffer FileCache.
Open Scope Z_scope.

(** ** Errors of the VFS (vfs/src/err.rs) *)

Inductive VfsError :=
| VJoinErr
| VObjectStorage
| VObjectStorageConfig
| VInvalidConfig (reason : string)
| VMountDraining
| VCacheRoot
| VObjectBlockNotFound (key : SliceKey)
| VInvalidRange (subject : string) (offset length bound : Z)
| VUnexpectedLength (subject : string) (expected actual : Z)
| VStorage (e : StorageError)
| VMeta (e : Meta.Error)
| VLibc (errno : Z).

Abbreviation VResult := (outcome VfsError).

Definition ENOSPC : Z := 28.

Definition vfs_to_errno (e : VfsError) : Z :=
  match e with
  | VLibc errno => errno
  | VMeta e => to_errno e
  | VStorage e => if storage_no_space e then ENOSPC else EIO
  | _ => EIO
  end.

(** ** The metadata engine, as the writer uses it *)

Class MetaClient (M : Type) := {
  mc_next_slice_id : M -> outcome Meta.Error Z * M;
  mc_write_slice : Z -> Z -> Z -> Slice -> M -> outcome Meta.Error () * M
}.

(** ** Write patterns *)

Record WriterPattern := mkPattern { wp_score : Z; wp_last_stop : Z }.

Definition MAX_RANDOM_SCORE : Z := -5.
Definition MAX_SEQ_SCORE : Z := 20.

Definition monitor_write_at (offset size : Z) (p : WriterPattern) : WriterPattern :=
  let score :=
    if wp_last_stop p =? offset then
      (if wp_score p <? MAX_SEQ_SCORE then wp_score p + 1 else wp_score p)
    else if MAX_RANDOM_SCORE <? wp_score p then wp_score p - 1 else wp_score p in
  mkPattern score (u64_wrap (offset + size)).

Definition is_seq (p : WriterPattern) : bool := 0 <=? wp_score p.

(** ** Where a write goes *)

Record ChunkWriteCtx := mkCtx {
  cx_file_offset : Z;
  cx_chunk_idx : Z;
  cx_chunk_offset : Z;
  cx_need_write_len : Z;
  cx_buf_start_at : Z
}.

(** The closure mapped over the chunk indices, with its captured variables. *)
Fixpoint locate_loop (chunk_size offset : Z) (idxs : list Z) (chunk_pos buf_start_at left : Z)
    : list ChunkWriteCtx :=
  match idxs with
  | [] => []
  | idx :: idxs =>
      let n := Z.min (chunk_size - chunk_pos) left in
      mkCtx (offset + buf_start_at) idx chunk_pos n buf_start_at ::
      locate_loop chunk_size offset idxs (cal_chunk_offset (chunk_pos + n) chunk_size) (buf_start_at + n) (left - n)
  end.

Definition locate_chunk (chunk_size offset len : Z) : list ChunkWriteCtx :=
  let first := cal_chunk_idx offset chunk_size in
  let last := cal_chunk_idx (offset + len - 1) chunk_size in
  locate_loop chunk_size offset (seqZ first (last - first + 1)) (cal_chunk_offset offset chunk_size) 0 len.

(** ** Slice writers *)

Inductive SliceWriterState := SwIdle | SwWriting | SwDirty | SwFlushing | SwCommitting | SwDone.

#[export] Instance slice_writer_state_eq_dec : EqDecision SliceWriterState.
Proof. solve_decision. Defined.

Record SliceWriter := mkSW {
  sw_chunk_index : Z;
  sw_state : SliceWriterState;
  sw_seq : Z;
  sw_slice_id : Z;
  sw_offset_of_chunk : Z;
  sw_buffer : SliceBuffer
}.

Definition set_state (st : SliceWriterState) (sw : SliceWriter) : SliceWriter :=
  mkSW (sw_chunk_index sw) st (sw_seq sw) (sw_slice_id sw) (sw_offset_of_chunk sw) (sw_buffer sw).
Definition set_buffer (b : SliceBuffer) (sw : SliceWriter) : SliceWriter :=
  mkSW (sw_chunk_index sw) (sw_state sw) (sw_seq sw) (sw_slice_id sw) (sw_offset_of_chunk sw) b.
Definition set_slice_id (id : Z) (sw : SliceWriter) : SliceWriter :=
  mkSW (sw_chunk_index sw) (sw_state sw) (sw_seq sw) id (sw_offset_of_chunk sw) (sw_buffer sw).

(** [compare_exchange] on the state. *)
Definition cas_state (old new : SliceWriterState) (sw : SliceWriter) : bool * SliceWriter :=
  if decide (sw_state sw = old) then (true, set_state new sw) else (false, sw).

Section slice_writer.
Context `{L : Layout}.

Definition slice_writer_new (chunk_index : Z) (st : SliceWriterState) (seq offset_of_chunk : Z) : SliceWriter :=
  mkSW chunk_index st seq EMPTY_SLICE_ID offset_of_chunk slice_buffer_new.

Definition sw_write_at (before : SliceWriterState) (offset : Z) (data : bytes)
    (p : HybridPagePool) (sw : SliceWriter) : VResult Z * HybridPagePool * SliceWriter :=
  let '(r, p, sb) := write_at p (sw_buffer sw) offset data in
  let sw := set_buffer sb sw in
  match r with
  | Ok written =>
      let new_state := if written =? 0 then before else SwDirty in
      let '(ok, sw) := cas_state SwWriting new_state sw in
      (if ok : bool then Ok written else Err (VLibc EIO), p, sw)
  | Err e => (Err (VStorage e), p, (cas_state SwWriting before sw).2)
  | Panic => (Panic, p, sw)
  end.

Inductive FlushReq :=
| FlushBulk (chunk seq offset : Z)
| FlushFull (chunk seq : Z)
| CommitIdle (chunk seq : Z).

Definition make_flush_req (seq finish : bool) (sw : SliceWriter) : option FlushReq * SliceWriter :=
  let c := sw_chunk_index sw in
  let n := sw_seq sw in
  match sw_state sw with
  | SwIdle =>
      if finish then
        let '(ok, sw) := cas_state SwIdle SwCommitting sw in
        (if ok : bool then Some (CommitIdle c n) else None, sw)
      else (None, sw)
  | SwWriting | SwFlushing | SwCommitting | SwDone => (None, sw)
  | SwDirty =>
      if finish then
        let '(ok, sw) := cas_state SwDirty SwFlushing sw in
        (if ok : bool then Some (FlushFull c n) else None, sw)
      else
        let length := sb_length (sw_buffer sw) in
        let flushed := sb_flushed (sw_buffer sw) in
        if length =? CHUNK_SIZE then
          let '(ok, sw) := cas_state SwDirty SwFlushing sw in
          (if ok : bool then Some (FlushFull c n) else None, sw)
        else if (BLOCK_SIZE <=? u64_wrap (length - flushed)) && negb seq then
          let '(ok, sw) := cas_state SwDirty SwFlushing sw in
          (if ok : bool then Some (FlushBulk c n length) else None, sw)
        else (None, sw)
  end.

Definition reset_after_flush_failure (sw : SliceWriter) : SliceWriter := (cas_state SwFlushing SwDirty sw).2.
Definition reset_after_commit_failure (sw : SliceWriter) : SliceWriter := (cas_state SwCommitting SwIdle sw).2.

(** What a slice writer works on: the pool, the cache and the engine. *)
Context {M : Type} `{MC : MetaClient M}.

Record Deps := mkDeps {
  d_pool : HybridPagePool;
  d_cache : FileCache;
  d_meta : M
}.

Definition prepare_slice_id (d : Deps) (sw : SliceWriter) : VResult Z * Deps * SliceWriter :=
  if negb (sw_slice_id sw =? EMPTY_SLICE_ID) then (Ok (sw_slice_id sw), d, sw)
  else
    let '(r, m) := mc_next_slice_id (d_meta d) in
    let d := mkDeps (d_pool d) (d_cache d) m in
    match r with
    | Ok id => (Ok id, d, if sw_slice_id sw =? 0 then set_slice_id id sw else sw)
    | Err e => (Err (VMeta e), d, sw)
    | Panic => (Panic, d, sw)
    end.

(** The cache as the buffer's staging uses it; [io] is what the environment does
    for each block. *)
Definition cache_stage (io : Z -> StageIo) (sid : Z) (p : HybridPagePool) (c : FileCache) (i len : Z)
    (pages : list (option Page)) : SResult (Z * Z) * FileCache :=
  fc_stage (io i) sid p c i len pages.

Definition do_flush_bulk (io : Z -> StageIo) (offset : Z) (d : Deps) (sw : SliceWriter)
    : VResult () * Deps * SliceWriter :=
  let '(r, d, sw) := prepare_slice_id d sw in
  match r with
  | Ok sid =>
      let '(r, (p, sb, c)) := sb_stage (cache_stage io sid) offset (d_pool d) (sw_buffer sw) (d_cache d) in
      let d := mkDeps p c (d_meta d) in
      let sw := set_buffer sb sw in
      match r with
      | Ok _ =>
          let '(ok, sw) := cas_state SwFlushing SwIdle sw in
          (if ok : bool then Ok () else Err (VLibc EIO), d, sw)
      | Err e => (Err (VStorage e), d, sw)
      | Panic => (Panic, d, sw)
      end
  | Err e => (Err e, d, sw)
  | Panic => (Panic, d, sw)
  end.

(** The slice that is published for a slice writer. *)
Definition slice_of (sid : Z) (sw : SliceWriter) : Slice :=
  Owned (u32_wrap (sw_offset_of_chunk sw)) sid (u32_wrap (sb_length (sw_buffer sw))) 0.

(** [flush_and_commit]; the identifier of the published slice is recorded by the
    caller. *)
Definition flush_and_commit (io : Z -> StageIo) (inode : Z) (d : Deps) (sw : SliceWriter)
    : VResult Z * Deps * SliceWriter :=
  let '(r, d, sw) := prepare_slice_id d sw in
  match r with
  | Ok sid =>
      let '(r, (p, sb, c)) := flush_v2 (cache_stage io sid) (d_pool d) (sw_buffer sw) (d_cache d) in
      let sw := set_buffer sb sw in
      let d := mkDeps p c (d_meta d) in
      match r with
      | Ok _ =>
          let '(r, m) := mc_write_slice inode (sw_chunk_index sw) (sw_offset_of_chunk sw) (slice_of sid sw)
                           (d_meta d) in
          let d := mkDeps p c m in
          match r with
          | Ok _ => (Ok sid, d, (cas_state SwFlushing SwDone sw).2)
          | Err e => (Err (VMeta e), d, sw)
          | Panic => (Panic, d, sw)
          end
      | Err e => (Err (VStorage e), d, sw)
      | Panic => (Panic, d, sw)
      end
  | Err e => (Err e, d, sw)
  | Panic => (Panic, d, sw)
  end.

(** [commit_partial]; [None] when there was nothing to publish. *)
Definition commit_partial (inode : Z) (d : Deps) (sw : SliceWriter) : VResult (option Z) * Deps * SliceWriter :=
  let sid := sw_slice_id sw in
  if negb (sb_length (sw_buffer sw) =? 0) then
    let '(r, m) := mc_write_slice inode (sw_chunk_index sw) (sw_offset_of_chunk sw) (slice_of sid sw) (d_meta d) in
    let d := mkDeps (d_pool d) (d_cache d) m in
    match r with
    | Ok _ => (Ok (Some sid), d, (cas_state SwCommitting SwDone sw).2)
    | Err e => (Err (VMeta e), d, sw)
    | Panic => (Panic, d, sw)
    end
  else (Ok None, d, (cas_state SwCommitting SwDone sw).2).
End slice_writer.

(** ** The file writer *)

(** [fw_chunks]: the slice writers of each chunk in the order of their sequence
    numbers; [fw_closed]: the flusher is gone, so sending to the queue fails. *)
Record FileWriter := mkFW {
  fw_inode : Z;
  fw_length : Z;
  fw_chunks : gmap Z (list SliceWriter);
  fw_queue : list FlushReq;
  fw_closed : bool;
  fw_slice_cnt : Z;
  fw_ref_count : Z;
  fw_pattern : WriterPattern;
  fw_error : option VfsError;
  fw_published : gset Z
}.

Definition set_chunks m fw := mkFW (fw_inode fw) (fw_length fw) m (fw_queue fw) (fw_closed fw) (fw_slice_cnt fw)
  (fw_ref_count fw) (fw_pattern fw) (fw_error fw) (fw_published fw).
Definition set_queue q fw := mkFW (fw_inode fw) (fw_length fw) (fw_chunks fw) q (fw_closed fw) (fw_slice_cnt fw)
  (fw_ref_count fw) (fw_pattern fw) (fw_error fw) (fw_published fw).
Definition set_fw_length l fw := mkFW (fw_inode fw) l (fw_chunks fw) (fw_queue fw) (fw_closed fw) (fw_slice_cnt fw)
  (fw_ref_count fw) (fw_pattern fw) (fw_error fw) (fw_published fw).
Definition set_slice_cnt n fw := mkFW (fw_inode fw) (fw_length fw) (fw_chunks fw) (fw_queue fw) (fw_closed fw) n
  (fw_ref_count fw) (fw_pattern fw) (fw_error fw) (fw_published fw).
Definition set_ref_count n fw := mkFW (fw_inode fw) (fw_length fw) (fw_chunks fw) (fw_queue fw) (fw_closed fw)
  (fw_slice_cnt fw) n (fw_pattern fw) (fw_error fw) (fw_published fw).
Definition set_pattern p fw := mkFW (fw_inode fw) (fw_length fw) (fw_chunks fw) (fw_queue fw) (fw_closed fw)
  (fw_slice_cnt fw) (fw_ref_count fw) p (fw_error fw) (fw_published fw).
Definition set_error e fw := mkFW (fw_inode fw) (fw_length fw) (fw_chunks fw) (fw_queue fw) (fw_closed fw)
  (fw_slice_cnt fw) (fw_ref_count fw) (fw_pattern fw) e (fw_published fw).
Definition set_published s fw := mkFW (fw_inode fw) (fw_length fw) (fw_chunks fw) (fw_queue fw) (fw_closed fw)
  (fw_slice_cnt fw) (fw_ref_count fw) (fw_pattern fw) (fw_error fw) s.
Definition set_closed b fw := mkFW (fw_inode fw) (fw_length fw) (fw_chunks fw) (fw_queue fw) b
  (fw_slice_cnt fw) (fw_ref_count fw) (fw_pattern fw) (fw_error fw) (fw_published fw).

(** The writer of [open_file_writer] for a file not yet open for writing. *)
Definition file_writer_new (inode len : Z) : FileWriter :=
  mkFW inode len ∅ [] false 0 0 (mkPattern 0 0) None ∅.

(** Only the first error is kept. *)
Definition record_flush_error (e : VfsError) (fw : FileWriter) : FileWriter :=
  match fw_error fw with None => set_error (Some e) fw | Some _ => fw end.
Definition take_flush_error (fw : FileWriter) : option VfsError * FileWriter := (fw_error fw, set_error None fw).
Definition has_flush_error (fw : FileWriter) : bool := match fw_error fw with Some _ => true | None => false end.
Definition record_published_slice (sid : Z) (fw : FileWriter) : FileWriter :=
  set_published ({[sid]} ∪ fw_published fw) fw.

(** [slice_flush_queue.send] *)
Definition send_req (req : FlushReq) (fw : FileWriter) : bool * FileWriter :=
  if fw_closed fw then (false, fw) else (true, set_queue (fw_queue fw ++ [req]) fw).

(** A slice writer by its chunk and sequence number. *)
Definition get_sw (chunk seq : Z) (fw : FileWriter) : option SliceWriter :=
  l ← fw_chunks fw !! chunk; list_find (fun sw => sw_seq sw = seq) l ≫= fun x => Some x.2.
Definition put_sw (sw : SliceWriter) (fw : FileWriter) : FileWriter :=
  set_chunks (alter (map (fun x => if decide (sw_seq x = sw_seq sw) then sw else x)) (sw_chunk_index sw)
                (fw_chunks fw)) fw.

(** Insertion into a [BTreeMap]. *)
Fixpoint bt_insert (sw : SliceWriter) (l : list SliceWriter) : list SliceWriter :=
  match l with
  | [] => [sw]
  | x :: l =>
      if sw_seq sw <? sw_seq x then sw :: x :: l
      else if sw_seq sw =? sw_seq x then sw :: l
      else x :: bt_insert sw l
  end.

Section file_writer.
Context `{L : Layout}.

(** The search of [ChunkWriter::find_writable_slice_writer], over the slice
    writers from the last to the first: the one taken with the state it had, the
    slice writers afterwards, and the flush requests made on the way. *)
Fixpoint find_loop (seq : bool) (chunk_offset : Z) (idx : nat) (l : list SliceWriter)
    : option (SliceWriter * SliceWriterState) * list SliceWriter * list FlushReq :=
  match l with
  | [] => (None, [], [])
  | sw :: l =>
      let skip :=
        let '(r, l', reqs) := find_loop seq chunk_offset (S idx) l in (r, sw :: l', reqs) in
      if negb (bool_decide (sw_state sw = SwIdle \/ sw_state sw = SwDirty)) then skip
      else if (sw_offset_of_chunk sw + sb_flushed (sw_buffer sw) <=? chunk_offset) &&
              (chunk_offset <=? sw_offset_of_chunk sw + sb_length (sw_buffer sw)) then
        let '(ok, sw') := cas_state (sw_state sw) SwWriting sw in
        if ok : bool then (Some (sw', sw_state sw), sw' :: l, []) else skip
      else if (3 <=? idx)%nat then
        let '(req, sw') := make_flush_req seq true sw in
        let '(r, l', reqs) := find_loop seq chunk_offset (S idx) l in
        (r, sw' :: l', option_list req ++ reqs)
      else skip
  end.

Definition send_all (reqs : list FlushReq) (fw : FileWriter) : FileWriter :=
  foldl (fun fw req => let '(ok, fw) := send_req req fw in
                       if ok : bool then fw else record_flush_error (VLibc EIO) fw) fw reqs.

(** [ChunkWriter::find_writable_slice_writer]; [id] is the next sequence number. *)
Definition chunk_find (id : Z) (cx : ChunkWriteCtx) (fw : FileWriter) : SliceWriter * SliceWriterState * FileWriter :=
  let l := default [] (fw_chunks fw !! cx_chunk_idx cx) in
  let '(found, l', reqs) := find_loop (is_seq (fw_pattern fw)) (cx_chunk_offset cx) 0 (reverse l) in
  let fw := send_all reqs (set_chunks (<[cx_chunk_idx cx := reverse l']> (fw_chunks fw)) fw) in
  match found with
  | Some (sw, old) => (sw, old, fw)
  | None =>
      let sw := slice_writer_new (cx_chunk_idx cx) SwWriting id (cx_chunk_offset cx) in
      let fw := set_slice_cnt (fw_slice_cnt fw + 1) fw in
      (sw, SwIdle, set_chunks (alter (bt_insert sw) (cx_chunk_idx cx) (fw_chunks fw)) fw)
  end.

(** [FileWriter::find_writable_slice_writer]: a slice writer for every chunk the
    write touches. *)
Fixpoint fw_find (ids : nat -> Z) (n : nat) (cxs : list ChunkWriteCtx) (fw : FileWriter)
    : list (Z * SliceWriterState * ChunkWriteCtx) * FileWriter :=
  match cxs with
  | [] => ([], fw)
  | cx :: cxs =>
      let '(sw, old, fw) := chunk_find (ids n) cx fw in
      let '(rest, fw) := fw_find ids (S n) cxs fw in
      ((sw_seq sw, old, cx) :: rest, fw)
  end.

(** The loop of [write] over the slice writers it found. *)
Fixpoint write_loop (sws : list (Z * SliceWriterState * ChunkWriteCtx)) (data : bytes) (written : Z)
    (p : HybridPagePool) (fw : FileWriter) : VResult Z * HybridPagePool * FileWriter :=
  match sws with
  | [] => (Ok written, p, fw)
  | (seq, old, cx) :: sws =>
      match get_sw (cx_chunk_idx cx) seq fw with
      | None => (Panic, p, fw)
      | Some sw =>
          let part := sublist (cx_buf_start_at cx) (cx_need_write_len cx) data in
          let '(r, p, sw) := sw_write_at old (cx_chunk_offset cx - sw_offset_of_chunk sw) part p sw in
          let fw := put_sw sw fw in
          match r with
          | Ok n =>
              let '(req, sw) := make_flush_req (is_seq (fw_pattern fw)) false sw in
              let fw := put_sw sw fw in
              match req with
              | Some req =>
                  let '(ok, fw) := send_req req fw in
                  if ok : bool then write_loop sws data (written + n) p fw else (Err (VLibc EIO), p, fw)
              | None => write_loop sws data (written + n) p fw
              end
          | Err e => (Err e, p, fw)
          | Panic => (Panic, p, fw)
          end
      end
  end.

(** [FileWriter::write], once fewer than a thousand slice writers are open (the
    call waits for that without changing anything). *)
Definition fw_write (ids : nat -> Z) (offset : Z) (data : bytes) (p : HybridPagePool) (fw : FileWriter)
    : VResult Z * HybridPagePool * FileWriter :=
  if zlen data =? 0 then (Ok 0, p, fw)
  else
    let '(e, fw) := take_flush_error fw in
    match e with
    | Some e => (Err e, p, fw)
    | None =>
        let fw := set_pattern (monitor_write_at offset (zlen data) (fw_pattern fw)) fw in
        let '(sws, fw) := fw_find ids 0 (locate_chunk CHUNK_SIZE offset (zlen data)) fw in
        let '(r, p, fw) := write_loop sws data 0 p fw in
        match r with
        | Ok n => (Ok n, p, set_fw_length (Z.max (fw_length fw) (offset + n)) fw)
        | Err e => (Err e, p, fw)
        | Panic => (Panic, p, fw)
        end
    end.

(** *** The flusher *)

Context {M : Type} `{MC : MetaClient M}.

Definition flush_result (chunk seq : Z) (r : VResult (option Z)) (sw : SliceWriter)
    (reset : SliceWriter -> SliceWriter) (closes : bool) (fw : FileWriter) : VResult FileWriter :=
  match r with
  | Ok published =>
      let fw := put_sw sw fw in
      let fw := match published with Some sid => record_published_slice sid fw | None => fw end in
      Ok (if closes then set_slice_cnt (u64_wrap (fw_slice_cnt fw - 1)) fw else fw)
  | Err e => Ok (put_sw (reset sw) (record_flush_error e fw))
  | Panic => Panic
  end.

(** One request of [FileWriterFlusher::run]. *)
Definition run_req (io : Z -> StageIo) (req : FlushReq) (d : Deps (M:=M)) (fw : FileWriter)
    : VResult FileWriter * Deps (M:=M) :=
  match req with
  | FlushBulk c n offset =>
      match get_sw c n fw with
      | None => (Panic, d)
      | Some sw =>
          let '(r, d, sw) := do_flush_bulk io offset d sw in
          (flush_result c n (match r with Ok _ => Ok None | Err e => Err e | Panic => Panic end) sw
             reset_after_flush_failure false fw, d)
      end
  | FlushFull c n =>
      match get_sw c n fw with
      | None => (Panic, d)
      | Some sw =>
          let '(r, d, sw) := flush_and_commit io (fw_inode fw) d sw in
          (flush_result c n (match r with Ok sid => Ok (Some sid) | Err e => Err e | Panic => Panic end) sw
             reset_after_flush_failure true fw, d)
      end
  | CommitIdle c n =>
      match get_sw c n fw with
      | None => (Panic, d)
      | Some sw =>
          let '(r, d, sw) := commit_partial (fw_inode fw) d sw in
          (flush_result c n r sw reset_after_commit_failure true fw, d)
      end
  end.

Fixpoint run_queue (io : Z -> StageIo) (q : list FlushReq) (d : Deps (M:=M)) (fw : FileWriter)
    : VResult FileWriter * Deps (M:=M) :=
  match q with
  | [] => (Ok fw, d)
  | req :: q =>
      let '(r, d) := run_req io req d fw in
      match r with
      | Ok fw => run_queue io q d fw
      | _ => (r, d)
      end
  end.

(** *** Finishing *)

(** The loop of [ChunkWriter::finish] over the slice writers of a chunk, when
    sending fails ([closed]) or works: the slice writers afterwards, the numbers
    of those that were done, the requests sent, and whether a send failed, which
    ends the loop. *)
Fixpoint finish_sws (closed : bool) (l : list SliceWriter)
    : list SliceWriter * list Z * list FlushReq * bool :=
  match l with
  | [] => ([], [], [], false)
  | sw :: l =>
      match sw_state sw with
      | SwWriting | SwFlushing =>
          let '(l', done, reqs, failed) := finish_sws closed l in (sw :: l', done, reqs, failed)
      | SwDone =>
          let '(l', done, reqs, failed) := finish_sws closed l in (sw :: l', sw_seq sw :: done, reqs, failed)
      | _ =>
          let '(req, sw) := make_flush_req false true sw in
          match req with
          | Some req =>
              if closed then (sw :: l, [], [], true)
              else let '(l', done, reqs, failed) := finish_sws closed l in (sw :: l', done, req :: reqs, failed)
          | None =>
              let '(l', done, reqs, failed) := finish_sws closed l in (sw :: l', done, reqs, failed)
          end
      end
  end.

(** One round of [ChunkWriter::finish]; when a send failed the writers that were
    done are not removed. *)
Definition chunk_finish (c : Z) (fw : FileWriter) : FileWriter :=
  if has_flush_error fw then fw
  else
    match fw_chunks fw !! c with
    | None => fw
    | Some l =>
        let '(l', done, reqs, failed) := finish_sws (fw_closed fw) l in
        let l' := if failed : bool then l' else filter (fun sw => sw_seq sw ∉ done) l' in
        let fw := set_queue (fw_queue fw ++ reqs) (set_chunks (<[c := l']> (fw_chunks fw)) fw) in
        if failed then record_flush_error (VLibc EIO) fw else fw
    end.

(** A round over every chunk, in the order the map gives them. *)
Definition finish_round (fw : FileWriter) : FileWriter :=
  foldl (fun fw c => chunk_finish c fw) fw (elements (dom (fw_chunks fw))).

Definition all_finished (fw : FileWriter) : bool := bool_decide (map_Forall (fun _ l => l = []) (fw_chunks fw)).

(** The rounds of the chunk writers, the flusher working off its queue between
    them; [None]: still waiting after [fuel] rounds. *)
Fixpoint finish_chunks (fuel : nat) (io : Z -> StageIo) (d : Deps (M:=M)) (fw : FileWriter)
    : option (VResult FileWriter * Deps (M:=M)) :=
  if has_flush_error fw || all_finished fw then Some (Ok fw, d)
  else
    match fuel with
    | O => None
    | S fuel =>
        let fw := finish_round fw in
        let '(r, d) := run_queue io (fw_queue fw) d (set_queue [] fw) in
        match r with
        | Ok fw => finish_chunks fuel io d fw
        | _ => Some (r, d)
        end
    end.

(** [finish_local] *)
Definition finish_local (fuel : nat) (io : Z -> StageIo) (d : Deps (M:=M)) (fw : FileWriter)
    : option (VResult () * Deps (M:=M) * FileWriter) :=
  let '(e, fw) := take_flush_error fw in
  match e with
  | Some e => Some (Err e, d, fw)
  | None =>
      if bool_decide (fw_chunks fw = ∅) then Some (Ok (), d, fw)
      else
        '(r, d) ← finish_chunks fuel io d fw;
        match r with
        | Ok fw =>
            let '(e, fw) := take_flush_error fw in
            match e with
            | Some e => Some (Err e, d, fw)
            | None => Some (Ok (), d, set_chunks ∅ fw)
            end
        | Err e => Some (Err e, d, fw)
        | Panic => Some (Panic, d, fw)
        end
  end.

(** [flush_published_slices], over the slices in some order. *)
Fixpoint flush_published (mio : SliceKey -> MigrateIo) (sids : list Z) (d : Deps (M:=M)) (fw : FileWriter)
    : VResult () * Deps (M:=M) * FileWriter :=
  match sids with
  | [] => (Ok (), d, fw)
  | sid :: sids =>
      let '(r, c) := flush_slice mio sid (d_cache d) in
      let d := mkDeps (d_pool d) c (d_meta d) in
      match r with
      | Ok _ => flush_published mio sids d (set_published (fw_published fw ∖ {[sid]}) fw)
      | Err e => (Err (VStorage e), d, fw)
      | Panic => (Panic, d, fw)
      end
  end.

Inductive Durability := DLocal | DRemote.

Definition flush_to (fuel : nat) (io : Z -> StageIo) (mio : SliceKey -> MigrateIo) (dur : Durability)
    (d : Deps (M:=M)) (fw : FileWriter) : option (VResult () * Deps (M:=M) * FileWriter) :=
  '(r, d, fw) ← finish_local fuel io d fw;
  match r, dur with
  | Ok _, DRemote => Some (flush_published mio (elements (fw_published fw)) d fw)
  | _, _ => Some (r, d, fw)
  end.

Definition fw_finish fuel io mio := flush_to fuel io mio DLocal.
Definition fw_sync_remote fuel io mio := flush_to fuel io mio DRemote.
End file_writer.
