(* ===== verification/Staging.v ===== *)
(** * Staging a slice buffer into the block cache

    The composition of the slice buffer with the block cache: what a staging
    pass acknowledges and what it leaves in the buffer, whichever block fails;
    and that a buffer flushed by any number of passes, interleaved with writes,
    has every block of the slice acknowledged. *)

From stdpp Require Import sorting.
From S2P Require Import Prelude Common SliceKey Pool SliceBuffer SliceBufferThms SliceIO FileCache FileCacheThms.
From S2P Require Import Slice Meta Writer.
Open Scope Z_scope.

Section staging.
Context `{L : Layout}.

Definition block_key (sid i len : Z) : SliceKey := mkSliceKey sid i len.

(** [gather_block] is the copy loop of the upload. *)
Lemma gather_block_spec {d} p sb others i db :
  sb_wf d p sb others -> slot sb i = Some (BData db) ->
  gather_block p (db_length db) (db_pages db) = Ok (reads (db_get p db) 0 (db_length db)).
Proof.
  intros [H1 H2 H3 H4 H5 H6] Hs. rewrite Forall_lookup in H4. destruct (H4 _ _ Hs) as [Hl Hd].
  unfold gather_block. rewrite (copy_block_spec _ _ p (sb_pgs sb ++ others)); try done; try lia.
  - by rewrite Z.sub_0_r.
  - by eapply (block_pgs_in sb others _ (BData db)).
Qed.

(** The policy cache answers for a key with entries made for it. *)
Definition policy_ok (io : Z -> StageIo) (sid : Z) (sb : SliceBuffer) (s : CacheSys) : Prop :=
  forall i db e, 0 <= i -> slot sb i = Some (BData db) -> si_policy (io i) = Some e ->
    e ∈ cs_entries s /\ ci_key e = block_key sid i (db_length db).

(** Staging one block that was not acknowledged before. *)
Lemma stage_one {d} io sid p sb others i db s r c' :
  CacheInv s -> sb_wf d p sb others -> 0 <= sid < 2 ^ 64 -> 0 <= i < 2 ^ 32 ->
  slot sb i = Some (BData db) -> cs_acked s !! block_key sid i (db_length db) = None ->
  policy_ok io sid sb s ->
  cache_stage io sid p (cs_cache s) i (db_length db) (db_pages db) = (r, c') ->
  exists s', cache_step s s' /\ cs_cache s' = c' /\ r <> Panic /\
    match r with
    | Ok (_, cnt) => cnt = zlen (db_pgs db) /\ cs_acked s' =
        <[block_key sid i (db_length db) := reads (db_get p db) 0 (db_length db)]> (cs_acked s)
    | _ => cs_acked s' = cs_acked s
    end /\ (forall e, e ∈ cs_entries s' -> e ∈ cs_entries s \/ ci_key e = block_key sid i (db_length db)) /\
    (forall e, e ∈ cs_entries s -> e ∈ cs_entries s').
Proof.
  intros I Hw Hsid Hi Hs Hn Hpol H. set (k := block_key sid i (db_length db)) in *.
  pose proof (gather_block_spec p sb others i db Hw Hs) as Hg.
  pose proof (sw_blocks Hw) as Hbk. rewrite Forall_lookup in Hbk. destruct (Hbk _ _ Hs) as [Hpl Hdl].
  pose proof chunk_size_u32. pose proof chunk_size_eq. pose proof blocks_per_chunk_pos. pose proof block_size_pos.
  assert (Hwf : slice_key_wf k = true).
  { unfold slice_key_wf, is_u64, k, block_key. cbn. assert (BLOCK_SIZE < 2 ^ 64) by nia. lia. }
  assert (Hz : zlen (reads (db_get p db) 0 (db_length db)) = db_length db) by (apply zlen_reads; lia).
  assert (Himm : forall b, cs_acked s !! k = Some b -> reads (db_get p db) 0 (db_length db) = b).
  { intros b Hb. congruence. }
  pose proof (cs_stage s (io i) sid p i (db_length db) (db_pages db) _ r c' Hwf Hg Hz Himm
    (fun e He => Hpol i db e (proj1 Hi) Hs He) H) as Hstep. change (mkSliceKey sid i (db_length db)) with k in Hstep.
  eexists. split; [exact Hstep|]. cbn [cs_cache cs_acked cs_entries]. split; [done|].
  assert (Hr : r <> Panic /\ match r with Ok (_, cnt) => cnt = zlen (db_pgs db) | _ => True end).
  { unfold cache_stage, fc_stage in H. destruct (fc_staged (cs_cache s) !! _); [by injection H as <- <-|].
    destruct (reserve_stage_bytes _ _ _ _) as [[| |] ?] eqn:Er;
      [|by injection H as <- <-|by destruct (stage_reserve_spec _ _ _ _ _ _ Er) as [(? & _)|((? & _) & _)]].
    unfold stage_entry in H. destruct (si_policy (io i)); [by injection H as <- <-|].
    cbn [sk_block_size] in H. rewrite Hg in H. by destruct (si_write (io i)); cbn in H; injection H as <- <-. }
  destruct Hr as [Hr Hcnt]. split; [done|]. destruct r as [[? cnt]| |]; [|split_and!; try done; by left|done].
  split_and!; [done|done| |].
  - intros e He. apply elem_of_app in He as [He|He]; [right|by left].
    assert (I' : CacheInv (mkSys c' (<[k := reads (db_get p db) 0 (db_length db)]> (cs_acked s))
              (option_list (fc_staged c' !! k) ++ cs_entries s) (cs_mig s))) by (by eapply cache_step_inv).
    destruct (fc_staged c' !! k) as [e'|] eqn:Ee; [|by apply elem_of_nil in He].
    apply list_elem_of_singleton in He as ->. by apply (ci_staged _ I' k e').
  - intros e He. apply elem_of_app. by right.
Qed.

(** What a staging pass over the blocks [a, a + n) of a buffer leaves: the
    blocks before [j] are acknowledged and gone, the others are as they were. *)
Record stage_post (sid a n d : Z) (others : list Page) (p : HybridPagePool) (sb : SliceBuffer) (s : CacheSys)
    (ok : bool) (j : Z) (d' : Z) (p' : HybridPagePool) (sb' : SliceBuffer) (s' : CacheSys) : Prop := {
  sp_steps : rtc cache_step s s';
  sp_wf : sb_wf d' p' sb' others;
  sp_bytes : forall q, page_bytes p' q = page_bytes p q;
  sp_length : sb_length sb' = sb_length sb;
  sp_cnt : sb_page_cnt sb' = sb_page_cnt sb;
  sp_range : a <= j <= a + n /\ (ok = true <-> j = a + n);
  sp_staged : forall i db, a <= i < j -> slot sb i = Some (BData db) ->
    slot sb' i = Some BEmpty /\
    cs_acked s' !! block_key sid i (db_length db) = Some (reads (db_get p db) 0 (db_length db));
  sp_kept : forall i, 0 <= i -> ~ a <= i < j -> slot sb' i = slot sb i;
  sp_flushed : sb_flushed sb' =
    if j =? a then sb_flushed sb else Z.max (sb_flushed sb) ((j - 1) * BLOCK_SIZE + blen sb (j - 1));
  sp_acked : forall k b, cs_acked s !! k = Some b -> cs_acked s' !! k = Some b;
  sp_new : forall k b, cs_acked s' !! k = Some b -> cs_acked s !! k = Some b \/
    exists i db, a <= i < j /\ slot sb i = Some (BData db) /\ k = block_key sid i (db_length db)
}.

Lemma block_key_inj sid i j a b : block_key sid i a = block_key sid j b -> i = j.
Proof. by intros [= -> _]. Qed.

Lemma slot_range {d} p sb others i b : sb_wf d p sb others -> 0 <= i -> slot sb i = Some b -> i < blocks_per_chunk.
Proof. intros Hw Hi Hs. apply lookup_lt_Some in Hs. pose proof (sw_slots Hw) as Hl. unfold zlen in Hl. lia. Qed.

Lemma blocks_small : blocks_per_chunk < 2 ^ 32.
Proof. pose proof page_total_small. pose proof pages_per_block_pos. pose proof blocks_per_chunk_pos. nia. Qed.

Lemma blen_slot sb i db : slot sb i = Some (BData db) -> blen sb i = db_length db.
Proof. unfold slot, blen. by intros ->. Qed.

Lemma stage_run io sid others n a rel d p sb s :
  CacheInv s -> sb_wf d p sb others -> 0 <= sid < 2 ^ 64 -> 0 <= a ->
  (forall i, a <= i < a + Z.of_nat n -> exists db, slot sb i = Some (BData db) /\
     (i + 1 < a + Z.of_nat n -> db_length db = BLOCK_SIZE) /\
     cs_acked s !! block_key sid i (db_length db) = None) ->
  policy_ok io sid sb s ->
  exists r p' sb' s' j d',
    stage_blocks (cache_stage io sid) (seqZ a (Z.of_nat n)) rel (p, sb, cs_cache s) = (r, (p', sb', cs_cache s')) /\
    stage_post sid a (Z.of_nat n) d others p sb s (is_ok r) j d' p' sb' s' /\
    match r with Ok m => m = rel + (d' - d) | Err _ => True | Panic => False end.
Proof.
  revert a rel d p sb s. induction n as [|n IH]; intros a rel d p sb s I Hw Hsid Ha Hblk Hpol.
  { exists (Ok rel), p, sb, s, a, d. split; [done|]. split; [|lia].
    constructor; try done; try lia; [split; [lia|split; [lia|done]]|by rewrite Z.eqb_refl|by left]. }
  rewrite seqZ_cons by lia. replace (Z.succ a) with (a + 1) by lia.
  replace (Z.pred (Z.of_nat (S n))) with (Z.of_nat n) by lia.
  destruct (Hblk a ltac:(lia)) as (db & Hs & Hfull & Hna). pose proof Hs as Hs0. unfold slot in Hs0.
  cbn [stage_blocks]. rewrite Hs0.
  destruct (cache_stage io sid p (cs_cache s) a (db_length db) (db_pages db)) as [r1 c1] eqn:H1.
  pose proof (slot_range p sb others a _ Hw Ha Hs) as Har. pose proof blocks_small.
  destruct (stage_one io sid p sb others a db s r1 c1 I Hw Hsid ltac:(lia) Hs Hna Hpol H1)
    as (s1 & Hst & <- & Hnp & Hack & He1 & He2).
  destruct r1 as [[len cnt]|e|]; [| |done].
  2:{ exists (Err e), p, sb, s1, a, d. split; [done|]. split; [|done].
      constructor; try done; try lia; [by apply rtc_once|split; [lia|split; [done|lia]]|by rewrite Z.eqb_refl| |].
      - intros k b Hb. by rewrite Hack.
      - intros k b Hb. left. by rewrite <- Hack. }
  destruct Hack as [-> Hack].
  destruct (flushed_block_drift p sb others a db Hw Ha Hs0) as (p1 & Hd1 & Hb1 & Hw1). rewrite Hd1.
  set (sb1 := flushed_block sb a db) in *.
  assert (Hslot : forall i, 0 <= i -> slot sb1 i = if decide (a = i) then Some BEmpty else slot sb i).
  { intros i Hi. apply (slot_flushed sb a db (sb_page_cnt sb) i); [done|done|by eapply lookup_lt_Some]. }
  assert (I1 : CacheInv s1) by (by eapply cache_step_inv).
  destruct (IH (a + 1) (rel + zlen (db_pgs db)) (d + zlen (db_pgs db)) p1 sb1 s1 I1 Hw1 Hsid)
    as (r & p' & sb' & s' & j & d' & Hrun & Hpost & Hm); [lia| | |].
  - intros i Hi. destruct (Hblk i ltac:(lia)) as (db' & Hs' & Hf' & Hn'). exists db'.
    rewrite Hslot by lia. rewrite decide_False by lia. split; [done|]. split; [intros; apply Hf'; lia|].
    rewrite Hack, lookup_insert_ne; [done|]. intros E. apply block_key_inj in E. lia.
  - intros i db' e Hi Hs' Hp.
    assert (Hi0 : i <> a -> slot sb i = Some (BData db')).
    { intros Hne. unfold slot, sb1, flushed_block in Hs'. cbn in Hs'. unfold slot.
      destruct (decide (Z.to_nat a = Z.to_nat i)) as [E|E].
      - rewrite E, list_lookup_insert_eq in Hs' by (rewrite <- E; by eapply lookup_lt_Some). done.
      - by rewrite list_lookup_insert_ne in Hs'. }
    destruct (decide (i = a)) as [->|Hne].
    + rewrite Hslot in Hs' by done. by rewrite decide_True in Hs'.
    + destruct (Hpol i db' e Hi (Hi0 Hne) Hp) as [Hin Hk]. split; [by apply He2|done].
  - destruct Hpost as [P1 P2 P3 P4 P5 [P6 P6'] P7 P8 P9 P10 P11].
    exists r, p', sb', s', j, d'. split; [exact Hrun|]. split.
    2:{ destruct r; [lia|done|done]. }
    assert (Hmine : cs_acked s1 !! block_key sid a (db_length db) = Some (reads (db_get p db) 0 (db_length db)))
      by (by rewrite Hack, lookup_insert_eq).
    constructor; try done.
    + by eapply rtc_l.
    + intros q. by rewrite P3.
    + split; [lia|]. rewrite P6'. lia.
    + intros i db' Hi Hs'. destruct (decide (i = a)) as [->|Hne].
      * rewrite Hs in Hs'. injection Hs' as <-. split; [|by apply P10].
        rewrite P8 by lia. rewrite Hslot by done. by rewrite decide_True.
      * destruct (P7 i db') as [E1 E2]; [lia|rewrite Hslot by lia; by rewrite decide_False by lia|].
        split; [done|]. rewrite E2. f_equal. apply reads_ext. intros x _. by apply db_get_same.
    + intros i Hi Hni. rewrite P8 by lia. rewrite Hslot by done. rewrite decide_False; [done|]. intros <-. lia.
    + rewrite P9. change (sb_flushed sb1) with (Z.max (sb_flushed sb) (a * BLOCK_SIZE + db_length db)).
      rewrite (proj2 (Z.eqb_neq j a)) by lia. destruct (j =? a + 1) eqn:E; to_prop.
      * subst j. replace (a + 1 - 1) with a by lia. by rewrite (blen_slot _ _ _ Hs).
      * destruct (Hblk (j - 1) ltac:(lia)) as (dbj & Hsj & _ & _).
        assert (Hbj : blen sb1 (j - 1) = blen sb (j - 1)).
        { rewrite (blen_slot sb (j - 1) dbj Hsj). apply (blen_slot sb1). rewrite Hslot by lia.
          by rewrite decide_False by lia. }
        rewrite Hbj. rewrite (Hfull ltac:(lia)). pose proof block_size_pos.
        assert (Hbn : 0 <= blen sb (j - 1)).
        { rewrite (blen_slot _ _ _ Hsj). pose proof (sw_blocks Hw) as Hbk. rewrite Forall_lookup in Hbk.
          apply (Hbk _ _ Hsj). }
        nia.
    + intros k b Hb. apply P10. rewrite Hack. destruct (decide (k = block_key sid a (db_length db))) as [->|Hne].
      * congruence.
      * by rewrite lookup_insert_ne.
    + intros k b Hb. destruct (P11 k b Hb) as [Hb'|(i & db' & Hi & Hs' & ->)].
      * rewrite Hack in Hb'. destruct (decide (k = block_key sid a (db_length db))) as [->|Hne].
        -- right. exists a, db. split; [lia|done].
        -- rewrite lookup_insert_ne in Hb' by done. by left.
      * right. exists i, db'. split; [lia|]. split; [|done]. rewrite Hslot in Hs' by lia.
        by rewrite decide_False in Hs' by lia.
Qed.

(** ** Slice writers at work

    A slice buffer whose bytes below [sb_flushed] are acknowledged by the cache
    and whose other bytes are buffered. *)

Lemma install_pages_slot l sb i :
  0 <= i -> Forall (fun x => 0 <= x.1 /\ x.1 / pages_per_block <> i) l -> slot (install_pages sb l) i = slot sb i.
Proof.
  intros Hi. revert sb. induction l as [|[g pg] l IH]; intros sb H; [done|]. apply Forall_cons in H as [[Hg Hne] H].
  cbn [install_pages fst] in *. rewrite IH by done. unfold install_page. rewrite pages_per_block_eq.
  destruct (sb_slots sb !! _); [|done]. unfold slot, set_slot. cbn. apply list_lookup_insert_ne.
  pose proof (page_index g Hg). lia.
Qed.

Lemma write_blocks_slot fuel p sb off t data i :
  0 <= i -> 0 <= t -> (i + 1) * BLOCK_SIZE <= off -> slot (write_blocks fuel p sb off t data).2 i = slot sb i.
Proof.
  intros Hi. revert p sb t. induction fuel as [|fuel IH]; intros p sb t Ht H; [done|]. cbn [write_blocks].
  destruct (t <? zlen data) eqn:E; [|done]. to_prop. pose proof block_size_pos.
  destruct (sb_slots sb !! _) as [b|]; [|done].
  destruct (write_pages _ _ _ _ _ _ _ _ _) as [r [[p1 db] cnt]] eqn:Ew.
  assert (Hs : slot (set_page_cnt cnt (set_slot ((off + t) / BLOCK_SIZE) (BData db) sb)) i = slot sb i).
  { unfold slot, set_page_cnt, set_slot. cbn. apply list_lookup_insert_ne.
    assert (i + 1 <= (off + t) / BLOCK_SIZE) by (apply Z.div_le_lower_bound; lia). lia. }
  destruct r; [rewrite IH; [exact Hs|pose proof (Z.mod_pos_bound (off + t) BLOCK_SIZE); lia|lia]|exact Hs|exact Hs].
Qed.

(** A write leaves the blocks before its first one alone. *)
Lemma write_at_slot {d} p sb others off data r p' sb' i :
  sb_wf d p sb others -> 0 <= off -> write_at p sb off data = (r, p', sb') -> 0 <= i -> (i + 1) * BLOCK_SIZE <= off ->
  slot sb' i = slot sb i.
Proof.
  intros Hw Ho H Hi Hb. unfold write_at in H. destruct (zlen data =? 0) eqn:E0; [by injection H as <- <- <-|]. to_prop.
  destruct (checked_add64 off (zlen data) ≫= _) as [e|] eqn:Ee; [|by injection H as <- <- <-].
  destruct (off <? sb_flushed sb); [by injection H as <- <- <-|].
  assert (He : e = off + zlen data /\ e <= CHUNK_SIZE).
  { unfold checked_add64 in Ee. cbn in Ee. destruct (_ <? _) in Ee; [|done]. cbn in Ee.
    destruct (_ <=? _) eqn:E1 in Ee; [|done]. to_prop. by injection Ee as <-. }
  destruct He as [-> Hc]. pose proof (zlen_nonneg data).
  destruct (range_pages off (off + zlen data)) as [Hv _]; [lia..|].
  unfold reserve_pages_for_write in H.
  assert (Hmiss := missing_pages_spec sb _ (sw_slots Hw) (sw_blocks Hw) Hv). rewrite Hmiss in H.
  destruct (acquire_pages _ _ _) as [[res| |] pa] in H; [|by injection H as <- <- <-..].
  match type of H with context [write_blocks _ _ ?x off 0 data] => set (sb1 := x) in H;
    assert (Hs1 : slot sb1 i = slot sb i) end.
  { subst sb1. change (slot (set_page_cnt ?n ?s) i) with (slot s i). apply install_pages_slot; [done|].
    apply Forall_forall. intros [g pg] Hg. apply elem_of_zip_l in Hg. apply list_elem_of_filter in Hg as [_ Hg].
    cbn [fst]. apply elem_of_seqZ in Hg. pose proof pages_per_block_pos. pose proof block_size_eq.
    pose proof page_size_pos. pose proof (Z.div_pos off PAGE_SIZE). split; [lia|].
    assert (i + 1 <= g / pages_per_block); [|lia]. apply Z.div_le_lower_bound; [lia|].
    assert ((i + 1) * pages_per_block <= off / PAGE_SIZE); [|lia]. apply Z.div_le_lower_bound; nia. }
  pose proof (write_blocks_slot (S (Z.to_nat (zlen data))) pa sb1 off 0 data i Hi ltac:(lia) Hb) as Hs2.
  destruct (write_blocks _ _ _ _ _ _) as [[r1 p1] sb2]. cbn [snd] in Hs2.
  destruct r1; injection H as <- <- <-; change (slot (mkSB ?a ?b (sb_slots sb2) ?c) i) with (slot sb2 i); congruence.
Qed.

Record slice_inv (sid : Z) (f : Z -> Byte.byte) (d : Z) (others : list Page) (p : HybridPagePool) (sb : SliceBuffer)
    (s : CacheSys) : Prop := {
  si_wf : sb_wf d p sb others;
  si_flushed : sb_flushed sb <= sb_length sb /\ (BLOCK_SIZE | sb_flushed sb);
  si_empty : forall i, 0 <= i -> i * BLOCK_SIZE < sb_flushed sb -> slot sb i = Some BEmpty;
  si_blen : forall i, sb_flushed sb <= i * BLOCK_SIZE ->
    blen sb i = Z.max 0 (Z.min BLOCK_SIZE (sb_length sb - i * BLOCK_SIZE));
  si_pages : forall x, sb_flushed sb <= x < sb_length sb -> page_at sb (x / PAGE_SIZE) <> None;
  si_get : forall x, sb_flushed sb <= x < sb_length sb -> sb_get p sb x = f x;
  si_acked : forall i, 0 <= i -> i * BLOCK_SIZE < sb_flushed sb ->
    cs_acked s !! block_key sid i BLOCK_SIZE = Some (reads f (i * BLOCK_SIZE) BLOCK_SIZE);
  si_keys : forall i len b, cs_acked s !! block_key sid i len = Some b -> i * BLOCK_SIZE < sb_flushed sb
}.

(** Every block of the slice of [len] bytes is acknowledged. *)
Definition slice_stored (sid : Z) (f : Z -> Byte.byte) (len : Z) (s : CacheSys) : Prop :=
  forall i, 0 <= i -> i * BLOCK_SIZE < len ->
    let n := Z.min BLOCK_SIZE (len - i * BLOCK_SIZE) in
    cs_acked s !! block_key sid i n = Some (reads f (i * BLOCK_SIZE) n).

Definition overwrite (f : Z -> Byte.byte) (off : Z) (data : bytes) (x : Z) : Byte.byte :=
  if (off <=? x) && (x <? off + zlen data) then bget data (x - off) else f x.

Lemma overwrite_in f off data x : off <= x < off + zlen data -> overwrite f off data x = bget data (x - off).
Proof. intros H. unfold overwrite. by rewrite (proj2 (Z.leb_le _ _)), (proj2 (Z.ltb_lt _ _)) by lia. Qed.

Lemma overwrite_out f off data x : ~ off <= x < off + zlen data -> overwrite f off data x = f x.
Proof.
  intros H. unfold overwrite. destruct (off <=? x) eqn:E1; [|done]. destruct (x <? off + zlen data) eqn:E2; [|done].
  to_prop. lia.
Qed.

Lemma aligned_block a i : (BLOCK_SIZE | a) -> i * BLOCK_SIZE < a -> (i + 1) * BLOCK_SIZE <= a.
Proof. intros [k ->] H. pose proof block_size_pos. assert (i < k) by nia. nia. Qed.

(** Writing at or after what was flushed and not past the end. *)
Lemma slice_inv_write {sid f d others p sb s} off data r p' sb' :
  slice_inv sid f d others p sb s -> sb_flushed sb <= off <= sb_length sb ->
  write_at p sb off data = (r, p', sb') ->
  same_others p p' others /\
  match r with
  | Ok n => n = zlen data /\ slice_inv sid (overwrite f off data) d others p' sb' s /\
      sb_length sb' = (if n =? 0 then sb_length sb else Z.max (sb_length sb) (off + n))
  | Err _ => slice_inv sid f d others p' sb' s /\ sb_length sb' = sb_length sb
  | Panic => False
  end.
Proof.
  intros [H1 [H2 H2'] H3 H4 H5 H6 H7 H8] Ho H. pose proof (sw_len H1) as Hl. pose proof (zlen_nonneg data) as Hz.
  destruct (write_at_effect p sb others off data H1 ltac:(lia)) as (r0 & p0 & sb0 & E & Hw & Hso & Hr).
  rewrite E in H. injection H as -> -> ->. split; [done|]. destruct r as [n|e|]; [| |done].
  2:{ destruct Hr as (-> & Hb & _). split; [|done]. constructor; try done. intros x Hx. rewrite <- H6 by done.
      unfold sb_get. destruct (sb_slots sb !! _) as [b|]; [|done]. by apply block_get_other. }
  destruct Hr as (-> & Hn & Hf & Hlen & Hbl & Hin & Hout). split; [done|]. split; [|done]. pose proof block_size_pos.
  assert (Hmono : sb_length sb <= sb_length sb') by (rewrite Hlen; case_match; to_prop; lia).
  assert (Hnew : forall x, sb_length sb <= x < sb_length sb' -> off <= x < off + zlen data).
  { intros x Hx. rewrite Hlen in Hx. case_match; to_prop; lia. }
  constructor; rewrite ?Hf; try done.
  - split; [lia|done].
  - intros i Hi Hlt. rewrite <- (H3 i Hi Hlt). eapply (write_at_slot p sb others off data _ p' sb' i); [done|lia|exact E|done|].
    pose proof (aligned_block _ _ H2' Hlt). lia.
  - intros i Hi. assert (0 <= i) by nia. rewrite Hbl by done. unfold blen_after. rewrite (H4 i Hi), Hlen.
    destruct (zlen data =? 0) eqn:E0; to_prop.
    + by rewrite (proj2 (Z.ltb_ge 0 (zlen data))) by lia.
    + rewrite (proj2 (Z.ltb_lt 0 (zlen data))) by lia. cbn [andb].
      destruct (off <? (i + 1) * BLOCK_SIZE) eqn:E1; destruct (i * BLOCK_SIZE <? off + zlen data) eqn:E2; to_prop; cbn [andb]; nia.
  - intros x Hx. eapply (write_at_pages p sb others off data _ p' sb' x); [done|lia|exact E|lia|].
    destruct (decide (x < sb_length sb)); [right; apply H5; lia|left; apply Hnew; lia].
  - intros x Hx. destruct (decide (off <= x < off + zlen data)) as [Hi|Hi].
    + rewrite overwrite_in by done. by apply Hin.
    + rewrite overwrite_out by done. assert (x < sb_length sb) by (destruct (decide (x < sb_length sb)); [done|specialize (Hnew x); lia]).
      rewrite <- H6 by lia. apply Hout; [lia|done|]. right. apply H5. lia.
  - intros i Hi Hlt. rewrite H7 by done. f_equal. apply reads_ext. intros x Hx. symmetry. apply overwrite_out.
    pose proof (aligned_block _ _ H2' Hlt). lia.
Qed.

Lemma filter_seqZ (P : Z -> Prop) `{!forall i, Decision (P i)} m a n :
  0 <= a -> 0 <= n -> a + n <= m -> (forall i, 0 <= i < m -> (P i <-> a <= i < a + n)) ->
  filter P (seqZ 0 m) = seqZ a n.
Proof.
  intros Ha Hn Hm HP.
  assert (Hout : forall b k, (forall i, b <= i < b + k -> ~ P i) -> filter P (seqZ b k) = []).
  { intros b k Hb. apply filter_none, Forall_forall. intros i Hi. apply elem_of_seqZ in Hi. by apply Hb. }
  assert (Hin : filter P (seqZ a n) = seqZ a n).
  { apply filter_all, Forall_forall. intros i Hi. apply elem_of_seqZ in Hi. apply HP; lia. }
  replace m with (a + (n + (m - a - n))) by lia. rewrite (seqZ_app 0 a) by lia. rewrite (seqZ_app (0 + a) n) by lia.
  rewrite !filter_app, Z.add_0_l, Hin, (Hout 0 a), (Hout (a + n)); [by rewrite app_nil_r| |].
  - intros i Hi Hp. apply HP in Hp; lia.
  - intros i Hi Hp. apply HP in Hp; lia.
Qed.

(** The blocks a staging pass up to [off] has to write are consecutive. *)
Lemma pending_run {sid f d others p sb s} off :
  slice_inv sid f d others p sb s -> sb_flushed sb <= off <= CHUNK_SIZE ->
  (forall i, 0 <= i -> (i + 1) * BLOCK_SIZE <= off -> i * BLOCK_SIZE < sb_length sb) ->
  let a := sb_flushed sb / BLOCK_SIZE in let n := off / BLOCK_SIZE - a in
  0 <= a /\ sb_flushed sb = a * BLOCK_SIZE /\ 0 <= n /\ pending_blocks sb off = seqZ a n /\
  (forall i, a <= i < a + n -> exists db, slot sb i = Some (BData db) /\
     db_length db = Z.min BLOCK_SIZE (sb_length sb - i * BLOCK_SIZE) /\ 0 < db_length db).
Proof.
  intros [H1 [H2 [k H2']] H3 H4 H5 H6 H7 H8] Ho Hend a n. pose proof block_size_pos. pose proof (sw_len H1) as Hl.
  assert (Ha : a = k) by (unfold a; rewrite H2'; apply Z.div_mul; lia).
  assert (0 <= a) by nia. assert (Hn : 0 <= n).
  { unfold n. assert (a <= off / BLOCK_SIZE); [|lia]. apply Z.div_le_lower_bound; nia. }
  assert (Hiff : forall i, a <= i < a + n <-> a <= i /\ (i + 1) * BLOCK_SIZE <= off).
  { intros i. assert (BLOCK_SIZE <> 0) as Hne by lia. pose proof (Z.div_mod off BLOCK_SIZE Hne).
    pose proof (Z.mod_pos_bound off BLOCK_SIZE). unfold n. split; intros; nia. }
  assert (Hblk : forall i, a <= i < a + n -> exists db, slot sb i = Some (BData db) /\
     db_length db = Z.min BLOCK_SIZE (sb_length sb - i * BLOCK_SIZE) /\ 0 < db_length db).
  { intros i Hi. assert (Hlt : i * BLOCK_SIZE < sb_length sb) by (apply Hend; [lia|by apply Hiff]).
    assert (Hb := H4 i). rewrite H2' in Hb. specialize (Hb ltac:(nia)). unfold blen in Hb. unfold slot.
    destruct (sb_slots sb !! Z.to_nat i) as [[|db]|]; [lia| |lia]. exists db. split; [done|]. lia. }
  split_and!; try done; [congruence|].
  unfold pending_blocks. pose proof (sw_slots H1) as Hsl.
  assert (off / BLOCK_SIZE <= blocks_per_chunk).
  { pose proof chunk_size_eq. apply Z.div_le_upper_bound; nia. }
  apply filter_seqZ; [done|done|lia|]. intros i Hi. split.
  - destruct (sb_slots sb !! Z.to_nat i) as [[|db]|] eqn:Es; [done| |done]. intros Hle. to_prop. apply Hiff.
    split; [|done]. destruct (decide (i * BLOCK_SIZE < sb_flushed sb)) as [Hlt|Hlt]; [|nia].
    pose proof (H3 i ltac:(lia) Hlt) as E. unfold slot in E. congruence.
  - intros Hin. destruct (Hblk i Hin) as (db & Hs & _). unfold slot in Hs. rewrite Hs. apply Hiff in Hin. lia.
Qed.

Lemma block_bytes {sid f d others p sb s} i db :
  slice_inv sid f d others p sb s -> sb_flushed sb <= i * BLOCK_SIZE -> slot sb i = Some (BData db) ->
  db_length db = Z.min BLOCK_SIZE (sb_length sb - i * BLOCK_SIZE) ->
  reads (db_get p db) 0 (db_length db) = reads f (i * BLOCK_SIZE) (db_length db).
Proof.
  intros I Hi Hs Hl. apply reads_shift. intros k Hk. pose proof block_size_pos.
  rewrite <- (si_get _ _ _ _ _ _ _ I) by lia. unfold sb_get. replace (0 + k) with k by lia.
  replace ((i * BLOCK_SIZE + k) / BLOCK_SIZE) with i by (rewrite Z.div_add_l by lia; rewrite Z.div_small; lia).
  unfold slot in Hs. rewrite Hs. cbn. f_equal. rewrite Z.add_comm, Z.mod_add by lia. by rewrite Z.mod_small by lia.
Qed.

(** After the blocks before [j], all of them full, are staged. *)
Lemma slice_inv_staged {sid f d others p sb s} a n ok j d' p' sb' s' :
  slice_inv sid f d others p sb s -> 0 <= a -> sb_flushed sb = a * BLOCK_SIZE ->
  (forall i, a <= i < a + n -> exists db, slot sb i = Some (BData db) /\
     db_length db = Z.min BLOCK_SIZE (sb_length sb - i * BLOCK_SIZE) /\ 0 < db_length db) ->
  stage_post sid a n d others p sb s ok j d' p' sb' s' -> j * BLOCK_SIZE <= sb_length sb ->
  slice_inv sid f d' others p' sb' s'.
Proof.
  intros I Ha Hfl Hblk [P1 P2 P3 P4 P5 [P6 P6'] P7 P8 P9 P10 P11] Hj. pose proof I as I0.
  destruct I as [H1 [H2 H2'] H3 H4 H5 H6 H7 H8]. pose proof block_size_pos as Hbs. pose proof page_size_pos.
  assert (Hfull : forall i, a <= i < j -> exists db, slot sb i = Some (BData db) /\ db_length db = BLOCK_SIZE).
  { intros i Hi. destruct (Hblk i ltac:(lia)) as (db & Hs & Hd & _). exists db. split; [done|]. nia. }
  assert (Hf' : sb_flushed sb' = j * BLOCK_SIZE).
  { rewrite P9. destruct (j =? a) eqn:E; to_prop; [congruence|].
    destruct (Hfull (j - 1) ltac:(lia)) as (db & Hs & Hd). rewrite (blen_slot _ _ _ Hs), Hd, Hfl. nia. }
  assert (Hslot : forall i, j <= i -> slot sb' i = slot sb i) by (intros i Hi; apply P8; lia).
  constructor; rewrite ?Hf', ?P4; try done.
  - split; [lia|by exists j].
  - intros i Hi Hlt. assert (i < j) by nia. destruct (decide (i < a)) as [Hia|Hia].
    + rewrite P8 by lia. apply H3; [done|nia].
    + destruct (Hfull i ltac:(lia)) as (db & Hs & _). apply (P7 i db); [lia|done].
  - intros i Hi. assert (j <= i) by nia. rewrite <- H4 by nia. unfold blen.
    pose proof (Hslot i ltac:(lia)) as E. unfold slot in E. by rewrite E.
  - intros x Hx. assert (0 <= x) by nia. destruct (page_number x ltac:(lia)) as (Hpn & _).
    assert (j <= x / BLOCK_SIZE) by (apply Z.div_le_lower_bound; lia).
    rewrite page_at_has, Hpn, Hslot by done. rewrite <- Hpn. apply page_at_has. apply H5. nia.
  - intros x Hx. assert (j <= x / BLOCK_SIZE) by (apply Z.div_le_lower_bound; lia).
    rewrite <- H6 by nia. unfold sb_get. pose proof (Hslot (x / BLOCK_SIZE) ltac:(done)) as E. unfold slot in E.
    rewrite E. destruct (sb_slots sb !! _) as [b|]; [|done]. by apply block_get_other.
  - intros i Hi Hlt. assert (i < j) by nia. destruct (decide (i < a)) as [Hia|Hia].
    + apply P10, H7; [done|nia].
    + destruct (Hfull i ltac:(lia)) as (db & Hs & Hd). destruct (P7 i db ltac:(lia) Hs) as [_ Hk].
      rewrite Hd in Hk. rewrite Hk. f_equal. pose proof (block_bytes i db I0 ltac:(nia) Hs ltac:(nia)). congruence.
  - intros i len b Hb. destruct (P11 _ _ Hb) as [Hb'|(i' & db & Hi' & _ & Hk)].
    + pose proof (H8 _ _ _ Hb'). nia.
    + apply block_key_inj in Hk as ->. nia.
Qed.

(** A slice whose blocks are all staged and gone from the buffer. *)
Record slice_done (sid : Z) (f : Z -> Byte.byte) (d : Z) (others : list Page) (p : HybridPagePool) (sb : SliceBuffer)
    (s : CacheSys) : Prop := {
  sd_wf : sb_wf d p sb others;
  sd_flushed : 0 < sb_length sb /\ sb_flushed sb = sb_length sb;
  sd_empty : forall i, 0 <= i -> i * BLOCK_SIZE < sb_length sb -> slot sb i = Some BEmpty;
  sd_stored : slice_stored sid f (sb_length sb) s
}.

Lemma slice_done_staged {sid f d others p sb s} a n d' p' sb' s' :
  slice_inv sid f d others p sb s -> 0 <= a -> sb_flushed sb = a * BLOCK_SIZE ->
  (forall i, a <= i < a + n -> exists db, slot sb i = Some (BData db) /\
     db_length db = Z.min BLOCK_SIZE (sb_length sb - i * BLOCK_SIZE) /\ 0 < db_length db) ->
  0 < sb_length sb <= (a + n) * BLOCK_SIZE ->
  stage_post sid a n d others p sb s true (a + n) d' p' sb' s' ->
  slice_done sid f d' others p' sb' s'.
Proof.
  intros I Ha Hfl Hblk Hend [P1 P2 P3 P4 P5 [P6 P6'] P7 P8 P9 P10 P11]. pose proof I as I0.
  destruct I as [H1 [H2 H2'] H3 H4 H5 H6 H7 H8]. pose proof block_size_pos as Hbs.
  assert (Hlow : forall i, 0 <= i -> i < a -> Z.min BLOCK_SIZE (sb_length sb - i * BLOCK_SIZE) = BLOCK_SIZE) by (intros; nia).
  constructor; rewrite ?P4; try done.
  - split; [lia|]. rewrite P9. destruct (a + n =? a) eqn:E; to_prop; [nia|].
    destruct (Hblk (a + n - 1) ltac:(lia)) as (db & Hs & Hd & Hp). rewrite (blen_slot _ _ _ Hs), Hd, Hfl. nia.
  - intros i Hi Hlt. assert (i < a + n) by nia. destruct (decide (i < a)) as [Hia|Hia].
    + rewrite P8 by lia. apply H3; [done|nia].
    + destruct (Hblk i ltac:(lia)) as (db & Hs & _). apply (P7 i db); [lia|done].
  - intros i Hi Hlt. assert (i < a + n) by nia. cbn zeta. destruct (decide (i < a)) as [Hia|Hia].
    + rewrite Hlow by done. apply P10, H7; [done|nia].
    + destruct (Hblk i ltac:(lia)) as (db & Hs & Hd & _). destruct (P7 i db ltac:(lia) Hs) as [_ Hk].
      rewrite <- Hd, Hk. f_equal. apply (block_bytes i db I0); [nia|done|done].
Qed.

Lemma slice_inv_recount {sid f d others p sb s} n :
  slice_inv sid f d others p sb s -> exists d', slice_inv sid f d' others p (set_page_cnt n sb) s.
Proof.
  intros [H1 H2 H3 H4 H5 H6 H7 H8]. exists (n - zlen (sb_pgs sb)). constructor; try done.
  apply (recount_wf _ p sb others n H1). lia.
Qed.

Lemma slice_done_recount {sid f d others p sb s} n :
  slice_done sid f d others p sb s -> exists d', slice_done sid f d' others p (set_page_cnt n sb) s.
Proof.
  intros [H1 H2 H3 H4]. exists (n - zlen (sb_pgs sb)). constructor; try done.
  apply (recount_wf _ p sb others n H1). lia.
Qed.

(** What every staging pass guarantees, whatever fails. *)
Record pass_post (sid : Z) (p : HybridPagePool) (sb : SliceBuffer) (s : CacheSys)
    (r : SResult Z) (p' : HybridPagePool) (sb' : SliceBuffer) (c' : FileCache) (s' : CacheSys) : Prop := {
  pp_steps : rtc cache_step s s';
  pp_cache : cs_cache s' = c';
  pp_result : r <> Panic;
  pp_length : sb_length sb' = sb_length sb;
  pp_bytes : forall q, page_bytes p' q = page_bytes p q;
  pp_acked : forall k b, cs_acked s !! k = Some b -> cs_acked s' !! k = Some b;
  pp_new : forall k b, cs_acked s' !! k = Some b -> cs_acked s !! k = Some b \/ sk_slice_id k = sid
}.

Lemma stage_pass {sid f d others p sb s} io off r p' sb' c' :
  slice_inv sid f d others p sb s -> CacheInv s -> 0 <= sid < 2 ^ 64 -> policy_ok io sid sb s ->
  sb_flushed sb <= off <= CHUNK_SIZE ->
  (forall i, 0 <= i -> (i + 1) * BLOCK_SIZE <= off -> i * BLOCK_SIZE < sb_length sb) ->
  sb_stage (cache_stage io sid) off p sb (cs_cache s) = (r, (p', sb', c')) ->
  exists s' d', pass_post sid p sb s r p' sb' c' s' /\
    (slice_inv sid f d' others p' sb' s' /\ (is_ok r = true -> off / BLOCK_SIZE * BLOCK_SIZE <= sb_flushed sb') \/
     is_ok r = true /\ sb_length sb < off /\
     (sb_length sb <= off / BLOCK_SIZE * BLOCK_SIZE -> 0 < sb_length sb -> slice_done sid f d' others p' sb' s')).
Proof.
  intros I Ic Hsid Hpol Ho Hend H. destruct (pending_run off I Ho Hend) as (Ha & Hfl & Hn & Hpend & Hblk).
  set (a := sb_flushed sb / BLOCK_SIZE) in *. set (n := off / BLOCK_SIZE - a) in *.
  unfold sb_stage in H. rewrite (proj2 (Z.ltb_ge _ _)) in H by lia. rewrite (proj2 (Z.ltb_ge _ _)) in H by lia.
  rewrite Hpend in H. pose proof block_size_pos as Hbs.
  destruct (stage_run io sid others (Z.to_nat n) a 0 d p sb s Ic (si_wf _ _ _ _ _ _ _ I) Hsid Ha)
    as (r1 & p1 & sb1 & s1 & j & d1 & Hrun & Hpost & Hm); [|done|].
  { rewrite Z2Nat.id by done. intros i Hi. destruct (Hblk i Hi) as (db & Hs & Hd & Hp). exists db. split; [done|].
    split; [intros Hi'; destruct (Hblk (i + 1) ltac:(lia)) as (? & _ & ? & ?); nia|].
    destruct (cs_acked s !! block_key sid i (db_length db)) eqn:E; [|done].
    apply (si_keys _ _ _ _ _ _ _ I) in E. nia. }
  rewrite Z2Nat.id in Hrun, Hpost by done. rewrite Hrun in H.
  assert (Hcase : slice_inv sid f d1 others p1 sb1 s1 /\
       (is_ok r1 = true -> off / BLOCK_SIZE * BLOCK_SIZE <= sb_flushed sb1) \/ is_ok r1 = true /\ sb_length sb < off /\
     (sb_length sb <= off / BLOCK_SIZE * BLOCK_SIZE -> 0 < sb_length sb -> slice_done sid f d1 others p1 sb1 s1)).
  { destruct (decide (j * BLOCK_SIZE <= sb_length sb)) as [Hj|Hj].
    - left. split; [exact (slice_inv_staged a n _ j d1 p1 sb1 s1 I Ha Hfl Hblk Hpost Hj)|]. intros Hok. apply (sp_range _ _ _ _ _ _ _ _ _ _ _ _ _ _ Hpost) in Hok.
      rewrite (sp_flushed _ _ _ _ _ _ _ _ _ _ _ _ _ _ Hpost), Hfl. unfold n in Hok.
      destruct (j =? a) eqn:Eja; to_prop; [nia|].
      destruct (Hblk (j - 1) ltac:(unfold n; lia)) as (db & Hs & Hd & _). rewrite (blen_slot _ _ _ Hs). nia.
    - right. destruct (sp_range _ _ _ _ _ _ _ _ _ _ _ _ _ _ Hpost) as [Hjr Hok].
      assert (Hje : j = a + n).
      { destruct (decide (j < a + n)) as [Hlt|]; [|lia]. destruct (Hblk j ltac:(lia)) as (? & _ & ? & ?). lia. }
      split; [by apply Hok|]. split.
      { assert (j * BLOCK_SIZE <= off); [|lia]. unfold n in Hje. replace j with (off / BLOCK_SIZE) by lia.
        pose proof (Z.mul_div_le off BLOCK_SIZE). lia. }
      intros Hl Hp. assert (Hok1 : is_ok r1 = true) by (by apply Hok). rewrite Hok1, Hje in Hpost.
      eapply (slice_done_staged a n); try done. split; [done|]. unfold n. replace (a + _) with (off / BLOCK_SIZE) by lia.
      done. }
  destruct Hpost as [P1 P2 P3 P4 P5 P6 P7 P8 P9 P10 P11].
  assert (Hpp : pass_post sid p sb s r p' sb' c' s1).
  { assert (Hr1 : r1 <> Panic) by (by destruct r1).
    destruct r1; [| |done]; injection H as <- <- <- <-; constructor; try done.
    all: intros k b Hb; destruct (P11 k b Hb) as [?|(i & db & _ & _ & ->)]; [by left|by right]. }
  exists s1. destruct r1 as [m| |]; [| |done]; injection H as <- <- <- <-.
  - destruct Hcase as [[Hinv Hf]|(? & ? & Hdone)].
    + destruct (slice_inv_recount (u64_wrap (sb_page_cnt sb1 - m)) Hinv) as [d2 Hinv']. exists d2. split; [done|]. by left.
    + destruct (decide (sb_length sb <= off / BLOCK_SIZE * BLOCK_SIZE /\ 0 < sb_length sb)) as [[? ?]|Hno].
      * destruct (slice_done_recount (u64_wrap (sb_page_cnt sb1 - m)) (Hdone ltac:(done) ltac:(done))) as [d2 Hd2].
        exists d2. split; [done|]. right. done.
      * exists d1. split; [done|]. right. split_and!; [done|done|]. intros. exfalso. by apply Hno.
  - exists d1. split; [done|]. destruct Hcase as [[Hinv Hf]|(? & _)]; [by left|done].
Qed.

(** A pass over the full blocks keeps the invariant, whatever it returns. *)
Lemma bulk_pass {sid f d others p sb s} io off r p' sb' c' :
  slice_inv sid f d others p sb s -> CacheInv s -> 0 <= sid < 2 ^ 64 -> policy_ok io sid sb s ->
  sb_flushed sb <= off <= sb_length sb ->
  sb_stage (cache_stage io sid) off p sb (cs_cache s) = (r, (p', sb', c')) ->
  exists s' d', pass_post sid p sb s r p' sb' c' s' /\ slice_inv sid f d' others p' sb' s'.
Proof.
  intros I Ic Hsid Hpol Ho H. pose proof (sw_len (si_wf _ _ _ _ _ _ _ I)). pose proof block_size_pos.
  destruct (stage_pass io off r p' sb' c' I Ic Hsid Hpol ltac:(lia)) as (s' & d' & Hpp & [[Hi _]|(_ & ? & _)]);
    [intros; nia|done|eauto|lia].
Qed.

Lemma pending_done {sid f d others p sb s} :
  slice_done sid f d others p sb s -> pending_blocks sb (last_block_end sb) = [].
Proof.
  intros [H1 [H2 H2'] H3 H4]. pose proof (sw_len H1). pose proof (sw_slots H1) as Hsl.
  apply filter_none, Forall_forall. intros i Hi. apply elem_of_seqZ in Hi. intros E.
  destruct (sb_slots sb !! Z.to_nat i) as [[|db]|] eqn:Es; [done| |done]. to_prop.
  assert (Hlt : i * BLOCK_SIZE < sb_length sb).
  { unfold last_block_end in E. pose proof block_size_pos. pose proof (Z.mul_div_le (sb_length sb - 1) BLOCK_SIZE). nia. }
  pose proof (H3 i ltac:(lia) Hlt) as E'. unfold slot in E'. congruence.
Qed.

(** A flush stages everything or keeps the invariant. *)
Lemma full_pass {sid f d others p sb s} io r p' sb' c' :
  slice_inv sid f d others p sb s \/ slice_done sid f d others p sb s ->
  CacheInv s -> 0 <= sid < 2 ^ 64 -> (slice_inv sid f d others p sb s -> policy_ok io sid sb s) ->
  0 < sb_length sb -> flush_v2 (cache_stage io sid) p sb (cs_cache s) = (r, (p', sb', c')) ->
  exists s' d', pass_post sid p sb s r p' sb' c' s' /\
    ((slice_inv sid f d' others p' sb' s' /\ (is_ok r = true -> slice_stored sid f (sb_length sb) s')) \/
     is_ok r = true /\ slice_done sid f d' others p' sb' s').
Proof.
  intros I Ic Hsid Hpol Hlen H. unfold flush_v2 in H. rewrite (proj2 (Z.eqb_neq _ _)) in H by lia.
  pose proof block_size_pos.
  assert (Hl : 0 <= sb_flushed sb <= sb_length sb /\ sb_length sb <= CHUNK_SIZE).
  { destruct I as [[H1 H2 ? ? ? ? ? ?]|[H1 H2 ? ?]]; pose proof (sw_len H1); lia. }
  assert (0 < sb_length sb <= CHUNK_SIZE) as Hlc by lia. destruct (last_block_bounds sb Hlc) as [Hlb _].
  assert (Hdiv : last_block_end sb / BLOCK_SIZE * BLOCK_SIZE = last_block_end sb).
  { unfold last_block_end. by rewrite Z.div_mul by lia. }
  destruct I as [I|I].
  - assert (sb_flushed sb <= last_block_end sb <= CHUNK_SIZE) as Hoff by lia.
    destruct (stage_pass io (last_block_end sb) r p' sb' c' I Ic Hsid (Hpol I) Hoff) as (s' & d' & Hpp & Hc); [|done|].
    { intros i Hi He. unfold last_block_end in He. pose proof (Z.mul_div_le (sb_length sb - 1) BLOCK_SIZE). nia. }
      exists s', d'. split; [done|]. destruct Hc as [[Hi Hf]|(? & _ & Hd)]; [left; split; [done|]|right; split; [done|apply Hd; lia]].
    intros Hok i Hi0 Hlt. specialize (Hf Hok). rewrite Hdiv in Hf. cbn zeta.
    destruct Hi as [Q1 [Q2 Q2'] Q3 Q4 Q5 Q6 Q7 Q8]. rewrite (pp_length _ _ _ _ _ _ _ _ _ Hpp) in Q2.
    assert (i * BLOCK_SIZE < sb_flushed sb') as Hlt' by lia. pose proof (aligned_block _ _ Q2' Hlt').
    rewrite Z.min_l by lia. by apply Q7.
  - unfold sb_stage in H. rewrite (proj2 (Z.ltb_ge _ _)) in H by lia. rewrite (proj2 (Z.ltb_ge _ _)) in H by lia.
    rewrite (pending_done I) in H. injection H as <- <- <- <-.
    destruct (slice_done_recount (u64_wrap (sb_page_cnt sb - 0)) I) as [d' I']. exists s, d'. split; [|by right].
    constructor; try done. by left.
Qed.
End staging.
