(* ===== verification/WriterThms.v ===== *)
(** * What a slice writer publishes

    A slice writer may be written to, flushed in bulk and flushed in full, with
    the staging of any block or the metadata engine failing, while the rest of
    the system uses the cache and the page pool.  Whenever its slice is published
    by a full flush, every block of the slice is in the cache with the bytes that
    were written. *)

From stdpp Require Import sorting.
From S2P Require Import Prelude Common Slice SliceKey Meta Pool SliceBuffer SliceBufferThms SliceIO FileCache.
From S2P Require Import FileCacheThms Writer Staging.
Open Scope Z_scope.

(** A block is a complete local file or an object of the store. *)
Definition block_at (c : FileCache) (k : SliceKey) (b : bytes) : Prop := local_has c k b \/ remote_has c k b.

Lemma block_at_acked s k b :
  CacheInv s -> slice_key_wf k = true -> cs_acked s !! k = Some b <-> block_at (cs_cache s) k b.
Proof.
  intros I Hw. split; [apply (ci_durable s I)|]. intros [H|H]; [by apply (ci_local s I)|by apply (ci_remote s I)].
Qed.

(** What was acknowledged can be read off the cache. *)
Lemma acked_unique s1 s2 : CacheInv s1 -> CacheInv s2 -> cs_cache s1 = cs_cache s2 -> cs_acked s1 = cs_acked s2.
Proof.
  intros I1 I2 E. apply map_eq. intros k. apply option_eq. intros b. split; intros H.
  - pose proof (acked_wf _ _ _ I1 H). apply block_at_acked; [done|done|]. rewrite <- E. by apply block_at_acked.
  - pose proof (acked_wf _ _ _ I2 H). apply block_at_acked; [done|done|]. rewrite E. by apply block_at_acked.
Qed.

Section steps.
Context `{L : Layout}.

Lemma cache_step_acked s s' : cache_step s s' -> forall k b, cs_acked s !! k = Some b -> cs_acked s' !! k = Some b.
Proof.
  intros Hst. destruct Hst; intros k0 b0 Hk; cbn [cs_acked]; try done.
  - destruct r; [|done..]. destruct (decide (k0 = k)) as [->|Hne].
    + rewrite lookup_insert_eq. f_equal. by apply H2.
    + by rewrite lookup_insert_ne.
  - by apply lookup_union_Some_l.
Qed.

Lemma cache_steps_acked s s' :
  rtc cache_step s s' -> forall k b, cs_acked s !! k = Some b -> cs_acked s' !! k = Some b.
Proof. induction 1; eauto using cache_step_acked. Qed.
End steps.

Section writer.
Context `{L : Layout} {M : Type} `{MC : MetaClient M}.

(** A slice writer, what it works on, the bytes written to its slice (a position
    not written reads as anything), and whether a full flush of it has failed at
    the metadata engine. *)
Record SwCfg := mkCfg {
  sc_sw : SliceWriter;
  sc_deps : Deps (M:=M);
  sc_data : Z -> Byte.byte;
  sc_staged : bool
}.

(** The policy cache knows only blocks that were staged. *)
Definition policy_knows (io : Z -> StageIo) (sid : Z) (sb : SliceBuffer) (c : FileCache) : Prop :=
  forall i db e, 0 <= i -> slot sb i = Some (BData db) -> si_policy (io i) = Some e ->
    exists b, block_at c (block_key sid i (db_length db)) b.

(** A slice identifier no block of the cache has. *)
Definition unused (sid : Z) (c : FileCache) : Prop :=
  forall i len b, 0 <= i < 2 ^ 64 -> 0 <= len < 2 ^ 64 -> ~ block_at c (block_key sid i len) b.

(** The engine hands out identifiers that were never used. *)
Definition ids_fresh (D : Deps (M:=M)) : Prop :=
  forall id m, mc_next_slice_id (d_meta D) = (Ok id, m) -> 0 < id < 2 ^ 64 /\ unused id (d_cache D).

Definition io_ok (io : Z -> StageIo) (D : Deps (M:=M)) (sw : SliceWriter) : Prop :=
  (sw_slice_id sw = 0 -> ids_fresh D) /\
  forall sid, (prepare_slice_id D sw).1.1 = Ok sid -> policy_knows io sid (sw_buffer sw) (d_cache D).

(** The steps of a slice writer: a write where [find_loop] admits one, a bulk
    flush, a full flush that does not end in publication, a change of state, and
    a step of the rest of the system. *)
Inductive sw_step : SwCfg -> SwCfg -> Prop :=
| sws_write sw D f before off data r p' sw' :
    sw_state sw = SwWriting ->
    sb_flushed (sw_buffer sw) <= off <= sb_length (sw_buffer sw) ->
    sw_write_at before off data (d_pool D) sw = (r, p', sw') ->
    sw_step (mkCfg sw D f false)
      (mkCfg sw' (mkDeps p' (d_cache D) (d_meta D)) (if r is Ok _ then overwrite f off data else f) false)
| sws_bulk sw D f io off r D' sw' :
    sb_flushed (sw_buffer sw) <= off <= sb_length (sw_buffer sw) -> io_ok io D sw ->
    do_flush_bulk io off D sw = (r, D', sw') ->
    sw_step (mkCfg sw D f false) (mkCfg sw' D' f false)
| sws_full sw D f b io inode e D' sw' :
    io_ok io D sw -> flush_and_commit io inode D sw = (Err e, D', sw') ->
    sw_step (mkCfg sw D f b) (mkCfg sw' D' f (if e is VMeta _ then true else b))
| sws_state sw D f b st :
    sw_step (mkCfg sw D f b) (mkCfg (set_state st sw) D f b)
| sws_cache sw D f b s s' m :
    cs_cache s = d_cache D -> CacheInv s -> rtc cache_step s s' ->
    (forall i len, sw_slice_id sw <> 0 -> is_Some (cs_acked s' !! block_key (sw_slice_id sw) i len) ->
       is_Some (cs_acked s !! block_key (sw_slice_id sw) i len)) ->
    sw_step (mkCfg sw D f b) (mkCfg sw (mkDeps (d_pool D) (cs_cache s') m) f b)
| sws_pool sw D f b p' d' others' :
    sb_wf d' p' (sw_buffer sw) others' ->
    (forall q, q ∈ sb_pgs (sw_buffer sw) -> page_bytes p' q = page_bytes (d_pool D) q) ->
    sw_step (mkCfg sw D f b) (mkCfg sw (mkDeps p' (d_cache D) (d_meta D)) f b).

Definition fresh_sid (sid : Z) (s : CacheSys) : Prop := forall i len, cs_acked s !! block_key sid i len = None.

Definition sw_good (sw : SliceWriter) (p : HybridPagePool) (f : Z -> Byte.byte) (b : bool) (s : CacheSys) : Prop :=
  exists d others,
    sw_slice_id sw = 0 /\ sb_flushed (sw_buffer sw) = 0 /\
      (forall sid, fresh_sid sid s -> slice_inv sid f d others p (sw_buffer sw) s) \/
    0 < sw_slice_id sw < 2 ^ 64 /\
      (slice_inv (sw_slice_id sw) f d others p (sw_buffer sw) s \/
       b = true /\ slice_done (sw_slice_id sw) f d others p (sw_buffer sw) s).

Definition sw_inv (c : SwCfg) : Prop :=
  exists s, cs_cache s = d_cache (sc_deps c) /\ CacheInv s /\
    sw_good (sc_sw c) (d_pool (sc_deps c)) (sc_data c) (sc_staged c) s.

Lemma exists_fresh s : exists sid, fresh_sid sid s.
Proof.
  exists (fresh (set_map sk_slice_id (dom (cs_acked s)) : gset Z)). intros i len.
  destruct (cs_acked s !! _) eqn:E; [|done]. exfalso.
  apply (is_fresh (set_map sk_slice_id (dom (cs_acked s)) : gset Z)). apply elem_of_map.
  eexists. split; [|by eapply elem_of_dom_2]. done.
Qed.

Lemma unused_fresh sid s : CacheInv s -> unused sid (cs_cache s) -> fresh_sid sid s.
Proof.
  intros I H i len. destruct (cs_acked s !! block_key sid i len) as [b|] eqn:E; [|done]. exfalso.
  destruct (ci_keys s I _ _ E) as [Hw _]. pose proof Hw as Hw'. unfold slice_key_wf, is_u64, block_key in Hw'. cbn in Hw'.
  to_prop. apply (H i len b); [lia..|]. by apply block_at_acked.
Qed.

Definition sid_good (sid : Z) (sb : SliceBuffer) (p : HybridPagePool) (f : Z -> Byte.byte) (b : bool) (s : CacheSys)
    (d : Z) (others : list Page) : Prop :=
  slice_inv sid f d others p sb s \/ b = true /\ slice_done sid f d others p sb s.

(** The policy cache has no entry for a block that is still buffered. *)
Lemma policy_ok_of io sid p sb f s d others :
  CacheInv s -> 0 < sid < 2 ^ 64 -> slice_inv sid f d others p sb s -> policy_knows io sid sb (cs_cache s) ->
  policy_ok io sid sb s.
Proof.
  intros Ic Hsid I Hp i db e Hi Hs He. exfalso. destruct (Hp i db e Hi Hs He) as [b Hb].
  pose proof (slot_range p sb others i _ (si_wf _ _ _ _ _ _ _ I) Hi Hs). pose proof blocks_small.
  pose proof (sw_blocks (si_wf _ _ _ _ _ _ _ I)) as Hbk. rewrite Forall_lookup in Hbk. destruct (Hbk _ _ Hs) as [_ Hdl].
  pose proof chunk_size_u32. pose proof chunk_size_eq. pose proof blocks_per_chunk_pos. pose proof block_size_pos.
  assert (BLOCK_SIZE < 2 ^ 64) by nia.
  apply block_at_acked in Hb; [|done|unfold slice_key_wf, is_u64, block_key; cbn; lia].
  apply (si_keys _ _ _ _ _ _ _ I) in Hb. pose proof (si_empty _ _ _ _ _ _ _ I i Hi Hb). congruence.
Qed.

(** The engine after the slice got its identifier, if it had none. *)
Definition meta_with_id (m m' : M) : Prop := m' = m \/ exists r, mc_next_slice_id m = (r, m').

Lemma prepare_meta D sw r D1 sw1 : prepare_slice_id D sw = (r, D1, sw1) -> meta_with_id (d_meta D) (d_meta D1).
Proof.
  unfold prepare_slice_id. destruct (negb _); [intros [= <- <- <-]; by left|].
  destruct (mc_next_slice_id (d_meta D)) as [r0 m] eqn:E. intros H. right. exists r0. rewrite E.
  by destruct r0; injection H as <- <- <-.
Qed.

Lemma prepare_good D sw f b s r D1 sw1 :
  cs_cache s = d_cache D -> CacheInv s -> sw_good sw (d_pool D) f b s -> (sw_slice_id sw = 0 -> ids_fresh D) ->
  prepare_slice_id D sw = (r, D1, sw1) ->
  d_pool D1 = d_pool D /\ d_cache D1 = d_cache D /\ sw_buffer sw1 = sw_buffer sw /\ sw_state sw1 = sw_state sw /\
  sw_chunk_index sw1 = sw_chunk_index sw /\ sw_offset_of_chunk sw1 = sw_offset_of_chunk sw /\
  match r with
  | Ok sid => 0 < sid < 2 ^ 64 /\ sw_slice_id sw1 = sid /\
      exists d others, sid_good sid (sw_buffer sw) (d_pool D) f b s d others
  | _ => sw1 = sw
  end.
Proof.
  intros Hc Ic (d & others & Hg) Hf H. unfold prepare_slice_id in H.
  destruct Hg as [(Hid & Hfl & Hg)|(Hid & Hg)].
  - rewrite Hid in H. cbn in H. destruct (mc_next_slice_id (d_meta D)) as [r0 m] eqn:En.
    destruct r0 as [id|e|]; injection H as <- <- <-; try done.
    destruct (Hf Hid id m En) as [Hr Hu]. rewrite <- Hc in Hu. apply unused_fresh in Hu; [|done].
    split_and!; try done; try lia. exists d, others. left. by apply Hg.
  - rewrite (proj2 (Z.eqb_neq _ _)) in H by (unfold EMPTY_SLICE_ID; lia). cbn in H. injection H as <- <- <-.
    split_and!; try done; try lia. by exists d, others.
Qed.

Lemma good_of_sid sw sid p f b s d others :
  0 < sid < 2 ^ 64 -> sw_slice_id sw = sid -> sid_good sid (sw_buffer sw) p f b s d others -> sw_good sw p f b s.
Proof. intros Hr <- Hg. exists d, others. right. done. Qed.

(** The length of a buffer bounds what was flushed of it. *)
Lemma sid_good_len sid sb p f b s d others :
  sid_good sid sb p f b s d others -> 0 <= sb_flushed sb <= sb_length sb /\ sb_length sb <= CHUNK_SIZE.
Proof.
  intros [[H1 H2 ? ? ? ? ? ?]|[_ [H1 H2 ? ?]]]; pose proof (sw_len H1); lia.
Qed.

Lemma prepare_panics D sw D' sw' : prepare_slice_id D sw = (Panic, D', sw') -> (mc_next_slice_id (d_meta D)).1 = Panic.
Proof.
  unfold prepare_slice_id. destruct (negb _); [done|]. by destruct (mc_next_slice_id (d_meta D)) as [[] m].
Qed.

Lemma commit_effect_pool io inode D sw f b s r D' sw' :
  cs_cache s = d_cache D -> CacheInv s -> sw_good sw (d_pool D) f b s -> io_ok io D sw ->
  flush_and_commit io inode D sw = (r, D', sw') ->
  exists s', cs_cache s' = d_cache D' /\ rtc cache_step s s' /\
    match r with
    | Ok sid => 0 < sid < 2 ^ 64 /\ slice_stored sid f (sb_length (sw_buffer sw)) s' /\
        exists m, meta_with_id (d_meta D) m /\
          mc_write_slice inode (sw_chunk_index sw) (sw_offset_of_chunk sw) (slice_of sid sw) m = (Ok (), d_meta D')
    | Err e => sw_good sw' (d_pool D') f (if e is VMeta _ then true else b) s' /\
        sb_length (sw_buffer sw') = sb_length (sw_buffer sw) /\ sw_offset_of_chunk sw' = sw_offset_of_chunk sw
    | Panic => (mc_next_slice_id (d_meta D)).1 = Panic \/
        exists sid m, (mc_write_slice inode (sw_chunk_index sw) (sw_offset_of_chunk sw) (slice_of sid sw) m).1 = Panic
    end /\
    (is_ok r = true -> hp_page_size (d_pool D') = PAGE_SIZE /\ exists others, pool_wf (d_pool D') others).
Proof.
  intros Hc Ic Hg [Hf Hpol] H. unfold flush_and_commit in H.
  destruct (prepare_slice_id D sw) as [[r0 D1] sw1] eqn:Ep.
  destruct (prepare_good D sw f b s r0 D1 sw1 Hc Ic Hg Hf Ep) as (Hp1 & Hc1 & Hb1 & Hst1 & Hci1 & Hof1 & Hr).
  destruct r0 as [sid|e|].
  2:{ injection H as <- <- <-. exists s. rewrite Hc1, Hp1. subst sw1. split; [done|]. split; [done|]. split; [|done]. split; [|done].
      destruct Hg as (d & others & [Hg|(? & Hg)]); exists d, others; [by left|right]. split; [done|].
      destruct Hg as [Hg|[-> Hg]]; [by left|right]. split; [by destruct e|done]. }
  2:{ injection H as <- <- <-. exists s. rewrite Hc1. split; [done|]. split; [done|]. split; [|done]. left.
      by eapply prepare_panics. }
  destruct Hr as (Hsid & Hid & d & others & Hsg). specialize (Hpol sid eq_refl).
  rewrite Hp1, Hc1, Hb1, <- Hc in H. pose proof (sid_good_len _ _ _ _ _ _ _ _ Hsg) as Hlen.
  assert (Hpass : exists r1 p1 sb1 c1 s1 d1, flush_v2 (cache_stage io sid) (d_pool D) (sw_buffer sw) (cs_cache s) =
             (r1, (p1, sb1, c1)) /\ rtc cache_step s s1 /\ cs_cache s1 = c1 /\ r1 <> Panic /\
             sb_length sb1 = sb_length (sw_buffer sw) /\
             sid_good sid sb1 p1 f (if r1 is Ok _ then true else b) s1 d1 others /\
             (is_ok r1 = true -> slice_stored sid f (sb_length (sw_buffer sw)) s1)).
  { destruct (flush_v2 _ _ _ _) as [r1 [[p1 sb1] c1]] eqn:Ef. exists r1, p1, sb1, c1.
    destruct (decide (sb_length (sw_buffer sw) = 0)) as [H0|H0].
    - unfold flush_v2 in Ef. rewrite H0 in Ef. cbn in Ef. injection Ef as <- <- <- <-. exists s, d.
      split_and!; try done; [|intros _ i Hi Hlt; pose proof block_size_pos; nia].
      destruct Hsg as [?|[-> ?]]; [by left|by right].
    - assert (Hd : slice_inv sid f d others (d_pool D) (sw_buffer sw) s \/ slice_done sid f d others (d_pool D) (sw_buffer sw) s)
        by (destruct Hsg as [?|[_ ?]]; auto).
      destruct (full_pass io r1 p1 sb1 c1 Hd Ic) as (s1 & d1 & Hpp & Hor); [lia| |lia|done|].
      { intros I. rewrite <- Hc in Hpol. by eapply policy_ok_of. }
      exists s1, d1. destruct Hpp as [Q1 Q2 Q3 Q4 Q5 Q6 Q7]. split_and!; try done.
      + destruct Hor as [[? _]|[? ?]]; [by left|]. by destruct r1; [right| |].
      + intros Hok. destruct Hor as [[_ Hs]|[_ Hs]]; [by apply Hs|]. rewrite <- Q4. apply Hs. }
  destruct Hpass as (r1 & p1 & sb1 & c1 & s1 & d1 & Ef & Hrtc & Hc1' & Hnp & Hl1 & Hg1 & Hst).
  rewrite Ef in H. destruct r1 as [n|e|]; [| |done]; cbn [d_meta] in H.
  2:{ injection H as <- <- <-. exists s1. split; [done|]. split; [done|]. split; [|done]. split; [by eapply good_of_sid|by split]. }
  destruct (mc_write_slice _ _ _ _ _) as [r2 m2] eqn:Em. cbn [sw_chunk_index sw_offset_of_chunk set_buffer] in Em.
  assert (Hpool : hp_page_size p1 = PAGE_SIZE /\ exists others, pool_wf p1 others).
  { assert (Hwf : sb_wf d1 p1 sb1 others) by (destruct Hg1 as [Hg1|[_ Hg1]]; apply Hg1).
    split; [apply Hwf|]. eexists. apply Hwf. }
  destruct r2 as [[]|e|]; injection H as <- <- <-; exists s1; (split; [done|]; split; [done|]; split; [|done]).
  - split; [lia|]. split; [by apply Hst|]. exists (d_meta D1). split; [by eapply prepare_meta|]. cbn [d_meta].
    rewrite <- Em. unfold slice_of. cbn. by rewrite Hl1, Hci1, Hof1.
  - split; [by eapply good_of_sid|by split].
  - right. exists sid, (d_meta D1). apply (f_equal fst) in Em. cbn in Em. rewrite <- Em. unfold slice_of. cbn. by rewrite Hl1, Hci1, Hof1.
Qed.

Lemma commit_effect io inode D sw f b s r D' sw' :
  cs_cache s = d_cache D -> CacheInv s -> sw_good sw (d_pool D) f b s -> io_ok io D sw ->
  flush_and_commit io inode D sw = (r, D', sw') ->
  exists s', cs_cache s' = d_cache D' /\ rtc cache_step s s' /\
    match r with
    | Ok sid => 0 < sid < 2 ^ 64 /\ slice_stored sid f (sb_length (sw_buffer sw)) s' /\
        exists m, meta_with_id (d_meta D) m /\
          mc_write_slice inode (sw_chunk_index sw) (sw_offset_of_chunk sw) (slice_of sid sw) m = (Ok (), d_meta D')
    | Err e => sw_good sw' (d_pool D') f (if e is VMeta _ then true else b) s'
    | Panic => True
    end.
Proof.
  intros Hc Ic Hg Hio H. destruct (commit_effect_pool io inode D sw f b s r D' sw' Hc Ic Hg Hio H) as (s' & H1 & H2 & H3 & _).
  exists s'. split_and!; [done..|]. destruct r; [done|apply H3|done].
Qed.

Lemma bulk_effect io off D sw f s r D' sw' :
  cs_cache s = d_cache D -> CacheInv s -> sw_good sw (d_pool D) f false s -> io_ok io D sw ->
  sb_flushed (sw_buffer sw) <= off <= sb_length (sw_buffer sw) ->
  do_flush_bulk io off D sw = (r, D', sw') ->
  exists s', cs_cache s' = d_cache D' /\ rtc cache_step s s' /\ sw_good sw' (d_pool D') f false s'.
Proof.
  intros Hc Ic Hg [Hf Hpol] Ho H. unfold do_flush_bulk in H.
  destruct (prepare_slice_id D sw) as [[r0 D1] sw1] eqn:Ep.
  destruct (prepare_good D sw f false s r0 D1 sw1 Hc Ic Hg Hf Ep) as (Hp1 & Hc1 & Hb1 & _ & _ & _ & Hr).
  destruct r0 as [sid|e|].
  2-3: injection H as <- <- <-; exists s; rewrite Hc1, Hp1; subst sw1; done.
  destruct Hr as (Hsid & Hid & d & others & Hsg). specialize (Hpol sid eq_refl).
  destruct Hsg as [Hi|[? _]]; [|done].
  rewrite Hp1, Hc1, Hb1, <- Hc in H. rewrite <- Hc in Hpol.
  destruct (sb_stage _ _ _ _ _) as [r1 [[p1 sb1] c1]] eqn:Es.
  destruct (bulk_pass io off r1 p1 sb1 c1 Hi Ic ltac:(lia) (policy_ok_of _ _ _ _ _ _ _ _ Ic Hsid Hi Hpol) Ho Es)
    as (s1 & d1 & [Q1 Q2 Q3 Q4 Q5 Q6 Q7] & Hi1).
  assert (Hgood : forall st, sw_good (set_state st (set_buffer sb1 sw1)) p1 f false s1).
  { intros st. eapply (good_of_sid _ sid); [done|done|]. left. exact Hi1. }
  assert (Hgood' : sw_good (set_buffer sb1 sw1) p1 f false s1).
  { eapply (good_of_sid _ sid); [done|done|]. left. exact Hi1. }
  exists s1. destruct r1; [|by injection H as <- <- <-|done].
  unfold cas_state in H. case_decide; injection H as <- <- <-; by split_and!.
Qed.

Lemma write_effect before off data p sw f s r p' sw' :
  sw_good sw p f false s -> sw_state sw = SwWriting ->
  sb_flushed (sw_buffer sw) <= off <= sb_length (sw_buffer sw) ->
  sw_write_at before off data p sw = (r, p', sw') ->
  r <> Panic /\ sw_good sw' p' (if r is Ok _ then overwrite f off data else f) false s.
Proof.
  intros (d & others & Hg) Hst Ho H. unfold sw_write_at in H.
  destruct (write_at _ _ _ _) as [[r0 p0] sb0] eqn:Ew.
  assert (Hw : forall sid, slice_inv sid f d others p (sw_buffer sw) s ->
    r0 <> Panic /\ slice_inv sid (if r0 is Ok _ then overwrite f off data else f) d others p0 sb0 s /\
    sb_flushed sb0 = sb_flushed (sw_buffer sw)).
  { intros sid I. destruct (slice_inv_write off data r0 p0 sb0 I Ho Ew) as [_ Hr].
    pose proof (sw_len (si_wf _ _ _ _ _ _ _ I)) as Hl.
    destruct (write_at_effect p (sw_buffer sw) others off data (si_wf _ _ _ _ _ _ _ I) ltac:(lia))
      as (r1 & p1 & sb1 & E1 & _ & _ & Hr1).
    rewrite Ew in E1. injection E1 as <- <- <-.
    destruct r0; [|destruct Hr as [? _]; destruct Hr1 as [-> _]; done|done]. destruct Hr as (_ & ? & _).
    destruct Hr1 as (_ & _ & -> & _). done. }
  assert (Hany : exists sid, slice_inv sid f d others p (sw_buffer sw) s).
  { destruct Hg as [(_ & _ & Hg)|(_ & [Hg|[? _]])]; [|by eexists|done].
    destruct (exists_fresh s) as [sid Hfr]. exists sid. by apply Hg. }
  destruct Hany as [sid0 I0]. destruct (Hw sid0 I0) as (Hnp & _ & Hfl).
  assert (Hgood : forall st, sw_good (set_state st (set_buffer sb0 sw)) p0
                    (if r0 is Ok _ then overwrite f off data else f) false s).
  { intros st. exists d, others. destruct Hg as [(Hid & Hf0 & Hg)|(Hid & Hg)]; [left|right].
    - split; [done|]. split; [cbn; congruence|]. intros sid Hfr. by apply (Hw sid), Hg.
    - split; [done|]. left. destruct Hg as [Hg|[? _]]; [|done]. by apply (Hw _ Hg). }
  assert (Hcas : forall st, cas_state SwWriting st (set_buffer sb0 sw) = (true, set_state st (set_buffer sb0 sw))).
  { intros st. unfold cas_state. by rewrite decide_True. }
  destruct r0 as [n|e|]; rewrite ?Hcas in H; [| |done]; injection H as <- <- <-; by split.
Qed.

Lemma good_env sw p p' f b s s' :
  sw_good sw p f b s ->
  (forall k b0, cs_acked s !! k = Some b0 -> cs_acked s' !! k = Some b0) ->
  (forall i len, sw_slice_id sw <> 0 -> is_Some (cs_acked s' !! block_key (sw_slice_id sw) i len) ->
     is_Some (cs_acked s !! block_key (sw_slice_id sw) i len)) ->
  (forall d others, sb_wf d p (sw_buffer sw) others -> exists d' others', sb_wf d' p' (sw_buffer sw) others') ->
  (forall q, q ∈ sb_pgs (sw_buffer sw) -> page_bytes p' q = page_bytes p q) ->
  sw_good sw p' f b s'.
Proof.
  intros (d & others & Hg) Hmono Hnew Hwf Hb.
  assert (Hget : forall x, sb_get p' (sw_buffer sw) x = sb_get p (sw_buffer sw) x).
  { intros x. unfold sb_get. destruct (_ !! _) as [blk|] eqn:E; [|done]. apply block_get_other.
    intros q Hq. apply Hb. unfold sb_pgs. apply list_elem_of_bind. exists blk. split; [done|].
    by eapply list_elem_of_lookup_2. }
  assert (Hinv : forall sid d' others', slice_inv sid f d others p (sw_buffer sw) s -> sb_wf d' p' (sw_buffer sw) others' ->
     (forall i len, is_Some (cs_acked s' !! block_key sid i len) -> is_Some (cs_acked s !! block_key sid i len)) ->
     slice_inv sid f d' others' p' (sw_buffer sw) s').
  { intros sid d' others' [H1 H2 H3 H4 H5 H6 H7 H8] Hw' Hn. constructor; try done.
    - intros x Hx. rewrite Hget. by apply H6.
    - intros i Hi Hlt. by apply Hmono, H7.
    - intros i len b0 Hk. destruct (Hn i len) as [b1 Hk1]; [by eexists|]. by eapply H8. }
  destruct Hg as [(Hid & Hf0 & Hg)|(Hid & Hg)].
  - assert (Hdown : forall sid, fresh_sid sid s' -> fresh_sid sid s).
    { intros sid Hfr i len. destruct (cs_acked s !! _) eqn:E; [|done]. apply Hmono in E. by rewrite Hfr in E. }
    destruct (exists_fresh s') as [sid0 Hfr0]. pose proof (Hg sid0 (Hdown _ Hfr0)) as I0.
    destruct (Hwf _ _ (si_wf _ _ _ _ _ _ _ I0)) as (d' & others' & Hw'). exists d', others'. left.
    split; [done|]. split; [done|]. intros sid Hfr. apply Hinv; [by apply Hg, Hdown|done|].
    intros i len [b0 Hk]. by rewrite Hfr in Hk.
  - assert (Hw : sb_wf d p (sw_buffer sw) others) by (destruct Hg as [[]|[_ []]]; done).
    destruct (Hwf _ _ Hw) as (d' & others' & Hw'). exists d', others'. right. split; [done|].
    destruct Hg as [I|[-> [H1 H2 H3 H4]]].
    + left. apply Hinv; [done|done|]. intros i len. apply Hnew. lia.
    + right. split; [done|]. constructor; try done. intros i Hi Hlt. by apply Hmono, H4.
Qed.

Lemma sw_step_inv c c' : sw_step c c' -> sw_inv c -> sw_inv c'.
Proof.
  intros Hst (s & Hc & Ic & Hg). destruct Hst as [sw D f before off data r p' sw' H1 H2 H3|sw D f io off r D' sw' H1 H2 H3|
    sw D f b io inode e D' sw' H1 H2|sw D f b st|sw D f b s1 s2 m H1 H2 H3 H4|sw D f b p' d' others' H1 H2]; cbn in *.
  - exists s. split_and!; [done..|]. by eapply write_effect.
  - destruct (bulk_effect io off D sw f s r D' sw' Hc Ic Hg H2 H1 H3) as (s' & ? & ? & ?).
    exists s'. split_and!; [done|by eapply cache_steps_inv|done].
  - destruct (commit_effect io inode D sw f b s _ D' sw' Hc Ic Hg H1 H2) as (s' & ? & ? & ?).
    exists s'. split_and!; [done|by eapply cache_steps_inv|done].
  - exists s. by split_and!.
  - assert (Hsame : cs_acked s1 = cs_acked s) by (apply acked_unique; congruence).
    exists s2. split_and!; [done|by eapply cache_steps_inv|]. eapply (good_env sw (d_pool D)); try done.
    + rewrite <- Hsame. by apply cache_steps_acked.
    + rewrite <- Hsame. done.
    + eauto.
  - exists s. split_and!; [done..|]. eapply (good_env sw (d_pool D)); try done. eauto.
Qed.

Lemma sw_steps_inv c c' : rtc sw_step c c' -> sw_inv c -> sw_inv c'.
Proof. induction 1; eauto using sw_step_inv. Qed.

Lemma sw_new_good chunk st seq off p f s others :
  pool_wf p others -> hp_page_size p = PAGE_SIZE -> sw_good (slice_writer_new chunk st seq off) p f false s.
Proof.
  intros Hp Hs. destruct (new_buffer_wf _ _ Hp Hs) as [Hw (_ & Hb & Hg)]. exists 0, others. left. split; [done|]. split; [done|].
  intros sid Hfr. pose proof block_size_pos.
  constructor; cbn [slice_writer_new sw_buffer] in *; try done; cbn; intros; try nia.
  - split; [done|]. by exists 0.
  - apply Hb. cbn in *. nia.
  - by rewrite Hfr in H0.
Qed.

Lemma sw_new_inv chunk st seq off D f max s others :
  rtc cache_step (sys_new max) s -> cs_cache s = d_cache D ->
  pool_wf (d_pool D) others -> hp_page_size (d_pool D) = PAGE_SIZE ->
  sw_inv (mkCfg (slice_writer_new chunk st seq off) D f false).
Proof.
  intros Hr Hc Hp Hs. exists s. split; [done|]. split; [by eapply cache_steps_inv, sys_new_inv|]. by eapply sw_new_good.
Qed.

(** C6: when a full flush publishes the slice of a slice writer, the slice in the
    metadata has the length of the buffer, and every block of it is a complete local
    file or an object of the store with exactly the bytes that were written.  Before
    that the slice writer may have been through any writes the chunk writer admits
    (not before the flushed part, not past the end), bulk flushes, full flushes that
    failed, and activity of the rest of the system, as long as no write and no bulk
    flush comes after a full flush that failed at the metadata engine; after such a
    failure only full flushes are repeated.  The restriction is needed: see
    [append_after_failed_commit].  Slice identifiers are new when they are handed out,
    and the policy cache knows only blocks that were staged ([io_ok]). *)
Theorem published_slice_complete chunk st seq off D0 f0 max s0 others c io inode sid D' sw' :
  rtc cache_step (sys_new max) s0 -> cs_cache s0 = d_cache D0 ->
  pool_wf (d_pool D0) others -> hp_page_size (d_pool D0) = PAGE_SIZE ->
  rtc sw_step (mkCfg (slice_writer_new chunk st seq off) D0 f0 false) c ->
  io_ok io (sc_deps c) (sc_sw c) ->
  flush_and_commit io inode (sc_deps c) (sc_sw c) = (Ok sid, D', sw') ->
  let len := sb_length (sw_buffer (sc_sw c)) in
  (forall i, 0 <= i -> i * BLOCK_SIZE < len ->
     let n := Z.min BLOCK_SIZE (len - i * BLOCK_SIZE) in
     block_at (d_cache D') (mkSliceKey sid i n) (reads (sc_data c) (i * BLOCK_SIZE) n)) /\
  exists m, meta_with_id (d_meta (sc_deps c)) m /\
    mc_write_slice inode (sw_chunk_index (sc_sw c)) (sw_offset_of_chunk (sc_sw c)) (slice_of sid (sc_sw c)) m =
      (Ok (), d_meta D').
Proof.
  intros Hr Hc Hp Hs Hst Hio H. destruct (sw_steps_inv _ _ Hst) as (s & Hc1 & Ic & Hg); [by eapply sw_new_inv|].
  destruct (commit_effect io inode _ _ _ _ s _ D' sw' Hc1 Ic Hg Hio H) as (s' & Hc' & Hst' & _ & Hstored & Hm).
  split; [|exact Hm]. intros i Hi Hlt n. pose proof (Hstored i Hi Hlt) as Hk. cbn zeta in Hk. rewrite <- Hc'.
  pose proof (cache_steps_inv _ _ Hst' Ic) as I'. apply (ci_durable _ I' _ _ Hk).
Qed.

(** Flushing the published slices leaves their blocks in the store. *)
Lemma flush_published_spec mio sids (D : Deps (M:=M)) fw s r D' fw' :
  CacheInv s -> cs_cache s = d_cache D -> flush_published mio sids D fw = (r, D', fw') ->
  exists s', CacheInv s' /\ cs_cache s' = d_cache D' /\ cs_acked s' = cs_acked s /\
    (forall k, fc_staged (d_cache D') !! k = fc_staged (d_cache D) !! k \/ fc_staged (d_cache D') !! k = None) /\
    (r = Ok () -> (forall k, sk_slice_id k ∈ sids -> fc_staged (d_cache D') !! k = None) /\
       fw_published fw' = fw_published fw ∖ list_to_set sids).
Proof.
  revert D fw s. induction sids as [|sid sids IH]; intros D fw s I Hc H; cbn [flush_published] in H.
  { injection H as <- <- <-. exists s. split_and!; try done; [by left|]. intros _. split; [|set_solver].
    intros k Hk. by apply elem_of_nil in Hk. }
  destruct (flush_slice mio sid (d_cache D)) as [r1 c1] eqn:Ef. rewrite <- Hc in Ef. unfold flush_slice in Ef.
  destruct (flush_keys_spec mio _ s r1 c1 I Ef) as (I1 & Hm & Hn). rewrite <- Hc.
  destruct r1 as [[]|e|]; [|injection H as <- <- <-; by eexists..].
  destruct (IH (mkDeps (d_pool D) c1 (d_meta D)) _ _ I1 eq_refl H) as (s' & I' & Hc' & Ha & Hm' & Hok). cbn [d_cache cs_acked] in *.
  exists s'. split_and!; try done.
  - intros k. destruct (Hm' k) as [->|?]; [apply Hm|by right].
  - intros Hr. destruct (Hok Hr) as [Hno Hpub]. split.
    + intros k Hk. apply elem_of_cons in Hk as [Hk|Hk]; [|by apply Hno].
      destruct (Hm' k) as [->|?]; [|done]. destruct (fc_staged (cs_cache s) !! k) as [e|] eqn:E.
      * apply Hn; [done|]. apply slice_keys_spec. split; [done|by exists e].
      * destruct (Hm k) as [->|?]; done.
    + rewrite Hpub. cbn. set_solver.
Qed.

(** C23: a slice that a full flush published, of a slice writer that saw no write
    and no bulk flush after a full flush that failed at the metadata engine, and that
    a remote sync then made durable, with any activity of the cache in between, has
    every block in the object store with exactly the bytes that were written, and is
    no longer tracked.  A slice published by [commit_partial] is not covered: see
    [commit_partial_loses_tail]. *)
Theorem fsync_durable chunk st seq off D0 f0 max s0 others c io inode sid D1 sw1 s2 s3 (D3 : Deps (M:=M)) fw mio D4 fw4 :
  rtc cache_step (sys_new max) s0 -> cs_cache s0 = d_cache D0 ->
  pool_wf (d_pool D0) others -> hp_page_size (d_pool D0) = PAGE_SIZE ->
  rtc sw_step (mkCfg (slice_writer_new chunk st seq off) D0 f0 false) c ->
  io_ok io (sc_deps c) (sc_sw c) ->
  flush_and_commit io inode (sc_deps c) (sc_sw c) = (Ok sid, D1, sw1) ->
  cs_cache s2 = d_cache D1 -> CacheInv s2 -> rtc cache_step s2 s3 -> cs_cache s3 = d_cache D3 ->
  sid ∈ fw_published fw -> flush_published mio (elements (fw_published fw)) D3 fw = (Ok (), D4, fw4) ->
  let len := sb_length (sw_buffer (sc_sw c)) in
  (forall i, 0 <= i -> i * BLOCK_SIZE < len ->
     let n := Z.min BLOCK_SIZE (len - i * BLOCK_SIZE) in
     remote_has (d_cache D4) (mkSliceKey sid i n) (reads (sc_data c) (i * BLOCK_SIZE) n)) /\
  fw_published fw4 = ∅.
Proof.
  intros Hr Hc Hp Hs Hst Hio H Hc2 I2 Hst2 Hc3 Hpub Hfl.
  destruct (sw_steps_inv _ _ Hst) as (s & Hc1 & Ic & Hg); [by eapply sw_new_inv|].
  destruct (commit_effect io inode _ _ _ _ s _ D1 sw1 Hc1 Ic Hg Hio H) as (s' & Hc' & Hst' & _ & Hstored & _).
  pose proof (cache_steps_inv _ _ Hst' Ic) as I'. pose proof (cache_steps_inv _ _ Hst2 I2) as I3.
  destruct (flush_published_spec mio _ D3 fw s3 _ D4 fw4 I3 Hc3 Hfl) as (s4 & I4 & Hc4 & Ha4 & _ & Hok).
  destruct (Hok eq_refl) as [Hno Hpub4]. split; [|rewrite Hpub4; set_solver].
  intros i Hi Hlt n. pose proof (Hstored i Hi Hlt) as Hk. cbn zeta in Hk. rewrite <- Hc4.
  rewrite (acked_unique s' s2 I' I2) in Hk by congruence. apply (cache_steps_acked _ _ Hst2) in Hk. rewrite <- Ha4 in Hk.
  apply (ci_flushed _ I4 _ _ Hk). rewrite Hc4. apply Hno. cbn. by apply elem_of_elements.
Qed.

(** An idle slice writer is committed without being flushed: what was written
    after its last full block is not in the cache when the slice is published
    with the full length, so those bytes cannot be read back. *)
Theorem commit_partial_loses_tail chunk st seq off D0 f0 max s0 others c inode sid D' sw' :
  rtc cache_step (sys_new max) s0 -> cs_cache s0 = d_cache D0 ->
  pool_wf (d_pool D0) others -> hp_page_size (d_pool D0) = PAGE_SIZE ->
  rtc sw_step (mkCfg (slice_writer_new chunk st seq off) D0 f0 false) c ->
  sc_staged c = false -> sw_slice_id (sc_sw c) <> 0 ->
  commit_partial inode (sc_deps c) (sc_sw c) = (Ok (Some sid), D', sw') ->
  (exists m, mc_write_slice inode (sw_chunk_index (sc_sw c)) (sw_offset_of_chunk (sc_sw c)) (slice_of sid (sc_sw c)) m =
               (Ok (), d_meta D')) /\
  forall i n b, 0 <= i < 2 ^ 64 -> 0 <= n < 2 ^ 64 -> sb_flushed (sw_buffer (sc_sw c)) <= i * BLOCK_SIZE ->
    ~ block_at (d_cache D') (mkSliceKey sid i n) b.
Proof.
  intros Hr Hc Hp Hs Hst Hsf Hid H. destruct (sw_steps_inv _ _ Hst) as (s & Hc1 & Ic & Hg); [by eapply sw_new_inv|].
  destruct Hg as (d & oth & [(? & _)|(Hsid & [I|[? _]])]); [done| |congruence].
  unfold commit_partial in H. destruct (negb _); [|done]. destruct (mc_write_slice _ _ _ _ _) as [r2 m2] eqn:Em.
  destruct r2 as [[]|e|]; [|done|done]. injection H as <- <- <-. split; [exists (d_meta (sc_deps c)); exact Em|].
  intros i n b Hi Hn Hfl Hb. cbn [d_cache] in Hb. rewrite <- Hc1 in Hb. apply block_at_acked in Hb; [|done|].
  - apply (si_keys _ _ _ _ _ _ _ I) in Hb. lia.
  - unfold slice_key_wf, is_u64. cbn. lia.
Qed.
End writer.



(** *** A run on the small layout *)

Section run.
#[local] Existing Instance tiny_layout.

(** An engine that numbers slices and records what is published. *)
#[local] Instance log_meta : MetaClient (Z * list Slice) := {
  mc_next_slice_id m := (Ok m.1, (m.1 + 1, m.2));
  mc_write_slice _ _ _ sl m := (Ok (), (m.1, m.2 ++ [sl]))
}.

Definition wr_io (i : Z) : StageIo := mkStageIo None true None false.
Definition wr_deps : Deps (M:=Z * list Slice) := mkDeps tiny_pool (mkFC ∅ ∅ ∅ 0 false 100 0) (7, []).
Definition wr_new : SliceWriter := slice_writer_new 0 SwWriting 1 0.

(** Five bytes, a bulk flush of the first block, two more bytes. *)
Definition wr1 := sw_write_at SwIdle 0 (ab ++ [Byte.x64; Byte.x65]) tiny_pool wr_new.
Definition wr2 := do_flush_bulk wr_io 5 (mkDeps wr1.1.2 (d_cache wr_deps) (d_meta wr_deps)) (set_state SwFlushing wr1.2).
Definition wr3 := sw_write_at SwIdle 5 [Byte.x66; Byte.x67] (d_pool wr2.1.2) (set_state SwWriting wr2.2).
Definition wr_end : SliceWriter * Deps (M:=Z * list Slice) :=
  (set_state SwFlushing wr3.2, mkDeps wr3.1.2 (d_cache wr2.1.2) (d_meta wr2.1.2)).
Definition wr_data : Z -> Byte.byte :=
  overwrite (overwrite (fun _ => Byte.x00) 0 (ab ++ [Byte.x64; Byte.x65])) 5 [Byte.x66; Byte.x67].

Lemma wr_io_ok D sw : (sw_slice_id sw = 0 -> ids_fresh D) -> io_ok wr_io D sw.
Proof. intros H. split; [exact H|]. intros sid _ i db e _ _ He. discriminate. Qed.

Lemma wr_steps2 :
  rtc sw_step (mkCfg wr_new wr_deps (fun _ => Byte.x00) false)
    (mkCfg wr2.2 wr2.1.2 (overwrite (fun _ => Byte.x00) 0 (ab ++ [Byte.x64; Byte.x65])) false).
Proof.
  eapply rtc_l; [apply (sws_write wr_new wr_deps _ SwIdle 0 (ab ++ [Byte.x64; Byte.x65]) wr1.1.1 wr1.1.2 wr1.2);
    [reflexivity|split; apply Z.leb_le; vm_compute; reflexivity|vm_compute; reflexivity]|].
  eapply rtc_l; [apply (sws_state wr1.2 _ _ _ SwFlushing)|].
  eapply rtc_l; [apply (sws_bulk _ _ _ wr_io 5 wr2.1.1 wr2.1.2 wr2.2);
    [split; apply Z.leb_le; vm_compute; reflexivity|apply wr_io_ok|vm_compute; reflexivity]|].
  { intros _ id m [= <- <-]. split; [lia|].
    intros i len b _ _ [H|H]; unfold local_has, remote_has in H; cbn [d_cache wr_deps fc_local fc_remote] in H;
      by rewrite lookup_empty in H. }
  apply rtc_refl.
Qed.

Lemma wr_steps : rtc sw_step (mkCfg wr_new wr_deps (fun _ => Byte.x00) false) (mkCfg wr_end.1 wr_end.2 wr_data false).
Proof.
  transitivity (mkCfg wr2.2 wr2.1.2 (overwrite (fun _ => Byte.x00) 0 (ab ++ [Byte.x64; Byte.x65])) false); [apply wr_steps2|].
  eapply rtc_l; [apply (sws_state wr2.2 _ _ _ SwWriting)|].
  eapply rtc_l; [apply (sws_write _ wr2.1.2 _ SwIdle 5 [Byte.x66; Byte.x67] wr3.1.1 wr3.1.2 wr3.2);
    [reflexivity|split; apply Z.leb_le; vm_compute; reflexivity|vm_compute; reflexivity]|].
  eapply rtc_l; [apply (sws_state wr3.2 _ _ _ SwFlushing)|]. apply rtc_refl.
Qed.

Lemma published_slice_complete_witness :
  exists (D' : Deps (M:=Z * list Slice)) sw', flush_and_commit wr_io 9 wr_end.2 wr_end.1 = (Ok 7, D', sw') /\ d_meta D' = (8, [Owned 0 7 7 0]) /\
    block_at (d_cache D') (mkSliceKey 7 1 3) [Byte.x65; Byte.x66; Byte.x67].
Proof.
  set (x := flush_and_commit wr_io 9 wr_end.2 wr_end.1). exists x.1.2, x.2.
  assert (E : flush_and_commit wr_io 9 wr_end.2 wr_end.1 = (Ok 7, x.1.2, x.2)) by (vm_compute; reflexivity).
  split; [exact E|]. split; [vm_compute; reflexivity|].
  destruct (published_slice_complete 0 SwWriting 1 0 wr_deps (fun _ => Byte.x00) 100 (sys_new 100) []
    (mkCfg wr_end.1 wr_end.2 wr_data false) wr_io 9 7 x.1.2 x.2) as [H _].
  - apply rtc_refl.
  - reflexivity.
  - apply tiny_pool_wf.
  - reflexivity.
  - apply wr_steps.
  - apply wr_io_ok. intros H. vm_compute in H. discriminate.
  - exact E.
  - assert (Hlen : sb_length (sw_buffer wr_end.1) = 7) by (vm_compute; reflexivity).
    cbn [sc_sw] in H. rewrite Hlen in H. exact (H 1 ltac:(lia) eq_refl).
Defined.

Definition wr_done := flush_and_commit wr_io 9 wr_end.2 wr_end.1.
Definition wr_fw : FileWriter := record_published_slice 7 (file_writer_new 9 0).
Definition wr_synced := flush_published (fun _ => run_mig) [7] wr_done.1.2 wr_fw.

Lemma wr_cache_inv : exists s, cs_cache s = d_cache wr_done.1.2 /\ CacheInv s /\ slice_stored 7 wr_data 7 s.
Proof.
  destruct (sw_steps_inv _ _ wr_steps) as (s & Hc & I & Hg).
  { eapply (sw_new_inv _ _ _ _ _ _ 100 (sys_new 100) []); [apply rtc_refl|reflexivity|apply tiny_pool_wf|reflexivity]. }
  assert (E : flush_and_commit wr_io 9 wr_end.2 wr_end.1 = (Ok 7, wr_done.1.2, wr_done.2)) by (vm_compute; reflexivity).
  cbn [sc_deps sc_sw sc_data sc_staged] in Hc, Hg.
  assert (Hio : io_ok wr_io wr_end.2 wr_end.1) by (apply wr_io_ok; intros H; vm_compute in H; discriminate).
  destruct (commit_effect wr_io 9 wr_end.2 wr_end.1 wr_data false s (Ok 7) wr_done.1.2 wr_done.2 Hc I Hg Hio E)
    as (s' & Hc' & Hst & _ & Hs & _).
  exists s'. split; [done|]. split; [by eapply cache_steps_inv|exact Hs].
Qed.

Lemma fsync_durable_witness :
  remote_has (d_cache wr_synced.1.2) (mkSliceKey 7 0 4) [Byte.x61; Byte.x62; Byte.x63; Byte.x64].
Proof.
  destruct wr_cache_inv as (s & Hc & I & _).
  destruct (fsync_durable 0 SwWriting 1 0 wr_deps (fun _ => Byte.x00) 100 (sys_new 100) []
    (mkCfg wr_end.1 wr_end.2 wr_data false) wr_io 9 7 wr_done.1.2 wr_done.2 s s wr_done.1.2 wr_fw (fun _ => run_mig)
    wr_synced.1.2 wr_synced.2) as [H _].
  - apply rtc_refl.
  - reflexivity.
  - apply tiny_pool_wf.
  - reflexivity.
  - apply wr_steps.
  - apply wr_io_ok. intros H. vm_compute in H. discriminate.
  - vm_compute. reflexivity.
  - exact Hc.
  - exact I.
  - apply rtc_refl.
  - exact Hc.
  - cbn. set_solver.
  - vm_compute. reflexivity.
  - assert (Hlen : sb_length (sw_buffer wr_end.1) = 7) by (vm_compute; reflexivity).
    cbn [sc_sw] in H. rewrite Hlen in H. exact (H 0 ltac:(lia) eq_refl).
Defined.

(** After the bulk flush the fifth byte is only in the buffer. *)
Lemma commit_partial_loses_tail_witness :
  exists (D' : Deps (M:=Z * list Slice)) sw', commit_partial 9 wr2.1.2 wr2.2 = (Ok (Some 7), D', sw') /\
    d_meta D' = (8, [Owned 0 7 5 0]) /\ ~ block_at (d_cache D') (mkSliceKey 7 1 1) [Byte.x65].
Proof.
  set (x := commit_partial 9 wr2.1.2 wr2.2). exists x.1.2, x.2.
  assert (E : commit_partial 9 wr2.1.2 wr2.2 = (Ok (Some 7), x.1.2, x.2)) by (vm_compute; reflexivity).
  split; [exact E|]. split; [vm_compute; reflexivity|].
  destruct (commit_partial_loses_tail 0 SwWriting 1 0 wr_deps (fun _ => Byte.x00) 100 (sys_new 100) []
    (mkCfg wr2.2 wr2.1.2 (overwrite (fun _ => Byte.x00) 0 (ab ++ [Byte.x64; Byte.x65])) false) 9 7 x.1.2 x.2) as [_ H].
  - apply rtc_refl.
  - reflexivity.
  - apply tiny_pool_wf.
  - reflexivity.
  - apply wr_steps2.
  - reflexivity.
  - vm_compute. discriminate.
  - exact E.
  - apply (H 1 1); [lia|lia|]. apply Z.leb_le. vm_compute. reflexivity.
Defined.
End run.

(** *** Appending after a flush that failed at the metadata *)

Section append.
#[local] Existing Instance tiny_layout.

(** An engine that refuses the first publication. *)
#[local] Instance refuse_once : MetaClient (Z * list Slice) := {
  mc_next_slice_id m := (Ok m.1, (m.1 + 1, m.2));
  mc_write_slice _ _ _ sl m := if m.1 =? 8 then (Err (LibcError EIO), (9, m.2)) else (Ok (), (m.1, m.2 ++ [sl]))
}.

Definition ap1 := sw_write_at SwIdle 0 ab tiny_pool wr_new.
Definition ap2 := flush_and_commit wr_io 9 (mkDeps ap1.1.2 (d_cache wr_deps) (d_meta wr_deps)) (set_state SwFlushing ap1.2).
Definition ap3 := sw_write_at SwDirty 3 [Byte.x64] (d_pool ap2.1.2) (set_state SwWriting (reset_after_flush_failure ap2.2)).
Definition ap4 := flush_and_commit wr_io 9 (mkDeps ap3.1.2 (d_cache ap2.1.2) (d_meta ap2.1.2)) (set_state SwFlushing ap3.2).

(** The three bytes of the first write are staged as a short block; the retry
    after one more byte publishes a block that holds only that byte. *)
Example append_after_failed_commit :
  is_ok ap2.1.1 = false /\ ap4.1.1 = Ok 7 /\ d_meta ap4.1.2 = (9, [Owned 0 7 4 0]) /\
  fc_local (d_cache ap4.1.2) !! path (mkSliceKey 7 0 4) = Some [Byte.x00; Byte.x00; Byte.x00; Byte.x64].
Proof. vm_compute. done. Qed.
End append.
