(* ===== verification/WriterFlow.v ===== *)
(** * The flow of a file writer

    Where the parts of a write go, the states a slice writer passes through, and
    the end of a flush. *)

From stdpp Require Import sorting.
From S2P Require Import Prelude Common Slice SliceKey Meta Pool SliceBuffer SliceBufferThms SliceIO FileCache.
From S2P Require Import FileCacheThms Writer Staging.
Open Scope Z_scope.

(** ** Where a write goes *)

(** The pieces follow each other in the data, from [a] to [b]. *)
Fixpoint tiles (a : Z) (l : list ChunkWriteCtx) (b : Z) : Prop :=
  match l with
  | [] => a = b
  | cx :: l => cx_buf_start_at cx = a /\ tiles (a + cx_need_write_len cx) l b
  end.

Definition piece_ok (chunk_size offset : Z) (cx : ChunkWriteCtx) : Prop :=
  0 < cx_need_write_len cx /\ 0 <= cx_chunk_offset cx /\
  cx_chunk_offset cx + cx_need_write_len cx <= chunk_size /\
  cx_file_offset cx = offset + cx_buf_start_at cx /\
  cx_file_offset cx = cx_chunk_idx cx * chunk_size + cx_chunk_offset cx.

Lemma locate_loop_spec cs off len n first pos buf left :
  0 < cs -> 0 <= pos < cs -> 0 < left -> buf + left = len -> off + buf = first * cs + pos ->
  Z.of_nat n = (off + len - 1) / cs - first + 1 ->
  Forall (piece_ok cs off) (locate_loop cs off (seqZ first (Z.of_nat n)) pos buf left) /\
  tiles buf (locate_loop cs off (seqZ first (Z.of_nat n)) pos buf left) len.
Proof.
  revert first pos buf left. induction n as [|n IH]; intros first pos buf left Hcs Hpos Hleft Hlen Hoff Hn.
  { exfalso. assert (first <= (off + len - 1) / cs) by (apply Z.div_le_lower_bound; lia). lia. }
  rewrite seqZ_cons by lia. replace (Z.succ first) with (first + 1) by lia.
  replace (Z.pred (Z.of_nat (S n))) with (Z.of_nat n) by lia. cbn [locate_loop tiles cx_buf_start_at cx_need_write_len].
  assert (Hne : cs <> 0) by lia. assert (Hdm := Z.div_mod (off + len - 1) cs Hne). assert (Hmb := Z.mod_pos_bound (off + len - 1) cs Hcs).
  set (q := (off + len - 1) / cs) in *. set (m := Z.min (cs - pos) left).
  assert (Hm : 0 < m /\ m <= cs - pos /\ m <= left) by lia.
  assert (Hpiece : piece_ok cs off (mkCtx (off + buf) first pos m buf)) by (unfold piece_ok; cbn; lia).
  destruct n as [|n].
  - assert (Hq : q = first) by lia. assert (m = left) by nia.
    change (seqZ (first + 1) (Z.of_nat 0)) with (@nil Z). cbn [locate_loop tiles].
    split; [by constructor|]. split; [done|lia].
  - assert (Hq : first < q) by lia. assert (left > cs - pos) by nia. assert (m = cs - pos) as -> by lia.
    replace (pos + (cs - pos)) with cs by lia. unfold cal_chunk_offset. rewrite Z.mod_same by lia.
    destruct (IH (first + 1) 0 (buf + (cs - pos)) (left - (cs - pos))) as [IH1 IH2]; try lia.
    split; [by constructor|]. split; [done|]. exact IH2.
Qed.

(** C35: the parts of a write cover its data exactly once and in order, each part
    stays within one chunk, and its place in the file is the one its chunk index
    and chunk offset name. *)
Theorem locate_chunk_partition cs off len :
  0 < cs -> 0 <= off -> 0 < len ->
  Forall (piece_ok cs off) (locate_chunk cs off len) /\ tiles 0 (locate_chunk cs off len) len.
Proof.
  intros Hcs Ho Hl. unfold locate_chunk, cal_chunk_idx, cal_chunk_offset.
  assert (off / cs <= (off + len - 1) / cs) by (apply Z.div_le_mono; lia).
  set (n := (off + len - 1) / cs - off / cs + 1).
  replace n with (Z.of_nat (Z.to_nat n)) by lia.
  apply (locate_loop_spec cs off len); try lia.
  - apply Z.mod_pos_bound. lia.
  - pose proof (Z.div_mod off cs ltac:(lia)). lia.
Qed.

Lemma locate_chunk_partition_witness : tiles 0 (locate_chunk 12 7 20) 20.
Proof. apply (locate_chunk_partition 12 7 20); lia. Defined.

(** ** Requests and the slice writers they name *)

Definition sw_id (sw : SliceWriter) : Z * Z := (sw_chunk_index sw, sw_seq sw).

Definition req_id (req : FlushReq) : Z * Z :=
  match req with FlushBulk c n _ | FlushFull c n | CommitIdle c n => (c, n) end.

(** The state a request's slice writer waits in, and the one it ends in. *)
Definition req_state (req : FlushReq) : SliceWriterState :=
  match req with CommitIdle _ _ => SwCommitting | _ => SwFlushing end.
Definition req_target (req : FlushReq) : SliceWriterState :=
  match req with FlushBulk _ _ _ => SwIdle | _ => SwDone end.

Definition waiting (sw : SliceWriter) : Prop := sw_state sw = SwFlushing \/ sw_state sw = SwCommitting.

Definition chunks_ok (fw : FileWriter) : Prop :=
  forall c l, fw_chunks fw !! c = Some l -> Forall (fun sw => sw_chunk_index sw = c) l /\ NoDup (sw_seq <$> l).

(** Requests and waiting slice writers correspond one to one. *)
Record fw_wf (fw : FileWriter) : Prop := {
  ww_chunks : chunks_ok fw;
  ww_nodup : NoDup (req_id <$> fw_queue fw);
  ww_reqs : forall req, req ∈ fw_queue fw -> exists sw,
    get_sw (req_id req).1 (req_id req).2 fw = Some sw /\ sw_state sw = req_state req;
  ww_waiting : forall c n sw, get_sw c n fw = Some sw -> waiting sw -> (c, n) ∈ req_id <$> fw_queue fw
}.

Lemma get_sw_iff fw c n sw :
  chunks_ok fw -> get_sw c n fw = Some sw <->
    exists l, fw_chunks fw !! c = Some l /\ sw ∈ l /\ sw_seq sw = n.
Proof.
  intros Hok. unfold get_sw. destruct (fw_chunks fw !! c) as [l|] eqn:E; cbn; [|naive_solver].
  destruct (Hok c l E) as [_ Hnd]. split.
  - intros H. apply bind_Some in H as ([i x] & Hf & [= <-]). apply list_find_Some in Hf as (Hi & Hs & _). cbn in *.
    exists l. split; [done|]. split; [by eapply list_elem_of_lookup_2|done].
  - intros (? & [= <-] & Hin & <-). apply list_elem_of_lookup in Hin as [i Hi].
    assert (Hf : list_find (fun x => sw_seq x = sw_seq sw) l = Some (i, sw)).
    { apply list_find_Some. split; [done|]. split; [done|]. intros j y Hj Hlt Hs.
      assert (i = j); [|lia]. eapply (NoDup_lookup (sw_seq <$> l)); [done|by rewrite list_lookup_fmap, Hi|].
      rewrite list_lookup_fmap, Hj. cbn. by rewrite Hs. }
    by rewrite Hf.
Qed.

Lemma get_sw_id fw c n sw : chunks_ok fw -> get_sw c n fw = Some sw -> sw_id sw = (c, n).
Proof.
  intros Hok H. apply get_sw_iff in H as (l & Hl & Hin & <-); [|done]. destruct (Hok c l Hl) as [Hc _].
  rewrite Forall_forall in Hc. unfold sw_id. by rewrite (Hc sw Hin).
Qed.

(** Replacing a slice writer by one with the same name. *)
Lemma put_sw_spec fw sw old :
  chunks_ok fw -> get_sw (sw_chunk_index sw) (sw_seq sw) fw = Some old ->
  chunks_ok (put_sw sw fw) /\
  forall c n, get_sw c n (put_sw sw fw) = if decide ((c, n) = sw_id sw) then Some sw else get_sw c n fw.
Proof.
  intros Hok Hold. apply get_sw_iff in Hold as (l & Hl & Hin & Hseq); [|done]. destruct (Hok _ l Hl) as [Hc Hnd].
  set (upd := fun x => if decide (sw_seq x = sw_seq sw) then sw else x).
  assert (Hfm : fw_chunks (put_sw sw fw) = alter (map upd) (sw_chunk_index sw) (fw_chunks fw)) by done.
  assert (Hseqs : sw_seq <$> map upd l = sw_seq <$> l).
  { rewrite <- list_fmap_compose. apply list_fmap_ext. intros i x _. unfold upd, compose. case_decide; congruence. }
  assert (Hok' : chunks_ok (put_sw sw fw)).
  { intros c l' Hl'. rewrite Hfm in Hl'. apply lookup_alter_Some in Hl' as [(<- & l0 & Hl0 & ->)|[_ Hl']]; [|by apply Hok].
    rewrite Hl in Hl0. injection Hl0 as <-. rewrite Hseqs. split; [|done]. apply Forall_map.
    eapply Forall_impl; [exact Hc|]. intros x Hx. unfold upd, compose. by case_decide. }
  split; [done|]. intros c n. apply option_eq. intros x. rewrite get_sw_iff by done. rewrite Hfm. case_decide as Hid.
  - injection Hid as -> ->. rewrite lookup_alter_eq, Hl. cbn. split.
    + intros (? & [= <-] & Hx & Hs). apply list_elem_of_fmap in Hx as (y & -> & Hy). unfold upd in *. by case_decide.
    + intros [= <-]. eexists. split; [done|]. split; [|done]. apply list_elem_of_fmap. exists old. split; [|done].
      unfold upd. by rewrite decide_True.
  - rewrite get_sw_iff by done. destruct (decide (c = sw_chunk_index sw)) as [->|Hne].
    + rewrite lookup_alter_eq, Hl. cbn. split.
      * intros (? & [= <-] & Hx & Hs). exists l. split; [done|]. split; [|done].
        apply list_elem_of_fmap in Hx as (y & -> & Hy). unfold upd in *. case_decide; [|done].
        exfalso. apply Hid. unfold sw_id. by rewrite <- Hs.
      * intros (? & [= <-] & Hx & Hs). eexists. split; [done|]. split; [|done]. apply list_elem_of_fmap. exists x.
        split; [|done]. unfold upd. rewrite decide_False; [done|]. intros E. apply Hid. unfold sw_id. congruence.
    + by rewrite lookup_alter_ne by done.
Qed.

Section flow.
Context `{L : Layout} {M : Type} `{MC : MetaClient M}.

Lemma cas_id old new sw : sw_id (cas_state old new sw).2 = sw_id sw.
Proof. unfold cas_state. by case_decide. Qed.

Lemma cas_from old new sw : sw_state sw = old -> cas_state old new sw = (true, set_state new sw).
Proof. intros H. unfold cas_state. by rewrite decide_True. Qed.

Lemma prepare_id (D : Deps (M:=M)) sw r D' sw' :
  prepare_slice_id D sw = (r, D', sw') -> sw_id sw' = sw_id sw /\ sw_state sw' = sw_state sw.
Proof. unfold prepare_slice_id. intros H. repeat (case_match; simplify_eq); done. Qed.

(** What the three operations of the flusher make of the slice writer. *)
Lemma bulk_state io off (D : Deps (M:=M)) sw r D' sw' :
  sw_state sw = SwFlushing -> do_flush_bulk io off D sw = (r, D', sw') ->
  sw_id sw' = sw_id sw /\ (is_ok r = true -> sw_state sw' = SwIdle) /\ (forall e, r = Err e -> sw_state sw' = SwFlushing).
Proof.
  intros Hst H. unfold do_flush_bulk in H. destruct (prepare_slice_id D sw) as [[r0 D1] sw1] eqn:Ep.
  destruct (prepare_id _ _ _ _ _ Ep) as [Hid Hs]. rewrite Hst in Hs.
  destruct r0; [|by injection H as <- <- <-..]. destruct (sb_stage _ _ _ _ _) as [r1 [[p1 sb1] c1]].
  rewrite cas_from in H by done. destruct r1; injection H as <- <- <-; done.
Qed.

Lemma commit_state io inode (D : Deps (M:=M)) sw r D' sw' :
  sw_state sw = SwFlushing -> flush_and_commit io inode D sw = (r, D', sw') ->
  sw_id sw' = sw_id sw /\ (is_ok r = true -> sw_state sw' = SwDone) /\ (forall e, r = Err e -> sw_state sw' = SwFlushing).
Proof.
  intros Hst H. unfold flush_and_commit in H. destruct (prepare_slice_id D sw) as [[r0 D1] sw1] eqn:Ep.
  destruct (prepare_id _ _ _ _ _ Ep) as [Hid Hs]. rewrite Hst in Hs.
  destruct r0; [|by injection H as <- <- <-..]. destruct (flush_v2 _ _ _ _) as [r1 [[p1 sb1] c1]].
  destruct r1; [|by injection H as <- <- <-..]. destruct (mc_write_slice _ _ _ _ _) as [r2 m2].
  rewrite cas_from in H by done. destruct r2; injection H as <- <- <-; done.
Qed.

Lemma partial_state inode (D : Deps (M:=M)) sw r D' sw' :
  sw_state sw = SwCommitting -> commit_partial inode D sw = (r, D', sw') ->
  sw_id sw' = sw_id sw /\ (is_ok r = true -> sw_state sw' = SwDone) /\ (forall e, r = Err e -> sw_state sw' = SwCommitting).
Proof.
  intros Hst H. unfold commit_partial in H. destruct (negb _).
  - destruct (mc_write_slice _ _ _ _ _) as [r2 m2]. rewrite cas_from in H by done.
    destruct r2; injection H as <- <- <-; done.
  - rewrite cas_from in H by done. by injection H as <- <- <-.
Qed.

(** Not waiting for the flusher and not being written. *)
Definition settled (sw : SliceWriter) : Prop :=
  sw_state sw = SwIdle \/ sw_state sw = SwDirty \/ sw_state sw = SwDone.

Lemma settled_not sw : settled sw -> ~ waiting sw /\ sw_state sw <> SwWriting.
Proof. intros [H|[H|H]]; unfold waiting; rewrite H; split; naive_solver. Qed.

(** What a request leaves: only its slice writer changes; it is in its target
    state, or an error is recorded. *)
Record req_post (req : FlushReq) (fw fw' : FileWriter) : Prop := {
  rp_chunks : chunks_ok fw';
  rp_queue : fw_queue fw' = fw_queue fw;
  rp_closed : fw_closed fw' = fw_closed fw;
  rp_error : has_flush_error fw = true -> has_flush_error fw' = true;
  rp_sw : exists sw', sw_id sw' = req_id req /\
    (forall c n, get_sw c n fw' = if decide ((c, n) = req_id req) then Some sw' else get_sw c n fw) /\
    settled sw' /\ (has_flush_error fw' = true \/ sw_state sw' = req_target req)
}.

Lemma record_error_has e fw : has_flush_error (record_flush_error e fw) = true.
Proof. unfold record_flush_error, has_flush_error. by destruct (fw_error fw) eqn:E; cbn; rewrite ?E. Qed.

Lemma flush_result_spec req r sw' reset closes fw fw' old :
  chunks_ok fw -> get_sw (req_id req).1 (req_id req).2 fw = Some old -> sw_id sw' = req_id req ->
  (forall sw, sw_id (reset sw) = sw_id sw) -> (is_ok r = true -> sw_state sw' = req_target req) ->
  (is_ok r = false -> settled (reset sw')) ->
  flush_result (req_id req).1 (req_id req).2 r sw' reset closes fw = Ok fw' -> req_post req fw fw'.
Proof.
  intros Hok Hold Hid Hreset Ht Hset H. unfold flush_result in H. destruct r as [pub|e|]; [| |done].
  - assert (Hg : get_sw (sw_chunk_index sw') (sw_seq sw') fw = Some old).
    { rewrite <- Hold, <- Hid. done. }
    destruct (put_sw_spec fw sw' old Hok Hg) as [Hok' Hget]. injection H as <-.
    set (fw1 := match pub with Some sid => record_published_slice sid (put_sw sw' fw) | None => put_sw sw' fw end).
    assert (Hsame : fw_chunks fw1 = fw_chunks (put_sw sw' fw) /\ fw_queue fw1 = fw_queue fw /\
              fw_closed fw1 = fw_closed fw /\ fw_error fw1 = fw_error fw) by (subst fw1; by destruct pub).
    destruct Hsame as (S1 & S2 & S3 & S4).
    assert (Hc : forall b : bool, let fw2 := if b then set_slice_cnt (u64_wrap (fw_slice_cnt fw1 - 1)) fw1 else fw1 in
      fw_chunks fw2 = fw_chunks (put_sw sw' fw) /\ fw_queue fw2 = fw_queue fw /\ fw_closed fw2 = fw_closed fw /\
      fw_error fw2 = fw_error fw) by (intros []; done).
    destruct (Hc closes) as (Q1 & Q2 & Q3 & Q4). clear Hc. constructor; try done.
    + unfold chunks_ok. rewrite Q1. exact Hok'.
    + unfold has_flush_error. by rewrite Q4.
    + exists sw'. split; [done|]. split; [|split; [|right; by apply Ht]].
      2:{ specialize (Ht eq_refl). unfold settled. rewrite Ht. destruct req; cbn; auto. }
      intros c n.
      transitivity (get_sw c n (put_sw sw' fw)); [unfold get_sw; by rewrite Q1|]. by rewrite Hget, Hid.
  - assert (Hid' : sw_id (reset sw') = req_id req) by (by rewrite Hreset).
    set (fw0 := record_flush_error e fw) in *.
    assert (Hch : fw_chunks fw0 = fw_chunks fw /\ fw_queue fw0 = fw_queue fw /\ fw_closed fw0 = fw_closed fw).
    { subst fw0. unfold record_flush_error. by destruct (fw_error fw). }
    destruct Hch as (S1 & S2 & S3).
    assert (Hok0 : chunks_ok fw0) by (unfold chunks_ok; by rewrite S1).
    assert (Hg : get_sw (sw_chunk_index (reset sw')) (sw_seq (reset sw')) fw0 = Some old).
    { rewrite <- Hold, <- Hid'. unfold get_sw. by rewrite S1. }
    destruct (put_sw_spec fw0 (reset sw') old Hok0 Hg) as [Hok' Hget]. injection H as <-. constructor; try done.
    + intros _. apply (record_error_has e fw).
    + exists (reset sw'). split; [done|]. split; [|split; [by apply Hset|left; apply (record_error_has e fw)]]. intros c n.
      rewrite Hget, Hid'. case_decide; [done|]. unfold get_sw. by rewrite S1.
Qed.

Lemma reset_flush_id sw : sw_id (reset_after_flush_failure sw) = sw_id sw.
Proof. apply cas_id. Qed.
Lemma reset_commit_id sw : sw_id (reset_after_commit_failure sw) = sw_id sw.
Proof. apply cas_id. Qed.
Lemma reset_flush_settled sw : sw_state sw = SwFlushing -> settled (reset_after_flush_failure sw).
Proof. intros H. unfold reset_after_flush_failure. rewrite cas_from by done. by right; left. Qed.
Lemma reset_commit_settled sw : sw_state sw = SwCommitting -> settled (reset_after_commit_failure sw).
Proof. intros H. unfold reset_after_commit_failure. rewrite cas_from by done. by left. Qed.

Lemma flush_result_panic c n r sw reset closes fw : flush_result c n r sw reset closes fw = Panic -> r = Panic.
Proof. by destruct r. Qed.

(** The only way for the flusher to panic: one of the three operations on a slice
    writer panics, which ends the process. *)
Definition op_panics (io : Z -> StageIo) : Prop :=
  exists (inode : Z) (D : Deps (M:=M)) (sw : SliceWriter),
    (exists off, (do_flush_bulk io off D sw).1.1 = Panic) \/
    (flush_and_commit io inode D sw).1.1 = Panic \/ (commit_partial inode D sw).1.1 = Panic.

Lemma run_req_spec io req (D : Deps (M:=M)) fw sw r D' :
  chunks_ok fw -> get_sw (req_id req).1 (req_id req).2 fw = Some sw -> sw_state sw = req_state req ->
  run_req io req D fw = (r, D') ->
  match r with Ok fw' => req_post req fw fw' | Err _ => False | Panic => op_panics io end.
Proof.
  intros Hok Hg Hst H. pose proof (get_sw_id _ _ _ _ Hok Hg) as Hid.
  destruct req as [c n off|c n|c n]; cbn [req_id fst snd req_state] in *; cbn [run_req] in H; rewrite Hg in H.
  - destruct (do_flush_bulk io off D sw) as [[r0 D0] sw0] eqn:E. destruct (bulk_state _ _ _ _ _ _ _ Hst E) as (Hi & Ht & He).
    injection H as <- <-. destruct (flush_result _ _ _ _ _ _ _) as [fw'| |] eqn:Ef; [| |apply flush_result_panic in Ef].
    + refine (flush_result_spec (FlushBulk c n off) _ sw0 _ _ _ _ sw Hok Hg _ reset_flush_id _ _ Ef); [by rewrite Hi|by destruct r0|].
      intros Hr. destruct r0 as [?|e|]; [done| |done]. apply reset_flush_settled. by eapply He.
    + by destruct r0.
    + exists 0, D, sw. left. exists off. rewrite E. by destruct r0.
  - destruct (flush_and_commit io _ D sw) as [[r0 D0] sw0] eqn:E. destruct (commit_state _ _ _ _ _ _ _ Hst E) as (Hi & Ht & He).
    injection H as <- <-. destruct (flush_result _ _ _ _ _ _ _) as [fw'| |] eqn:Ef; [| |apply flush_result_panic in Ef].
    + refine (flush_result_spec (FlushFull c n) _ sw0 _ _ _ _ sw Hok Hg _ reset_flush_id _ _ Ef); [by rewrite Hi|by destruct r0|].
      intros Hr. destruct r0 as [?|e|]; [done| |done]. apply reset_flush_settled. by eapply He.
    + by destruct r0.
    + exists (fw_inode fw), D, sw. right; left. rewrite E. by destruct r0.
  - destruct (commit_partial _ D sw) as [[r0 D0] sw0] eqn:E. destruct (partial_state _ _ _ _ _ _ Hst E) as (Hi & Ht & He).
    injection H as <- <-. destruct (flush_result _ _ _ _ _ _ _) as [fw'| |] eqn:Ef; [| |apply flush_result_panic in Ef].
    + refine (flush_result_spec (CommitIdle c n) _ sw0 _ _ _ _ sw Hok Hg _ reset_commit_id Ht _ Ef); [by rewrite Hi|].
      intros Hr. destruct r0 as [?|e|]; [done| |done]. apply reset_commit_settled. by eapply He.
    + by destruct r0.
    + exists (fw_inode fw), D, sw. right; right. by rewrite E, Ef.
Qed.

(** What working off a queue leaves. *)
Record queue_post (q : list FlushReq) (fw fw' : FileWriter) : Prop := {
  qp_chunks : chunks_ok fw';
  qp_queue : fw_queue fw' = fw_queue fw;
  qp_closed : fw_closed fw' = fw_closed fw;
  qp_error : has_flush_error fw = true -> has_flush_error fw' = true;
  qp_others : forall c n, (c, n) ∉ req_id <$> q -> get_sw c n fw' = get_sw c n fw;
  qp_settled : forall req, req ∈ q -> exists sw,
    get_sw (req_id req).1 (req_id req).2 fw' = Some sw /\ settled sw;
  qp_done : has_flush_error fw' = false -> forall req, req ∈ q -> exists sw,
    get_sw (req_id req).1 (req_id req).2 fw' = Some sw /\ sw_state sw = req_target req
}.

Lemma run_queue_spec io q (D : Deps (M:=M)) fw r D' :
  chunks_ok fw -> NoDup (req_id <$> q) ->
  (forall req, req ∈ q -> exists sw, get_sw (req_id req).1 (req_id req).2 fw = Some sw /\ sw_state sw = req_state req) ->
  run_queue io q D fw = (r, D') ->
  match r with Ok fw' => queue_post q fw fw' | Err _ => False | Panic => op_panics io end.
Proof.
  revert D fw. induction q as [|req q IH]; intros D fw Hok Hnd Hreqs H; cbn [run_queue] in H.
  { injection H as <- <-. constructor; try done; [|intros _]; intros req Hr; by apply elem_of_nil in Hr. }
  destruct (run_req io req D fw) as [r1 D1] eqn:E1. destruct (Hreqs req) as (sw & Hg & Hst); [by left|].
  pose proof (run_req_spec io req D fw sw r1 D1 Hok Hg Hst E1) as Hp. apply NoDup_cons in Hnd as [Hni Hnd].
  destruct r1 as [fw1|e|]; [|done|by injection H as <- <-].
  destruct Hp as [P1 P2 P3 P4 (sw' & Hid' & Hget & Hset & Htgt)].
  assert (Hne : forall req', req' ∈ q -> req_id req' <> req_id req).
  { intros req' Hin E. apply Hni. apply list_elem_of_fmap. by exists req'. }
  assert (Hreqs1 : forall req', req' ∈ q -> exists sw, get_sw (req_id req').1 (req_id req').2 fw1 = Some sw /\
    sw_state sw = req_state req').
  { intros req' Hin. destruct (Hreqs req') as (sw1 & Hg1 & Hs1); [by right|]. exists sw1. split; [|done].
    rewrite Hget, decide_False; [done|]. rewrite <- surjective_pairing. by apply Hne. }
  specialize (IH D1 fw1 P1 Hnd Hreqs1 H). destruct r as [fw'|e|].
  - destruct IH as [Q1 Q2 Q3 Q4 Q5 Q5' Q6].
    assert (Herr : has_flush_error fw' = false -> has_flush_error fw1 = false).
    { intros He. destruct (has_flush_error fw1) eqn:E; [|done]. by rewrite Q4 in He. }
    constructor; try congruence; auto.
    + intros c n Hni'. rewrite fmap_cons, not_elem_of_cons in Hni'. destruct Hni' as [Hn1 Hn2].
      rewrite Q5 by done. by rewrite Hget, decide_False.
    + intros req' Hin. apply elem_of_cons in Hin as [->|Hin]; [|by apply Q5'].
      exists sw'. rewrite Q5 by (by rewrite <- surjective_pairing).
      by rewrite Hget, decide_True by (by rewrite <- surjective_pairing).
    + intros He req' Hin. apply elem_of_cons in Hin as [->|Hin]; [|by apply Q6].
      exists sw'. rewrite Q5 by (by rewrite <- surjective_pairing).
      rewrite Hget, decide_True by (by rewrite <- surjective_pairing). split; [done|].
      destruct Htgt as [Ht|Ht]; [|done]. by rewrite Herr in Ht.
  - done.
  - done.
Qed.

(** *** One round of finishing *)

Definition finish_step (sw : SliceWriter) : SliceWriter :=
  match sw_state sw with SwIdle => set_state SwCommitting sw | SwDirty => set_state SwFlushing sw | _ => sw end.
Definition finish_req (sw : SliceWriter) : option FlushReq :=
  match sw_state sw with
  | SwIdle => Some (CommitIdle (sw_chunk_index sw) (sw_seq sw))
  | SwDirty => Some (FlushFull (sw_chunk_index sw) (sw_seq sw))
  | _ => None
  end.
Definition not_done (sw : SliceWriter) : Prop := sw_state sw <> SwDone.
#[local] Instance not_done_dec sw : Decision (not_done sw).
Proof. unfold not_done. apply _. Defined.

Lemma finish_sws_open l :
  finish_sws false l = (finish_step <$> l, sw_seq <$> filter (fun sw => ~ not_done sw) l, omap finish_req l, false).
Proof.
  induction l as [|sw l IH]; [done|]. rewrite filter_cons, fmap_cons. cbn [finish_sws]. rewrite IH.
  change (omap finish_req (sw :: l)) with
    (match finish_req sw with Some y => y :: omap finish_req l | None => omap finish_req l end).
  assert (Hnot : sw_state sw <> SwDone <-> not_done sw) by done.
  pose proof (eq_refl (finish_step sw)) as Hs. pose proof (eq_refl (finish_req sw)) as Hr.
  unfold finish_step in Hs at 2. unfold finish_req in Hr at 2. unfold make_flush_req.
  destruct (sw_state sw) eqn:Es; rewrite Hs, Hr; rewrite ?cas_from by done; case_decide as Hd;
    try (exfalso; naive_solver); done.
Qed.

Definition finish_list (l : list SliceWriter) : list SliceWriter := finish_step <$> filter not_done l.

Lemma finish_step_seq sw : sw_seq (finish_step sw) = sw_seq sw /\ sw_chunk_index (finish_step sw) = sw_chunk_index sw.
Proof. unfold finish_step. by destruct (sw_state sw). Qed.

(** Removing the numbers of the writers that were done removes those writers. *)
Lemma finish_filter l :
  NoDup (sw_seq <$> l) ->
  filter (fun sw => sw_seq sw ∉ sw_seq <$> filter (fun sw => ~ not_done sw) l) (finish_step <$> l) = finish_list l.
Proof.
  intros Hnd. unfold finish_list.
  assert (Hgen : forall l' : list SliceWriter, (forall sw, sw ∈ l' -> sw ∈ l) ->
    filter (fun sw => sw_seq sw ∉ sw_seq <$> filter (fun sw => ~ not_done sw) l) (finish_step <$> l') =
    finish_step <$> filter not_done l'); [|by apply Hgen].
  induction l' as [|sw l' IH]; intros Hsub; [done|]. rewrite fmap_cons, !filter_cons.
  rewrite IH by (intros; apply Hsub; by right). rewrite (proj1 (finish_step_seq sw)).
  assert (Hin : sw ∈ l) by (apply Hsub; by left).
  assert (Hiff : sw_seq sw ∉ sw_seq <$> filter (fun sw => ~ not_done sw) l <-> not_done sw).
  { split.
    - intros Hni. destruct (decide (not_done sw)) as [|Hd]; [done|]. exfalso. apply Hni. apply list_elem_of_fmap.
      exists sw. split; [done|]. by apply list_elem_of_filter.
    - intros Hd Hx. apply list_elem_of_fmap in Hx as (sw' & Hs & Hx). apply list_elem_of_filter in Hx as [Hd' Hin'].
      apply Hd'. replace sw' with sw; [done|].
      apply list_elem_of_lookup in Hin as [i Hi]. apply list_elem_of_lookup in Hin' as [j Hj].
      assert (i = j) as <-; [|congruence].
      eapply (NoDup_lookup (sw_seq <$> l)); [done|by rewrite list_lookup_fmap, Hi|].
      rewrite list_lookup_fmap, Hj. cbn. congruence. }
  case_decide as H1; case_decide as H2; [done|tauto|tauto|done].
Qed.

Lemma chunk_finish_open c fw :
  chunks_ok fw -> has_flush_error fw = false -> fw_closed fw = false ->
  chunk_finish c fw =
    match fw_chunks fw !! c with
    | None => fw
    | Some l => set_queue (fw_queue fw ++ omap finish_req l) (set_chunks (<[c := finish_list l]> (fw_chunks fw)) fw)
    end.
Proof.
  intros Hok He Hc. unfold chunk_finish. rewrite He, Hc. destruct (fw_chunks fw !! c) as [l|] eqn:E; [|done].
  rewrite finish_sws_open. by rewrite finish_filter by apply (Hok c l E).
Qed.

Lemma nodup_fmap_filter {A B} (f : A -> B) (P : A -> Prop) `{!forall x, Decision (P x)} l :
  NoDup (f <$> l) -> NoDup (f <$> filter P l).
Proof.
  induction l as [|x l IH]; [done|]. rewrite fmap_cons, NoDup_cons, filter_cons. intros [Hx Hl].
  case_decide; [|by apply IH]. rewrite fmap_cons. apply NoDup_cons. split; [|by apply IH].
  intros Hin. apply Hx. apply list_elem_of_fmap in Hin as (y & -> & Hy). apply list_elem_of_filter in Hy as [_ Hy].
  apply list_elem_of_fmap. by exists y.
Qed.

Lemma finish_list_ok c l :
  Forall (fun sw => sw_chunk_index sw = c) l -> NoDup (sw_seq <$> l) ->
  Forall (fun sw => sw_chunk_index sw = c) (finish_list l) /\ NoDup (sw_seq <$> finish_list l).
Proof.
  intros Hc Hnd. unfold finish_list. split.
  - apply Forall_fmap, Forall_forall. intros sw Hin. apply list_elem_of_filter in Hin as [_ Hin]. unfold compose.
    rewrite (proj2 (finish_step_seq sw)). rewrite Forall_forall in Hc. by apply Hc.
  - rewrite <- list_fmap_compose. rewrite (list_fmap_ext _ sw_seq); [by apply nodup_fmap_filter|].
    intros i sw _. apply finish_step_seq.
Qed.

Lemma bind_ext_in {A B} (f g : A -> list B) l : (forall x, x ∈ l -> f x = g x) -> l ≫= f = l ≫= g.
Proof.
  induction l as [|x l IH]; intros H; [done|]. cbn. f_equal; [apply H; by left|]. apply IH. intros y Hy. apply H. by right.
Qed.

Lemma fmap_bind {A B C} (f : B -> C) (g : A -> list B) l : f <$> (l ≫= g) = l ≫= (fun x => f <$> g x).
Proof. induction l as [|x l IH]; [done|]. cbn. rewrite fmap_app. by f_equal. Qed.

(** The requests of one round over the chunks [ks]. *)
Definition round_reqs (m : gmap Z (list SliceWriter)) (ks : list Z) : list FlushReq :=
  ks ≫= fun c => omap finish_req (default [] (m !! c)).

Lemma finish_fold_open ks fw :
  chunks_ok fw -> has_flush_error fw = false -> fw_closed fw = false -> NoDup ks ->
  let fw' := foldl (fun fw c => chunk_finish c fw) fw ks in
  fw_queue fw' = fw_queue fw ++ round_reqs (fw_chunks fw) ks /\
  (forall c, fw_chunks fw' !! c = if decide (c ∈ ks) then finish_list <$> (fw_chunks fw !! c) else fw_chunks fw !! c) /\
  chunks_ok fw' /\ has_flush_error fw' = false /\ fw_closed fw' = false.
Proof.
  revert fw. induction ks as [|c ks IH]; intros fw Hok He Hc Hnd; cbn [foldl].
  { unfold round_reqs. cbn. rewrite app_nil_r. done. }
  apply NoDup_cons in Hnd as [Hni Hnd]. rewrite chunk_finish_open by done.
  destruct (fw_chunks fw !! c) as [l|] eqn:El.
  - set (fw1 := set_queue (fw_queue fw ++ omap finish_req l) (set_chunks (<[c := finish_list l]> (fw_chunks fw)) fw)).
    assert (Hok1 : chunks_ok fw1).
    { intros c' l' Hl'. subst fw1. cbn in Hl'. apply lookup_insert_Some in Hl' as [[<- <-]|[_ Hl']]; [|by apply Hok].
      by apply finish_list_ok; apply (Hok c l El). }
    destruct (IH fw1 Hok1 He Hc Hnd) as (Q1 & Q2 & Q3 & Q4 & Q5). split_and!; try done.
    + rewrite Q1. subst fw1. cbn [fw_queue set_queue set_chunks fw_chunks]. rewrite <- app_assoc. f_equal.
      unfold round_reqs. cbn. rewrite El. cbn. f_equal. apply bind_ext_in. intros c' Hc'.
      rewrite lookup_insert_ne; [done|]. by intros ->.
    + intros c'. rewrite Q2. subst fw1. cbn [fw_chunks set_queue set_chunks].
      destruct (decide (c' = c)) as [->|Hne].
      * rewrite decide_False by done. rewrite decide_True by (by left). by rewrite lookup_insert_eq, El.
      * rewrite lookup_insert_ne by done. destruct (decide (c' ∈ ks)) as [Hk|Hk].
        -- by rewrite decide_True by (by right).
        -- rewrite decide_False; [done|]. by apply not_elem_of_cons.
  - destruct (IH fw Hok He Hc Hnd) as (Q1 & Q2 & Q3 & Q4 & Q5). split_and!; try done.
    + rewrite Q1. unfold round_reqs. cbn. by rewrite El.
    + intros c'. rewrite Q2. destruct (decide (c' = c)) as [->|Hne].
      * rewrite decide_False by done. rewrite decide_True by (by left). by rewrite El.
      * destruct (decide (c' ∈ ks)) as [Hk|Hk].
        -- by rewrite decide_True by (by right).
        -- rewrite decide_False; [done|]. by apply not_elem_of_cons.
Qed.

Lemma finish_req_id sw req : finish_req sw = Some req -> req_id req = sw_id sw /\ ~ waiting sw.
Proof.
  unfold finish_req, waiting, sw_id. destruct (sw_state sw); intros [= <-]; split; try done; intros [|]; done.
Qed.

Lemma finish_round_spec fw :
  fw_wf fw -> has_flush_error fw = false -> fw_closed fw = false ->
  fw_wf (finish_round fw) /\ has_flush_error (finish_round fw) = false /\ fw_closed (finish_round fw) = false /\
  (forall c n sw', get_sw c n (finish_round fw) = Some sw' <->
     exists sw, get_sw c n fw = Some sw /\ not_done sw /\ sw' = finish_step sw) /\
  (forall req, req ∈ fw_queue (finish_round fw) -> req ∈ fw_queue fw \/
     exists sw, get_sw (req_id req).1 (req_id req).2 fw = Some sw /\ finish_req sw = Some req).
Proof.
  intros [W1 W2 W3 W4] He Hc. set (ks := elements (dom (fw_chunks fw))).
  assert (Hnd : NoDup ks) by apply NoDup_elements.
  destruct (finish_fold_open ks fw W1 He Hc Hnd) as (Q1 & Q2 & Q3 & Q4 & Q5).
  change (foldl _ fw ks) with (finish_round fw) in Q1, Q2, Q3, Q4, Q5. set (fw' := finish_round fw) in *.
  assert (Hks : forall c l, fw_chunks fw !! c = Some l -> c ∈ ks).
  { intros c l Hl. apply elem_of_elements. by eapply elem_of_dom_2. }
  assert (Hget : forall c n sw', get_sw c n fw' = Some sw' <->
     exists sw, get_sw c n fw = Some sw /\ not_done sw /\ sw' = finish_step sw).
  { intros c n sw'. rewrite get_sw_iff by done. rewrite Q2. split.
    - intros (l' & Hl' & Hin & Hs). case_decide as Hk; [|by apply Hks in Hl'].
      apply fmap_Some in Hl' as (l & Hl & ->). unfold finish_list in Hin.
      apply list_elem_of_fmap in Hin as (sw & -> & Hin). apply list_elem_of_filter in Hin as [Hd Hin].
      exists sw. split; [|done]. apply get_sw_iff; [done|]. exists l. split_and!; try done.
      by rewrite <- (proj1 (finish_step_seq sw)).
    - intros (sw & Hg & Hd & ->). apply get_sw_iff in Hg as (l & Hl & Hin & <-); [|done].
      rewrite decide_True by (by eapply Hks). exists (finish_list l). rewrite Hl. split_and!; [done| |apply finish_step_seq].
      apply list_elem_of_fmap. exists sw. split; [done|]. by apply list_elem_of_filter. }
  assert (Hnew : forall req, req ∈ round_reqs (fw_chunks fw) ks <->
     exists sw, get_sw (req_id req).1 (req_id req).2 fw = Some sw /\ finish_req sw = Some req).
  { intros req. unfold round_reqs. rewrite list_elem_of_bind. split.
    - intros (c & Hin & Hk). apply list_elem_of_omap in Hin as (sw & Hin & Hr).
      destruct (fw_chunks fw !! c) as [l|] eqn:El; cbn in Hin; [|by apply elem_of_nil in Hin].
      exists sw. split; [|done]. destruct (finish_req_id _ _ Hr) as [-> _]. apply get_sw_iff; [done|].
      exists l. destruct (W1 c l El) as [Hc' _]. rewrite Forall_forall in Hc'. cbn. rewrite (Hc' sw Hin). done.
    - intros (sw & Hg & Hr). apply get_sw_iff in Hg as (l & Hl & Hin & Hs); [|done]. exists (req_id req).1. split.
      + apply list_elem_of_omap. exists sw. split; [by rewrite Hl|done].
      + by eapply Hks. }
  split_and!; try done.
  2:{ intros req Hin. rewrite Q1 in Hin. apply elem_of_app in Hin as [Hin|Hin]; [by left|right]. by apply Hnew. }
  constructor; [done| | |].
  - rewrite Q1, fmap_app. apply NoDup_app. split; [done|]. split.
    + intros x Hx Hx'. apply list_elem_of_fmap in Hx as (r1 & -> & H1). apply list_elem_of_fmap in Hx' as (r2 & E & H2).
      apply Hnew in H2 as (sw & Hg & Hr). destruct (finish_req_id _ _ Hr) as [_ Hw].
      destruct (W3 r1 H1) as (sw1 & Hg1 & Hs1). rewrite E in Hg1. rewrite Hg1 in Hg. injection Hg as <-.
      apply Hw. unfold waiting. rewrite Hs1. destruct r1; cbn; auto.
    + unfold round_reqs. rewrite fmap_bind.
      apply NoDup_bind; [|intros c _|done].
      * intros c1 c2 x Hc1 Hc2 H1 H2. unfold compose in H1, H2.
        assert (Hfst : forall c, x ∈ req_id <$> omap finish_req (default [] (fw_chunks fw !! c)) -> x.1 = c).
        { intros c Hx. apply list_elem_of_fmap in Hx as (r & -> & Hx). apply list_elem_of_omap in Hx as (sw & Hin & Hr).
          destruct (finish_req_id _ _ Hr) as [-> _]. destruct (fw_chunks fw !! c) as [l|] eqn:El; cbn in Hin; [|by apply elem_of_nil in Hin].
          destruct (W1 c l El) as [Hc' _]. rewrite Forall_forall in Hc'. by apply Hc'. }
        rewrite <- (Hfst c1 H1). by apply Hfst.
      * unfold compose. destruct (fw_chunks fw !! c) as [l|] eqn:El; [|apply NoDup_nil; done]. cbn.
        destruct (W1 c l El) as [_ Hseq]. clear -Hseq. induction l as [|sw l IH]; [apply NoDup_nil; done|].
        rewrite fmap_cons in Hseq. apply NoDup_cons in Hseq as [Hx Hseq]. cbn. destruct (finish_req sw) as [req|] eqn:Er; [|by apply IH].
        rewrite fmap_cons. apply NoDup_cons. split; [|by apply IH]. intros Hin. apply Hx.
        apply list_elem_of_fmap in Hin as (r' & Eid & Hin). apply list_elem_of_omap in Hin as (sw' & Hin & Hr').
        apply list_elem_of_fmap. exists sw'. split; [|done].
        destruct (finish_req_id _ _ Er) as [E1 _]. destruct (finish_req_id _ _ Hr') as [E2 _].
        rewrite E1, E2 in Eid. by injection Eid.
  - intros req Hin. rewrite Q1 in Hin. apply elem_of_app in Hin as [Hin|Hin].
    + destruct (W3 req Hin) as (sw & Hg & Hs). exists (finish_step sw). split.
      * apply Hget. exists sw. split_and!; [done| |done]. unfold not_done. rewrite Hs. by destruct req.
      * unfold finish_step. rewrite Hs. by destruct req; cbn; rewrite Hs.
    + apply Hnew in Hin as (sw & Hg & Hr). exists (finish_step sw).
      unfold finish_req in Hr. split.
      * apply Hget. exists sw. split_and!; [done| |done]. unfold not_done. by destruct (sw_state sw).
      * unfold finish_step. destruct (sw_state sw); by simplify_eq/=.
  - intros c n sw' Hg Hw. apply Hget in Hg as (sw & Hg & Hd & ->). rewrite Q1, fmap_app. apply elem_of_app.
    pose proof (get_sw_id _ _ _ _ W1 Hg) as Hid.
    destruct (finish_req sw) as [req|] eqn:Er; [right|left].
    + apply list_elem_of_fmap. exists req. destruct (finish_req_id _ _ Er) as [Eid _]. split; [congruence|].
      apply Hnew. exists sw. rewrite Eid, Hid. done.
    + apply (W4 c n sw Hg). unfold finish_req in Er. unfold waiting, finish_step in Hw. unfold waiting.
      by destruct (sw_state sw) eqn:Es; rewrite ?Es in Hw.
Qed.

Lemma finish_step_waiting sw : sw_state sw <> SwWriting -> not_done sw -> waiting (finish_step sw).
Proof. unfold not_done, waiting, finish_step. intros H1 H2. destruct (sw_state sw) eqn:Es; rewrite ?Es; cbn; auto; done. Qed.

Definition no_writing (fw : FileWriter) : Prop := forall c n sw, get_sw c n fw = Some sw -> sw_state sw <> SwWriting.

(** After a round and the flusher's work on its requests, a slice writer is done,
    or idle when a bulk flush was pending for it. *)
Definition settles (fw fw' : FileWriter) : Prop :=
  forall c n sw', get_sw c n fw' = Some sw' -> exists sw, get_sw c n fw = Some sw /\ not_done sw /\
    (sw_state sw' = SwDone \/ sw_state sw' = SwIdle /\ waiting sw).

(** The end of the rounds: all is finished, or an error is recorded; and another
    flush can follow. *)
Definition ended (io : Z -> StageIo) (r : VResult FileWriter) : Prop :=
  match r with
  | Ok fw' => fw_wf fw' /\ no_writing fw' /\ fw_closed fw' = false /\ (has_flush_error fw' = true \/ all_finished fw' = true)
  | Err _ => False
  | Panic => op_panics io
  end.

Lemma round_spec io (D : Deps (M:=M)) fw r D' :
  fw_wf fw -> no_writing fw -> has_flush_error fw = false -> fw_closed fw = false ->
  run_queue io (fw_queue (finish_round fw)) D (set_queue [] (finish_round fw)) = (r, D') ->
  match r with
  | Ok fw' => fw_wf fw' /\ no_writing fw' /\ fw_closed fw' = false /\ (has_flush_error fw' = true \/ settles fw fw')
  | Err _ => False
  | Panic => op_panics io
  end.
Proof.
  intros Hwf Hnw He Hc H. destruct (finish_round_spec fw Hwf He Hc) as ([V1 V2 V3 V4] & He1 & Hc1 & Hget & Hq).
  set (fw1 := finish_round fw) in *.
  pose proof (run_queue_spec io (fw_queue fw1) D (set_queue [] fw1) r D' V1 V2 V3 H) as Hp.
  destruct r as [fw'|e|]; [|done|done]. destruct Hp as [Q1 Q2 Q3 Q4 Q5 Q5' Q6].
  assert (Hset : forall c n sw', get_sw c n fw' = Some sw' -> settled sw').
  { intros c n sw' Hg. destruct (decide ((c, n) ∈ req_id <$> fw_queue fw1)) as [Hin|Hni].
    - apply list_elem_of_fmap in Hin as (req & Eid & Hin). destruct (Q5' req Hin) as (sw1 & Hg1 & Hs1).
      rewrite <- Eid in Hg1. cbn in Hg1. congruence.
    - exfalso. rewrite Q5 in Hg by done. change (get_sw c n fw1 = Some sw') in Hg. apply Hni, (V4 _ _ _ Hg).
      apply Hget in Hg as (sw & Hgs & Hd & ->). apply finish_step_waiting; [by eapply Hnw|done]. }
  split_and!.
  { constructor; rewrite ?Q2; cbn; [done|by apply NoDup_nil|intros req Hr; by apply elem_of_nil in Hr|].
    intros c n sw' Hg Hw. apply Hset, settled_not in Hg as [Hg _]. done. }
  { intros c n sw' Hg. by apply Hset, settled_not in Hg as [_ Hg]. }
  { by rewrite Q3. }
  destruct (has_flush_error fw') eqn:Ee; [by left|right]. specialize (Q6 eq_refl).
  intros c n sw' Hg. destruct (decide ((c, n) ∈ req_id <$> fw_queue fw1)) as [Hin|Hni].
  - apply list_elem_of_fmap in Hin as (req & Eid & Hin). destruct (Q6 req Hin) as (sw1 & Hg1 & Hs1).
    rewrite <- Eid in Hg1. cbn in Hg1. rewrite Hg in Hg1. injection Hg1 as <-.
    destruct (V3 req Hin) as (sw2 & Hg2 & Hs2). rewrite <- Eid in Hg2. cbn in Hg2.
    apply Hget in Hg2 as (sw & Hgs & Hd & ->). exists sw. split_and!; [done|done|].
    destruct req as [c' n' off|c' n'|c' n']; cbn in Hs1; [right|by left..]. split; [done|].
    destruct (Hq _ Hin) as [Hold|(sw3 & _ & Hr)]; [|unfold finish_req in Hr; by destruct (sw_state sw3)].
    destruct Hwf as [_ _ W3 _]. destruct (W3 _ Hold) as (sw3 & Hg3 & Hs3). rewrite <- Eid in Hg3. cbn in Hg3, Hs3.
    rewrite Hgs in Hg3. injection Hg3 as <-. by left.
  - exfalso. rewrite Q5 in Hg by done. change (get_sw c n fw1 = Some sw') in Hg. apply Hni, (V4 _ _ _ Hg).
    apply Hget in Hg as (sw & Hgs & Hd & ->). apply finish_step_waiting; [by eapply Hnw|done].
Qed.

Lemma finished_of fw : chunks_ok fw -> (forall c n sw, get_sw c n fw = Some sw -> False) -> all_finished fw = true.
Proof.
  intros Hok H. unfold all_finished. apply bool_decide_eq_true. intros c l Hl. destruct l as [|sw l]; [done|]. exfalso.
  apply (H c (sw_seq sw) sw). apply get_sw_iff; [done|]. eexists. split_and!; [done|by left|done].
Qed.

(** The rounds end after at most three. *)
Lemma finish_chunks_ends io (D : Deps (M:=M)) fw :
  fw_wf fw -> no_writing fw -> fw_closed fw = false ->
  exists r D', finish_chunks 3 io D fw = Some (r, D') /\ ended io r.
Proof.
  intros Hwf Hnw Hc.
  assert (Hstep : forall n (D : Deps (M:=M)) fw (P : FileWriter -> Prop), fw_wf fw -> no_writing fw -> fw_closed fw = false ->
    (forall fw', settles fw fw' -> fw_wf fw' -> P fw') ->
    (forall (D : Deps (M:=M)) fw', fw_wf fw' -> no_writing fw' -> fw_closed fw' = false -> P fw' ->
       exists r D', finish_chunks n io D fw' = Some (r, D') /\ ended io r) ->
    exists r D', finish_chunks (S n) io D fw = Some (r, D') /\ ended io r).
  { clear D fw Hwf Hnw Hc. intros n D fw P Hwf Hnw Hc HP Hnext. cbn [finish_chunks].
    destruct (has_flush_error fw) eqn:He; [exists (Ok fw), D; split; [done|split_and!; auto]|].
    destruct (all_finished fw) eqn:Ha; [exists (Ok fw), D; split; [done|split_and!; auto]|]. cbn [orb].
    destruct (run_queue _ _ _ _) as [r D'] eqn:Er. pose proof (round_spec io D fw r D' Hwf Hnw He Hc Er) as Hr.
    destruct r as [fw'|e|]; [|done|by exists Panic, D']. destruct Hr as (Hwf' & Hnw' & Hc' & [Hr|Hs]); [|by apply Hnext; auto].
    exists (Ok fw'), D'. split; [|by split_and!; auto]. destruct n; cbn [finish_chunks]; by rewrite Hr. }
  apply (Hstep 2%nat D fw (fun fw' => forall c n sw, get_sw c n fw' = Some sw -> ~ waiting sw)); try done.
  { intros fw' Hs _ c n sw Hg Hw. destruct (Hs c n sw Hg) as (? & _ & _ & [|[]]); destruct Hw; congruence. }
  intros D1 fw1 Hwf1 Hnw1 Hc1 Hw1.
  apply (Hstep 1%nat D1 fw1 (fun fw' => forall c n sw, get_sw c n fw' = Some sw -> ~ not_done sw)); try done.
  { intros fw' Hs _ c n sw Hg Hd. destruct (Hs c n sw Hg) as (sw0 & Hg0 & _ & [|[_ ?]]); [done|]. by eapply Hw1. }
  intros D2 fw2 Hwf2 Hnw2 Hc2 Hd2.
  apply (Hstep 0%nat D2 fw2 (fun fw' => all_finished fw' = true)); try done.
  { intros fw' Hs Hwf'. apply finished_of; [apply Hwf'|]. intros c n sw Hg.
    destruct (Hs c n sw Hg) as (sw0 & Hg0 & Hd & _). by eapply Hd2. }
  intros D3 fw3 Hwf3 Hnw3 Hc3 Hf. exists (Ok fw3), D3. cbn [finish_chunks]. rewrite Hf, orb_true_r.
  split; [done|]. split_and!; auto.
Qed.

(** A round keeps a slice writer that is being written. *)
Lemma round_keeps_writing io (D : Deps (M:=M)) fw fw' D' c n sw :
  fw_wf fw -> has_flush_error fw = false -> fw_closed fw = false ->
  get_sw c n fw = Some sw -> sw_state sw = SwWriting ->
  run_queue io (fw_queue (finish_round fw)) D (set_queue [] (finish_round fw)) = (Ok fw', D') ->
  fw_wf fw' /\ fw_closed fw' = false /\ get_sw c n fw' = Some sw.
Proof.
  intros Hwf He Hc Hg Hs H. destruct (finish_round_spec fw Hwf He Hc) as ([V1 V2 V3 V4] & He1 & Hc1 & Hget & Hq).
  set (fw1 := finish_round fw) in *.
  destruct (run_queue_spec io (fw_queue fw1) D (set_queue [] fw1) _ D' V1 V2 V3 H) as [Q1 Q2 Q3 Q4 Q5 Q5' Q6].
  split_and!; [|by rewrite Q3|].
  - constructor; rewrite ?Q2; cbn; [done|by apply NoDup_nil|intros req Hr; by apply elem_of_nil in Hr|].
    intros c' n' sw' Hg' Hw. exfalso. destruct (decide ((c', n') ∈ req_id <$> fw_queue fw1)) as [Hin|Hni].
    + apply list_elem_of_fmap in Hin as (req & Eid & Hin). destruct (Q5' req Hin) as (sw1 & Hg1 & Hs1).
      rewrite <- Eid in Hg1. cbn in Hg1. assert (sw1 = sw') as -> by congruence. by apply settled_not in Hs1 as [? _].
    + rewrite Q5 in Hg' by done. apply Hni. by eapply V4.
  - assert (Hg1 : get_sw c n fw1 = Some sw).
    { apply Hget. exists sw. split_and!; [done|unfold not_done; congruence|]. unfold finish_step. by rewrite Hs. }
    rewrite Q5; [exact Hg1|]. intros Hin. apply list_elem_of_fmap in Hin as (req & Eid & Hin).
    destruct (V3 req Hin) as (sw1 & Hg2 & Hs2). rewrite <- Eid in Hg2. cbn in Hg2. assert (sw1 = sw) as -> by congruence.
    rewrite Hs in Hs2. by destruct req.
Qed.

(** A slice writer left in the writing state blocks every later flush: the
    loop of [finish] never reports the chunks as finished, it ends only when the
    flusher records an error. *)
Theorem abandoned_write_blocks_flush fuel io (D : Deps (M:=M)) fw c n sw fw' D' :
  fw_wf fw -> fw_closed fw = false -> get_sw c n fw = Some sw -> sw_state sw = SwWriting ->
  finish_chunks fuel io D fw = Some (Ok fw', D') -> has_flush_error fw' = true.
Proof.
  revert D fw. induction fuel as [|fuel IH]; intros D fw Hwf Hc Hg Hs H; cbn [finish_chunks] in H.
  all: assert (Hnf : all_finished fw = false)
    by (apply not_true_is_false; intros Hf; apply bool_decide_eq_true in Hf;
        apply get_sw_iff in Hg as (l & Hl & Hin & _); [|apply Hwf]; apply Hf in Hl as ->; by apply elem_of_nil in Hin).
  all: rewrite Hnf in H; destruct (has_flush_error fw) eqn:He; [by injection H as <- <-|]; cbn [orb] in H; try done.
  destruct (run_queue _ _ _ _) as [r D1] eqn:Er. destruct r as [fw1|e|]; [|done|done].
  destruct (round_keeps_writing io D fw fw1 D1 c n sw Hwf He Hc Hg Hs Er) as (Hwf1 & Hc1 & Hg1). by eapply IH.
Qed.

(** *** Writes keep requests and slice writers in step *)

(** A change that queues [reqs] for slice writers that were not waiting, and
    leaves the other waiting ones alone. *)
Lemma fw_wf_extend fw fw' reqs :
  fw_wf fw -> chunks_ok fw' -> fw_queue fw' = fw_queue fw ++ reqs -> NoDup (req_id <$> reqs) ->
  (forall req, req ∈ reqs -> (forall sw, get_sw (req_id req).1 (req_id req).2 fw = Some sw -> ~ waiting sw) /\
     exists sw', get_sw (req_id req).1 (req_id req).2 fw' = Some sw' /\ sw_state sw' = req_state req) ->
  (forall c n, (c, n) ∉ req_id <$> reqs -> get_sw c n fw' = get_sw c n fw \/
     (forall sw, get_sw c n fw = Some sw -> ~ waiting sw) /\ (forall sw, get_sw c n fw' = Some sw -> ~ waiting sw)) ->
  fw_wf fw'.
Proof.
  intros [W1 W2 W3 W4] Hok Hq Hnd Hreq Hoth.
  assert (Hdis : forall r1 r2, r1 ∈ fw_queue fw -> r2 ∈ reqs -> req_id r1 <> req_id r2).
  { intros r1 r2 H1 H2 E. destruct (W3 r1 H1) as (sw & Hg & Hs). destruct (Hreq r2 H2) as [Hw _]. rewrite E in Hg.
    apply (Hw sw Hg). unfold waiting. rewrite Hs. destruct r1; cbn; auto. }
  constructor; [done| | |]; rewrite ?Hq.
  - rewrite fmap_app. apply NoDup_app. split_and!; try done. intros x H1 H2.
    apply list_elem_of_fmap in H1 as (r1 & -> & H1). apply list_elem_of_fmap in H2 as (r2 & E & H2). by eapply Hdis.
  - intros req Hin. apply elem_of_app in Hin as [Hin|Hin]; [|by apply Hreq].
    destruct (W3 req Hin) as (sw & Hg & Hs). exists sw. split; [|done].
    destruct (Hoth (req_id req).1 (req_id req).2) as [->|[Hw _]]; [|done|].
    + rewrite <- surjective_pairing. intros H2. apply list_elem_of_fmap in H2 as (r2 & E & H2). by eapply Hdis.
    + exfalso. apply (Hw sw Hg). unfold waiting. rewrite Hs. destruct req; cbn; auto.
  - intros c n sw Hg Hw. rewrite fmap_app. apply elem_of_app.
    destruct (decide ((c, n) ∈ req_id <$> reqs)) as [|Hni]; [by right|left].
    destruct (Hoth c n Hni) as [E|[_ Hn]]; [|by apply Hn in Hg]. rewrite E in Hg. by eapply W4.
Qed.

Lemma make_finish_req seq sw :
  sw_state sw = SwIdle \/ sw_state sw = SwDirty -> make_flush_req seq true sw = (finish_req sw, finish_step sw).
Proof.
  intros H. unfold make_flush_req, finish_req, finish_step. by destruct H as [Es|Es]; rewrite Es, cas_from.
Qed.

(** What the search makes of a slice writer of the chunk. *)
Definition found_upd (found : option (SliceWriter * SliceWriterState)) (reqs : list FlushReq) (sw : SliceWriter) : SliceWriter :=
  if decide (sw_id sw ∈ req_id <$> reqs) then finish_step sw
  else match found with Some (x, _) => if decide (sw_id x = sw_id sw) then x else sw | None => sw end.

Lemma find_loop_spec seq off idx l found l' reqs :
  NoDup (sw_id <$> l) -> find_loop seq off idx l = (found, l', reqs) ->
  (forall req, req ∈ reqs -> exists sw, sw ∈ l /\ finish_req sw = Some req) /\
  NoDup (req_id <$> reqs) /\
  (forall x st, found = Some (x, st) -> exists sw, sw ∈ l /\ x = set_state SwWriting sw /\ st = sw_state sw /\
     (st = SwIdle \/ st = SwDirty) /\ sw_id sw ∉ req_id <$> reqs) /\
  l' = found_upd found reqs <$> l.
Proof.
  revert idx found l' reqs. induction l as [|sw l IH]; intros idx found l' reqs Hnd H; cbn [find_loop] in H.
  { injection H as <- <- <-. split_and!; [intros req Hr; by apply elem_of_nil in Hr|by apply NoDup_nil|done|done]. }
  rewrite fmap_cons in Hnd. apply NoDup_cons in Hnd as [Hni Hnd].
  destruct (find_loop seq off (S idx) l) as [[found1 l1] reqs1] eqn:E1.
  destruct (IH (S idx) found1 l1 reqs1 Hnd E1) as (I1 & I2 & I3 & ->).
  assert (Hfresh : sw_id sw ∉ req_id <$> reqs1).
  { intros Hin. apply list_elem_of_fmap in Hin as (req & E & Hin). destruct (I1 req Hin) as (sw' & Hin' & Hr).
    destruct (finish_req_id _ _ Hr) as [E' _]. apply Hni. apply list_elem_of_fmap. exists sw'. split; [congruence|done]. }
  assert (Hfound : forall x st, found1 = Some (x, st) -> sw_id x <> sw_id sw).
  { intros x st Hf E. destruct (I3 x st Hf) as (sw' & Hin & -> & _). apply Hni. apply list_elem_of_fmap. by exists sw'. }
  assert (Hskip : (found, l', reqs) = (found1, sw :: (found_upd found1 reqs1 <$> l), reqs1) ->
    (forall req, req ∈ reqs -> exists sw0, sw0 ∈ sw :: l /\ finish_req sw0 = Some req) /\ NoDup (req_id <$> reqs) /\
    (forall x st, found = Some (x, st) -> exists sw0, sw0 ∈ sw :: l /\ x = set_state SwWriting sw0 /\ st = sw_state sw0 /\
       (st = SwIdle \/ st = SwDirty) /\ sw_id sw0 ∉ req_id <$> reqs) /\
    l' = found_upd found reqs <$> sw :: l).
  { intros [= -> -> ->]. split_and!; [|done| |].
    - intros req Hr. destruct (I1 req Hr) as (sw' & ? & ?). exists sw'. split; [by right|done].
    - intros x st Hf. destruct (I3 x st Hf) as (sw' & ? & ?). exists sw'. split; [by right|done].
    - rewrite fmap_cons. f_equal. unfold found_upd. rewrite decide_False by done.
      destruct found1 as [[x st]|]; [|done]. rewrite decide_False; [done|]. by eapply Hfound. }
  destruct (negb (bool_decide _)) eqn:Ew; [by apply Hskip|].
  assert (Hst : sw_state sw = SwIdle \/ sw_state sw = SwDirty) by (by apply negb_false_iff, bool_decide_eq_true in Ew).
  destruct (_ && _) eqn:Er.
  - rewrite cas_from in H by done. injection H as <- <- <-.
    split_and!; [intros req Hr; by apply elem_of_nil in Hr|by apply NoDup_nil| |].
    + intros x st [= <- <-]. exists sw. split_and!; [by left|done|done|done|by apply not_elem_of_nil].
    + rewrite fmap_cons. f_equal.
      * unfold found_upd. rewrite decide_False by apply not_elem_of_nil. by rewrite decide_True.
      * rewrite <- (list_fmap_id l) at 1. apply list_fmap_ext. intros i y Hy. unfold found_upd.
        rewrite decide_False by apply not_elem_of_nil. rewrite decide_False; [done|]. intros E. apply Hni.
        change (sw_id (set_state SwWriting sw)) with (sw_id sw) in E. rewrite E.
        apply list_elem_of_fmap. exists y. split; [done|]. by eapply list_elem_of_lookup_2.
  - destruct (3 <=? idx)%nat; [|by apply Hskip]. rewrite make_finish_req in H by done.
    assert (Hreq : exists req, finish_req sw = Some req) by (unfold finish_req; destruct Hst as [-> | ->]; eauto).
    destruct Hreq as [req Hreq]. rewrite Hreq in H. cbn in H. injection H as <- <- <-.
    destruct (finish_req_id _ _ Hreq) as [Hid _]. split_and!.
    + intros r' Hr. apply elem_of_cons in Hr as [->|Hr]; [exists sw; split; [by left|done]|].
      destruct (I1 r' Hr) as (sw' & ? & ?). exists sw'. split; [by right|done].
    + rewrite fmap_cons. apply NoDup_cons. by rewrite Hid.
    + intros x st Hf. destruct (I3 x st Hf) as (sw' & Hin & ? & ? & ? & ?). exists sw'. split_and!; try done; [by right|].
      rewrite fmap_cons, Hid. apply not_elem_of_cons. split; [|done]. intros E. apply Hni. rewrite <- E.
      apply list_elem_of_fmap. by exists sw'.
    + rewrite fmap_cons. f_equal.
      * unfold found_upd. rewrite decide_True; [done|]. rewrite fmap_cons, Hid. by left.
      * apply list_fmap_ext. intros i y Hy. unfold found_upd.
        assert (Hyin : sw_id y <> sw_id sw).
        { intros E. apply Hni. rewrite <- E. apply list_elem_of_fmap. exists y. split; [done|]. by eapply list_elem_of_lookup_2. }
        rewrite fmap_cons, Hid. destruct (decide (sw_id y ∈ req_id <$> reqs1)) as [Hy1|Hy1].
        -- by rewrite decide_True by (by right).
        -- rewrite decide_False; [done|]. by apply not_elem_of_cons.
Qed.

Lemma send_all_open reqs fw : fw_closed fw = false -> send_all reqs fw = set_queue (fw_queue fw ++ reqs) fw.
Proof.
  revert fw. induction reqs as [|req reqs IH]; intros fw Hc; cbn [send_all foldl].
  - rewrite app_nil_r. by destruct fw.
  - unfold send_req. rewrite Hc. fold (send_all reqs). unfold send_all in IH. rewrite IH by done.
    unfold set_queue. cbn. by rewrite <- app_assoc.
Qed.

Lemma bt_insert_perm sw l : (forall x, x ∈ l -> sw_seq x <> sw_seq sw) -> bt_insert sw l ≡ₚ sw :: l.
Proof.
  induction l as [|y l IH]; intros H; [done|]. cbn [bt_insert]. destruct (sw_seq sw <? sw_seq y); [done|].
  rewrite (proj2 (Z.eqb_neq _ _)) by (intros E; by apply (H y); [left|]).
  rewrite IH by (intros x Hx; apply H; by right). constructor.
Qed.

Lemma found_upd_id found reqs sw : sw_id (found_upd found reqs sw) = sw_id sw.
Proof.
  unfold found_upd. case_decide; [unfold sw_id; by rewrite !(proj1 (finish_step_seq sw)), !(proj2 (finish_step_seq sw))|].
  destruct found as [[x st]|]; [|done]. by case_decide.
Qed.

Lemma chunk_ids c l : Forall (fun sw => sw_chunk_index sw = c) l -> NoDup (sw_seq <$> l) -> NoDup (sw_id <$> l).
Proof.
  intros _ Hnd. apply (NoDup_fmap_1 snd). rewrite <- list_fmap_compose. exact Hnd.
Qed.

Record find_post (cx : ChunkWriteCtx) (fw : FileWriter) (sw : SliceWriter) (old : SliceWriterState) (fw' : FileWriter)
    : Prop := {
  fp_wf : fw_wf fw';
  fp_closed : fw_closed fw' = fw_closed fw;
  fp_get : get_sw (cx_chunk_idx cx) (sw_seq sw) fw' = Some sw;
  fp_state : sw_state sw = SwWriting /\ (old = SwIdle \/ old = SwDirty);
  fp_chunk : forall n x, n <> sw_seq sw -> get_sw (cx_chunk_idx cx) n fw' = Some x ->
    exists y, get_sw (cx_chunk_idx cx) n fw = Some y /\ (sw_state x = SwWriting -> sw_state y = SwWriting);
  fp_others : forall c n, c <> cx_chunk_idx cx -> get_sw c n fw' = get_sw c n fw
}.

Lemma chunk_find_spec id cx fw sw old fw' :
  fw_wf fw -> fw_closed fw = false -> (forall n x, get_sw (cx_chunk_idx cx) n fw = Some x -> n <> id) ->
  chunk_find id cx fw = (sw, old, fw') -> find_post cx fw sw old fw'.
Proof.
  intros Hwf Hc Hid H. pose proof (ww_chunks _ Hwf) as W1. unfold chunk_find in H. set (c := cx_chunk_idx cx) in *.
  set (l := default [] (fw_chunks fw !! c)) in *.
  assert (Hl : Forall (fun sw => sw_chunk_index sw = c) l /\ NoDup (sw_seq <$> l)).
  { subst l. destruct (fw_chunks fw !! c) as [l|] eqn:E; [by apply W1|]. cbn. split; [done|by apply NoDup_nil]. }
  assert (Hgl : forall n x, get_sw c n fw = Some x <-> x ∈ l /\ sw_seq x = n).
  { intros n x. rewrite get_sw_iff by done. subst l. destruct (fw_chunks fw !! c) as [l|]; cbn; [naive_solver|].
    split; [naive_solver|]. intros [Hx _]. by apply elem_of_nil in Hx. }
  destruct Hl as [Hlc Hls]. pose proof (chunk_ids c l Hlc Hls) as Hids.
  destruct (find_loop _ _ 0 (reverse l)) as [[found l'] reqs] eqn:Ef.
  assert (Hnr : NoDup (sw_id <$> reverse l)) by (rewrite fmap_reverse; by rewrite reverse_Permutation).
  destruct (find_loop_spec _ _ _ _ _ _ _ Hnr Ef) as (F1 & F2 & F3 & ->).
  rewrite <- fmap_reverse, reverse_involutive in H. rewrite send_all_open in H by done.
  cbn [fw_queue set_chunks fw_chunks set_queue fw_slice_cnt set_slice_cnt] in H.
  set (lu := found_upd found reqs <$> l) in *.
  assert (Hlu : forall x, x ∈ lu -> sw_chunk_index x = c).
  { intros x Hx. apply list_elem_of_fmap in Hx as (y & -> & Hy). rewrite Forall_forall in Hlc.
    rewrite <- (Hlc y Hy). pose proof (found_upd_id found reqs y) as E. by injection E. }
  assert (Hsu : sw_seq <$> lu = sw_seq <$> l).
  { subst lu. rewrite <- list_fmap_compose. apply list_fmap_ext. intros i y _. unfold compose.
    pose proof (found_upd_id found reqs y) as E. by injection E. }
  assert (Hnw : forall y, y ∈ l -> sw_id y ∈ req_id <$> reqs -> ~ waiting y /\ exists req, req ∈ reqs /\ finish_req y = Some req /\ req_id req = sw_id y).
  { intros y Hy Hin. apply list_elem_of_fmap in Hin as (req & E & Hin). destruct (F1 req Hin) as (z & Hz & Hr).
    rewrite elem_of_reverse in Hz. destruct (finish_req_id _ _ Hr) as [E' Hwt].
    assert (z = y) as <-; [|split; [done|by exists req]].
    apply list_elem_of_lookup in Hy as [i Hi]. apply list_elem_of_lookup in Hz as [j Hj].
    assert (i = j) as <-; [|congruence]. eapply (NoDup_lookup (sw_id <$> l)); [done|by rewrite list_lookup_fmap, Hi|].
    rewrite list_lookup_fmap, Hj. cbn. congruence. }
  set (fw1 := set_queue (fw_queue fw ++ reqs) (set_chunks (<[c := lu]> (fw_chunks fw)) fw)).
  assert (Hlun : forall x, x ∈ lu <-> exists y, y ∈ l /\ x = found_upd found reqs y).
  { intros x. unfold lu. rewrite list_elem_of_fmap. naive_solver. }
  assert (Hok1 : chunks_ok fw1).
  { intros c' l1 Hl1. cbn in Hl1. apply lookup_insert_Some in Hl1 as [[<- <-]|[_ Hl1]]; [|by apply W1].
    rewrite Hsu. split; [|done]. apply Forall_forall. exact Hlu. }
  assert (Hg1 : forall n x, get_sw c n fw1 = Some x <-> exists y, get_sw c n fw = Some y /\ x = found_upd found reqs y).
  { intros n x. rewrite get_sw_iff by done. cbn. rewrite lookup_insert_eq. split.
    - intros (? & [= <-] & Hx & Hn). apply Hlun in Hx as (y & Hy & ->). exists y. split; [|done]. apply Hgl. split; [done|].
      rewrite <- Hn. pose proof (found_upd_id found reqs y) as E. by injection E.
    - intros (y & Hy & ->). apply Hgl in Hy as [Hy <-]. exists lu. split_and!; [done|apply Hlun; eauto|].
      pose proof (found_upd_id found reqs y) as E. by injection E. }
  assert (Ho1 : forall c' n, c' <> c -> get_sw c' n fw1 = get_sw c' n fw).
  { intros c' n Hne. unfold get_sw. cbn. by rewrite lookup_insert_ne by congruence. }
  assert (Hidl : forall n y, get_sw c n fw = Some y -> sw_id y = (c, n)) by (intros n y Hy; exact (get_sw_id fw c n y W1 Hy)).
  assert (Hwf1 : fw_wf fw1).
  { apply (fw_wf_extend fw fw1 reqs); [done|done|done|done| |].
    - intros req Hr. destruct (F1 req Hr) as (z & Hz & Ez). rewrite elem_of_reverse in Hz.
      destruct (finish_req_id _ _ Ez) as [Eid Hwt].
      assert (Hgz : get_sw c (sw_seq z) fw = Some z) by (by apply Hgl). pose proof (Hidl _ _ Hgz) as Eid2.
      rewrite Eid, Eid2. cbn. split; [congruence|]. exists (finish_step z). split.
      + apply Hg1. exists z. split; [done|]. unfold found_upd. rewrite decide_True; [done|].
        apply list_elem_of_fmap. by exists req.
      + unfold finish_req in Ez. unfold finish_step. destruct (sw_state z); by simplify_eq/=.
    - intros c' n Hni. destruct (decide (c' = c)) as [->|Hne]; [|left; by apply Ho1].
      destruct (get_sw c n fw) as [y|] eqn:Ey.
      + pose proof (Hidl _ _ Ey) as Eid. assert (Hg : get_sw c n fw1 = Some (found_upd found reqs y)) by (apply Hg1; eauto).
        rewrite Hg. unfold found_upd. rewrite Eid, decide_False by done. destruct found as [[x st]|]; [|by left].
        case_decide as Ex; [|by left]. right. destruct (F3 x st eq_refl) as (z & Hz & -> & -> & Hst & _).
        rewrite elem_of_reverse in Hz. change (sw_id z = (c, n)) in Ex.
        assert (z = y) as ->.
        { assert (Hgz : get_sw c n fw = Some z) by (apply Hgl; split; [done|by injection Ex]). congruence. }
        split; intros w [= <-] [Hw|Hw]; cbn in Hw; destruct Hst; congruence.
      + left. destruct (get_sw c n fw1) as [x|] eqn:Ex; [|done]. apply Hg1 in Ex as (y & Hy & _). congruence. }
  assert (Hwr : forall y, sw_state (found_upd found reqs y) = SwWriting ->
            (forall x st, found = Some (x, st) -> sw_id x <> sw_id y) -> sw_state y = SwWriting).
  { intros y Hs Hf. unfold found_upd in Hs. case_decide.
    - unfold finish_step in Hs. destruct (sw_state y) eqn:Es; cbn in Hs; congruence.
    - destruct found as [[x st]|]; [|done]. rewrite decide_False in Hs; [done|]. by eapply Hf. }
  destruct found as [[x st]|].
  - injection H as <- <- <-. change (find_post cx fw x st fw1).
    destruct (F3 x st eq_refl) as (z & Hz & -> & -> & Hst & Hni). rewrite elem_of_reverse in Hz.
    assert (Hgz : get_sw c (sw_seq z) fw = Some z) by (by apply Hgl). constructor; try done.
    + apply Hg1. exists z. split; [done|]. unfold found_upd. rewrite decide_False by done. by rewrite decide_True.
    + intros n w Hn Hw. apply Hg1 in Hw as (y & Hy & ->). exists y. split; [done|]. intros Hs. apply Hwr; [done|].
      intros x st [= <- <-] E. apply Hn. rewrite (Hidl _ _ Hy) in E. by injection E.
  - injection H as <- <- <-. set (new := slice_writer_new c SwWriting id (cx_chunk_offset cx)).
    set (fw2 := set_chunks _ _). change (find_post cx fw new SwIdle fw2).
    assert (Hfresh : forall x, x ∈ lu -> sw_seq x <> sw_seq new).
    { intros x Hx. apply Hlun in Hx as (y & Hy & ->). pose proof (found_upd_id None reqs y) as E. injection E as _ ->.
      apply (Hid (sw_seq y) y). by apply Hgl. }
    pose proof (bt_insert_perm new lu Hfresh) as Hperm.
    assert (Hch2 : fw_chunks fw2 = <[c := bt_insert new lu]> (fw_chunks fw)).
    { subst fw2. cbn. apply map_eq. intros k. destruct (decide (k = c)) as [->|Hne].
      - by rewrite lookup_alter_eq, !lookup_insert_eq.
      - by rewrite lookup_alter_ne, !lookup_insert_ne by congruence. }
    assert (Hok2 : chunks_ok fw2).
    { intros c' l2 Hl2. rewrite Hch2 in Hl2. apply lookup_insert_Some in Hl2 as [[<- <-]|[_ Hl2]]; [|by apply W1].
      rewrite Hperm. split; [constructor; [done|apply Forall_forall; exact Hlu]|]. rewrite fmap_cons. apply NoDup_cons.
      split; [|by rewrite Hsu]. intros Hx. apply list_elem_of_fmap in Hx as (y & E & Hy). by apply (Hfresh y Hy). }
    assert (Hg2 : forall n x, get_sw c n fw2 = Some x <-> x = new /\ n = id \/ get_sw c n fw1 = Some x).
    { intros n x. rewrite !get_sw_iff by done. rewrite Hch2, lookup_insert_eq. cbn. rewrite lookup_insert_eq. split.
      - intros (? & [= <-] & Hx & <-). rewrite Hperm in Hx. apply elem_of_cons in Hx as [->|Hx]; [by left|]. right. eauto.
      - intros [[-> ->]|(? & [= <-] & Hx & <-)]; (eexists; split; [done|]; rewrite Hperm; split; [|done]); [by left|by right]. }
    assert (Ho2 : forall c' n, c' <> c -> get_sw c' n fw2 = get_sw c' n fw1).
    { intros c' n Hne. rewrite Ho1 by done. unfold get_sw. rewrite Hch2. by rewrite lookup_insert_ne by congruence. }
    constructor; try done.
    + apply (fw_wf_extend fw1 fw2 []); [done|done|cbn; by rewrite app_nil_r|by apply NoDup_nil| |].
      { intros req Hr. by apply elem_of_nil in Hr. }
      intros c' n _. destruct (decide (c' = c)) as [->|Hne]; [|left; by apply Ho2].
      destruct (decide (n = id)) as [->|Hn].
      * right. split; intros x Hx.
        -- apply Hg1 in Hx as (y & Hy & _). by apply Hid in Hy.
        -- apply Hg2 in Hx as [[-> _]|Hx]; [intros [|]; done|]. apply Hg1 in Hx as (y & Hy & _). by apply Hid in Hy.
      * left. apply option_eq. intros x. rewrite Hg2. naive_solver.
    + apply Hg2. by left.
    + split; [done|by left].
    + intros n x Hn Hx. apply Hg2 in Hx as [[_ ->]|Hx]; [done|]. apply Hg1 in Hx as (y & Hy & ->). exists y. split; [done|].
      intros Hs. by apply Hwr.
    + intros c' n Hne. rewrite Ho2 by done. by apply Ho1.
Qed.

(** A write that ends leaves its slice writer idle or dirty. *)
Lemma write_state before off data p sw r p' sw' :
  sw_state sw = SwWriting -> before = SwIdle \/ before = SwDirty -> sw_write_at before off data p sw = (r, p', sw') ->
  sw_id sw' = sw_id sw /\ (r = Panic \/ sw_state sw' = SwIdle \/ sw_state sw' = SwDirty).
Proof.
  intros Hst Hb H. unfold sw_write_at in H. destruct (write_at _ _ _ _) as [[r0 p0] sb0].
  destruct r0 as [n|e|].
  - rewrite cas_from in H by done. injection H as <- <- <-. split; [done|]. right. cbn. destruct (n =? 0); [done|by right].
  - rewrite cas_from in H by done. injection H as <- <- <-. split; [done|]. by right.
  - injection H as <- <- <-. split; [done|by left].
Qed.

Lemma make_req_false seq sw req sw' :
  sw_state sw = SwIdle \/ sw_state sw = SwDirty -> make_flush_req seq false sw = (req, sw') ->
  sw_id sw' = sw_id sw /\
  match req with
  | None => sw' = sw
  | Some req => req_id req = sw_id sw /\ sw_state sw' = req_state req
  end.
Proof.
  intros Hst H. unfold make_flush_req in H. destruct (sw_state sw) eqn:Es; try (destruct Hst; congruence).
  - by injection H as <- <-.
  - rewrite cas_from in H by done. destruct (_ =? _); [by injection H as <- <-|].
    destruct (_ && _); by injection H as <- <-.
Qed.

(** Replacing a slice writer that is not waiting by one that has just been
    requested, or by one that is not waiting either. *)
Lemma put_sw_wf fw sw old req :
  fw_wf fw -> get_sw (sw_chunk_index sw) (sw_seq sw) fw = Some old -> ~ waiting old ->
  match req with None => ~ waiting sw | Some req => req_id req = sw_id sw /\ sw_state sw = req_state req end ->
  let fw' := set_queue (fw_queue fw ++ option_list req) (put_sw sw fw) in
  fw_wf fw' /\ forall c n, get_sw c n fw' = if decide ((c, n) = sw_id sw) then Some sw else get_sw c n fw.
Proof.
  intros Hwf Hg Hw Hreq fw'. destruct (put_sw_spec fw sw old (ww_chunks _ Hwf) Hg) as [Hok Hget].
  assert (Hget' : forall c n, get_sw c n fw' = if decide ((c, n) = sw_id sw) then Some sw else get_sw c n fw) by exact Hget.
  split; [|done]. apply (fw_wf_extend fw fw' (option_list req)); [done|done|done| | |].
  - destruct req; cbn; [by apply NoDup_singleton|by apply NoDup_nil].
  - intros r Hr. destruct req as [req|]; cbn in Hr; [|by apply elem_of_nil in Hr]. apply list_elem_of_singleton in Hr as ->.
    destruct Hreq as [-> Hs]. cbn. split; [by intros ? ?; simplify_eq|]. exists sw. rewrite Hget', decide_True by done. done.
  - intros c n Hni. rewrite Hget'. case_decide as E; [|by left]. injection E as -> ->. right.
    split; intros x Hx; simplify_eq; [done|]. destruct req as [req|]; [|done]. exfalso. apply Hni. cbn.
    destruct Hreq as [-> _]. by left.
Qed.

(** The slice writers named by the parts of a write. *)
Definition part_id (x : Z * SliceWriterState * ChunkWriteCtx) : Z * Z := (cx_chunk_idx x.2, x.1.1).

Definition parts_ok (sws : list (Z * SliceWriterState * ChunkWriteCtx)) (fw : FileWriter) : Prop :=
  forall x, x ∈ sws -> (x.1.2 = SwIdle \/ x.1.2 = SwDirty) /\
    exists sw, get_sw (part_id x).1 (part_id x).2 fw = Some sw /\ sw_state sw = SwWriting.

(** Slice writers in the writing state in [fw'] were so in [fw] and are not in [ids]. *)
Definition writing_in (fw fw' : FileWriter) (ids : list (Z * Z)) : Prop :=
  forall c n sw', get_sw c n fw' = Some sw' -> sw_state sw' = SwWriting ->
    (c, n) ∉ ids /\ exists sw, get_sw c n fw = Some sw /\ sw_state sw = SwWriting.

Lemma write_loop_spec sws data w p fw r p' fw' :
  fw_wf fw -> fw_closed fw = false -> NoDup (part_id <$> sws) -> parts_ok sws fw ->
  write_loop sws data w p fw = (r, p', fw') -> r <> Panic ->
  fw_wf fw' /\ fw_closed fw' = false /\
  writing_in fw fw' (if is_ok r || (length sws <=? 1)%nat then part_id <$> sws else []).
Proof.
  revert w p fw. induction sws as [|[[seq old] cx] sws IH]; intros w p fw Hwf Hc Hnd Hp H Hr; cbn [write_loop] in H.
  { injection H as <- <- <-. split_and!; [done|done|]. intros c n sw' Hg Hs. split; [by apply not_elem_of_nil|eauto]. }
  rewrite fmap_cons in Hnd. apply NoDup_cons in Hnd as [Hni Hnd]. unfold part_id at 1 in Hni. cbn in Hni.
  destruct (Hp (seq, old, cx)) as (Hold & sw & Hg & Hst); [by left|]. cbn in Hold, Hg. rewrite Hg in H.
  pose proof (get_sw_id _ _ _ _ (ww_chunks _ Hwf) Hg) as Hid.
  destruct (sw_write_at _ _ _ _ _) as [[r0 p0] sw0] eqn:Ew.
  destruct (write_state _ _ _ _ _ _ _ _ Hst Hold Ew) as [Hid0 Hst0].
  assert (Hnw : forall x, sw_state x = SwIdle \/ sw_state x = SwDirty -> ~ waiting x /\ sw_state x <> SwWriting).
  { intros x Hx. split; [intros [|]; destruct Hx; congruence|destruct Hx; congruence]. }
  assert (Hw : ~ waiting sw) by (intros [|]; congruence).
  assert (Hg0 : get_sw (sw_chunk_index sw0) (sw_seq sw0) fw = Some sw).
  { rewrite Hid in Hid0. injection Hid0 as -> ->. done. }
  destruct Hst0 as [->|Hst0]; [by injection H as <- <- <-|].
  destruct (put_sw_wf fw sw0 sw None Hwf Hg0 Hw (proj1 (Hnw _ Hst0))) as [Hwf0 Hget0].
  assert (Eq0 : set_queue (fw_queue fw ++ option_list None) (put_sw sw0 fw) = put_sw sw0 fw).
  { cbn. rewrite app_nil_r. by destruct fw. }
  rewrite Eq0 in Hwf0, Hget0. clear Eq0.
  destruct r0 as [n0|e|]; [| |by injection H as <- <- <-].
  2:{ injection H as <- <- <-. split_and!; [done|done|]. intros c n sw' Hgs Hs. rewrite Hget0 in Hgs.
      case_decide as E; [simplify_eq; by apply Hnw in Hst0 as [_ Hst0]|]. split; [|eauto].
      destruct sws as [|x sws]; cbn; [|by apply not_elem_of_nil]. apply not_elem_of_cons. split; [|by apply not_elem_of_nil].
      rewrite Hid0, Hid in E. done. }
  destruct (make_flush_req _ _ _) as [req sw1] eqn:Em. destruct (make_req_false _ _ _ _ Hst0 Em) as [Hid1 Hreq].
  assert (Hg1 : get_sw (sw_chunk_index sw1) (sw_seq sw1) (put_sw sw0 fw) = Some sw0).
  { assert (E : get_sw (sw_id sw1).1 (sw_id sw1).2 (put_sw sw0 fw) = Some sw0); [|exact E].
    rewrite Hid1, Hget0, decide_True; [done|]. by rewrite <- surjective_pairing. }
  assert (Hreq' : match req with None => ~ waiting sw1 | Some req => req_id req = sw_id sw1 /\ sw_state sw1 = req_state req end).
  { destruct req; [rewrite Hid1; done|]. subst sw1. by apply Hnw. }
  destruct (put_sw_wf _ sw1 sw0 req Hwf0 Hg1 (proj1 (Hnw _ Hst0)) Hreq') as [Hwf1 Hget1].
  set (fw1 := set_queue _ (put_sw sw1 (put_sw sw0 fw))) in *.
  assert (Hnext : write_loop sws data (w + n0) p0 fw1 = (r, p', fw')).
  { destruct req as [req|]; [unfold send_req in H; cbn [fw_closed put_sw set_chunks] in H; rewrite Hc in H; exact H|].
    rewrite <- H. f_equal. subst fw1. cbn. rewrite app_nil_r. by destruct fw. }
  assert (Hget : forall c n, get_sw c n fw1 = if decide ((c, n) = (cx_chunk_idx cx, seq)) then Some sw1 else get_sw c n fw).
  { intros c n. rewrite Hget1, Hid1, Hid0, Hid. case_decide; [done|]. by rewrite Hget0, Hid0, Hid, decide_False. }
  assert (Hs1 : sw_state sw1 <> SwWriting).
  { destruct req as [req|]; [destruct Hreq as [_ ->]; by destruct req|]. subst sw1. by apply Hnw. }
  destruct (IH (w + n0) p0 fw1 Hwf1 Hc Hnd) as (R1 & R2 & R3); [|done|done|].
  { intros x Hx. destruct (Hp x) as (? & swx & Hgx & Hsx); [by right|]. split; [done|]. exists swx. split; [|done].
    rewrite Hget, decide_False; [done|]. intros E. apply Hni. rewrite <- E. apply list_elem_of_fmap. exists x. by destruct x. }
  split_and!; [done|done|]. intros c n sw' Hgs Hs. destruct (R3 c n sw' Hgs Hs) as (Hn & swx & Hgx & Hsx).
  rewrite Hget in Hgx. case_decide as E; [simplify_eq|]. split; [|eauto].
  destruct (is_ok r) eqn:Eok; cbn [orb] in *; [rewrite fmap_cons; by apply not_elem_of_cons|].
  destruct sws as [|x sws]; cbn in *; [|by apply not_elem_of_nil]. by apply not_elem_of_cons.
Qed.

Lemma fw_find_spec ids n cxs fw sws fw' :
  fw_wf fw -> fw_closed fw = false -> NoDup (cx_chunk_idx <$> cxs) ->
  (forall k c m x, c ∈ cx_chunk_idx <$> cxs -> get_sw c m fw = Some x -> m <> ids k) ->
  fw_find ids n cxs fw = (sws, fw') ->
  fw_wf fw' /\ fw_closed fw' = false /\ snd <$> sws = cxs /\ parts_ok sws fw' /\
  (forall c m, c ∉ cx_chunk_idx <$> cxs -> get_sw c m fw' = get_sw c m fw) /\
  (forall c m x, get_sw c m fw' = Some x -> sw_state x = SwWriting -> (c, m) ∉ part_id <$> sws ->
     exists y, get_sw c m fw = Some y /\ sw_state y = SwWriting).
Proof.
  revert n fw sws fw'. induction cxs as [|cx cxs IH]; intros n fw sws fw' Hwf Hc Hnd Hfr H; cbn [fw_find] in H.
  { injection H as <- <-. split_and!; try done; [intros x Hx; by apply elem_of_nil in Hx|eauto]. }
  rewrite fmap_cons in Hnd, Hfr. apply NoDup_cons in Hnd as [Hni Hnd].
  destruct (chunk_find (ids n) cx fw) as [[sw old] fw1] eqn:E1.
  assert (Hfr1 : forall m x, get_sw (cx_chunk_idx cx) m fw = Some x -> m <> ids n).
  { intros m x Hx. apply (Hfr n (cx_chunk_idx cx) m x); [by left|done]. }
  destruct (chunk_find_spec (ids n) cx fw sw old fw1 Hwf Hc Hfr1 E1) as [P1 P2 P3 [P4 P4'] P5 P6].
  destruct (fw_find ids (S n) cxs fw1) as [rest fw2] eqn:E2. injection H as <- <-.
  assert (Hne : forall c, c ∈ cx_chunk_idx <$> cxs -> c <> cx_chunk_idx cx) by (intros c Hin ->; done).
  destruct (IH (S n) fw1 rest fw2 P1 ltac:(congruence) Hnd) as (Q1 & Q2 & Q3 & Q4 & Q5 & Q6); [|done|].
  { intros k c m x Hin Hx. rewrite P6 in Hx by (by apply Hne). apply (Hfr k c m x); [by right|done]. }
  split_and!; try done.
  - rewrite fmap_cons. by rewrite Q3.
  - intros x Hx. apply elem_of_cons in Hx as [->|Hx]; [|by apply Q4]. split; [done|]. exists sw. split; [|done].
    cbn. by rewrite Q5.
  - intros c m Hc'. apply not_elem_of_cons in Hc' as [H1 H2]. rewrite Q5 by done. by apply P6.
  - intros c m x Hx Hs Hid. rewrite fmap_cons in Hid. apply not_elem_of_cons in Hid as [Hid1 Hid2].
    destruct (Q6 c m x Hx Hs Hid2) as (y & Hy & Hys). destruct (decide (c = cx_chunk_idx cx)) as [->|Hc'].
    + destruct (P5 m y) as (z & Hz & Hzs); [intros ->; by apply Hid1|done|]. eauto.
    + rewrite P6 in Hy by done. eauto.
Qed.

(** The chunks of a write are different ones. *)
Lemma locate_loop_idx cs off idxs pos buf left : cx_chunk_idx <$> locate_loop cs off idxs pos buf left = idxs.
Proof. revert pos buf left. induction idxs as [|i idxs IH]; intros; [done|]. cbn. by f_equal. Qed.

Lemma locate_chunk_idx cs off len : NoDup (cx_chunk_idx <$> locate_chunk cs off len).
Proof. unfold locate_chunk. rewrite locate_loop_idx. apply NoDup_seqZ. Qed.

(** A write, successful or within one chunk, ends every slice writer it began. *)
Lemma fw_write_spec ids off data p fw r p' fw' :
  fw_wf fw -> fw_closed fw = false -> no_writing fw -> (forall k c m x, get_sw c m fw = Some x -> m <> ids k) ->
  fw_write ids off data p fw = (r, p', fw') -> r <> Panic ->
  is_ok r = true \/ (length (locate_chunk CHUNK_SIZE off (zlen data)) <= 1)%nat ->
  fw_wf fw' /\ fw_closed fw' = false /\ no_writing fw'.
Proof.
  intros Hwf Hc Hnw Hfr H Hr Hok. unfold fw_write in H. destruct (zlen data =? 0); [by injection H as <- <- <-|].
  unfold take_flush_error in H. cbn zeta in H.
  assert (Hsame : forall fw2, fw_chunks fw2 = fw_chunks fw -> fw_queue fw2 = fw_queue fw -> fw_wf fw2).
  { intros fw2 E1 E2. destruct Hwf as [W1 W2 W3 W4].
    assert (Eg : forall c n, get_sw c n fw2 = get_sw c n fw) by (intros; unfold get_sw; by rewrite E1).
    constructor; rewrite ?E2; [unfold chunks_ok; by rewrite E1|done| |].
    - intros req Hin. rewrite Eg. by apply W3.
    - intros c n sw Hg. rewrite Eg in Hg. by apply W4. }
  destruct (fw_error fw) as [e|].
  { injection H as <- <- <-. split_and!; [by apply Hsame|done|]. exact Hnw. }
  set (fw0 := set_pattern _ _) in H. destruct (fw_find _ _ _ _) as [sws fw1] eqn:Ef.
  destruct (fw_find_spec ids 0%nat (locate_chunk CHUNK_SIZE off (zlen data)) fw0 sws fw1) as (Q1 & Q2 & Q3 & Q4 & Q5 & Q6);
    [by apply Hsame|done|apply locate_chunk_idx|intros k c m x _; apply Hfr|exact Ef|].
  destruct (write_loop sws data 0 p fw1) as [[r1 p1] fw2] eqn:El.
  assert (Hnd : NoDup (part_id <$> sws)).
  { apply (NoDup_fmap_1 fst). rewrite <- list_fmap_compose.
    assert (E : fst ∘ part_id <$> sws = cx_chunk_idx <$> (snd <$> sws)) by (by rewrite <- list_fmap_compose).
    rewrite E, Q3. apply locate_chunk_idx. }
  assert (Hlen : length sws = length (locate_chunk CHUNK_SIZE off (zlen data))) by (by rewrite <- Q3, length_fmap).
  assert (Hr1 : r1 <> Panic /\ (is_ok r = is_ok r1)) by (destruct r1; injection H as <- <- <-; done).
  destruct Hr1 as [Hr1 Eok].
  destruct (write_loop_spec sws data 0 p fw1 r1 p1 fw2 Q1 Q2 Hnd Q4 El Hr1) as (R1 & R2 & R3).
  assert (Hb : is_ok r1 || (length sws <=? 1)%nat = true).
  { rewrite Hlen, <- Eok. destruct Hok as [->|Hl]; [done|]. apply orb_true_iff. right. by apply Nat.leb_le. }
  rewrite Hb in R3.
  assert (Hfin : no_writing fw2).
  { intros c n sw Hg Hs. destruct (R3 c n sw Hg Hs) as (Hn & sw1 & Hg1 & Hs1).
    destruct (Q6 c n sw1 Hg1 Hs1 Hn) as (sw2 & Hg2 & Hs2). by apply (Hnw c n sw2 Hg2). }
  assert (Hlast : forall n, fw_wf (set_fw_length n fw2) /\ no_writing (set_fw_length n fw2)).
  { intros n. split; [|exact Hfin]. by destruct R1. }
  destruct r1; injection H as <- <- <-; split_and!; try done; apply Hlast.
Qed.

(** *** The life of a file writer until its flusher is cancelled *)

Inductive fw_step : FileWriter -> FileWriter -> Prop :=
| fws_write ids off data p fw r p' fw' :
    (forall k c m x, get_sw c m fw = Some x -> m <> ids k) ->
    fw_write ids off data p fw = (r, p', fw') -> r <> Panic ->
    is_ok r = true \/ (length (locate_chunk CHUNK_SIZE off (zlen data)) <= 1)%nat ->
    fw_step fw fw'
| fws_flush io req q (D D' : Deps (M:=M)) fw fw' :
    fw_queue fw = req :: q -> run_req io req D (set_queue q fw) = (Ok fw', D') -> fw_step fw fw'
| fws_finish io (D D' : Deps (M:=M)) fw r fw' :
    finish_local 3 io D fw = Some (r, D', fw') -> r <> Panic -> fw_step fw fw'
| fws_sync mio (D D' : Deps (M:=M)) fw r fw' :
    flush_published mio (elements (fw_published fw)) D fw = (r, D', fw') -> fw_step fw fw'
| fws_length n fw : fw_step fw (set_fw_length n fw).

Definition fw_live (fw : FileWriter) : Prop := fw_wf fw /\ no_writing fw /\ fw_closed fw = false.

Lemma fw_live_same fw fw' :
  fw_live fw -> fw_chunks fw' = fw_chunks fw -> fw_queue fw' = fw_queue fw -> fw_closed fw' = fw_closed fw -> fw_live fw'.
Proof.
  intros ([W1 W2 W3 W4] & Hnw & Hc) E1 E2 E3.
  assert (Eg : forall c n, get_sw c n fw' = get_sw c n fw) by (intros; unfold get_sw; by rewrite E1).
  split_and!; [|intros c n sw; rewrite Eg; apply Hnw|congruence].
  constructor; rewrite ?E2; [unfold chunks_ok; by rewrite E1|done| |].
  - intros req Hin. rewrite Eg. by apply W3.
  - intros c n sw. rewrite Eg. apply W4.
Qed.

Lemma fw_live_empty fw : fw_queue fw = [] -> fw_closed fw = false -> fw_live (set_chunks ∅ fw).
Proof.
  intros Hq Hc. assert (Hn : forall c n, get_sw c n (set_chunks ∅ fw) = None) by done.
  split_and!; [constructor|intros c n sw; by rewrite Hn|done].
  - intros c l Hl. cbn in Hl. by rewrite lookup_empty in Hl.
  - cbn. rewrite Hq. by apply NoDup_nil.
  - intros req Hr. cbn in Hr. rewrite Hq in Hr. by apply elem_of_nil in Hr.
  - intros c n sw Hg. by rewrite Hn in Hg.
Qed.

(** [finish_local] returns, with the chunk writers gone when it succeeds. *)
Lemma finish_local_ends io (D : Deps (M:=M)) fw :
  fw_live fw -> exists r D' fw', finish_local 3 io D fw = Some (r, D', fw') /\
    match r with
    | Ok _ => fw_live fw' /\ fw_chunks fw' = ∅
    | Err _ => fw_live fw' /\ has_flush_error fw' = false
    | Panic => op_panics io
    end.
Proof.
  intros Hl. unfold finish_local, take_flush_error. cbn zeta.
  assert (Hl0 : fw_live (set_error None fw)) by (by apply (fw_live_same fw)).
  destruct (fw_error fw) as [e|]; [by exists (Err e), D, (set_error None fw)|].
  case_bool_decide as Hemp; [by exists (Ok ()), D, (set_error None fw)|].
  destruct Hl0 as (Hwf & Hnw & Hc). destruct (finish_chunks_ends io D _ Hwf Hnw Hc) as (r & D' & E & He).
  rewrite E. cbn. destruct r as [fw1|e|]; [|done|by exists Panic, D', (set_error None fw)].
  destruct He as (Hwf1 & Hnw1 & Hc1 & Hor).
  destruct (fw_error fw1) as [e|] eqn:Ee.
  - exists (Err e), D', (set_error None fw1). split; [done|]. split; [by apply (fw_live_same fw1)|done].
  - exists (Ok ()), D', (set_chunks ∅ (set_error None fw1)). split; [done|]. split; [|done].
    apply fw_live_empty; [|done]. cbn. destruct Hor as [Hx|Hfin]; [unfold has_flush_error in Hx; by rewrite Ee in Hx|].
    destruct (fw_queue fw1) as [|req q] eqn:Eq; [done|]. exfalso.
    destruct (ww_reqs _ Hwf1 req) as (sw & Hg & _); [rewrite Eq; by left|].
    apply get_sw_iff in Hg as (l & Hlk & Hin & _); [|apply Hwf1]. unfold all_finished in Hfin.
    apply bool_decide_eq_true in Hfin. apply Hfin in Hlk as ->. by apply elem_of_nil in Hin.
Qed.

Lemma fw_step_live fw fw' : fw_step fw fw' -> fw_live fw -> fw_live fw'.
Proof.
  intros Hst Hl. pose proof Hl as (Hwf & Hnw & Hc).
  destruct Hst as [ids off data p fw r p' fw' Hfr H Hr Hok|io req q D D' fw fw' Eq H|io D D' fw r fw' H Hr|mio D D' fw r fw' H|n fw].
  - destruct (fw_write_spec ids off data p fw r p' fw' Hwf Hc Hnw Hfr H Hr Hok) as (? & ? & ?). by split_and!.
  - destruct Hwf as [W1 W2 W3 W4]. rewrite Eq in *. destruct (W3 req) as (sw & Hg & Hs); [by left|].
    rewrite fmap_cons in W2. apply NoDup_cons in W2 as [Hni Hnd].
    pose proof (run_req_spec io req D (set_queue q fw) sw _ D' W1 Hg Hs H) as [P1 P2 P3 P4 (sw' & Hid & Hget & Hset & _)].
    assert (Hne : forall r', r' ∈ q -> req_id r' <> req_id req).
    { intros r' Hr' E. apply Hni. rewrite <- E. apply list_elem_of_fmap. by exists r'. }
    split_and!; [constructor| |by rewrite P3].
    + done.
    + rewrite P2. done.
    + rewrite P2. cbn. intros r' Hr'. destruct (W3 r') as (sw1 & Hg1 & Hs1); [by right|]. exists sw1. split; [|done].
      rewrite Hget, decide_False; [done|]. rewrite <- surjective_pairing. by apply Hne.
    + intros c n sw1 Hg1 Hw1. rewrite P2. cbn. rewrite Hget in Hg1. case_decide as E.
      * injection Hg1 as <-. by apply settled_not in Hset as [Hset _].
      * pose proof (W4 c n sw1 Hg1 Hw1) as Hin. rewrite fmap_cons in Hin. by apply elem_of_cons in Hin as [?|Hin].
    + intros c n sw1 Hg1. rewrite Hget in Hg1. case_decide as E; [|by eapply Hnw].
      injection Hg1 as <-. by apply settled_not in Hset as [_ Hset].
  - destruct (finish_local_ends io D fw Hl) as (r1 & D1 & fw1 & E & Hm). rewrite E in H. injection H as <- <- <-.
    destruct r1; [by destruct Hm|by destruct Hm|done].
  - assert (Hsame : fw_chunks fw' = fw_chunks fw /\ fw_queue fw' = fw_queue fw /\ fw_closed fw' = fw_closed fw).
    { clear -H. revert H. generalize (elements (fw_published fw)) as sids. intros sids. revert D fw.
      induction sids as [|sid sids IH]; intros D fw H; cbn [flush_published] in H; [by injection H as <- <- <-|].
      destruct (flush_slice _ _ _) as [[]  c1]; [|by injection H as <- <- <-..]. by apply IH in H. }
    destruct Hsame as (E1 & E2 & E3). by apply (fw_live_same fw).
  - by apply (fw_live_same fw).
Qed.

Lemma fw_steps_live fw fw' : rtc fw_step fw fw' -> fw_live fw -> fw_live fw'.
Proof. induction 1; eauto using fw_step_live. Qed.

Lemma fw_new_live inode len : fw_live (file_writer_new inode len).
Proof. apply (fw_live_empty (file_writer_new inode len)); done. Qed.

End flow.

(** ** Runs on the small layout *)

Section runs.
#[local] Existing Instance tiny_layout.

(** An engine that numbers slices and records what is published. *)
#[local] Instance count_meta : MetaClient (Z * list Slice) := {
  mc_next_slice_id m := (Ok m.1, (m.1 + 1, m.2));
  mc_write_slice _ _ _ sl m := (Ok (), (m.1, m.2 ++ [sl]))
}.

Definition fl_io (i : Z) : StageIo := mkStageIo None true None false.
Definition fl_deps (p : HybridPagePool) : Deps (M:=Z * list Slice) := mkDeps p (mkFC ∅ ∅ ∅ 0 false 100 0) (7, []).
Definition fl_new : FileWriter := file_writer_new 9 0.
Definition fl_ids (k : nat) : Z := 1 + Z.of_nat k.

(** A write of eight bytes across the border of two chunks, then a flush. *)
Definition fl_write := fw_write fl_ids 8 (ab ++ ab ++ [Byte.x64; Byte.x65]) tiny_pool fl_new.


(** A random write of five bytes: the bulk flush stages the first block and the
    writer is idle, so the flush publishes all five bytes and stages nothing. *)
Definition tail_write := fw_write fl_ids 3 (ab ++ [Byte.x64; Byte.x65]) tiny_pool fl_new.

Example tail_is_lost :
  match finish_local 3 fl_io (fl_deps tail_write.1.2) tail_write.2 with
  | Some (Ok _, D, fw) =>
      d_meta D = (8, [Owned 3 7 5 0]) /\ fw_chunks fw = ∅ /\
      fc_local (d_cache D) !! path (mkSliceKey 7 0 4) = Some [Byte.x61; Byte.x62; Byte.x63; Byte.x64] /\
      fc_local (d_cache D) !! path (mkSliceKey 7 1 1) = None
  | _ => False
  end.
Proof. vm_compute. repeat split. Qed.

(** A pool of one page: a write over two chunks fails in the first one. *)
Definition one_page : HybridPagePool := mkPool 2 2 0 1 (mkMemPool 2 2 [zeros 2]) None.
Definition first_write := fw_write fl_ids 24 [Byte.x61] one_page fl_new.
Definition stuck_write := fw_write (fun k => 2 + Z.of_nat k) 7 (ab ++ ab ++ ab) first_write.1.2 first_write.2.

Example stuck_write_never_flushed :
  stuck_write.1.1 = Err (VStorage PagePoolExhausted) /\
  finish_local 50 fl_io (fl_deps stuck_write.1.2) stuck_write.2 = None.
Proof. vm_compute. done. Qed.

Lemma stuck_wf : fw_wf stuck_write.2.
Proof.
  assert (Eq : fw_queue stuck_write.2 = []) by (vm_compute; reflexivity).
  assert (Hst : map_Forall (fun c l => Forall (fun sw => sw_chunk_index sw = c) l /\ NoDup (sw_seq <$> l) /\
              Forall (fun sw => ~ waiting sw) l) (fw_chunks stuck_write.2)).
  { apply (bool_decide_eq_true_1 (map_Forall (fun c l => Forall (fun sw => sw_chunk_index sw = c) l /\
      NoDup (sw_seq <$> l) /\ Forall (fun sw => ~ (sw_state sw = SwFlushing \/ sw_state sw = SwCommitting)) l)
      (fw_chunks stuck_write.2))). vm_compute. reflexivity. }
  assert (Hok : chunks_ok stuck_write.2) by (intros c l Hl; by destruct (Hst c l Hl) as (? & ? & _)).
  constructor; rewrite ?Eq; [done|by apply NoDup_nil|intros req Hr; by apply elem_of_nil in Hr|].
  intros c n sw Hg Hw. exfalso. apply get_sw_iff in Hg as (l & Hl & Hin & _); [|done].
  destruct (Hst c l Hl) as (_ & _ & Hf). rewrite Forall_forall in Hf. by apply (Hf sw Hin).
Qed.

(** A flusher whose staging fails. *)
Definition bad_io (i : Z) : StageIo := mkStageIo None false None false.

Lemma abandoned_write_blocks_flush_witness :
  exists fw' D', finish_chunks 9 bad_io (fl_deps stuck_write.1.2) stuck_write.2 = Some (Ok fw', D') /\
    has_flush_error fw' = true.
Proof.
  assert (Hg : exists sw, get_sw 1 3 stuck_write.2 = Some sw /\ sw_state sw = SwWriting)
    by (eexists; split; vm_compute; reflexivity).
  destruct Hg as (sw & Hg & Hs).
  assert (E : exists fw' D', finish_chunks 9 bad_io (fl_deps stuck_write.1.2) stuck_write.2 = Some (Ok fw', D'))
    by (eexists _, _; vm_compute; reflexivity).
  destruct E as (fw' & D' & E). exists fw', D'. split; [exact E|].
  apply (abandoned_write_blocks_flush 9 bad_io (fl_deps stuck_write.1.2) stuck_write.2 1 3 sw fw' D');
    [apply stuck_wf|vm_compute; reflexivity|exact Hg|exact Hs|exact E].
Defined.
End runs.
