(* ===== verification/Reader.v ===== *)
(** * The file reader (components/vfs/src/reader.rs, storage/src/cache/mem_cache.rs)

    A read splits its range by chunk, lays the slices of each chunk over each
    other, and fetches the bytes of every visible piece block by block: from the
    stage directory while the block is staged, otherwise through the memory cache
    from the object store.  Other tasks keep running between the two lookups of a
    block; what they do to the caches is an argument of the read.  The metadata
    engine is an interface ([MetaReader]). *)

From S2P Require Import Prelude Common RangeMap Slice SliceKey Meta Pool FileCache Writer.
Open Scope Z_scope.

(** ** The memory cache

    [moka] keeps at most the configured weight for at most a minute of idleness,
    so an entry may disappear at any time; [try_get_with_by_ref] runs the loader
    when the key is absent and keeps what it returns. *)

Abbreviation MemCache := (gmap SliceKey bytes).

Definition mem_get (object_ok : bool) (k : SliceKey) (remote : gmap string bytes) (mem : MemCache)
    : SResult (option bytes) * MemCache :=
  match mem !! k with
  | Some v => (Ok (Some v), mem)
  | None =>
      match store_get object_ok remote (gen_path_for_object_sto k) with
      | Ok v => (Ok (Some v), <[k := v]> mem)
      | Err e => (if storage_not_found e then Ok None else Err CacheError, mem)
      | Panic => (Panic, mem)
      end
  end.

(** ** Blocks of a slice *)

(** The caches a read goes through. *)
Record DataSys := mkData { ds_cache : FileCache; ds_mem : MemCache }.

(** How one block read goes: which of its requests the stores answer, and what
    the other tasks do before each of its two lookups. *)
Record BlockIo := mkBlockIo {
  bi_local : bool;
  bi_remote : bool;
  bi_object : bool;
  bi_before : DataSys -> DataSys;
  bi_between : DataSys -> DataSys
}.

(** A block read as [read_slice_from_cache] prepares it. *)
Record BlockRead := mkBlockRead { br_key : SliceKey; br_offset : Z; br_len : Z }.

Definition read_block (io : BlockIo) (br : BlockRead) (d : DataSys) : VResult bytes * DataSys :=
  let d := bi_before io d in
  let '(r, c) := get_range (bi_local io) (bi_remote io) (br_key br) (br_offset br) (br_len br) (ds_cache d) in
  let d := mkData c (ds_mem d) in
  match r with
  | Ok (Some block) =>
      (if zlen block =? br_len br then Ok block
       else Err (VUnexpectedLength "file cache block" (br_len br) (zlen block)), d)
  | Ok None =>
      let d := bi_between io d in
      let '(r, mem) := mem_get (bi_object io) (br_key br) (fc_remote (ds_cache d)) (ds_mem d) in
      let d := mkData (ds_cache d) mem in
      match r with
      | Ok (Some block) =>
          let bad := VInvalidRange "memory cache block" (br_offset br) (br_len br) (zlen block) in
          (match checked_add64 (br_offset br) (br_len br) with
           | Some block_end => if block_end <=? zlen block then Ok (sublist (br_offset br) (br_len br) block) else Err bad
           | None => Err bad
           end, d)
      | Ok None => (Err (VObjectBlockNotFound (br_key br)), d)
      | Err e => (Err (VStorage e), d)
      | Panic => (Panic, d)
      end
  | Err e => (Err (VStorage e), d)
  | Panic => (Panic, d)
  end.

(** The joined reads, in the order they are pushed; the first error is returned. *)
Fixpoint join_reads (io : SliceKey -> BlockIo) (reads : list BlockRead) (d : DataSys) : VResult bytes * DataSys :=
  match reads with
  | [] => (Ok [], d)
  | br :: reads =>
      let '(r, d) := read_block (io (br_key br)) br d in
      match r with
      | Ok b =>
          let '(r, d) := join_reads io reads d in
          (rest ← r; Ok (b ++ rest), d)
      | Err e => (Err e, d)
      | Panic => (Panic, d)
      end
  end.

Definition cal_object_block_size (length block_idx block_size : Z) : Z :=
  Z.min (length - block_idx * block_size) block_size.

Section reader.
Context `{L : Layout}.

(** The loop that prepares the reads; every round takes at least a byte. *)
Fixpoint plan_reads (fuel : nat) (slice_id length offset expected total : Z) : list BlockRead :=
  match fuel with
  | O => []
  | S fuel =>
      if total <? expected then
        let new_pos := total + offset in
        let block_idx := new_pos / BLOCK_SIZE in
        let block_offset := new_pos `mod` BLOCK_SIZE in
        let obj_block_size := cal_object_block_size length block_idx BLOCK_SIZE in
        let n := Z.min (expected - total) (obj_block_size - block_offset) in
        mkBlockRead (mkSliceKey slice_id block_idx obj_block_size) block_offset n ::
        plan_reads fuel slice_id length offset expected (total + n)
      else []
  end.

(** The count of bytes read and the destination buffer. *)
Definition read_slice_from_cache (io : SliceKey -> BlockIo) (slice_id length offset : Z) (dst : bytes) (d : DataSys)
    : VResult (Z * bytes) * DataSys :=
  if CHUNK_SIZE <? length then (Err (VInvalidRange "cached slice" 0 length CHUNK_SIZE), d)
  else if (zlen dst =? 0) || (length <=? offset) then (Ok (0, dst), d)
  else
    let expected := Z.min (length - offset) (zlen dst) in
    let reads := plan_reads (Z.to_nat expected) slice_id length offset expected 0 in
    let total := foldr (fun br n => br_len br + n) 0 reads in
    let '(r, d) := join_reads io reads d in
    (b ← r;
     if zlen b =? total then Ok (total, splice 0 b dst)
     else Err (VUnexpectedLength "cached slice read" total (zlen b)), d).

(** ** Virtual slices *)

Inductive VirtualSlice := Hole | VSlice (s : Slice).

#[export] Instance virtual_slice_eq_dec : EqDecision VirtualSlice.
Proof. solve_decision. Defined.

Section virtual.
Context `{R : RangeMapOps Slice} `{RV : RangeMapOps VirtualSlice}.

(** [RangeMap::insert] asserts that the range is not empty. *)
Fixpoint insert_ranges (l : list (entry VirtualSlice)) (m : rm_t (V:=VirtualSlice))
    : VResult (rm_t (V:=VirtualSlice)) :=
  match l with
  | [] => Ok m
  | (r, v) :: l => _ ← rust_assert (r.1 <? r.2); insert_ranges l (rm_insert r.1 r.2 v m)
  end.

Definition virtual_of (s : Slice) : VirtualSlice := if get_id s =? EMPTY_SLICE_ID then Hole else VSlice s.

(** The pieces of [start, end_) of a chunk, in order. *)
Definition virtual_slices (raw_slices : list Slice) (start end_ : Z) : VResult (list (entry VirtualSlice)) :=
  range_map ← overlook raw_slices;
  m ← insert_ranges ((fun g => (g, Hole)) <$> rm_gaps start end_ range_map) rm_new;
  m ← insert_ranges
        ((fun en : entry Slice => ((Z.max en.1.1 start, Z.min en.1.2 end_), virtual_of en.2)) <$>
         rm_overlapping start end_ range_map) m;
  Ok (rm_iter m).

(** ** Reading a file *)

(** The local variables of the read. *)
Record ReadVars := mkVars { rv_total : Z; rv_left : Z; rv_dst : bytes }.

(** One piece; [chunk_pos] moves along with the bytes read. *)
Definition read_piece (io : SliceKey -> BlockIo) (r : Z * Z) (vs : VirtualSlice) (chunk_pos : Z) (v : ReadVars)
    (d : DataSys) : VResult (Z * ReadVars) * DataSys :=
  let start := rv_total v + r.1 - chunk_pos in
  let end_ := rv_total v + r.2 - chunk_pos in
  let len := end_ - start in
  let next dst := (chunk_pos + len, mkVars (rv_total v + len) (rv_left v - len) dst) in
  if negb ((0 <=? start) && (start <=? end_) && (end_ <=? zlen (rv_dst v))) then (Panic, d)
  else match vs with
  | Hole => (Ok (next (splice start (zeros len) (rv_dst v))), d)
  | VSlice s =>
      let source_offset := get_underlying_offset s + saturating_sub r.1 (get_chunk_pos s) in
      let '(res, d) :=
        read_slice_from_cache io (get_id s) (get_underlying_size s) source_offset
          (sublist start len (rv_dst v)) d in
      (nb ← res; Ok (next (splice start nb.2 (rv_dst v))), d)
  end.

Fixpoint read_pieces (io : SliceKey -> BlockIo) (l : list (entry VirtualSlice)) (chunk_pos : Z) (v : ReadVars)
    (d : DataSys) : VResult ReadVars * DataSys :=
  match l with
  | [] => (Ok v, d)
  | (r, vs) :: l =>
      let '(res, d) := read_piece io r vs chunk_pos v d in
      match res with
      | Ok (chunk_pos, v) => read_pieces io l chunk_pos v d
      | Err e => (Err e, d)
      | Panic => (Panic, d)
      end
  end.
End virtual.
End reader.

Record FileReader := mkFR { fr_ino : Z; fr_fh : Z; fr_length : Z; fr_closing : bool }.

(** The metadata engine, as the reader uses it. *)
Class MetaReader (M : Type) := {
  mr_read_slice : Z -> Z -> M -> outcome Meta.Error (option (list Slice)) * M
}.

Section read.
Context `{L : Layout} `{R : RangeMapOps Slice} `{RV : RangeMapOps VirtualSlice} {M : Type} `{MR : MetaReader M}.

(** The loop over the chunks: [inr] is the early [return Ok(0)]. *)
Fixpoint read_chunks (io : SliceKey -> BlockIo) (ino offset chunk_size : Z) (idxs : list Z) (v : ReadVars)
    (m : M) (d : DataSys) : VResult (ReadVars + bytes) * (M * DataSys) :=
  match idxs with
  | [] => (Ok (inl v), (m, d))
  | chunk_idx :: idxs =>
      let chunk_pos := (offset + rv_total v) `mod` chunk_size in
      let max_can_read := Z.min (chunk_size - chunk_pos) (rv_left v) in
      let '(raw, m) := mr_read_slice ino chunk_idx m in
      match raw with
      | Ok None => (Ok (inr (rv_dst v)), (m, d))
      | Ok (Some raw_slices) =>
          match virtual_slices raw_slices chunk_pos (chunk_pos + max_can_read) with
          | Ok pieces =>
              let '(res, d) := read_pieces io pieces chunk_pos v d in
              match res with
              | Ok v => read_chunks io ino offset chunk_size idxs v m d
              | Err e => (Err e, (m, d))
              | Panic => (Panic, (m, d))
              end
          | Err e => (Err e, (m, d))
          | Panic => (Panic, (m, d))
          end
      | Err e => (Err (VMeta e), (m, d))
      | Panic => (Panic, (m, d))
      end
  end.

(** [FileReader::read]: the count and the destination buffer. *)
Definition read (io : SliceKey -> BlockIo) (fr : FileReader) (chunk_size offset : Z) (dst : bytes) (m : M) (d : DataSys)
    : VResult (Z * bytes) * (M * DataSys) :=
  let length := fr_length fr in
  if (length <=? offset) || (zlen dst =? 0) then (Ok (0, dst), (m, d))
  else
    let expected := Z.min (zlen dst) (length - offset) in
    let first := offset / chunk_size in
    let last := (offset + expected - 1) / chunk_size in
    let '(res, md) := read_chunks io (fr_ino fr) offset chunk_size (seqZ first (last - first + 1))
                        (mkVars 0 expected dst) m d in
    (o ← res; Ok (match o with inl v => (rv_total v, rv_dst v) | inr dst => (0, dst) end), md).
End read.

(** ** The readers of the open handles

    One reader per inode and handle. *)

Definition Readers : Type := gmap Z (gmap Z FileReader).

Definition open_file_reader (ino fh length : Z) (rs : Readers) : FileReader * Readers :=
  let inner := default ∅ (rs !! ino) in
  match inner !! fh with
  | Some fr => (fr, <[ino := inner]> rs)
  | None =>
      let fr := mkFR ino fh length false in
      (fr, <[ino := <[fh := fr]> inner]> rs)
  end.

Definition truncate_reader (ino length : Z) (rs : Readers) : Readers :=
  alter (fmap (fun fr => mkFR (fr_ino fr) (fr_fh fr) length (fr_closing fr))) ino rs.

(** [FileReader::close]; the entry of the inode stays. *)
Definition reader_close (fr : FileReader) (rs : Readers) : FileReader * Readers :=
  if fr_closing fr then (fr, rs)
  else (mkFR (fr_ino fr) (fr_fh fr) (fr_length fr) true, alter (delete (fr_fh fr)) (fr_ino fr) rs).
