(* ===== verification/ReaderThms.v ===== *)
(** * What a read returns

    The abstract file is a function from positions to bytes: a position shows the
    most recent slice over it, and zero where there is none or the slice is a
    hole.  [read] returns exactly those bytes for every range, while other tasks
    stage, migrate, evict and load blocks between its lookups, provided the
    visible slices were stored; it fails only where a store fails. *)

From S2P Require Import Prelude Common RangeMap Slice SliceKey Meta Pool SliceBuffer SliceIO FileCache FileCacheThms.
From S2P Require Import Writer Staging WriterThms Reader.
Open Scope Z_scope.

(** ** Objects are never removed from the store *)

Lemma get_range_remote l r k off len c : fc_remote (get_range l r k off len c).2 = fc_remote c.
Proof.
  unfold get_range, missing_local, remove_staged. destruct (fc_staged c !! k) eqn:E; [|done].
  destruct (negb l); [done|]. destruct (read_exact_at _ _ _ _) as [[x|]|]; [done|done|].
  destruct (remote_block_is_confirmed _ _ _) as [[]| |]; done.
Qed.

Lemma fc_get_remote l r k c : fc_remote (fc_get l r k c).2 = fc_remote c.
Proof.
  unfold fc_get, missing_local, remove_staged. destruct (fc_staged c !! k) eqn:E; [|done].
  destruct (store_get _ _ _) as [|[[]| | | | | | | | | | | |]|]; try done.
  destruct (remote_block_is_confirmed _ _ _) as [[]| |]; done.
Qed.

Section remote.
Context `{L : Layout}.

Lemma fc_stage_remote io sid p c idx len pages : fc_remote (fc_stage io sid p c idx len pages).2 = fc_remote c.
Proof.
  unfold fc_stage, reserve_stage_bytes, schedule_pressure_migration, stage_entry, new_cache_index.
  destruct (fc_staged c !! _); [done|]. destruct (checked_add64 _ _); [|done].
  destruct (fc_max_stage_size c <? _); [by repeat case_match|]. repeat case_match; simplify_eq/=; done.
Qed.

Lemma cache_step_remote s s' q :
  cache_step s s' -> is_Some (fc_remote (cs_cache s) !! q) -> is_Some (fc_remote (cs_cache s') !! q).
Proof.
  intros Hst Hq. destruct Hst; cbn [cs_cache]; try done.
  - replace c' with (fc_stage io sid p (cs_cache s) idx len pages).2 by (by rewrite H4). by rewrite fc_stage_remote.
  - by rewrite get_range_remote.
  - by rewrite fc_get_remote.
  - unfold mig_copy in H0. destruct (store_get _ _ _); [|by simplify_eq..].
    destruct (mi_remote_put io); simplify_eq; [|done]. simpl. rewrite lookup_insert_is_Some'. by right.
  - unfold mig_confirm in H0. repeat case_match; simplify_eq; done.
  - unfold mig_unindex. by case_match.
  - unfold file_cache_new in H1. repeat case_match; simplify_eq; done.
Qed.
End remote.

(** ** The caches while other tasks run *)

Definition mem_ok (s : CacheSys) (mem : MemCache) : Prop := forall k b, mem !! k = Some b -> cs_acked s !! k = Some b.

(** The acknowledged blocks account for both caches. *)
Definition data_ok (s : CacheSys) (d : DataSys) : Prop := CacheInv s /\ cs_cache s = ds_cache d /\ mem_ok s (ds_mem d).

Section interference.
Context `{L : Layout}.

Inductive data_step : CacheSys * MemCache -> CacheSys * MemCache -> Prop :=
| dst_cache s s' mem : cache_step s s' -> data_step (s, mem) (s', mem)
| dst_evict s mem k : data_step (s, mem) (s, delete k mem)
| dst_load s mem ok k :
    slice_key_wf k = true -> data_step (s, mem) (s, (mem_get ok k (fc_remote (cs_cache s)) mem).2).

(** What a function on the caches may do: any run of such steps. *)
Definition env_ok (f : DataSys -> DataSys) : Prop :=
  forall s d, data_ok s d ->
    exists s', rtc data_step (s, ds_mem d) (s', ds_mem (f d)) /\ cs_cache s' = ds_cache (f d).

Definition block_io_ok (io : BlockIo) : Prop := env_ok (bi_before io) /\ env_ok (bi_between io).

(** Every request of the block read is answered. *)
Definition answered (io : BlockIo) : bool := bi_local io && bi_remote io && bi_object io.

Lemma mem_load_ok s mem ok k :
  CacheInv s -> slice_key_wf k = true -> mem_ok s mem ->
  mem_ok s (mem_get ok k (fc_remote (cs_cache s)) mem).2.
Proof.
  intros I Hw Hm. unfold mem_get. destruct (mem !! k) eqn:E; [done|]. unfold store_get. destruct ok; [|done].
  destruct (fc_remote (cs_cache s) !! _) as [b|] eqn:Er; [|done]. simpl. intros k' b'.
  rewrite lookup_insert_Some. intros [[<- <-]|[_ H]]; [|by apply Hm]. by apply (ci_remote s I).
Qed.

Lemma data_step_ok x y :
  data_step x y -> CacheInv x.1 -> mem_ok x.1 x.2 ->
  CacheInv y.1 /\ mem_ok y.1 y.2 /\
  (forall k b, cs_acked x.1 !! k = Some b -> cs_acked y.1 !! k = Some b) /\
  (forall q, is_Some (fc_remote (cs_cache x.1) !! q) -> is_Some (fc_remote (cs_cache y.1) !! q)).
Proof.
  intros Hst I Hm. destruct Hst; cbn [fst snd] in *.
  - split_and!; [by eapply cache_step_inv| |by apply cache_step_acked|by intros q; apply cache_step_remote].
    intros k b Hk. eapply cache_step_acked; [done|]. by apply Hm.
  - split_and!; try done. intros k' b [_ H]%lookup_delete_Some. by apply Hm.
  - split_and!; try done. by apply mem_load_ok.
Qed.

Lemma data_steps_ok x y :
  rtc data_step x y -> CacheInv x.1 -> mem_ok x.1 x.2 ->
  CacheInv y.1 /\ mem_ok y.1 y.2 /\
  (forall k b, cs_acked x.1 !! k = Some b -> cs_acked y.1 !! k = Some b) /\
  (forall q, is_Some (fc_remote (cs_cache x.1) !! q) -> is_Some (fc_remote (cs_cache y.1) !! q)).
Proof.
  induction 1 as [|x y z Hxy Hyz IH]; intros I Hm; [by split_and!|].
  destruct (data_step_ok _ _ Hxy I Hm) as (I1 & Hm1 & Ha1 & Hr1). destruct (IH I1 Hm1) as (I2 & Hm2 & Ha2 & Hr2).
  split_and!; auto.
Qed.

(** What is acknowledged in [s] stays so in [s'], and objects stay. *)
Definition grows (s s' : CacheSys) : Prop :=
  (forall k b, cs_acked s !! k = Some b -> cs_acked s' !! k = Some b) /\
  (forall q, is_Some (fc_remote (cs_cache s) !! q) -> is_Some (fc_remote (cs_cache s') !! q)).

#[export] Instance grows_preorder : PreOrder grows.
Proof. split; [done|]. intros x y z [H1 H2] [H3 H4]. split; auto. Qed.

Lemma env_run f s d : env_ok f -> data_ok s d -> exists s', data_ok s' (f d) /\ grows s s'.
Proof.
  intros Hf Hd. destruct (Hf s d Hd) as (s' & Hst & Hc). destruct Hd as (I & _ & Hm).
  destruct (data_steps_ok _ _ Hst I Hm) as (I' & Hm' & Ha & Hr). exists s'. split; [by split_and!|by split].
Qed.

Lemma slice_stored_grows sid f len s s' : grows s s' -> slice_stored sid f len s -> slice_stored sid f len s'.
Proof. intros [Ha _] H i Hi Hl. apply Ha, H; done. Qed.

(** [get_range] on an acknowledged block. *)
Lemma get_range_spec s l r k (b : bytes) off n :
  CacheInv s -> cs_acked s !! k = Some b -> 0 <= off -> 0 <= n -> off + n <= zlen b ->
  match (get_range l r k off n (cs_cache s)).1 with
  | Ok (Some x) => x = sublist off n b
  | Ok None => remote_has (cs_cache s) k b
  | Err _ => l && r = false
  | Panic => False
  end.
Proof.
  intros I Hk Ho Hn Hb. unfold get_range. destruct (fc_staged (cs_cache s) !! k) as [e|] eqn:E.
  2:{ by apply (ci_flushed s I). }
  destruct l; [|done]. unfold read_exact_at. fold (path k). simpl.
  destruct (fc_local (cs_cache s) !! path k) as [x|] eqn:El.
  - assert (x = b) as ->.
    { apply (acked_same (cs_acked s) k); [|done]. apply (ci_local s I); [by eapply acked_wf|done]. }
    by rewrite (proj2 (Z.leb_le _ _)) by lia.
  - destruct (ci_durable s I k b Hk) as [H|H]; [discriminate (eq_trans (eq_sym H) El)|].
    unfold missing_local, remote_block_is_confirmed, store_get. unfold remote_has, path in H. rewrite H.
    destruct r; [|done]. destruct (ci_keys s I k b Hk) as [_ Hz]. simpl. by rewrite (proj2 (Z.eqb_eq _ _)).
Qed.

(** A block read returns the bytes of the block, whatever runs between its two
    lookups. *)
Lemma read_block_spec io br s d (b : bytes) :
  block_io_ok io -> data_ok s d -> cs_acked s !! br_key br = Some b ->
  0 <= br_offset br -> 0 <= br_len br -> br_offset br + br_len br <= zlen b ->
  exists s', data_ok s' (read_block io br d).2 /\ grows s s' /\
    match (read_block io br d).1 with
    | Ok x => x = sublist (br_offset br) (br_len br) b
    | Err _ => answered io = false
    | Panic => False
    end.
Proof.
  intros [H1 H2] Hd Hk Ho Hn Hb. unfold read_block.
  destruct (env_run _ _ _ H1 Hd) as (s1 & (I1 & Hc1 & Hm1) & Hg1).
  set (d1 := bi_before io d) in *. pose proof (proj1 Hg1 _ _ Hk) as Hk1.
  pose proof (get_range_spec s1 (bi_local io) (bi_remote io) _ b _ _ I1 Hk1 Ho Hn Hb) as Hr.
  pose proof (get_range_inv s1 (bi_local io) (bi_remote io) (br_key br) (br_offset br) (br_len br) I1) as I2.
  pose proof (get_range_remote (bi_local io) (bi_remote io) (br_key br) (br_offset br) (br_len br) (cs_cache s1)) as Hrm.
  rewrite Hc1 in *. destruct (get_range _ _ _ _ _ _) as [r c2]. cbn [fst snd] in *.
  set (s2 := mkSys c2 (cs_acked s1) (cs_entries s1) (cs_mig s1)) in *.
  assert (Hd2 : data_ok s2 (mkData c2 (ds_mem d1))) by (split_and!; done).
  assert (Hg2 : grows s s2).
  { transitivity s1; [done|]. split; [done|]. intros q. simpl. by rewrite Hrm, Hc1. }
  destruct r as [[x|]|e|]; [| | |done].
  - exists s2. split; [done|]. split; [done|]. cbn [fst]. subst x. rewrite zlen_sublist, Z.eqb_refl by lia. done.
  - destruct (env_run _ _ _ H2 Hd2) as (s3 & (I3 & Hc3 & Hm3) & Hg3).
    set (d3 := bi_between io (mkData c2 (ds_mem d1))) in *.
    assert (Hk3 : cs_acked s3 !! br_key br = Some b) by (by apply Hg3).
    assert (Hw := acked_wf _ _ _ I3 Hk3).
    assert (Hr3 : remote_has (cs_cache s3) (br_key br) b).
    { destruct (proj2 Hg3 (path (br_key br))) as [x Hx].
      { simpl. rewrite Hrm. unfold remote_has in Hr. by rewrite Hr. }
      unfold remote_has. rewrite Hx. f_equal. apply (acked_same (cs_acked s3) (br_key br)); [|done].
      by apply (ci_remote s3 I3). }
    pose proof (mem_load_ok s3 (ds_mem d3) (bi_object io) (br_key br) I3 Hw Hm3) as Hm4.
    assert (Hv : match (mem_get (bi_object io) (br_key br) (fc_remote (cs_cache s3)) (ds_mem d3)).1 with
                 | Ok (Some x) => x = b | Ok None => False | Err _ => bi_object io = false | Panic => False end).
    { unfold mem_get. destruct (ds_mem d3 !! br_key br) as [x|] eqn:Em.
      - apply (acked_same (cs_acked s3) (br_key br)); [by apply Hm3|done].
      - unfold store_get. unfold remote_has, path in Hr3. rewrite Hr3. by destruct (bi_object io). }
    rewrite Hc3 in *. destruct (mem_get _ _ _ _) as [r mem]. cbn [fst snd] in *.
    exists s3. split; [|split].
    + destruct r as [[]| |]; try done; cbn [snd]; by split_and!.
    + by transitivity s2.
    + destruct r as [[x|]|e|]; [subst x|done| |done]; cbn [fst].
      * assert (Hz : zlen b < 2 ^ 64).
        { destruct (ci_keys s3 I3 _ _ Hk3) as [Hw' ->]. by apply key_size. }
        unfold checked_add64. rewrite (proj2 (Z.ltb_lt _ _)), (proj2 (Z.leb_le _ _)) by lia. done.
      * unfold answered. rewrite Hv. by rewrite andb_false_r.
  - exists s2. split; [done|]. split; [done|]. cbn [fst]. unfold answered. by rewrite Hr.
Qed.
End interference.

(** ** A piece of a slice *)

Section slices.
Context `{L : Layout}.

(** A result is right, or an error because some request was not answered. *)
Definition outcome_ok {A} (io : SliceKey -> BlockIo) (r : VResult A) (P : A -> Prop) : Prop :=
  match r with
  | Ok a => P a
  | Err _ => exists k, answered (io k) = false
  | Panic => False
  end.

Lemma plan_step sid f len offset expected total s :
  slice_stored sid f len s -> 0 <= offset -> 0 <= total < expected -> offset + expected <= len ->
  let new_pos := total + offset in
  let idx := new_pos / BLOCK_SIZE in
  let size := cal_object_block_size len idx BLOCK_SIZE in
  let n := Z.min (expected - total) (size - new_pos `mod` BLOCK_SIZE) in
  1 <= n <= expected - total /\ 0 <= new_pos `mod` BLOCK_SIZE /\ new_pos `mod` BLOCK_SIZE + n <= size /\
  exists b : bytes, cs_acked s !! mkSliceKey sid idx size = Some b /\ zlen b = size /\
    sublist (new_pos `mod` BLOCK_SIZE) n b = reads f (offset + total) n.
Proof.
  intros Hst Ho Ht Hl new_pos idx size n. pose proof block_size_pos as HB.
  assert (Hnp : new_pos = total + offset) by done. clearbody new_pos.
  assert (HB0 : BLOCK_SIZE <> 0) by lia. pose proof (Z.div_mod new_pos BLOCK_SIZE HB0) as Hdm.
  pose proof (Z.mod_pos_bound new_pos BLOCK_SIZE HB) as Hm.
  assert (0 <= idx) by (apply Z.div_pos; lia). fold idx in Hdm.
  assert (Hs : new_pos `mod` BLOCK_SIZE < size) by (unfold size, cal_object_block_size; nia).
  split; [lia|]. split; [lia|]. split; [lia|].
  assert (Hi : idx * BLOCK_SIZE < len) by (rewrite Z.mul_comm; clear -Hdm Hm Hnp Ht Hl; lia). specialize (Hst idx H Hi). cbv zeta in Hst.
  assert (Hsz : size = Z.min BLOCK_SIZE (len - idx * BLOCK_SIZE)) by (unfold size, cal_object_block_size; lia).
  rewrite <- Hsz in Hst. exists (reads f (idx * BLOCK_SIZE) size). split; [exact Hst|].
  split; [apply zlen_reads; lia|]. rewrite sublist_reads by lia. f_equal. lia.
Qed.

(** The planned reads of a stored slice give its bytes, in order. *)
Lemma plan_reads_spec io sid f len offset expected s fuel total d :
  (forall k, block_io_ok (io k)) -> slice_stored sid f len s -> data_ok s d ->
  0 <= offset -> 0 <= total <= expected -> offset + expected <= len -> expected - total <= Z.of_nat fuel ->
  let plan := plan_reads fuel sid len offset expected total in
  foldr (fun br n => br_len br + n) 0 plan = expected - total /\
  exists s', data_ok s' (join_reads io plan d).2 /\ grows s s' /\
    outcome_ok io (join_reads io plan d).1 (.= reads f (offset + total) (expected - total)).
Proof.
  intros Hio. revert s total d. induction fuel as [|fuel IH]; intros s total d Hst Hd Ho Ht Hl Hf plan.
  { replace (expected - total) with 0 by lia. rewrite reads_nil by lia. split; [done|]. by exists s. }
  unfold plan. cbn [plan_reads]. destruct (total <? expected) eqn:E; to_prop.
  2:{ replace (expected - total) with 0 by lia. rewrite reads_nil by lia. split; [done|]. by exists s. }
  pose proof (plan_step sid f len offset expected total s Hst Ho ltac:(lia) Hl) as Hps. cbv zeta in Hps.
  set (idx := (total + offset) / BLOCK_SIZE) in *. set (m := (total + offset) `mod` BLOCK_SIZE) in *.
  set (size := cal_object_block_size len idx BLOCK_SIZE) in *. set (n := Z.min (expected - total) (size - m)) in *.
  destruct Hps as (Hn & Hm & Hmn & b & Hb & Hz & Hsub). cbv zeta. cbn [foldr br_len join_reads br_key].
  set (br := mkBlockRead (mkSliceKey sid idx size) m n).
  destruct (read_block_spec (io (br_key br)) br s d b (Hio _) Hd Hb ltac:(simpl; lia) ltac:(simpl; lia) ltac:(simpl; lia))
    as (s1 & Hd1 & Hg1 & Hr1). change (br_key br) with (mkSliceKey sid idx size) in *.
  destruct (read_block _ br d) as [r1 d1]. cbn [fst snd] in *.
  destruct (IH s1 (total + n) d1 (slice_stored_grows _ _ _ _ _ Hg1 Hst) Hd1 Ho ltac:(lia) Hl ltac:(lia))
    as (Hsum & s2 & Hd2 & Hg2 & Hr2).
  split; [rewrite Hsum; lia|]. destruct r1 as [x|e|]; [|by exists s1; split; [|split; [|eexists]]|done].
  destruct (join_reads _ _ d1) as [r2 d2]. cbn [fst snd] in *. exists s2. split; [done|].
  split; [by transitivity s1|]. destruct r2 as [y|e|]; [|done|done]. simpl in Hr2 |- *.
  change (br_offset br) with m in Hr1. change (br_len br) with n in Hr1. subst x y. rewrite Hsub.
  replace (offset + (total + n)) with (offset + total + n) by lia.
  replace (expected - total) with (n + (expected - (total + n))) by lia. apply reads_app; lia.
Qed.

(** [read_slice_from_cache] fills the whole destination when the slice has the
    bytes asked for. *)
Lemma read_slice_from_cache_spec io sid f len offset dst s d :
  (forall k, block_io_ok (io k)) -> slice_stored sid f len s -> data_ok s d ->
  0 <= offset -> len <= CHUNK_SIZE -> offset + zlen dst <= len ->
  exists s', data_ok s' (read_slice_from_cache io sid len offset dst d).2 /\ grows s s' /\
    outcome_ok io (read_slice_from_cache io sid len offset dst d).1 (fun nb => nb.2 = reads f offset (zlen dst)).
Proof.
  intros Hio Hst Hd Ho Hlen Hl. unfold read_slice_from_cache. pose proof (zlen_nonneg dst) as Hn.
  rewrite (proj2 (Z.ltb_ge CHUNK_SIZE len)) by lia.
  destruct (zlen dst =? 0) eqn:E; to_prop.
  { exists s. split; [done|]. split; [done|]. simpl. rewrite E, reads_nil by lia. unfold zlen in E. by destruct dst. }
  simpl. rewrite (proj2 (Z.leb_gt _ _)) by lia. replace (Z.min (len - offset) (zlen dst)) with (zlen dst) by lia.
  destruct (plan_reads_spec io sid f len offset (zlen dst) s (Z.to_nat (zlen dst)) 0 d Hio Hst Hd Ho ltac:(lia) Hl
              ltac:(lia)) as (Hsum & s1 & Hd1 & Hg1 & Hr).
  rewrite Hsum. destruct (join_reads _ _ d) as [r d1]. cbn [fst snd] in *. exists s1. split; [done|]. split; [done|].
  rewrite Z.sub_0_r, Z.add_0_r in *. destruct r as [b|e|]; [|done|done]. simpl in Hr |- *. subst b.
  rewrite zlen_reads, Z.eqb_refl by lia. simpl. unfold splice. simpl.
  rewrite drop_ge; [by rewrite app_nil_r|]. pose proof (zlen_reads f offset (zlen dst) Hn) as Hz. unfold zlen in *. lia.
Qed.

(** ** Pieces of a chunk *)

(** Adjacent ranges from [a] to [b]. *)
Fixpoint tiles {V} (a b : Z) (l : list (entry V)) : Prop :=
  match l with
  | [] => a = b
  | (r, _) :: l => r.1 = a /\ r.1 < r.2 /\ tiles r.2 b l
  end.

Lemma tiles_le {V} a b (l : list (entry V)) : tiles a b l -> a <= b.
Proof. revert a. induction l as [|[r v] l IH]; simpl; [lia|]. intros a (? & ? & H%IH). lia. Qed.

(** A sorted list that covers exactly [a, b) tiles it. *)
Lemma tiles_cover {V} (l : list (entry V)) lo a b :
  a <= b -> ranges_sorted lo l.*1 -> (forall x, is_Some (entries_get l x) <-> a <= x < b) -> tiles a b l.
Proof.
  revert lo a. induction l as [|[r v] l IH]; intros lo a Hab Hs Hc; simpl.
  { destruct (decide (a = b)); [done|]. destruct (proj2 (Hc a) ltac:(lia)) as [? [=]]. }
  destruct Hs as (Hlo & Hr & Hs). simpl in Hlo, Hr, Hs.
  assert (Hg : forall x, r.1 <= x < r.2 -> a <= x < b).
  { intros x Hx. apply Hc. simpl. by rewrite (proj2 (in_range_true x r)). }
  assert (Ha : r.1 = a).
  { pose proof (Hg r.1 ltac:(lia)). destruct (decide (r.1 = a)); [done|].
    destruct (proj2 (Hc a) ltac:(lia)) as [w Hw]. simpl in Hw. rewrite (proj2 (in_range_false a r)) in Hw by lia.
    rewrite (entries_get_below l r.2) in Hw by (done || lia). discriminate Hw. }
  pose proof (Hg (r.2 - 1) ltac:(lia)). split_and!; [done|done|]. apply (IH r.2); [lia|done|].
  intros x. split.
  - intros Hx. assert (r.2 <= x).
    { destruct (decide (x < r.2)); [|lia]. rewrite (entries_get_below l r.2) in Hx by done. by destruct Hx. }
    cut (a <= x < b); [lia|]. apply Hc. simpl. by rewrite (proj2 (in_range_false x r)) by lia.
  - intros Hx. destruct (proj2 (Hc x) ltac:(lia)) as [w Hw]. simpl in Hw.
    rewrite (proj2 (in_range_false x r)) in Hw by lia. by rewrite Hw.
Qed.

Section virtual_facts.
Context `{R : RangeMapOps Slice} {HR : RangeMapLaws Slice} `{RV : RangeMapOps VirtualSlice} {HV : RangeMapLaws VirtualSlice}.

(** Some entry covers the position. *)
Definition touched (x : Z) (l : list (entry VirtualSlice)) : bool := existsb (fun en => in_range x en.1) l.

Lemma touched_true x l : touched x l = true <-> exists en, en ∈ l /\ in_range x en.1 = true.
Proof. unfold touched. rewrite existsb_exists. by setoid_rewrite <- list_elem_of_In. Qed.

(** Entries that agree with a function are inserted in any order. *)
Lemma insert_ranges_spec (F : Z -> VirtualSlice) l m :
  (forall r v, (r, v) ∈ l -> r.1 < r.2 /\ forall x, in_range x r = true -> v = F x) ->
  exists m', insert_ranges l m = Ok m' /\
    forall x, rm_get m' x = if touched x l then Some (F x) else rm_get m x.
Proof.
  revert m. induction l as [|[r v] l IH]; intros m Hl; simpl; [by exists m|].
  destruct (Hl r v ltac:(left)) as [Hr Hv]. rewrite (proj2 (Z.ltb_lt _ _)) by done. simpl.
  destruct (IH (rm_insert r.1 r.2 v m)) as (m' & -> & Hm'); [intros r' v' H; apply Hl; by right|].
  exists m'. split; [done|]. intros x. rewrite Hm'. destruct (touched x l); [by rewrite orb_true_r|].
  rewrite orb_false_r, rm_get_insert by done. destruct r as [r1 r2]. simpl.
  destruct (in_range x (r1, r2)) eqn:E; [|done]. f_equal. by apply Hv.
Qed.

(** What a position of the chunk shows. *)
Definition shown (raw : list Slice) (x : Z) : VirtualSlice :=
  match latest raw x with Some s => virtual_of s | None => Hole end.

(** The gaps of a query and the overlapping ranges, clipped, as [read] inserts
    them: together they touch every position of the query. *)
Definition gap_entries (a b : Z) (m : rm_t (V:=Slice)) : list (entry VirtualSlice) :=
  (fun g => (g, Hole)) <$> rm_gaps a b m.

Definition clip (a b : Z) (en : entry Slice) : entry VirtualSlice :=
  ((Z.max en.1.1 a, Z.min en.1.2 b), virtual_of en.2).

Definition clipped (a b : Z) (m : rm_t (V:=Slice)) : list (entry VirtualSlice) := clip a b <$> rm_overlapping a b m.

Lemma gap_entry a b m r v :
  a < b -> (r, v) ∈ gap_entries a b m ->
  r.1 < r.2 /\ forall x, in_range x r = true -> v = Hole /\ a <= x < b /\ rm_get m x = None.
Proof.
  intros Hab Hin. destruct (rm_gaps_spec a b m Hab) as (Hgs & Hge & Hgc).
  apply list_elem_of_fmap in Hin as (g & [= -> ->] & Hin).
  pose proof (ranges_sorted_lower _ _ _ Hgs Hin). pose proof (Hge g Hin). split; [lia|]. intros x Hx.
  assert (a <= x < b) by (apply in_range_true in Hx; lia). split_and!; [done|lia|lia|]. apply Hgc; [lia|]. by exists g.
Qed.

Lemma clipped_entry a b m r v :
  a < b -> (r, v) ∈ clipped a b m ->
  r.1 < r.2 /\ forall x, in_range x r = true -> a <= x < b /\ exists s, rm_get m x = Some s /\ v = virtual_of s.
Proof.
  intros Hab Hin. destruct (rm_iter_sorted m) as [lo Hlo].
  apply list_elem_of_fmap in Hin as ([[e1 e2] t] & [= -> ->] & Hin).
  rewrite rm_overlapping_spec in Hin by done. apply list_elem_of_filter in Hin as [Ho Hin].
  unfold overlaps in Ho. simpl in Ho. to_prop.
  assert (lo <= e1 /\ e1 < e2).
  { apply (ranges_sorted_lower lo (rm_iter m).*1 (e1, e2)); [done|]. apply list_elem_of_fmap. by exists ((e1, e2), t). }
  simpl. split; [lia|]. intros x Hx. apply in_range_true in Hx. simpl in Hx. split; [lia|]. exists t. split; [|done].
  apply (entries_get_elem _ lo x (e1, e2) t); [done|done|]. apply in_range_true. simpl. lia.
Qed.

Lemma query_touched a b m x :
  a < b -> touched x (gap_entries a b m) || touched x (clipped a b m) = in_range x (a, b).
Proof.
  intros Hab. apply eq_true_iff_eq. rewrite orb_true_iff, !touched_true, in_range_true. simpl. split.
  - intros [([r v] & Hin & Hr)|([r v] & Hin & Hr)].
    + apply (gap_entry a b m r v Hab Hin). done.
    + apply (clipped_entry a b m r v Hab Hin). done.
  - intros Hx. destruct (rm_gaps_spec a b m Hab) as (_ & _ & Hgc). destruct (rm_get m x) as [t|] eqn:Et.
    + right. apply entries_get_Some in Et as ([e1 e2] & Hin & Hr). apply in_range_true in Hr. simpl in Hr.
      exists (clip a b ((e1, e2), t)). split; [|apply in_range_true; simpl; lia].
      apply list_elem_of_fmap. exists ((e1, e2), t). split; [done|].
      rewrite rm_overlapping_spec by done. apply list_elem_of_filter. split; [|done].
      unfold overlaps. simpl. by rewrite !(proj2 (Z.ltb_lt _ _)) by lia.
    + left. apply Hgc in Et as (g & Hin & Hr); [|done]. exists (g, Hole). split; [|done].
      apply list_elem_of_fmap. by exists g.
Qed.

(** The pieces tile the query, and each shows what its positions show. *)
Lemma virtual_slices_spec raw a b :
  Forall (fun s => 0 < get_size s) raw -> a < b ->
  exists pieces, virtual_slices raw a b = Ok pieces /\ tiles a b pieces /\
    forall r v, (r, v) ∈ pieces -> forall x, in_range x r = true -> v = shown raw x.
Proof.
  intros Hraw Hab. unfold virtual_slices.
  destruct (overlook_from_ok (E:=VfsError) raw Hraw rm_new) as [m Hm]. fold (overlook (E:=VfsError) raw) in Hm.
  rewrite Hm. simpl. fold (gap_entries a b m).
  assert (Hg : forall x, rm_get m x = latest raw x).
  { intros x. rewrite (overlook_from_spec _ _ _ Hm). destruct (latest raw x); [done|].
    unfold rm_get. by rewrite rm_iter_new. }
  destruct (insert_ranges_spec (shown raw) (gap_entries a b m) rm_new) as (m1 & -> & H1).
  { intros r v [Hr Hin]%gap_entry; [|done]. split; [done|]. intros x (-> & _ & Hn)%Hin. unfold shown. by rewrite <- Hg, Hn. }
  simpl. change (insert_ranges _ m1) with (insert_ranges (clipped a b m) m1).
  destruct (insert_ranges_spec (shown raw) (clipped a b m) m1) as (m2 & -> & H2).
  { intros r v [Hr Hin]%clipped_entry; [|done]. split; [done|]. intros x (_ & s & Hs & ->)%Hin.
    unfold shown. by rewrite <- Hg, Hs. }
  simpl. exists (rm_iter m2). split; [done|].
  assert (Hx : forall x, entries_get (rm_iter m2) x = if in_range x (a, b) then Some (shown raw x) else None).
  { intros x. fold (rm_get m2 x). rewrite H2, H1, <- (query_touched a b m x Hab). unfold rm_get. rewrite rm_iter_new.
    by destruct (touched x (clipped a b m)), (touched x (gap_entries a b m)). }
  destruct (rm_iter_sorted m2) as [lo2 Hs2]. split.
  - apply (tiles_cover _ lo2); [lia|done|]. intros x. rewrite Hx. rewrite <- (in_range_true x (a, b)).
    destruct (in_range x (a, b)); split; done.
  - intros r v Hin x Hr. pose proof (entries_get_elem _ _ _ _ _ Hs2 Hin Hr) as He. rewrite Hx in He.
    destruct (in_range x (a, b)); congruence.
Qed.

(** ** The bytes of a chunk and of a file *)

Definition chunk_byte (content : Z -> Z -> Byte.byte) (raw : list Slice) (x : Z) : Byte.byte :=
  match shown raw x with
  | Hole => Byte.x00
  | VSlice s => content (get_id s) (get_underlying_offset s + (x - get_chunk_pos s))
  end.

Definition file_byte (content : Z -> Z -> Byte.byte) (slices : Z -> list Slice) (x : Z) : Byte.byte :=
  chunk_byte content (slices (x / CHUNK_SIZE)) (x `mod` CHUNK_SIZE).

(** Reading a file of [length] bytes. *)
Definition file_read (f : Z -> Byte.byte) (length offset n : Z) : bytes := reads f offset (Z.min n (length - offset)).

(** A slice whose bytes are in the caches or the store. *)
Definition slice_ok (content : Z -> Z -> Byte.byte) (s : CacheSys) (sl : Slice) : Prop :=
  0 < get_size sl /\
  (get_id sl <> EMPTY_SLICE_ID ->
   0 <= get_underlying_offset sl /\ get_underlying_offset sl + get_size sl <= get_underlying_size sl <= CHUNK_SIZE /\
   slice_stored (get_id sl) (content (get_id sl)) (get_underlying_size sl) s).

Lemma slice_ok_grows content s s' sl : grows s s' -> slice_ok content s sl -> slice_ok content s' sl.
Proof. intros Hg [H1 H2]. split; [done|]. intros (? & ? & ?)%H2. split; [done|]. split; [done|]. by eapply slice_stored_grows. Qed.

Lemma splice_twice (x y l : bytes) t :
  0 <= t -> t + zlen x + zlen y <= zlen l -> splice (t + zlen x) y (splice t x l) = splice t (x ++ y) l.
Proof.
  intros Ht Hl. pose proof (zlen_nonneg x). pose proof (zlen_nonneg y).
  apply bytes_ext; rewrite !zlen_splice; rewrite ?zlen_splice, ?zlen_app; try lia. intros i Hi.
  rewrite !bget_splice; rewrite ?zlen_splice, ?zlen_app; try lia.
  destruct (t + zlen x <=? i) eqn:E1; destruct (i <? t + zlen x + zlen y) eqn:E2; destruct (t <=? i) eqn:E3;
    destruct (i <? t + zlen x) eqn:E4; destruct (i <? t + (zlen x + zlen y)) eqn:E5; to_prop; try lia; simpl; try done.
  - rewrite bget_app_r by lia. f_equal. lia.
  - by rewrite bget_app_l by lia.
Qed.

(** One piece: its bytes land in the buffer where the read stands. *)
Lemma read_piece_spec io content raw r vs v s d :
  (forall k, block_io_ok (io k)) -> data_ok s d -> Forall (slice_ok content s) raw ->
  r.1 < r.2 -> (forall x, in_range x r = true -> vs = shown raw x) ->
  0 <= rv_total v -> rv_total v + (r.2 - r.1) <= zlen (rv_dst v) ->
  exists s', data_ok s' (read_piece io r vs r.1 v d).2 /\ grows s s' /\
    outcome_ok io (read_piece io r vs r.1 v d).1 (.=
      (r.2, mkVars (rv_total v + (r.2 - r.1)) (rv_left v - (r.2 - r.1))
              (splice (rv_total v) (reads (chunk_byte content raw) r.1 (r.2 - r.1)) (rv_dst v)))).
Proof.
  intros Hio Hd Hraw Hr Hvs Ht Hl. unfold read_piece. set (n := r.2 - r.1) in *.
  replace (rv_total v + r.1 - r.1) with (rv_total v) by lia.
  replace (rv_total v + r.2 - r.1) with (rv_total v + n) by lia.
  replace (rv_total v + n - rv_total v) with n by lia. replace (r.1 + n) with r.2 by lia.
  rewrite !(proj2 (Z.leb_le _ _)) by lia. cbn [negb andb].
  destruct vs as [|sl].
  - exists s. split; [done|]. split; [done|]. simpl. do 3 f_equal. apply bytes_ext; rewrite zlen_zeros by lia.
    { by rewrite zlen_reads by lia. }
    intros i Hi. rewrite bget_zeros, bget_reads by lia. unfold chunk_byte. rewrite <- Hvs; [done|].
    apply in_range_true. lia.
  - assert (Hsl : forall x, r.1 <= x < r.2 -> latest raw x = Some sl /\ get_id sl <> EMPTY_SLICE_ID).
    { intros x Hx. specialize (Hvs x (proj2 (in_range_true x r) Hx)). unfold shown, virtual_of in Hvs.
      destruct (latest raw x) as [t|]; [|done]. destruct (get_id t =? EMPTY_SLICE_ID) eqn:E; [done|]. to_prop.
      by injection Hvs as ->. }
    destruct (Hsl r.1 ltac:(lia)) as [H1 Hne]. destruct (Hsl (r.2 - 1) ltac:(lia)) as [H2 _].
    apply latest_Some in H1 as [Hin H1%in_range_true]. apply latest_Some in H2 as [_ H2%in_range_true]. simpl in H1, H2.
    rewrite Forall_forall in Hraw. destruct (Hraw sl Hin) as [_ Hok]. destruct (Hok Hne) as (Ho & Hsz & Hst).
    assert (Hz : zlen (sublist (rv_total v) n (rv_dst v)) = n) by (apply zlen_sublist; lia).
    unfold saturating_sub. rewrite Z.max_r by lia.
    destruct (read_slice_from_cache_spec io (get_id sl) (content (get_id sl)) (get_underlying_size sl)
                (get_underlying_offset sl + (r.1 - get_chunk_pos sl)) (sublist (rv_total v) n (rv_dst v)) s d Hio Hst Hd)
      as (s1 & Hd1 & Hg1 & Hr1); [lia|lia|lia|].
    destruct (read_slice_from_cache _ _ _ _ _ _) as [res d1]. cbn [fst snd] in *.
    exists s1. split; [done|]. split; [done|]. destruct res as [[q y]|e|]; [|done|done]. simpl in Hr1 |- *.
    subst y. rewrite Hz. do 2 f_equal. f_equal. apply reads_shift. intros k Hk. unfold chunk_byte.
    rewrite <- (Hvs (r.1 + k)) by (apply in_range_true; lia). f_equal. lia.
Qed.

Lemma read_pieces_spec io content raw l a b v s d :
  (forall k, block_io_ok (io k)) -> data_ok s d -> Forall (slice_ok content s) raw -> tiles a b l ->
  (forall r vs, (r, vs) ∈ l -> forall x, in_range x r = true -> vs = shown raw x) ->
  0 <= rv_total v -> rv_total v + (b - a) <= zlen (rv_dst v) ->
  exists s', data_ok s' (read_pieces io l a v d).2 /\ grows s s' /\
    outcome_ok io (read_pieces io l a v d).1 (.=
      mkVars (rv_total v + (b - a)) (rv_left v - (b - a))
        (splice (rv_total v) (reads (chunk_byte content raw) a (b - a)) (rv_dst v))).
Proof.
  intros Hio. revert a v s d. induction l as [|[r vs] l IH]; intros a v s d Hd Hraw Ht Hvs H0 Hl; simpl in Ht.
  { subst b. exists s. split; [done|]. split; [done|]. simpl. rewrite Z.sub_diag, reads_nil by lia.
    destruct v as [t k dst]; simpl in *. f_equal; [lia|lia|]. unfold splice. simpl. by rewrite Nat.add_0_r, take_drop. }
  destruct Ht as (<- & Hr & Ht). pose proof (tiles_le _ _ _ Ht). cbn [read_pieces].
  destruct (read_piece_spec io content raw r vs v s d Hio Hd Hraw Hr) as (s1 & Hd1 & Hg1 & Hr1);
    [intros x; apply Hvs; left|done|lia|].
  destruct (read_piece _ _ _ _ _ _) as [res d1]. cbn [fst snd] in *.
  destruct res as [[pos v1]|e|]; [|by exists s1|done]. simpl in Hr1. injection Hr1 as -> Hv1.
  set (x := reads (chunk_byte content raw) r.1 (r.2 - r.1)) in *.
  assert (Hx : zlen x = r.2 - r.1) by (apply zlen_reads; lia).
  destruct (IH r.2 v1 s1 d1) as (s2 & Hd2 & Hg2 & Hr2).
  - done.
  - eapply Forall_impl; [exact Hraw|]. intros sl. by apply slice_ok_grows.
  - done.
  - intros r' vs' Hin. apply Hvs. by right.
  - rewrite Hv1. simpl. lia.
  - rewrite Hv1. simpl. rewrite zlen_splice by lia. lia.
  - exists s2. split; [exact Hd2|]. split; [by transitivity s1|]. destruct (read_pieces _ _ _ _ _) as [res d2].
    destruct res as [v2|e|]; [|done|done]. simpl in Hr2 |- *. rewrite Hr2, Hv1. simpl.
    f_equal; [lia|lia|]. rewrite <- Hx, splice_twice; [|lia|rewrite zlen_reads by lia; lia].
    pose proof (reads_app (chunk_byte content raw) r.1 (r.2 - r.1) (b - r.2)) as Happ.
    replace (r.1 + (r.2 - r.1)) with r.2 in Happ by lia. unfold x. rewrite Happ by lia. do 2 f_equal. lia.
Qed.
End virtual_facts.
End slices.

(** ** Reads against the metadata interface *)

(** What the metadata engine promises: the slices of a chunk are what it shows of
    it, and reading them does not change what it shows. *)
Class MetaReaderView (M : Type) {MR : MetaReader M} := {
  mv_ok : M -> Prop;
  mv_slices : M -> Z -> Z -> option (list Slice);
  mv_read m ino c l :
    0 <= ino -> 0 <= c -> mv_ok m -> mv_slices m ino c = Some l ->
    exists m', mr_read_slice ino c m = (Ok (Some l), m') /\ mv_ok m' /\ mv_slices m' = mv_slices m
}.

Section read_facts.
Context `{L : Layout} `{R : RangeMapOps Slice} {HR : RangeMapLaws Slice} `{RV : RangeMapOps VirtualSlice}
  {HV : RangeMapLaws VirtualSlice} {M : Type} `{MV : MetaReaderView M}.

(** Every chunk of a file of [length] bytes shows stored slices. *)
Definition file_visible (content : Z -> Z -> Byte.byte) (slices : Z -> list Slice) (ino length : Z) (m : M) (s : CacheSys)
    : Prop :=
  forall c, 0 <= c -> c * CHUNK_SIZE < length ->
    mv_slices m ino c = Some (slices c) /\ Forall (slice_ok content s) (slices c).

Lemma file_visible_grows content slices ino length m m' s s' :
  grows s s' -> mv_slices m' = mv_slices m ->
  file_visible content slices ino length m s -> file_visible content slices ino length m' s'.
Proof.
  intros Hg Hm H c Hc Hl. destruct (H c Hc Hl) as [H1 H2]. split; [by rewrite Hm|].
  eapply Forall_impl; [exact H2|]. intros sl. by apply slice_ok_grows.
Qed.

(** The part of a chunk a round of the loop reads. *)
Lemma chunk_round offset t n c :
  0 <= offset -> 0 <= t -> (offset + t) / CHUNK_SIZE = c -> n <= CHUNK_SIZE - (offset + t) `mod` CHUNK_SIZE ->
  forall content slices,
  reads (chunk_byte content (slices c)) ((offset + t) `mod` CHUNK_SIZE) n = reads (file_byte content slices) (offset + t) n.
Proof.
  intros Ho Ht Hc Hn content slices. pose proof chunk_size_pos. apply reads_shift. intros k Hk. unfold file_byte.
  assert (HC0 : CHUNK_SIZE <> 0) by lia. pose proof (Z.mod_pos_bound (offset + t) CHUNK_SIZE ltac:(done)).
  pose proof (Z.div_mod (offset + t) CHUNK_SIZE HC0) as Hdm. rewrite Hc in Hdm.
  assert (Hq : (offset + t + k) / CHUNK_SIZE = c)
    by (symmetry; apply (Z.div_unique _ _ _ ((offset + t) `mod` CHUNK_SIZE + k)); lia).
  assert (Hr : (offset + t + k) `mod` CHUNK_SIZE = (offset + t) `mod` CHUNK_SIZE + k)
    by (symmetry; apply (Z.mod_unique _ _ c); lia).
  by rewrite Hq, Hr.
Qed.

(** What a read leaves of the engine and of the caches: the same slices, and
    nothing acknowledged is lost. *)
Definition read_leaves (m : M) (s : CacheSys) (md : M * DataSys) : Prop :=
  exists s', data_ok s' md.2 /\ grows s s' /\ mv_ok md.1 /\ mv_slices md.1 = mv_slices m.

Lemma read_leaves_trans m s m1 s1 md :
  grows s s1 -> mv_slices m1 = mv_slices m -> read_leaves m1 s1 md -> read_leaves m s md.
Proof. intros Hg Hm (s' & H1 & H2 & H3 & H4). exists s'. split_and!; [done|by etrans|done|congruence]. Qed.

Lemma read_chunks_spec io content slices ino length offset expected k c t dst m s d :
  (forall k, block_io_ok (io k)) -> data_ok s d -> mv_ok m -> file_visible content slices ino length m s ->
  0 <= ino -> 0 <= offset -> offset + expected <= length -> expected <= zlen dst -> 0 <= t <= expected ->
  c + Z.of_nat k = (offset + expected - 1) / CHUNK_SIZE + 1 ->
  (k <> 0%nat -> (offset + t) / CHUNK_SIZE = c /\ t < expected) -> (k = 0%nat -> t = expected) ->
  let v := mkVars t (expected - t) (splice 0 (reads (file_byte content slices) offset t) dst) in
  let out := read_chunks io ino offset CHUNK_SIZE (seqZ c (Z.of_nat k)) v m d in
  outcome_ok io out.1 (.= inl (mkVars expected 0 (splice 0 (reads (file_byte content slices) offset expected) dst))) /\
  read_leaves m s out.2.
Proof.
  intros Hio. revert c t m s d. induction k as [|k IH]; intros c t m s d Hd Hm Hv Hi Ho Hlen Hdst Ht Hck H1 H0 v out.
  { subst out v. rewrite (H0 eq_refl). simpl. rewrite Z.sub_diag. split; [done|]. by exists s. }
  destruct H1 as [Hc Hlt]; [done|]. subst out v. rewrite seqZ_cons by lia. cbn [read_chunks rv_total rv_left].
  pose proof chunk_size_pos as HC. set (pos := (offset + t) `mod` CHUNK_SIZE).
  assert (Hpos : 0 <= pos < CHUNK_SIZE) by (by apply Z.mod_pos_bound).
  assert (Hdm : offset + t = CHUNK_SIZE * c + pos) by (rewrite <- Hc; apply Z.div_mod; lia).
  assert (Hc0 : 0 <= c) by (rewrite <- Hc; apply Z.div_pos; lia).
  set (n := Z.min (CHUNK_SIZE - pos) (expected - t)). assert (Hn : 1 <= n) by lia.
  destruct (Hv c) as [Hsl Hok]; [done|lia|]. destruct (mv_read m ino c _ Hi Hc0 Hm Hsl) as (m1 & -> & Hm1 & Hsame).
  destruct (virtual_slices_spec (slices c) pos (pos + n)) as (pieces & -> & Htile & Hshown);
    [eapply Forall_impl; [exact Hok|]; by intros sl []|lia|].
  set (w := reads (file_byte content slices) offset t). assert (Hw : zlen w = t) by (apply zlen_reads; lia).
  assert (Hdw : zlen (splice 0 w dst) = zlen dst) by (apply zlen_splice; lia).
  destruct (read_pieces_spec io content (slices c) pieces pos (pos + n) (mkVars t (expected - t) (splice 0 w dst)) s d
              Hio Hd Hok Htile Hshown) as (s1 & Hd1 & Hg1 & Hr1); [simpl; lia|simpl; lia|].
  destruct (read_pieces _ _ _ _ _) as [res d1]. cbn [fst snd] in *.
  assert (Hleft : read_leaves m s (m1, d1)) by (by exists s1).
  destruct res as [v1|e|]; [|done|done].
  simpl in Hr1. replace (pos + n - pos) with n in Hr1 by lia.
  rewrite (chunk_round offset t n c) in Hr1 by (done || lia). rewrite <- Hw in Hr1 at 3.
  rewrite (splice_twice w _ dst 0) in Hr1 by (rewrite ?zlen_reads; lia).
  unfold w in Hr1. rewrite reads_app in Hr1 by lia. subst v1.
  replace (expected - t - n) with (expected - (t + n)) by lia.
  replace (Z.pred (Z.of_nat (S k))) with (Z.of_nat k) by lia. replace (Z.succ c) with (c + 1) by lia.
  match goal with |- outcome_ok _ ?out.1 ?P /\ _ => cut (outcome_ok io out.1 P /\ read_leaves m1 s1 out.2) end.
  { intros [Hout Hl]. split; [exact Hout|]. by eapply read_leaves_trans. }
  apply (IH (c + 1) (t + n) m1 s1 d1); try done; try lia.
  - by eapply file_visible_grows.
  - intros Hk. assert (Hlast : c + 1 <= (offset + expected - 1) / CHUNK_SIZE) by lia.
    pose proof (Z.mul_div_le (offset + expected - 1) CHUNK_SIZE HC).
    assert (CHUNK_SIZE * (c + 1) <= offset + expected - 1) by nia.
    assert (n = CHUNK_SIZE - pos) by lia. split; [|lia].
    replace (offset + (t + n)) with ((c + 1) * CHUNK_SIZE) by lia. by apply Z.div_mul; lia.
  - intros ->. destruct (decide (t + n = expected)); [done|]. exfalso.
    assert (n = CHUNK_SIZE - pos) by lia. assert (Hq : c + 1 <= (offset + expected - 1) / CHUNK_SIZE); [|lia].
    apply Z.div_le_lower_bound; [done|]. lia.
Qed.

(** What [read] returns, against the abstract file, and what it leaves. *)
Lemma read_full io content slices fr offset dst m s d :
  (forall k, block_io_ok (io k)) -> data_ok s d -> mv_ok m -> 0 <= fr_ino fr -> 0 <= offset ->
  file_visible content slices (fr_ino fr) (fr_length fr) m s ->
  let expected := file_read (file_byte content slices) (fr_length fr) offset (zlen dst) in
  let out := read io fr CHUNK_SIZE offset dst m d in
  outcome_ok io out.1 (fun nb => nb.1 = zlen expected /\ nb.2 = splice 0 expected dst) /\ read_leaves m s out.2.
Proof.
  intros Hio Hd Hm Hi Ho Hv expected out. subst out. pose proof (zlen_nonneg dst) as Hz. pose proof chunk_size_pos as HC.
  unfold read.
  destruct (fr_length fr <=? offset) eqn:E1; [|destruct (zlen dst =? 0) eqn:E2]; to_prop; cbn [orb].
  1,2: assert (expected = []) as -> by (unfold expected, file_read; apply reads_nil; lia);
    split; [by split|by exists s].
  set (n := Z.min (zlen dst) (fr_length fr - offset)) in *. assert (Hn : 0 < n) by lia.
  pose proof (Z.div_le_mono offset (offset + n - 1) CHUNK_SIZE HC ltac:(lia)) as Hle.
  set (first := offset / CHUNK_SIZE) in *. set (last := (offset + n - 1) / CHUNK_SIZE) in *.
  pose proof (read_chunks_spec io content slices (fr_ino fr) (fr_length fr) offset n (Z.to_nat (last - first + 1)) first 0 dst
                m s d Hio Hd Hm Hv Hi Ho) as H.
  rewrite Z2Nat.id in H by lia. cbv zeta in H. rewrite reads_nil, Z.sub_0_r in H by lia.
  change (splice 0 [] dst) with (drop 0 dst) in H. rewrite drop_0 in H.
  specialize (H ltac:(lia) ltac:(lia) ltac:(lia) ltac:(lia)). rewrite Z.add_0_r in H.
  specialize (H ltac:(done) ltac:(lia)).
  destruct (read_chunks _ _ _ _ _ _ _ _) as [res md]. destruct res as [o|e|]; cbn in H |- *; destruct H as [H Hl]; [|done..].
  rewrite H. cbn. split; [|done]. unfold expected, file_read. fold n. by rewrite zlen_reads by lia.
Qed.

Lemma read_spec io content slices fr offset dst m s d :
  (forall k, block_io_ok (io k)) -> data_ok s d -> mv_ok m -> 0 <= fr_ino fr -> 0 <= offset ->
  file_visible content slices (fr_ino fr) (fr_length fr) m s ->
  let expected := file_read (file_byte content slices) (fr_length fr) offset (zlen dst) in
  match (read io fr CHUNK_SIZE offset dst m d).1 with
  | Ok (n, out) => n = zlen expected /\ out = splice 0 expected dst
  | Err _ => exists k, answered (io k) = false
  | Panic => False
  end.
Proof.
  intros Hio Hd Hm Hi Ho Hv expected.
  destruct (read_full io content slices fr offset dst m s d Hio Hd Hm Hi Ho Hv) as [H _].
  by destruct (read _ _ _ _ _ _ _).1 as [[n out]| |].
Qed.

(** C5: a read refines the abstract file: it returns as many bytes as the file
    has from the offset on, up to the size of the buffer, and the buffer then
    starts with exactly the bytes of the file there and is unchanged after them;
    it never panics and fails only where a store does not answer, while any
    staging, migration, eviction and loading goes on between its lookups. *)
Theorem read_refines_file io content slices fr offset dst m s d :
  (forall k, block_io_ok (io k)) -> data_ok s d -> mv_ok m -> 0 <= fr_ino fr -> 0 <= offset ->
  file_visible content slices (fr_ino fr) (fr_length fr) m s ->
  let expected := file_read (file_byte content slices) (fr_length fr) offset (zlen dst) in
  match (read io fr CHUNK_SIZE offset dst m d).1 with
  | Ok (n, out) => n = zlen expected /\ out = splice 0 expected dst
  | Err _ => exists k, answered (io k) = false
  | Panic => False
  end.
Proof. apply read_spec. Qed.
End read_facts.

(** *** A run on the small layout *)

Section reader_run.
#[local] Existing Instance tiny_layout.
#[local] Existing Instance list_range_map.
#[local] Existing Instance list_range_map_laws.

(** An engine that is a table of chunks. *)
#[local] Instance table_reader : MetaReader (gmap (Z * Z) (list Slice)) := {
  mr_read_slice i c m := (ok_or (Some <$> m !! (i, c)) (LibcError EIO), m)
}.
#[local] Program Instance table_view : MetaReaderView (gmap (Z * Z) (list Slice)) := {
  mv_ok _ := True;
  mv_slices m i c := m !! (i, c)
}.
Next Obligation. intros m i c l _ _ _ H. exists m. cbn. by rewrite H. Qed.

(** The seven bytes of the published slice, then a hole over the last of them;
    the file has a second chunk that is one hole. *)
Definition rd_table : gmap (Z * Z) (list Slice) :=
  {[ (9, 0) := [Owned 0 7 7 0; Owned 6 0 3 0]; (9, 1) := [Owned 0 0 4 0] ]}.
Definition rd_slices (c : Z) : list Slice := default [] (rd_table !! (9, c)).
Definition rd_io (k : SliceKey) : BlockIo := mkBlockIo true true true id id.
Definition rd_fr : FileReader := mkFR 9 1 14 false.
Definition rd_data : DataSys := mkData (d_cache wr_done.1.2) ∅.

Lemma id_env_ok : env_ok id.
Proof. intros s d (? & ? & ?). exists s. split; [apply rtc_refl|done]. Qed.

Lemma read_refines_file_witness :
  (read rd_io rd_fr CHUNK_SIZE 3 (replicate 10 Byte.xff) rd_table rd_data).1 =
    Ok (10, [Byte.x64; Byte.x65; Byte.x66; Byte.x00; Byte.x00; Byte.x00; Byte.x00; Byte.x00; Byte.x00; Byte.x00]) /\
  file_read (file_byte (fun _ => wr_data) rd_slices) 14 3 10 =
    [Byte.x64; Byte.x65; Byte.x66; Byte.x00; Byte.x00; Byte.x00; Byte.x00; Byte.x00; Byte.x00; Byte.x00].
Proof.
  destruct wr_cache_inv as (s & Hc & Ic & Hst).
  assert (Hd : data_ok s rd_data).
  { split; [exact Ic|]. split; [exact Hc|]. intros k b H. cbn in H. by rewrite lookup_empty in H. }
  assert (Hv : file_visible (fun _ => wr_data) rd_slices 9 14 rd_table s).
  { intros c H0 H1. change CHUNK_SIZE with 12 in H1. assert (c = 0 \/ c = 1) as [-> | ->] by lia.
    - split; [reflexivity|]. change (rd_slices 0) with [Owned 0 7 7 0; Owned 6 0 3 0].
      apply Forall_cons_2; [|apply Forall_cons_2; [split; [cbn; lia|intros []; reflexivity]|by apply Forall_nil]].
      split; [cbn; lia|]. intros _. cbn [get_underlying_offset get_underlying_size get_size get_id].
      change CHUNK_SIZE with 12. split; [lia|]. split; [lia|exact Hst].
    - split; [reflexivity|]. change (rd_slices 1) with [Owned 0 0 4 0].
      apply Forall_cons_2; [split; [cbn; lia|intros []; reflexivity]|by apply Forall_nil]. }
  pose proof (read_refines_file rd_io (fun _ => wr_data) rd_slices rd_fr 3 (replicate 10 Byte.xff) rd_table s rd_data
    (fun _ => conj id_env_ok id_env_ok) Hd I ltac:(vm_compute; discriminate) ltac:(lia) Hv) as H.
  assert (E : (read rd_io rd_fr CHUNK_SIZE 3 (replicate 10 Byte.xff) rd_table rd_data).1 =
    Ok (10, [Byte.x64; Byte.x65; Byte.x66; Byte.x00; Byte.x00; Byte.x00; Byte.x00; Byte.x00; Byte.x00; Byte.x00]))
    by (vm_compute; reflexivity).
  split; [exact E|]. rewrite E in H. destruct H as [_ H]. vm_compute. reflexivity.
Defined.
End reader_run.
