(* ===== verification/DataPath.v ===== *)
(** * The data path, end to end

    The metadata engine implements the interfaces of the writer and the reader:
    [engine_view] and [engine_log] discharge what the two rely on.  Publishing a
    slice writer and then reading the file gives the abstract file overwritten
    with the bytes that were written. *)

From S2P Require Import Prelude Common Types Bincode RangeMap Slice SliceKey Keys KV Meta OpenFiles Backend FsModel.
From S2P Require Import Namespace Reach RefStore NsThms Chunks IdTable Engine Records EngineInv EngineThms Pool SliceBuffer SliceBufferThms.
From S2P Require Import SliceIO FileCache FileCacheThms Writer Staging WriterThms Reader ReaderThms.
Open Scope Z_scope.

(** What publishing promises to readers. *)
Class MetaLog (M : Type) {MC : MetaClient M} {MR : MetaReader M} {MV : MetaReaderView M} : Prop := {
  ml_next m r m' :
    mv_ok m -> mc_next_slice_id m = (r, m') ->
    mv_ok m' /\ forall i c, 0 <= i -> 0 <= c -> mv_slices m' i c = mv_slices m i c;
  ml_write m ino c pos s m' :
    0 <= ino -> 0 <= c -> slice_wf s = true -> mv_ok m -> mc_write_slice ino c pos s m = (Ok (), m') ->
    mv_ok m' /\
    mv_slices m' ino c = Some (add_slice s (default [] (mv_slices m ino c))) /\
    forall i k, 0 <= i -> 0 <= k -> (i, k) <> (ino, c) -> mv_slices m' i k = mv_slices m i k;
  (** A call that fails changes no chunk, and no call panics. *)
  ml_write_failed m ino c pos s r m' :
    mv_ok m -> mc_write_slice ino c pos s m = (r, m') -> r <> Ok () ->
    mv_ok m' /\ forall i k, 0 <= i -> 0 <= k -> mv_slices m' i k = mv_slices m i k;
  ml_next_total m : (mc_next_slice_id m).1 <> Panic;
  ml_write_total m ino c pos cp sid len off : (mc_write_slice ino c pos (Owned cp sid len off) m).1 <> Panic
}.

(** ** The engine behind the interfaces *)

Section engine_client.
Context `{L : Layout} `{KL : KVLaws} `{CL : MetaCodecLaws}.
Variable ws : nat -> World.
Hypothesis clock_after_epoch : forall n, UNIX_EPOCH <= clk (ws n) 0.

(** The engine and the number of calls made to it; call [n] happens in [ws n]. *)
Record EngM := mkEM { em_engine : Engine.MetaEngine; em_calls : nat }.

Definition em_run {A} (f : World -> Engine.eng A) (m : EngM) : Result A * EngM :=
  let '(r, e) := f (ws (em_calls m)) (em_engine m) in (r, mkEM e (S (em_calls m))).

#[export] Instance engine_client : MetaClient EngM := {
  mc_next_slice_id := em_run Engine.next_slice_id;
  mc_write_slice ino c pos s := em_run (fun w => Engine.write_slice w ino c pos s)
}.

#[export] Instance engine_reader : MetaReader EngM := {
  mr_read_slice ino c := em_run (fun w => Engine.read_slice w ino c)
}.

Definition em_slices (m : EngM) (i c : Z) : option (list Slice) :=
  match get_chunk_slices (Engine.backend (em_engine m)) i c with Ok l => Some l | _ => None end.

(** An open file caches only what the store holds, and was checked in the past. *)
Definition file_coherent (db : db_t) (n : nat) (i : Z) (f : OpenFileInner) : Prop :=
  (forall k, (n <= k)%nat -> last_check f <= clk (ws k) 0) /\
  forall c l, chunks f !! c = Some l -> get_chunk_slices db i c = Ok l.

Record em_ok (m : EngM) : Prop := {
  em_holds : forall i c, 0 <= i -> 0 <= c -> exists l, holds (Engine.backend (em_engine m)) i c l;
  em_files : forall i f, of_load (Engine.open_files (em_engine m)) i = Some f ->
    0 <= i /\ file_coherent (Engine.backend (em_engine m)) (em_calls m) i f;
  em_chunks : forall i f c l, of_load (Engine.open_files (em_engine m)) i = Some f -> chunks f !! c = Some l -> 0 <= c
}.

Lemma em_slices_holds m i c l :
  holds (Engine.backend (em_engine m)) i c l -> em_slices m i c = match l with [] => None | _ => Some l end.
Proof.
  intros H. unfold em_slices. destruct l as [|s l]; [|by rewrite (holds_decode _ _ _ _ H)].
  destruct H as [H _]. unfold get_chunk_slices, slices_encode in *. simpl in H.
  destruct (kv_get _ _) as [b|]; simpl in *; [|done]. subst b. unfold slices_decode. simpl. done.
Qed.

Lemma get_chunk_frame db db' i c :
  kv_get db' (Key.chunk_slices i c) = kv_get db (Key.chunk_slices i c) -> get_chunk_slices db' i c = get_chunk_slices db i c.
Proof. intros H. unfold get_chunk_slices. by rewrite H. Qed.

(** *** Reading slices *)

Lemma em_read m ino c l :
  0 <= ino -> 0 <= c -> em_ok m -> em_slices m ino c = Some l ->
  exists m', mr_read_slice ino c m = (Ok (Some l), m') /\ em_ok m' /\ em_slices m' = em_slices m.
Proof.
  intros Hi Hc [Hh Hf Hk] Hs. unfold em_slices in Hs. cbn [mr_read_slice engine_reader]. unfold em_run, Engine.read_slice.
  set (w := ws (em_calls m)). set (e := em_engine m) in *.
  destruct (get_chunk_slices (Engine.backend e) ino c) as [l'| |] eqn:Hg; [|done..]. injection Hs as ->.
  assert (Hload : load_slices (E:=Meta.Error) (clk w 0) ino c (Engine.open_files e) = Ok None \/
                  load_slices (E:=Meta.Error) (clk w 0) ino c (Engine.open_files e) = Ok (Some l)).
  { unfold load_slices. fold (of_load (Engine.open_files e) ino).
    destruct (of_load (Engine.open_files e) ino) as [f|] eqn:E; [|by left]. destruct (Hf ino f E) as [_ [Hlast Hco]].
    unfold elapsed, duration_since. rewrite (proj2 (Z.leb_le _ _)) by (by apply Hlast). simpl.
    destruct (_ <? _); [|by left]. destruct (chunks f !! c) as [l1|] eqn:El; [|by left]. right.
    pose proof (Hco c l1 El). congruence. }
  unfold mbind, Engine.eng_bind. destruct Hload as [-> | ->].
  - unfold Engine.from_backend. rewrite Hg. eexists. split; [reflexivity|]. split; [|done].
    constructor; cbn [em_engine Engine.backend Engine.set_open_files Engine.open_files em_calls]; [done| |].
    + intros i f. unfold of_load, refresh_slices. simpl. rewrite lookup_alter_Some.
      intros [(-> & f0 & Hf0 & ->)|[Hne Hf0]]; destruct (Hf _ _ Hf0) as [Hi0 [Hlast Hco]]; (split; [done|split]).
      * intros k _. apply clock_after_epoch.
      * intros c0 l0. simpl. rewrite lookup_insert_Some. intros [[<- <-]|[_ H]]; [done|]. by apply Hco.
      * intros k Hk'. apply Hlast. lia.
      * done.
    + intros i f c0 l0. unfold of_load, refresh_slices. simpl. rewrite lookup_alter_Some.
      intros [(-> & f0 & Hf0 & ->)|[Hne Hf0]]; [|by apply (Hk i f)]. simpl. rewrite lookup_insert_Some.
      intros [[<- _]|[_ H]]; [done|]. by apply (Hk i f0 c0 l0).
  - eexists. split; [reflexivity|]. split; [|done]. constructor; cbn [em_engine em_calls]; [done| |done].
    intros i f H. destruct (Hf i f H) as [Hi0 [Hlast Hco]]. split; [done|]. split; [|done]. intros k Hk'. apply Hlast. lia.
Qed.

(** *** Publishing slices *)

(** Calls that leave the chunks of the store and the open files alone. *)
Lemma em_ok_frame m e' :
  em_ok m -> Engine.open_files e' = Engine.open_files (em_engine m) ->
  (forall i c, kv_get (Engine.backend e') (Key.chunk_slices i c) = kv_get (Engine.backend (em_engine m)) (Key.chunk_slices i c)) ->
  em_ok (mkEM e' (S (em_calls m))) /\ forall i c, em_slices (mkEM e' (S (em_calls m))) i c = em_slices m i c.
Proof.
  intros [Hh Hf Hk] Ho Hb. split.
  - constructor; cbn [em_engine em_calls]; rewrite ?Ho.
    + intros i c Hi Hc. destruct (Hh i c Hi Hc) as [l Hl]. exists l. unfold holds in *. by rewrite Hb.
    + intros i f H. destruct (Hf i f H) as [Hi [Hlast Hco]]. split; [done|]. split.
      * intros k Hk'. apply Hlast. lia.
      * intros c l Hc. rewrite (get_chunk_frame (Engine.backend (em_engine m))); [by apply Hco|apply Hb].
    + done.
  - intros i c. unfold em_slices. cbn [em_engine]. by rewrite (get_chunk_frame (Engine.backend (em_engine m))) by apply Hb.
Qed.

Lemma id_next_frame env counter db t r t' db' i c :
  id_next env counter db t = (r, t', db') -> kv_get db' (Key.chunk_slices i c) = kv_get db (Key.chunk_slices i c).
Proof.
  intros H. unfold id_next in H. destruct (id_refill env counter db t) as [r1 db1] eqn:E.
  assert (db' = db1) as -> by (destruct r1; [destruct (skip_reserved _ _ _)|..]; by injection H as <- <- <-).
  unfold id_refill in E. destruct (_ <=? _); [|by injection E as <- <-].
  destruct (Key.get_step _) as [step| |]; [|by injection E as <- <-..].
  destruct (increase_count_by env db counter step) as [r2 db2] eqn:Hinc. injection E as _ <-.
  apply commit_txn_cases in Hinc as [->|(a & Ha)]; [done|].
  apply bind_Ok in Ha as (cur & _ & Ha). cbv zeta in Ha. inv_ok. rewrite kv_get_put_ne; [done|]. destruct counter; key_ne.
Qed.

Lemma em_next m r m' :
  em_ok m -> mc_next_slice_id m = (r, m') -> em_ok m' /\ forall i c, em_slices m' i c = em_slices m i c.
Proof.
  intros Hm. cbn [mc_next_slice_id engine_client]. unfold em_run, Engine.next_slice_id.
  destruct (id_next _ _ _ _) as [[r1 t] db] eqn:E. intros [= <- <-]. apply em_ok_frame; [done|done|].
  intros i c. cbn [Engine.backend Engine.set_backend]. by eapply id_next_frame.
Qed.

(** What a successful commit leaves alone. *)
Lemma commit_frame env now1 now2 db ino c s r db' i k :
  0 <= ino -> 0 <= c -> 0 <= i -> 0 <= k -> (i, k) <> (ino, c) -> slice_wf s = true -> (exists l, holds db ino c l) ->
  commit_slice env now1 now2 db ino c s = (Ok r, db') ->
  kv_get db' (Key.chunk_slices i k) = kv_get db (Key.chunk_slices i k).
Proof.
  intros Hi Hc Hi' Hk Hne Hs [l Hl] H. unfold commit_slice, commit_txn in H.
  destruct (stage_slice_commit now1 now2 db ino c s) as [[r1 txn]| |] eqn:Hst; [|done..].
  destruct (commit_ok env); [|done]. injection H as <- <-.
  unfold stage_slice_commit in Hst. apply bind_Ok in Hst as (a & _ & Hst). apply bind_Ok in Hst as (u & _ & Hst).
  destruct (stage_chunk_slice_spec db ino c s l Hl Hs) as (db1 & Hst1 & _ & Hfr).
  rewrite Hst1 in Hst. cbn [mbind outcome_bind] in Hst. cbv zeta in Hst. inv_ok.
  assert (Hd : kv_get db1 (Key.chunk_slices i k) = kv_get db (Key.chunk_slices i k)).
  { apply Hfr. intros E. apply chunk_key_inj in E as [-> ->]; done || lia. }
  destruct (_ || _); [|done]. unfold txn_put_attr. rewrite kv_get_put_ne; [done|]. key_ne.
Qed.

Lemma em_write m ino c pos s m' :
  0 <= ino -> 0 <= c -> slice_wf s = true -> em_ok m -> mc_write_slice ino c pos s m = (Ok (), m') ->
  em_ok m' /\ em_slices m' ino c = Some (add_slice s (default [] (em_slices m ino c))) /\
  forall i k, 0 <= i -> 0 <= k -> (i, k) <> (ino, c) -> em_slices m' i k = em_slices m i k.
Proof.
  intros Hi Hc Hs [Hh Hf Hk] H. cbn [mc_write_slice engine_client] in H. unfold em_run in H.
  set (w := ws (em_calls m)) in *. destruct (Hh ino c Hi Hc) as [l Hl].
  destruct (Engine.write_slice w ino c pos s (em_engine m)) as [r0 e1] eqn:E. injection H as -> <-. unfold Engine.write_slice in E.
  apply eng_bind_Ok in E as ([] & e0 & [_ ->]%lift_Ok & E). apply eng_bind_Ok in E as ([] & e0 & [_ ->]%lift_Ok & E).
  apply eng_bind_Ok in E as (r & e0 & (db & Hcm & ->)%on_backend_Ok & E).
  assert (He1 : Engine.backend e1 = db /\ Engine.open_files e1 = invalid ino (OneChunk c) (Engine.open_files (em_engine m))).
  { apply eng_bind_Ok in E as ([] & e2 & Hst & E). injection E as <-. destruct (0 <? grew_by r); by injection Hst as <-. }
  destruct He1 as [Hb Ho]. clear E.
  pose proof (commit_holds _ _ _ _ _ _ _ l _ _ Hs Hl Hcm) as Hadd.
  assert (Hfr : forall i k, 0 <= i -> 0 <= k -> (i, k) <> (ino, c) ->
            kv_get db (Key.chunk_slices i k) = kv_get (Engine.backend (em_engine m)) (Key.chunk_slices i k)).
  { intros i k Hi0 Hk0 Hne. eapply commit_frame; [exact Hi|exact Hc|done|done|done|exact Hs|by exists l|exact Hcm]. }
  split; [|split].
  - constructor; cbn [em_engine em_calls]; rewrite ?Hb, ?Ho.
    + intros i k Hi0 Hk0. destruct (decide ((i, k) = (ino, c))) as [[= -> ->]|Hne]; [by eexists|].
      destruct (Hh i k Hi0 Hk0) as [l0 Hl0]. exists l0. unfold holds in *. by rewrite Hfr.
    + intros i f. unfold of_load, invalid. cbn. rewrite lookup_alter_Some. fold (of_load (Engine.open_files (em_engine m))).
      intros [(-> & f0 & Hf0 & ->)|[Hne Hf0]]; destruct (Hf _ _ Hf0) as [Hi0 [Hlast Hco]]; (split; [done|split]).
      * intros k Hk'. apply Hlast. lia.
      * intros k l0. simpl. rewrite lookup_delete_Some. intros [Hne H].
        rewrite (get_chunk_frame (Engine.backend (em_engine m))); [by apply Hco|].
        apply Hfr; [done|by eapply Hk|congruence].
      * intros k Hk'. apply Hlast. lia.
      * intros k l0 H. rewrite (get_chunk_frame (Engine.backend (em_engine m))); [by apply Hco|].
        apply Hfr; [done|by eapply Hk|congruence].
    + intros i f k l0. unfold of_load, invalid. cbn. rewrite lookup_alter_Some.
      intros [(-> & f0 & Hf0 & ->)|[Hne Hf0]]; [|by apply (Hk i f)]. simpl. rewrite lookup_delete_Some.
      intros [_ H]. by apply (Hk i f0 k l0).
  - rewrite (em_slices_holds _ _ _ (add_slice s l)) by (cbn [em_engine]; by rewrite Hb).
    rewrite (em_slices_holds m ino c l Hl). pose proof (add_slice_nonempty s l).
    destruct l as [|s0 l]; simpl; by destruct (add_slice s _).
  - intros i k Hi0 Hk0 Hne. unfold em_slices. cbn [em_engine]. rewrite Hb.
    by rewrite (get_chunk_frame (Engine.backend (em_engine m))) by (by apply Hfr).
Qed.

Lemma commit_txn_failed {A} env db (m : Result (A * db_t)) r db' : commit_txn env db m = (r, db') -> is_ok r = false -> db' = db.
Proof. unfold commit_txn. destruct m as [[a t]| |]; [destruct (commit_ok env)|..]; intros [= <- <-]; done. Qed.

Lemma em_write_failed m ino c pos s r m' :
  em_ok m -> mc_write_slice ino c pos s m = (r, m') -> r <> Ok () ->
  em_ok m' /\ forall i k, em_slices m' i k = em_slices m i k.
Proof.
  intros Hm H Hr. cbn [mc_write_slice engine_client] in H. unfold em_run in H.
  destruct (Engine.write_slice _ ino c pos s (em_engine m)) as [r0 e1] eqn:E. injection H as -> <-.
  assert (He : Engine.open_files e1 = Engine.open_files (em_engine m) /\ Engine.backend e1 = Engine.backend (em_engine m));
    [|apply em_ok_frame; [done|apply He|intros i k; by rewrite (proj2 He)]].
  unfold Engine.write_slice, mbind, Engine.eng_bind, Engine.lift, Engine.guard in E.
  destruct (rust_assert _) as [[]| |]; [|by injection E as <- <-..].
  unfold Engine.lift in E. destruct (ensure _ _) as [[]| |]; [|by injection E as <- <-..]. unfold Engine.on_backend in E.
  destruct (commit_slice _ _ _ _ _ _ _) as [rc db] eqn:Ec. destruct rc as [cm|e|].
  - destruct (0 <? grew_by cm); by destruct Hr; injection E.
  - injection E as <- <-. split; [done|]. cbn. by eapply commit_txn_failed.
  - injection E as <- <-. split; [done|]. cbn. by eapply commit_txn_failed.
Qed.

Lemma commit_txn_total {A} env db (m : Result (A * db_t)) : m <> Panic -> (commit_txn env db m).1 <> Panic.
Proof. unfold commit_txn. destruct m as [[a t]| |]; [by destruct (commit_ok env)|done..]. Qed.

Lemma id_next_total env db t : (id_next env Key.NextSlice db t).1.1 <> Panic.
Proof.
  unfold id_next. destruct (id_refill env Key.NextSlice db t) as [r db1] eqn:E.
  assert (Hr : r <> Panic); [|destruct r; [|done..]; by destruct (skip_reserved 3 _ _)].
  unfold id_refill in E. destruct (_ <=? _); [|by injection E as <- <-]. cbn [Key.get_step] in E.
  destruct (increase_count_by _ _ _ _) as [r0 db0] eqn:E0. injection E as <- <-.
  destruct r0; [done..|]. exfalso. apply (f_equal fst) in E0. revert E0. apply commit_txn_total.
  destruct (kv_get _ _) as [v|]; [|done]. by destruct (bc_de v).
Qed.

Lemma em_next_total m : (mc_next_slice_id m).1 <> Panic.
Proof.
  cbn [mc_next_slice_id engine_client]. unfold em_run, Engine.next_slice_id. set (e := em_engine m). set (w := ws _).
  pose proof (id_next_total (wenv w 0) (Engine.backend e) (Engine.free_slices e)) as H. by destruct (id_next _ _ _ _) as [[r t] db].
Qed.

Lemma em_write_total m ino c pos cp sid len off : (mc_write_slice ino c pos (Owned cp sid len off) m).1 <> Panic.
Proof.
  cbn [mc_write_slice engine_client]. unfold em_run. set (w := ws _).
  destruct (Engine.write_slice w ino c pos (Owned cp sid len off) (em_engine m)) as [r e1] eqn:E. cbn. intros ->.
  unfold Engine.write_slice, mbind, Engine.eng_bind, Engine.lift, Engine.guard in E. cbn [rust_assert] in E.
  unfold Engine.lift, ensure in E. destruct (_ =? _); [|done]. unfold Engine.on_backend in E.
  destruct (commit_slice _ _ _ _ _ _ _) as [rc db] eqn:Ec. destruct rc as [cm|e|].
  - by destruct (0 <? grew_by cm).
  - done.
  - apply (f_equal fst) in Ec. revert Ec. apply commit_txn_total. unfold stage_slice_commit.
    destruct (do_get_attr _ ino) as [a|e|] eqn:Ea; [|done|].
    + cbn. unfold ensure. destruct (is_file a); [|done]. cbn -[stage_chunk_slice].
      destruct (stage_chunk_slice _ _ _ _) as [[[x n] t]|e|] eqn:Es; [done..|]. unfold stage_chunk_slice in Es.
      destruct (negb (_ =? 0)); [done|]. by destruct (negb _).
    + unfold do_get_attr, deserialize_db in Ea. destruct (kv_get _ _) as [v|]; [|done]. cbn in Ea. by destruct (bc_de v).
Qed.

#[export] Instance engine_view : MetaReaderView EngM := {
  mv_ok := em_ok;
  mv_slices := em_slices;
  mv_read := em_read
}.

#[export] Instance engine_log : MetaLog EngM.
Proof.
  constructor.
  - intros m r m' Hm H. destruct (em_next m r m' Hm H) as [H1 H2]. split; [done|]. intros i c _ _. apply H2.
  - intros m ino c pos s m'. apply em_write.
  - intros m ino c pos s r m' Hm H Hr. destruct (em_write_failed m ino c pos s r m' Hm H Hr) as [H1 H2]. split; [done|]. intros i k _ _. apply H2.
  - apply em_next_total.
  - apply em_write_total.
Qed.
End engine_client.

(** ** Published bytes are read back *)

Section end_to_end.
Context `{L : Layout} `{R : RangeMapOps Slice} {HR : RangeMapLaws Slice} `{RV : RangeMapOps VirtualSlice}
  {HV : RangeMapLaws VirtualSlice} {M : Type} `{ML : MetaLog M}.

(** Where the bytes of a slice are, after [sid] was published with content [g]. *)
Definition with_slice (sid : Z) (g : Z -> Byte.byte) (content : Z -> Z -> Byte.byte) (id : Z) : Z -> Byte.byte :=
  if id =? sid then g else content id.

(** A slice on top of a file overwrites it. *)
Lemma file_byte_published content (old new : Z -> list Slice) sid g ci off len x :
  0 <= off -> off + len <= CHUNK_SIZE -> sid <> EMPTY_SLICE_ID ->
  (forall c, Forall (fun t => get_id t <> sid) (old c)) ->
  (forall c, new c = if c =? ci then old ci ++ [Owned off sid len 0] else old c) ->
  file_byte (with_slice sid g content) new x =
  overwrite (file_byte content old) (ci * CHUNK_SIZE + off) (reads g 0 len) x.
Proof.
  intros Ho Hl Hsid Hfr Hnew. pose proof chunk_size_pos as HC. unfold file_byte.
  assert (HC0 : CHUNK_SIZE <> 0) by lia. pose proof (Z.div_mod x CHUNK_SIZE HC0) as Hdm.
  pose proof (Z.mod_pos_bound x CHUNK_SIZE HC) as Hb. set (q := x / CHUNK_SIZE) in *. set (r := x `mod` CHUNK_SIZE) in *.
  assert (Hold : forall y, chunk_byte (with_slice sid g content) (old q) y = chunk_byte content (old q) y).
  { intros y. unfold chunk_byte, shown, virtual_of, with_slice. destruct (latest (old q) y) as [t|] eqn:E; [|done].
    destruct (get_id t =? EMPTY_SLICE_ID); [done|]. apply latest_Some in E as [E _].
    pose proof (Hfr q) as Hq. rewrite Forall_forall in Hq. by rewrite (proj2 (Z.eqb_neq _ _)) by (by apply Hq). }
  rewrite Hnew. destruct (q =? ci) eqn:Eq; to_prop.
  2:{ rewrite Hold, overwrite_out; [done|]. destruct (decide (0 <= len)) as [Hlen|Hlen].
      - rewrite zlen_reads by done. nia.
      - rewrite reads_nil by lia. unfold zlen. simpl. lia. }
  subst ci. unfold chunk_byte at 1, shown. rewrite latest_app. cbn [latest]. unfold covers.
  cbn [get_chunk_pos get_size]. destruct (in_range r (off, off + len)) eqn:Er.
  - apply in_range_true in Er. simpl in Er. unfold virtual_of. cbn [get_id].
    rewrite (proj2 (Z.eqb_neq _ _)) by done. cbn [get_underlying_offset get_chunk_pos get_id].
    unfold with_slice. rewrite Z.eqb_refl. rewrite overwrite_in by (rewrite zlen_reads; lia).
    rewrite bget_reads by lia. f_equal. lia.
  - apply in_range_false in Er. simpl in Er.
    change (match latest (old q) r with Some s => virtual_of s | None => Hole end) with (shown (old q) r).
    fold (chunk_byte (with_slice sid g content) (old q) r). rewrite Hold, overwrite_out; [done|].
    destruct (decide (0 <= len)) as [Hlen|Hlen]; [rewrite zlen_reads by done; lia|].
    rewrite reads_nil by lia. unfold zlen. simpl. lia.
Qed.

Lemma slices_ok_with sid g content s l :
  Forall (fun t => get_id t <> sid) l -> Forall (slice_ok content s) l -> Forall (slice_ok (with_slice sid g content) s) l.
Proof.
  rewrite !Forall_forall. intros Hne H t Ht. destruct (H t Ht) as [H1 H2]. split; [done|].
  intros (Ha & Hb & Hc)%H2. split; [done|]. split; [done|]. unfold with_slice. by rewrite (proj2 (Z.eqb_neq _ _)) by auto.
Qed.

(** The slices of the file before the publication, as the engine shows them;
    the chunk that is written may have none yet. *)
Definition file_before (content : Z -> Z -> Byte.byte) (old : Z -> list Slice) (ino length ci sid : Z) (m : M)
    (s : CacheSys) : Prop :=
  (forall c, 0 <= c -> c <> ci -> c * CHUNK_SIZE < length -> mv_slices m ino c = Some (old c)) /\
  default [] (mv_slices m ino ci) = old ci /\
  (forall c, Forall (slice_ok content s) (old c)) /\ (forall c, Forall (fun t => get_id t <> sid) (old c)).

(** The file after the slice was added to its chunk. *)
Lemma file_visible_published content old ino length ci pos len sid g m m' s :
  0 <= ino -> 0 <= ci -> 0 <= pos -> 0 < len -> pos + len <= CHUNK_SIZE -> sid <> EMPTY_SLICE_ID ->
  file_before content old ino length ci sid m s -> slice_stored sid g len s ->
  mv_slices m' ino ci = Some (add_slice (Owned pos sid len 0) (default [] (mv_slices m ino ci))) ->
  (forall k, 0 <= k -> k <> ci -> mv_slices m' ino k = mv_slices m ino k) ->
  file_visible (with_slice sid g content) (fun k => if k =? ci then old ci ++ [Owned pos sid len 0] else old k) ino length m' s.
Proof.
  intros Hi Hci Hpos Hlen Hfit Hsid (Hold & Hcur & Hok & Hfresh) Hst Hnew Hrest k Hk Hkl.
  destruct (k =? ci) eqn:E; to_prop.
  - subst k. split.
    + rewrite Hnew, Hcur. f_equal. unfold add_slice. rewrite decide_False; [done|].
      intros Hin. pose proof (Hfresh ci) as Hf. rewrite Forall_forall in Hf. by apply (Hf _ Hin).
    + apply Forall_app. split; [by apply slices_ok_with|]. constructor; [|done]. split; [done|]. intros _. cbn.
      split; [lia|]. split; [lia|]. unfold with_slice. by rewrite Z.eqb_refl.
  - split; [rewrite Hrest by done; by apply Hold|]. by apply slices_ok_with.
Qed.

(** When a full flush has published the buffer of a slice writer, a read of
    the file returns the file as it was, overwritten with the bytes written to
    the buffer at its place in the chunk; before the publication the same read
    would have returned the file as it was. *)
Theorem published_bytes_read chunk st seq off D0 f0 max s0 others c io inode sid D' sw'
    rio content old fr mem s offset dst :
  rtc cache_step (sys_new max) s0 -> cs_cache s0 = d_cache D0 ->
  pool_wf (d_pool D0) others -> hp_page_size (d_pool D0) = PAGE_SIZE ->
  rtc sw_step (mkCfg (slice_writer_new chunk st seq off) D0 f0 false) c ->
  io_ok io (sc_deps c) (sc_sw c) ->
  flush_and_commit io inode (sc_deps c) (sc_sw c) = (Ok sid, D', sw') ->
  let sw := sc_sw c in
  let pos := sw_offset_of_chunk sw in
  let len := sb_length (sw_buffer sw) in
  0 <= inode -> 0 <= sw_chunk_index sw -> 0 <= pos -> 0 < len -> pos + len <= CHUNK_SIZE ->
  mv_ok (d_meta (sc_deps c)) -> data_ok s (mkData (d_cache D') mem) -> fr_ino fr = inode ->
  file_before content old inode (fr_length fr) (sw_chunk_index sw) sid (d_meta (sc_deps c)) s ->
  (forall k, block_io_ok (rio k)) -> 0 <= offset ->
  let expected :=
    file_read (overwrite (file_byte content old) (sw_chunk_index sw * CHUNK_SIZE + pos) (reads (sc_data c) 0 len))
      (fr_length fr) offset (zlen dst) in
  match (read rio fr CHUNK_SIZE offset dst (d_meta D') (mkData (d_cache D') mem)).1 with
  | Ok (n, out) => n = zlen expected /\ out = splice 0 expected dst
  | Err _ => exists k, answered (rio k) = false
  | Panic => False
  end.
Proof.
  intros Hr Hc Hp Hs Hst Hio H sw pos len Hi Hci Hpos Hlen Hfit Hm Hd Hfr Hbefore Hrio Ho expected.
  destruct (sw_steps_inv _ _ Hst) as (s1 & Hc1 & Ic & Hg); [by eapply sw_new_inv|].
  destruct (commit_effect io inode _ _ _ _ s1 _ D' sw' Hc1 Ic Hg Hio H) as (s' & Hc' & Hst' & Hsid & Hstored & m1 & Hm1 & Hw).
  pose proof (cache_steps_inv _ _ Hst' Ic) as I'. pose proof chunk_size_u32 as H32.
  fold sw pos len in Hstored, Hw. set (sl := Owned pos sid len 0).
  assert (Hsl : slice_of sid sw = sl).
  { unfold slice_of, sl, u32_wrap. fold pos len. by rewrite !Z.mod_small by lia. }
  assert (Hwf : slice_wf sl = true) by (unfold slice_wf, sl, is_u32, is_u64; lia).
  assert (Hmv : mv_ok m1 /\ forall i k, 0 <= i -> 0 <= k -> mv_slices m1 i k = mv_slices (d_meta (sc_deps c)) i k).
  { destruct Hm1 as [->|[r1 Hn]]; [done|]. by eapply ml_next. }
  destruct Hmv as [Hmv1 Hmv2]. rewrite Hsl in Hw.
  destruct (ml_write _ _ _ _ _ _ Hi Hci Hwf Hmv1 Hw) as (Hmo & Hnew & Hrest).
  assert (Hss : slice_stored sid (sc_data c) len s).
  { destruct Hd as (Is & Hcs & _). cbn in Hcs. intros i Hi0 Hi1. rewrite (acked_unique s s' Is I') by congruence.
    by apply Hstored. }
  assert (Hsid0 : sid <> EMPTY_SLICE_ID) by (unfold EMPTY_SLICE_ID; lia).
  assert (Hvis := file_visible_published content old inode (fr_length fr) (sw_chunk_index sw) pos len sid (sc_data c)
                    (d_meta (sc_deps c)) (d_meta D') s Hi Hci Hpos Hlen Hfit Hsid0 Hbefore Hss).
  rewrite Hmv2 in Hnew by done. specialize (Hvis Hnew).
  specialize (Hvis ltac:(intros k Hk Hne; rewrite Hrest, Hmv2 by (done || congruence); done)).
  set (new := fun k => if k =? sw_chunk_index sw then _ else _) in Hvis.
  rewrite <- Hfr in Hvis, Hi.
  pose proof (read_spec rio _ new fr offset dst (d_meta D') s (mkData (d_cache D') mem) Hrio Hd Hmo Hi Ho Hvis) as Hread.
  assert (He : file_read (file_byte (with_slice sid (sc_data c) content) new) (fr_length fr) offset (zlen dst) = expected).
  { unfold file_read, expected. apply reads_ext. intros x _. by apply file_byte_published; try apply Hbefore. }
  cbv zeta in Hread. by rewrite He in Hread.
Qed.
End end_to_end.

(** *** A chunk that was never written *)

Section sparse.
Context `{L : Layout} `{KL : KVLaws} `{CL : MetaCodecLaws} `{R : RangeMapOps Slice} `{RV : RangeMapOps VirtualSlice}.
Variable ws : nat -> World.

Lemma em_read_missing m ino c :
  em_ok ws m -> kv_get (Engine.backend (em_engine m)) (Key.chunk_slices ino c) = None ->
  exists m', em_run ws (fun w => Engine.read_slice w ino c) m =
    (Err (ModelError (NotFound MChunkSlices (Key.chunk_slices ino c))), m').
Proof.
  intros [Hh Hf Hk] Hn. unfold em_run, Engine.read_slice, mbind, Engine.eng_bind.
  assert (Hg : get_chunk_slices (Engine.backend (em_engine m)) ino c =
            Err (ModelError (NotFound MChunkSlices (Key.chunk_slices ino c)))).
  { unfold get_chunk_slices. by rewrite Hn. }
  assert (Hload : load_slices (E:=Meta.Error) (clk (ws (em_calls m)) 0) ino c (Engine.open_files (em_engine m)) = Ok None).
  { unfold load_slices. fold (of_load (Engine.open_files (em_engine m)) ino).
    destruct (of_load (Engine.open_files (em_engine m)) ino) as [f|] eqn:E; [|done].
    destruct (Hf ino f E) as [_ [Hlast Hco]]. unfold elapsed, duration_since.
    rewrite (proj2 (Z.leb_le _ _)) by (by apply Hlast). simpl. destruct (_ <? _); [|done].
    destruct (chunks f !! c) as [l|] eqn:El; [|done]. pose proof (Hco c l El). congruence. }
  rewrite Hload. unfold Engine.from_backend. rewrite Hg. by eexists.
Qed.

(** C38: reading inside the file where no slice was ever written to the chunk does
    not return zeros: the engine answers that the chunk was not found and the
    read fails, whatever the stores and the caches hold. *)
Theorem sparse_read_fails rio fr offset dst m d :
  em_ok ws m -> 0 <= offset < fr_length fr -> dst <> [] ->
  kv_get (Engine.backend (em_engine m)) (Key.chunk_slices (fr_ino fr) (offset / CHUNK_SIZE)) = None ->
  (read (MR:=engine_reader ws) rio fr CHUNK_SIZE offset dst m d).1 =
    Err (VMeta (ModelError (NotFound MChunkSlices (Key.chunk_slices (fr_ino fr) (offset / CHUNK_SIZE))))).
Proof.
  intros Hm Ho Hdst Hn. unfold read. pose proof chunk_size_pos as HC.
  assert (Hz : 0 < zlen dst) by (destruct dst; [done|unfold zlen; simpl; lia]).
  rewrite (proj2 (Z.leb_gt _ _)), (proj2 (Z.eqb_neq _ _)) by lia. cbn [orb].
  set (n := Z.min (zlen dst) (fr_length fr - offset)). assert (Hn0 : 0 < n) by lia.
  pose proof (Z.div_le_mono offset (offset + n - 1) CHUNK_SIZE HC ltac:(lia)) as Hle.
  rewrite seqZ_cons by lia. cbn [read_chunks rv_total rv_left mr_read_slice engine_reader].
  destruct (em_read_missing m (fr_ino fr) (offset / CHUNK_SIZE) Hm Hn) as [m' ->]. done.
Qed.
End sparse.

(** ** Runs *)

(** The empty file of [vol_file] (inode 3), five bytes published in its second
    chunk: the first chunk has no slices. *)
Definition sp_worlds (n : nat) : World := ref_world (20 + 10 * Z.of_nat n).
Definition sp_m0 : EngM :=
  mkEM (Engine.mkEngine ref_config format_default ROOT_INO 0 (open_files_new 0) ∅ ∅ ∅ 0 0 id_table_new id_table_new []
          vol_file) 0.
Definition sp_m1 : EngM := (mc_write_slice (MetaClient:=engine_client sp_worlds) 3 1 0 (Owned 0 7 5 0) sp_m0).2.
Definition sp_io (k : SliceKey) : BlockIo := mkBlockIo true true true id id.
Definition sp_fr : FileReader := mkFR 3 1 (CHUNK_SIZE + 5) false.
Definition sp_data : DataSys := mkData (mkFC ∅ ∅ ∅ 0 false 100 0) ∅.

Lemma sp_m0_ok : em_ok sp_worlds sp_m0.
Proof.
  constructor.
  - intros i c _ _. exists []. split; [|constructor]. cbn [sp_m0 em_engine Engine.backend]. by rewrite vol_file_chunks.
  - intros i f H. cbn in H. unfold of_load in H. cbn in H. by rewrite lookup_empty in H.
  - intros i f c l H. cbn in H. unfold of_load in H. cbn in H. by rewrite lookup_empty in H.
Qed.

Lemma sp_clock n : UNIX_EPOCH <= clk (sp_worlds n) 0.
Proof. unfold UNIX_EPOCH. cbn. lia. Qed.

Lemma sparse_read_fails_witness :
  (attr_length <$> fs_attr (view (Engine.backend (em_engine sp_m1))) 3 = Some (CHUNK_SIZE + 5)) /\
  (read (R:=list_range_map Slice) (RV:=list_range_map VirtualSlice) (MR:=engine_reader sp_worlds)
     sp_io sp_fr CHUNK_SIZE 0 [Byte.xff] sp_m1 sp_data).1 =
    Err (VMeta (ModelError (NotFound MChunkSlices (Key.chunk_slices 3 0)))).
Proof.
  assert (Hrun : mc_write_slice (MetaClient:=engine_client sp_worlds) 3 1 0 (Owned 0 7 5 0) sp_m0 = (Ok (), sp_m1))
    by (apply injective_projections; [vm_compute; reflexivity|reflexivity]).
  assert (Hok : em_ok sp_worlds sp_m1).
  { exact (proj1 (em_write sp_worlds sp_m0 3 1 0 (Owned 0 7 5 0) sp_m1 ltac:(lia) ltac:(lia) eq_refl sp_m0_ok Hrun)). }
  split; [vm_compute; reflexivity|].
  exact (sparse_read_fails (R:=list_range_map Slice) (RV:=list_range_map VirtualSlice) sp_worlds sp_io sp_fr 0 [Byte.xff]
    sp_m1 sp_data Hok (conj (Z.le_refl 0) eq_refl) ltac:(discriminate) ltac:(vm_compute; reflexivity)).
Defined.

Section published_run.
#[local] Existing Instance tiny_layout.
#[local] Instance pw_client : MetaClient EngM := engine_client sp_worlds.
#[local] Instance pw_reader : MetaReader EngM := engine_reader sp_worlds.

(** Five bytes written at position 3 of the first chunk of the empty file. *)
Definition pw_deps : Deps (M:=EngM) := mkDeps tiny_pool (mkFC ∅ ∅ ∅ 0 false 100 0) sp_m0.
Definition pw_new : SliceWriter := slice_writer_new 0 SwWriting 1 3.
Definition pw_bytes : bytes := ab ++ [Byte.x64; Byte.x65].
Definition pw1 := sw_write_at SwIdle 0 pw_bytes tiny_pool pw_new.
Definition pw_cfg : SwCfg (M:=EngM) :=
  mkCfg (set_state SwFlushing pw1.2) (mkDeps pw1.1.2 (d_cache pw_deps) sp_m0) (overwrite (fun _ => Byte.x00) 0 pw_bytes) false.
Definition pw_done := flush_and_commit wr_io 3 (sc_deps pw_cfg) (sc_sw pw_cfg).
Definition pw_fr : FileReader := mkFR 3 1 8 false.
Definition pw_read := read (R:=list_range_map Slice) (RV:=list_range_map VirtualSlice)
  sp_io pw_fr CHUNK_SIZE 1 (replicate 10 Byte.xff) (d_meta pw_done.1.2) (mkData (d_cache pw_done.1.2) ∅).

Lemma pw_fresh : ids_fresh (sc_deps pw_cfg).
Proof.
  intros id m H. assert (id = 2) as ->.
  { apply (f_equal fst) in H. vm_compute in H. by injection H as <-. }
  split; [lia|]. intros i len b _ _ [Hb|Hb]; unfold local_has, remote_has in Hb; cbn in Hb; by rewrite lookup_empty in Hb.
Qed.

Lemma pw_io_ok : io_ok wr_io (sc_deps pw_cfg) (sc_sw pw_cfg).
Proof. split; [intros _; apply pw_fresh|]. intros sid _ i db e _ _ He. discriminate. Qed.

Lemma pw_steps : rtc sw_step (mkCfg pw_new pw_deps (fun _ => Byte.x00) false) pw_cfg.
Proof.
  eapply rtc_l; [apply (sws_write pw_new pw_deps _ SwIdle 0 pw_bytes pw1.1.1 pw1.1.2 pw1.2);
    [reflexivity|split; apply Z.leb_le; vm_compute; reflexivity|vm_compute; reflexivity]|].
  eapply rtc_l; [apply (sws_state pw1.2 _ _ _ SwFlushing)|]. apply rtc_refl.
Qed.

Lemma pw_run : flush_and_commit wr_io 3 (sc_deps pw_cfg) (sc_sw pw_cfg) = (Ok 2, pw_done.1.2, pw_done.2).
Proof.
  assert (H : pw_done.1.1 = Ok 2) by (vm_compute; reflexivity). rewrite <- H. unfold pw_done.
  by destruct (flush_and_commit wr_io 3 (sc_deps pw_cfg) (sc_sw pw_cfg)) as [[r D] sw].
Qed.

Lemma pw_cache : exists s, data_ok s (mkData (d_cache pw_done.1.2) ∅).
Proof.
  destruct (sw_steps_inv _ _ pw_steps) as (s & Hc & I & Hg).
  { eapply (sw_new_inv _ _ _ _ _ _ 100 (sys_new 100) []); [apply rtc_refl|reflexivity|apply tiny_pool_wf|reflexivity]. }
  destruct (commit_effect wr_io 3 (sc_deps pw_cfg) (sc_sw pw_cfg) (sc_data pw_cfg) (sc_staged pw_cfg) s (Ok 2) pw_done.1.2
              pw_done.2 Hc I Hg pw_io_ok pw_run) as (s' & Hc' & Hst & _).
  exists s'. split; [by eapply cache_steps_inv|]. split; [exact Hc'|]. intros k b H. cbn in H. by rewrite lookup_empty in H.
Qed.

Lemma pw_before s : file_before (MV:=engine_view sp_worlds sp_clock) (fun _ _ => Byte.x00) (fun _ => []) 3 8 0 2 sp_m0 s.
Proof.
  split; [|split; [|by split]].
  - intros c H0 H1 H2. change CHUNK_SIZE with 12 in H2. lia.
  - cbn [mv_slices engine_view]. unfold em_slices, get_chunk_slices. cbn [sp_m0 em_engine Engine.backend].
    by rewrite vol_file_chunks.
Qed.

Lemma published_bytes_read_witness :
  pw_read.1 = Ok (7, [Byte.x00; Byte.x00] ++ pw_bytes ++ [Byte.xff; Byte.xff; Byte.xff]) /\
  7 = zlen (file_read (overwrite (file_byte (fun _ _ => Byte.x00) (fun _ => [])) (0 * CHUNK_SIZE + 3)
             (reads (sc_data pw_cfg) 0 5)) 8 1 (zlen (replicate 10 Byte.xff))).
Proof.
  destruct pw_cache as [s Hd].
  pose proof (published_bytes_read (R:=list_range_map Slice) (HR:=list_range_map_laws Slice)
    (RV:=list_range_map VirtualSlice) (HV:=list_range_map_laws VirtualSlice) (ML:=engine_log sp_worlds sp_clock)
    0 SwWriting 1 3 pw_deps (fun _ => Byte.x00) 100 (sys_new 100) [] pw_cfg wr_io 3 2 pw_done.1.2 pw_done.2
    sp_io (fun _ _ => Byte.x00) (fun _ => []) pw_fr ∅ s 1 (replicate 10 Byte.xff)
    (rtc_refl _ _) eq_refl tiny_pool_wf eq_refl pw_steps pw_io_ok pw_run) as H.
  cbv zeta in H.
  assert (E1 : sw_chunk_index (sc_sw pw_cfg) = 0) by (vm_compute; reflexivity).
  assert (E2 : sw_offset_of_chunk (sc_sw pw_cfg) = 3) by (vm_compute; reflexivity).
  assert (E3 : sb_length (sw_buffer (sc_sw pw_cfg)) = 5) by (vm_compute; reflexivity).
  rewrite E1, E2, E3 in H.
  assert (E4 : 3 + 5 <= CHUNK_SIZE) by (vm_compute; discriminate).
  specialize (H ltac:(lia) ltac:(lia) ltac:(lia) ltac:(lia) E4 sp_m0_ok Hd eq_refl (pw_before s)
    (fun _ => conj id_env_ok id_env_ok) ltac:(lia)).
  assert (E : pw_read.1 = Ok (7, [Byte.x00; Byte.x00] ++ pw_bytes ++ [Byte.xff; Byte.xff; Byte.xff]))
    by (vm_compute; reflexivity).
  split; [exact E|]. unfold pw_read, pw_reader in E. rewrite E in H. exact (proj1 H).
Defined.
End published_run.
