(* ===== verification/Interleave.v ===== *)
(** * Interleavings

    Threads that share a state and take atomic steps in any order.  [next] gives
    the step of a thread, for each resolution of the choices the runtime makes
    ([C]); a thread starts at one of its entry points.  [schedule] runs a list of
    actions, so that a run can be evaluated. *)

From S2P Require Import Prelude.

Section interleave.
Context {C S T : Type} (next : C -> T -> S -> option (T * S)) (entry : T -> bool).

(** There are fewer threads than a [usize] counts. *)
Definition MAX_THREADS : Z := 2 ^ 64 - 1.

Inductive i_step : S * list T -> S * list T -> Prop :=
| is_thread s ts i c t t' s' :
    ts !! i = Some t -> next c t s = Some (t', s') -> i_step (s, ts) (s', <[i := t']> ts)
| is_start s ts t :
    entry t = true -> zlen ts + 1 < MAX_THREADS -> i_step (s, ts) (s, ts ++ [t]).

Inductive Act := Start (t : T) | Step (i : nat) (c : C).

Definition act (a : Act) (s : S * list T) : option (S * list T) :=
  match a with
  | Start t => if entry t && (zlen s.2 + 1 <? MAX_THREADS) then Some (s.1, s.2 ++ [t]) else None
  | Step i c => t ← s.2 !! i; r ← next c t s.1; Some (r.2, <[i := r.1]> s.2)
  end.

Fixpoint schedule (acts : list Act) (s : S * list T) : option (S * list T) :=
  match acts with [] => Some s | a :: acts => s ← act a s; schedule acts s end.

Lemma schedule_sound acts s s' : schedule acts s = Some s' -> rtc i_step s s'.
Proof.
  revert s. induction acts as [|a acts IH]; intros [l ts] H; cbn [schedule] in H.
  - injection H as <-. constructor.
  - destruct (act a (l, ts)) as [s1|] eqn:E; [|done]. eapply rtc_l; [|by apply IH]. destruct a as [t|i c]; cbn in E.
    + destruct (entry t) eqn:Ee; [|done]. cbn in E. destruct (_ <? _) eqn:Eb; [|done]. injection E as <-. to_prop.
      by constructor.
    + destruct (ts !! i) as [t|] eqn:Ei; [|done]. cbn in E. destruct (next c t l) as [[t' l']|] eqn:En; [|done].
      injection E as <-. by eapply is_thread.
Qed.

(** A property that every step keeps holds of every reachable state. *)
Lemma i_steps_inv (P : S * list T -> Prop) s s' :
  (forall x y, i_step x y -> P x -> P y) -> rtc i_step s s' -> P s -> P s'.
Proof. intros H. induction 1; eauto. Qed.

(** A property of single threads that entry points have and steps keep. *)
Lemma i_steps_threads (P : S -> Prop) (Q : T -> Prop) s s' :
  (forall c t x t' x', P x -> Q t -> next c t x = Some (t', x') -> P x' /\ Q t') ->
  (forall t, entry t = true -> Q t) ->
  rtc i_step s s' -> P s.1 /\ Forall Q s.2 -> P s'.1 /\ Forall Q s'.2.
Proof.
  intros Hn He. apply (i_steps_inv (fun s => P s.1 /\ Forall Q s.2)). intros x y Hst [HP HQ].
  destruct Hst as [x ts i c t t' x' Hi Hnx|x ts t Ht _]; cbn [fst snd] in *.
  - assert (Ht : Q t) by (rewrite Forall_lookup in HQ; by eapply HQ).
    destruct (Hn c t x t' x' HP Ht Hnx) as [HP' HQ']. split; [done|]. by apply Forall_insert.
  - split; [done|]. apply Forall_app. split; [done|]. by apply Forall_singleton, He.
Qed.
End interleave.
Arguments Start {C T} t.
Arguments Step {C T} i c.
