(* ===== verification/Lifecycle.v ===== *)
(** * The mount lifecycle (components/vfs/src/lifecycle.rs)

    Admission of operations, draining and the wait for running operations share
    a state, a counter and a notification.  Each atomic access of the source is
    one step; any number of threads interleave.  Accesses are sequentially
    consistent in the model. *)

From S2P Require Import Prelude Interleave.

Inductive LifecycleState := Starting | Recovering | Ready | Draining | Stopped | Failed.

#[export] Instance lifecycle_state_eq_dec : EqDecision LifecycleState.
Proof. solve_decision. Defined.

(** [lc_epoch] counts the calls of [notify_waiters]: a waiter is woken by any call
    after its [Notified] was created. *)
Record MountLifecycle := mkLC {
  lc_state : LifecycleState;
  lc_active : Z;
  lc_epoch : Z
}.

Definition lifecycle_new : MountLifecycle := mkLC Starting 0 0.

Definition set_lc_state (st : LifecycleState) (l : MountLifecycle) : MountLifecycle := mkLC st (lc_active l) (lc_epoch l).
Definition set_active (n : Z) (l : MountLifecycle) : MountLifecycle := mkLC (lc_state l) n (lc_epoch l).

(** [compare_exchange] *)
Definition transition (from to : LifecycleState) (l : MountLifecycle) : bool * MountLifecycle :=
  if decide (lc_state l = from) then (true, set_lc_state to l) else (false, l).

Definition draining_or_stopped (st : LifecycleState) : bool :=
  match st with Draining | Stopped => true | _ => false end.

(** ** Operations *)

(** Where a thread stands in [begin_operation], with its guard, or in the
    [finish_operation] that ends it. *)
Inductive OpPhase :=
| OpBegin
| OpSeenReady
| OpCounted
| OpAdmitted
| OpFinish (admitted : bool)
| OpNotify (admitted : bool)
| OpRejected
| OpDone.

Definition op_after (admitted : bool) : OpPhase := if admitted then OpDone else OpRejected.

Definition op_next (ph : OpPhase) (l : MountLifecycle) : option (OpPhase * MountLifecycle) :=
  match ph with
  | OpBegin => Some (if decide (lc_state l = Ready) then OpSeenReady else OpRejected, l)
  | OpSeenReady => Some (OpCounted, set_active (u64_wrap (lc_active l + 1)) l)
  | OpCounted => Some (if decide (lc_state l = Ready) then OpAdmitted else OpFinish false, l)
  | OpAdmitted => Some (OpFinish true, l)
  | OpFinish a =>
      Some (if lc_active l =? 1 then OpNotify a else op_after a, set_active (u64_wrap (lc_active l - 1)) l)
  | OpNotify a => Some (op_after a, mkLC (lc_state l) (lc_active l) (lc_epoch l + 1))
  | OpRejected | OpDone => None
  end.

(** ** State changes *)

Inductive CtlPhase :=
| MarkRecovering
| MarkReady
| MarkFailed
| MarkFailedSeen (st : LifecycleState)
| BeginDraining
| BeginDrainingSeen (st : LifecycleState)
| MarkStopped
| MarkShutdownFailed
| CtlReturned (b : bool).

Definition ctl_next (ph : CtlPhase) (l : MountLifecycle) : option (CtlPhase * MountLifecycle) :=
  match ph with
  | MarkRecovering => let '(b, l) := transition Starting Recovering l in Some (CtlReturned b, l)
  | MarkReady => let '(b, l) := transition Recovering Ready l in Some (CtlReturned b, l)
  | MarkFailed => Some (MarkFailedSeen (lc_state l), l)
  | MarkFailedSeen st => Some (CtlReturned true, if draining_or_stopped st then l else set_lc_state Failed l)
  | BeginDraining => Some (BeginDrainingSeen (lc_state l), l)
  | BeginDrainingSeen st =>
      if draining_or_stopped st then Some (CtlReturned false, l)
      else
        let '(b, l) := transition st Draining l in
        Some (if b : bool then CtlReturned true else BeginDraining, l)
  | MarkStopped => Some (CtlReturned true, set_lc_state Stopped l)
  | MarkShutdownFailed => Some (CtlReturned true, set_lc_state Failed l)
  | CtlReturned _ => None
  end.

(** ** Waiting for the running operations *)

Inductive WaitPhase := WaitLoop | WaitArmed (epoch : Z) | WaitBlocked (epoch : Z) | WaitReturned.

Definition wait_next (ph : WaitPhase) (l : MountLifecycle) : option (WaitPhase * MountLifecycle) :=
  match ph with
  | WaitLoop => Some (WaitArmed (lc_epoch l), l)
  | WaitArmed e => Some (if lc_active l =? 0 then WaitReturned else WaitBlocked e, l)
  | WaitBlocked e => if e =? lc_epoch l then None else Some (WaitLoop, l)
  | WaitReturned => None
  end.

(** ** Threads *)

Inductive Thread := TOp (ph : OpPhase) | TCtl (ph : CtlPhase) | TWait (ph : WaitPhase).

Definition thread_next (t : Thread) (l : MountLifecycle) : option (Thread * MountLifecycle) :=
  match t with
  | TOp ph => prod_map TOp id <$> op_next ph l
  | TCtl ph => prod_map TCtl id <$> ctl_next ph l
  | TWait ph => prod_map TWait id <$> wait_next ph l
  end.

(** The entry points a thread may be started at. *)
Definition entry_point (t : Thread) : bool :=
  match t with
  | TOp OpBegin | TWait WaitLoop => true
  | TCtl (MarkRecovering | MarkReady | MarkFailed | BeginDraining | MarkStopped | MarkShutdownFailed) => true
  | _ => false
  end.

Definition LSys : Type := MountLifecycle * list Thread.

Abbreviation l_step := (i_step (fun _ : () => thread_next) entry_point).

Definition l_init : LSys := (lifecycle_new, []).

(** ** The invariant *)

(** A thread the counter counts. *)
Definition counted (t : Thread) : bool :=
  match t with TOp (OpCounted | OpAdmitted | OpFinish _) => true | _ => false end.

Definition notifying (t : Thread) : bool := match t with TOp (OpNotify _) => true | _ => false end.

(** A waiter has not seen a later epoch; one that waits for the current epoch is
    waited for by an operation that will end it. *)
Definition waiter_ok (l : MountLifecycle) (ts : list Thread) (t : Thread) : Prop :=
  match t with
  | TWait (WaitArmed e) => e <= lc_epoch l
  | TWait (WaitBlocked e) => e <= lc_epoch l /\ (e = lc_epoch l -> 0 < count counted ts \/ 0 < count notifying ts)
  | _ => True
  end.

Record LInv (s : LSys) : Prop := {
  li_active : lc_active s.1 = count counted s.2;
  li_bound : zlen s.2 < MAX_THREADS;
  li_wait : Forall (waiter_ok s.1 s.2) s.2
}.

(** What a step of one thread does to the counter and the epoch. *)
Lemma thread_next_effect t l t' l' :
  thread_next t l = Some (t', l') -> 0 <= lc_active l < 2 ^ 64 - 1 -> (counted t = true -> 0 < lc_active l) ->
  lc_active l' = lc_active l - (if counted t then 1 else 0) + (if counted t' then 1 else 0) /\
  lc_epoch l' = lc_epoch l + (if notifying t then 1 else 0) /\
  (counted t = true -> counted t' = false -> lc_active l' = 0 -> notifying t' = true).
Proof.
  intros H Hn Hc. destruct t as [ph|ph|ph]; cbn [thread_next] in H.
  - destruct (op_next ph l) as [[p m]|] eqn:E; [|done]. injection H as <- <-.
    destruct ph as [| | | |a|a| |]; cbn in E; simplify_eq; cbn in *; repeat case_decide; repeat case_match; simplify_eq;
      cbn in *; to_prop; unfold u64_wrap; rewrite ?Z.mod_small by lia; split_and!; try done; try lia;
      destruct a; try done; intros; lia.
  - destruct (ctl_next ph l) as [[p m]|] eqn:E; [|done]. injection H as <- <-.
    assert (lc_active m = lc_active l /\ lc_epoch m = lc_epoch l) as [Ha He].
    { destruct ph; cbn in E; unfold transition in E; repeat case_decide; repeat case_match; simplify_eq; done. }
    cbn. rewrite Ha, He. split_and!; try done; lia.
  - destruct (wait_next ph l) as [[p m]|] eqn:E; [|done]. injection H as <- <-.
    assert (m = l) as -> by (destruct ph; cbn in E; repeat case_match; simplify_eq; done).
    cbn. split_and!; try done; lia.
Qed.

(** A waiter after its own step. *)
Lemma waiter_step t l t' l' ts ts' :
  thread_next t l = Some (t', l') -> waiter_ok l ts t -> lc_active l = count counted ts ->
  (counted t = false -> counted t' = false -> count counted ts' = count counted ts) -> waiter_ok l' ts' t'.
Proof.
  intros H Hw Ha Hc. destruct t as [ph|ph|ph]; cbn [thread_next] in H.
  - destruct (op_next ph l) as [[p m]|]; [|done]. by injection H as <- <-.
  - destruct (ctl_next ph l) as [[p m]|]; [|done]. by injection H as <- <-.
  - destruct (wait_next ph l) as [[p m]|] eqn:E; [|done]. injection H as <- <-. specialize (Hc eq_refl eq_refl).
    destruct ph; cbn in E; repeat case_match; simplify_eq; cbn in *; to_prop; try done.
    split; [done|]. intros _. left. rewrite Hc, <- Ha. pose proof (count_bounds counted ts). lia.
Qed.

(** The other waiters after a step. *)
Lemma waiter_frame t l t' l' ts i u :
  ts !! i = Some t -> thread_next t l = Some (t', l') ->
  lc_active l = count counted ts -> zlen ts < MAX_THREADS -> waiter_ok l ts u -> waiter_ok l' (<[i := t']> ts) u.
Proof.
  intros Hi Hn Ha Hz Hu. unfold MAX_THREADS in Hz. pose proof (count_bounds counted ts) as Hb.
  destruct (thread_next_effect t l t' l' Hn ltac:(lia)) as (Ha' & He & Hzero).
  { intros Hc. rewrite Ha. by eapply count_pos. }
  pose proof (count_insert counted ts i t t' Hi) as Hc. pose proof (count_insert notifying ts i t t' Hi) as Hnt.
  pose proof (count_bounds notifying (<[i := t']> ts)). pose proof (count_bounds counted (<[i := t']> ts)).
  destruct u as [ph|ph|[|e|e|]]; try done; cbn in *; [destruct (notifying t); lia|].
  destruct Hu as [Hle Hor]. split; [destruct (notifying t); lia|]. intros Hee.
  destruct (notifying t) eqn:Et; [lia|].
  destruct (Hor ltac:(lia)) as [Hpos|Hpos]; [|right; destruct (notifying t'); lia].
  destruct (decide (0 < count counted (<[i := t']> ts))) as [|Hno]; [by left|]. right.
  assert (counted t = true /\ counted t' = false) as [Hct Hct'] by (destruct (counted t), (counted t'); split; done || lia).
  rewrite Hct, Hct' in *. rewrite (Hzero eq_refl eq_refl ltac:(lia)) in Hnt.
  assert (0 <= count notifying ts) by apply count_bounds. lia.
Qed.

Lemma l_step_inv s s' : l_step s s' -> LInv s -> LInv s'.
Proof.
  intros Hst [Ha Hz Hw]. destruct Hst as [l ts i c t t' l' Hi Hn|l ts t Ht Hb]; cbn [fst snd] in *.
  - unfold MAX_THREADS in Hz. pose proof (count_bounds counted ts) as Hcb. pose proof (count_insert counted ts i t t' Hi) as Hc.
    destruct (thread_next_effect t l t' l' Hn ltac:(lia)) as (Ha' & _).
    { intros Hct. rewrite Ha. by eapply count_pos. }
    constructor; cbn [fst snd]; [lia|by rewrite zlen_insert|].
    apply Forall_insert.
    + eapply Forall_impl; [exact Hw|]. intros u. by eapply waiter_frame.
    + rewrite Forall_lookup in Hw. eapply waiter_step; [exact Hn|by eapply Hw|done|].
      intros H1 H2. rewrite H1, H2 in Hc. lia.
  - assert (Hc : forall f, count f (ts ++ [t]) = count f ts + (if f t then 1 else 0)) by (intros f; apply count_snoc).
    assert (Ht' : counted t = false /\ notifying t = false /\ waiter_ok l (ts ++ [t]) t)
      by (destruct t as [[]|[]|[]]; done).
    destruct Ht' as (H1 & H2 & H3). constructor; cbn [fst snd].
    + rewrite Hc, H1. lia.
    + by rewrite zlen_snoc.
    + apply Forall_app. split; [|by constructor]. eapply Forall_impl; [exact Hw|].
      intros u Hu. destruct u as [ph|ph|[|e|e|]]; try done. cbn in *. rewrite !Hc, H1, H2, !Z.add_0_r. done.
Qed.

Lemma l_steps_inv s s' : rtc l_step s s' -> LInv s -> LInv s'.
Proof. apply i_steps_inv, l_step_inv. Qed.

Lemma l_init_inv : LInv l_init.
Proof. constructor; [done|done|constructor]. Qed.

(** ** Admission *)

(** Past the point of no return: nothing is admitted any more. *)
Definition closing (st : LifecycleState) : bool :=
  match st with Draining | Stopped | Failed => true | _ => false end.

Definition admitted (t : Thread) : bool := match t with TOp OpAdmitted => true | _ => false end.

Lemma closing_step t l t' l' : thread_next t l = Some (t', l') -> closing (lc_state l) = true ->
  closing (lc_state l') = true /\ (admitted t' = true -> admitted t = true).
Proof.
  intros H Hc. destruct t as [ph|ph|ph]; cbn [thread_next] in H.
  - destruct (op_next ph l) as [[p m]|] eqn:E; [|done]. injection H as <- <-.
    destruct ph as [| | | |a|a| |]; cbn in E; simplify_eq; cbn; repeat case_decide; repeat case_match; simplify_eq;
      try done; try (destruct a; done); by rewrite H in Hc.
  - destruct (ctl_next ph l) as [[p m]|] eqn:E; [|done]. injection H as <- <-. split; [|done].
    destruct ph; cbn in E; unfold transition in E; repeat case_decide; repeat case_match; simplify_eq; try done.
    all: by rewrite H in Hc.
  - destruct (wait_next ph l) as [[p m]|] eqn:E; [|done]. injection H as <- <-. split; [|done].
    destruct ph; cbn in E; repeat case_match; simplify_eq; done.
Qed.

Lemma closed_steps s s' :
  rtc l_step s s' -> closing (lc_state s.1) = true -> (forall t, t ∈ s.2 -> admitted t = false) ->
  closing (lc_state s'.1) = true /\ (forall t, t ∈ s'.2 -> admitted t = false).
Proof.
  intros Hs Hc Ht.
  destruct (i_steps_threads (fun _ : () => thread_next) entry_point (fun l => closing (lc_state l) = true)
              (fun t => admitted t = false) s s') as [H1 H2]; try done.
  - intros c t l t' l' Hcl Hadm Hn. destruct (closing_step t l t' l' Hn Hcl) as [? Ha]. split; [done|].
    destruct (admitted t'); [|done]. by rewrite Ha in Hadm.
  - intros t He. by destruct t as [[]|[]|[]].
  - split; [done|]. by apply Forall_forall.
  - split; [done|]. by apply Forall_forall.
Qed.

(** Draining has begun and no operation counts: no operation holds a guard, and none
    ever will. *)
Lemma drained_state_admits_nothing s s' :
  rtc l_step l_init s -> closing (lc_state s.1) = true -> lc_active s.1 = 0 -> rtc l_step s s' ->
  closing (lc_state s'.1) = true /\ forall t, t ∈ s'.2 -> admitted t = false.
Proof.
  intros Hr Hc H0 Hs. apply (closed_steps s s' Hs Hc). intros t Ht.
  destruct (l_steps_inv _ _ Hr l_init_inv) as [Ha _ _]. destruct (admitted t) eqn:E; [|done].
  apply list_elem_of_lookup in Ht as [i Hi]. pose proof (count_pos counted s.2 i t Hi ltac:(by destruct t as [[]| |])). lia.
Qed.

(** A waiter returns in a step that found no operation counted. *)
Lemma waiter_returns s s' i :
  l_step s s' -> s.2 !! i <> Some (TWait WaitReturned) -> s'.2 !! i = Some (TWait WaitReturned) -> lc_active s.1 = 0.
Proof.
  intros Hst Hno Hret. destruct Hst as [l ts j c t t' l' Hj Hn|l ts t Ht Hb]; cbn [fst snd] in *.
  - apply list_lookup_insert_Some in Hret as [(-> & -> & _)|[_ Hret]]; [|done].
    destruct t as [ph|ph|ph]; cbn in Hn; [by destruct (op_next ph l) as [[]|]|by destruct (ctl_next ph l) as [[]|]|].
    destruct ph as [|e|e|]; cbn in Hn; repeat case_match; simplify_eq. by to_prop.
  - apply lookup_app_Some in Hret as [Hret|[_ Hret]]; [done|]. apply list_lookup_singleton_Some in Hret as [_ ->]. done.
Qed.

(** C17: however threads interleave: when a thread that waits for the running
    operations returns, and draining (or a failure) had begun before it looked at
    their counter, then from its return on no operation holds a guard and none is ever
    admitted again: what is flushed after the wait is complete. *)
Theorem drained_admits_nothing s s1 s2 i :
  rtc l_step l_init s -> closing (lc_state s.1) = true -> s.2 !! i <> Some (TWait WaitReturned) ->
  rtc l_step s s1 -> s1.2 !! i = Some (TWait WaitReturned) -> rtc l_step s1 s2 ->
  closing (lc_state s2.1) = true /\ forall t, t ∈ s2.2 -> admitted t = false.
Proof.
  intros Hr Hc Hno Hs Hret Hs2. revert Hr Hc Hno. induction Hs as [|s s0 s1 Hst Hs IH]; intros Hr Hc Hno; [done|].
  destruct (decide (lc_active s.1 = 0)) as [H0|H0].
  - apply (drained_state_admits_nothing s s2 Hr Hc H0). eapply rtc_l; [exact Hst|]. by etrans.
  - apply IH; [done|done|by eapply rtc_r| |].
    + destruct Hst as [l ts j c t t' l' Hj Hn|l ts t Ht Hb]; [|done]. by destruct (closing_step t l t' l' Hn Hc).
    + intros Hret'. by destruct H0; eapply waiter_returns.
Qed.

(** C18: no wake-up is lost: a thread that waits for the running operations is
    blocked only while an operation still counts or is about to notify it; when
    no operation is in progress, it returns within three steps of its own. *)
Theorem no_lost_wakeup l ts i ph :
  rtc l_step l_init (l, ts) -> ts !! i = Some (TWait ph) ->
  count counted ts = 0 -> count notifying ts = 0 ->
  exists n l' ts', (n <= 3)%nat /\ nsteps l_step n (l, ts) (l', ts') /\ ts' !! i = Some (TWait WaitReturned).
Proof.
  intros Hr Hi Hc Hn. destruct (l_steps_inv _ _ Hr l_init_inv) as [Ha _ Hw]. cbn in Ha, Hw.
  assert (Hlt := lookup_lt_Some _ _ _ Hi).
  assert (H0 : lc_active l =? 0 = true) by (apply Z.eqb_eq; lia).
  assert (Harmed : forall e ts0, ts0 !! i = Some (TWait (WaitArmed e)) ->
            l_step (l, ts0) (l, <[i := TWait WaitReturned]> ts0)).
  { intros e ts0 H. eapply (is_thread _ _ _ _ _ tt); [exact H|]. cbn. by rewrite H0. }
  assert (Hloop : forall ts0, ts0 !! i = Some (TWait WaitLoop) ->
            l_step (l, ts0) (l, <[i := TWait (WaitArmed (lc_epoch l))]> ts0)).
  { intros ts0 H. by eapply (is_thread _ _ _ _ _ tt). }
  assert (Hset : forall t, <[i := t]> ts !! i = Some t) by (intros t; by apply list_lookup_insert_eq).
  destruct ph as [|e|e|].
  - exists 2%nat, l, (<[i := TWait WaitReturned]> (<[i := TWait (WaitArmed (lc_epoch l))]> ts)). split; [lia|].
    split; [|by rewrite list_insert_insert_eq]. eapply nsteps_l; [by apply Hloop|]. apply nsteps_once. by eapply Harmed.
  - exists 1%nat, l, (<[i := TWait WaitReturned]> ts). split; [lia|]. split; [|done]. apply nsteps_once. by eapply Harmed.
  - rewrite Forall_lookup in Hw. destruct (Hw i _ Hi) as [Hle Hor].
    assert (Hne : e =? lc_epoch l = false) by (apply Z.eqb_neq; intros ->; destruct (Hor eq_refl); lia).
    set (ts1 := <[i := TWait WaitLoop]> ts). set (ts2 := <[i := TWait (WaitArmed (lc_epoch l))]> ts1).
    exists 3%nat, l, (<[i := TWait WaitReturned]> ts2). split; [lia|]. split; [|unfold ts2, ts1; by rewrite !list_insert_insert_eq].
    eapply nsteps_l; [eapply (is_thread _ _ _ _ _ tt); [exact Hi|cbn; by rewrite Hne]|]. fold ts1.
    eapply nsteps_l; [by apply Hloop, Hset|]. fold ts2. apply nsteps_once. eapply Harmed.
    unfold ts2, ts1. by rewrite list_insert_insert_eq.
  - exists 0%nat, l, ts. split; [lia|]. split; [constructor|done].
Qed.

(** ** Runs *)

Abbreviation LAct := (Act (C:=()) (T:=Thread)).
Abbreviation run := (schedule (fun _ : () => thread_next) entry_point).

(** The mount becomes ready (threads 0 and 1), an operation is admitted (2), a
    shutdown starts draining (3) and waits (4), the operation ends. *)
Definition drain_acts : list LAct :=
  [Start (TCtl MarkRecovering); Step 0 tt; Start (TCtl MarkReady); Step 1 tt; Start (TOp OpBegin); Step 2 tt; Step 2 tt; Step 2 tt;
   Start (TCtl BeginDraining); Step 3 tt; Step 3 tt; Start (TWait WaitLoop); Step 4 tt; Step 4 tt; Step 2 tt; Step 2 tt].
(** An operation that starts now, and one the drainer caught between its checks. *)
Definition late_acts : list LAct := [Start (TOp OpBegin); Step 5 tt; Step 2 tt].

Definition drain_state : LSys := default l_init (run drain_acts l_init).
Definition late_state : LSys := default l_init (run late_acts drain_state).

(** The waiter armed itself while the operation ran, is woken, and returns; then another
    operation starts. *)
Definition returned_state : LSys := default l_init (run [Step 2 tt; Step 4 tt; Step 4 tt; Step 4 tt] drain_state).
Definition after_state : LSys := default l_init (run [Start (TOp OpBegin); Step 5 tt] returned_state).

Lemma drained_admits_nothing_witness :
  drain_state.2 !! 4%nat = Some (TWait (WaitBlocked 0)) /\ returned_state.2 !! 4%nat = Some (TWait WaitReturned) /\
  after_state.2 !! 5%nat = Some (TOp OpRejected) /\ forall t, t ∈ after_state.2 -> admitted t = false.
Proof.
  assert (H1 : run drain_acts l_init = Some drain_state) by (vm_compute; reflexivity).
  assert (H2 : run [Step 2 tt; Step 4 tt; Step 4 tt; Step 4 tt] drain_state = Some returned_state) by (vm_compute; reflexivity).
  assert (H3 : run [Start (TOp OpBegin); Step 5 tt] returned_state = Some after_state) by (vm_compute; reflexivity).
  assert (H4 : drain_state.2 !! 4%nat <> Some (TWait WaitReturned)) by (vm_compute; discriminate).
  split; [vm_compute; reflexivity|]. split; [vm_compute; reflexivity|]. split; [vm_compute; reflexivity|].
  exact (proj2 (drained_admits_nothing drain_state returned_state after_state 4 (schedule_sound _ _ _ _ _ H1) eq_refl H4
                  (schedule_sound _ _ _ _ _ H2) eq_refl (schedule_sound _ _ _ _ _ H3))).
Defined.

Lemma no_lost_wakeup_witness :
  late_state.2 !! 4%nat = Some (TWait (WaitBlocked 0)) /\
  exists n l' ts', (n <= 3)%nat /\ nsteps l_step n late_state (l', ts') /\ ts' !! 4%nat = Some (TWait WaitReturned).
Proof.
  split; [reflexivity|].
  assert (H : run (drain_acts ++ late_acts) l_init = Some late_state) by (vm_compute; reflexivity).
  exact (no_lost_wakeup late_state.1 late_state.2 4 (WaitBlocked 0) (schedule_sound _ _ _ _ _ H) eq_refl eq_refl eq_refl).
Defined.

(** A failing [init] that read the state before a shutdown began replaces
    [Draining] by [Failed]; a second [begin_draining] then succeeds too. *)
Example failed_init_overwrites_draining :
  (lc_state <$> (fst <$> run
     [Start (TCtl MarkFailed); Step 0 tt; Start (TCtl BeginDraining); Step 1 tt; Step 1 tt; Step 0 tt] l_init)) = Some Failed /\
  (fun s => s.2 !! 2%nat) <$> run
     [Start (TCtl MarkFailed); Step 0 tt; Start (TCtl BeginDraining); Step 1 tt; Step 1 tt; Step 0 tt;
      Start (TCtl BeginDraining); Step 2 tt; Step 2 tt] l_init = Some (Some (TCtl (CtlReturned true))).
Proof. split; reflexivity. Qed.
