(* ===== verification/TaskRegistry.v ===== *)
(** * The task registry (components/storage/src/task_registry.rs)

    Every background task of a mount is admitted under the [accepting] lock,
    counted, given an identifier and an abort handle, and accounts for itself
    when its completion guard is dropped, be it at its end, after a panic or
    after an abort.  Each atomic access and each critical section is one step;
    the thread that holds the [accepting] lock is part of the state. *)

From S2P Require Import Prelude.

(** Where a task stands: its future runs, it has panicked and was counted, or its
    guard is being dropped (the four statements of [CompletionGuard::drop]).
    [tk_panicked] records for the proofs that its future panicked. *)
Inductive TaskPhase := TRun | TPanicked | TFinished | TRemoved | TInactive | TDone.

Record Task := mkTask { tk_phase : TaskPhase; tk_aborted : bool; tk_panicked : bool }.

(** How far the thread that holds the lock is in [spawn]. *)
Inductive SpawnPhase := SLocked | SActive | SSpawned | SNumbered (id : Z) | SRunning (id : Z) | SRegistered.

(** The task with identifier [n] is element [n] of [tr_tasks]. *)
Record Registry := mkReg {
  tr_accepting : bool;
  tr_holder : option SpawnPhase;
  tr_handles : gset Z;
  tr_next_task_id : Z;
  tr_active : Z;
  tr_spawned : Z;
  tr_completed : Z;
  tr_panicked : Z;
  tr_tasks : list Task
}.

Definition registry_new : Registry := mkReg true None ∅ 0 0 0 0 0 [].

Definition set_holder h r := mkReg (tr_accepting r) h (tr_handles r) (tr_next_task_id r) (tr_active r) (tr_spawned r)
  (tr_completed r) (tr_panicked r) (tr_tasks r).
Definition set_handles h r := mkReg (tr_accepting r) (tr_holder r) h (tr_next_task_id r) (tr_active r) (tr_spawned r)
  (tr_completed r) (tr_panicked r) (tr_tasks r).
Definition set_next n r := mkReg (tr_accepting r) (tr_holder r) (tr_handles r) n (tr_active r) (tr_spawned r)
  (tr_completed r) (tr_panicked r) (tr_tasks r).
Definition set_act n r := mkReg (tr_accepting r) (tr_holder r) (tr_handles r) (tr_next_task_id r) n (tr_spawned r)
  (tr_completed r) (tr_panicked r) (tr_tasks r).
Definition set_spawned n r := mkReg (tr_accepting r) (tr_holder r) (tr_handles r) (tr_next_task_id r) (tr_active r) n
  (tr_completed r) (tr_panicked r) (tr_tasks r).
Definition set_completed n r := mkReg (tr_accepting r) (tr_holder r) (tr_handles r) (tr_next_task_id r) (tr_active r)
  (tr_spawned r) n (tr_panicked r) (tr_tasks r).
Definition set_panicked n r := mkReg (tr_accepting r) (tr_holder r) (tr_handles r) (tr_next_task_id r) (tr_active r)
  (tr_spawned r) (tr_completed r) n (tr_tasks r).
Definition set_tasks l r := mkReg (tr_accepting r) (tr_holder r) (tr_handles r) (tr_next_task_id r) (tr_active r)
  (tr_spawned r) (tr_completed r) (tr_panicked r) l.

Definition task (r : Registry) (id : Z) : option Task := tr_tasks r !! Z.to_nat id.

(** [finished.load()] *)
Definition finished (t : Task) : bool := match tk_phase t with TRun | TPanicked => false | _ => true end.

(** *** spawn *)

(** The lock is taken and [accepting] read; [false] is returned at once. *)
Definition spawn_begin (r : Registry) : option Registry :=
  match tr_holder r with
  | Some _ => None
  | None => Some (if tr_accepting r then set_holder (Some SLocked) r else r)
  end.

Definition spawn_next (ph : SpawnPhase) (r : Registry) : Registry :=
  match ph with
  | SLocked => set_holder (Some SActive) (set_act (u64_wrap (tr_active r + 1)) r)
  | SActive => set_holder (Some SSpawned) (set_spawned (u64_wrap (tr_spawned r + 1)) r)
  | SSpawned => set_holder (Some (SNumbered (tr_next_task_id r))) (set_next (u64_wrap (tr_next_task_id r + 1)) r)
  | SNumbered id => set_holder (Some (SRunning id)) (set_tasks (tr_tasks r ++ [mkTask TRun false false]) r)
  | SRunning id =>
      set_holder (Some SRegistered)
        (match task r id with
         | Some t => if finished t then r else set_handles ({[id]} ∪ tr_handles r) r
         | None => r
         end)
  | SRegistered => set_holder None r
  end.

(** *** A running task; [panic] says how its future ends *)

Definition task_next (id : Z) (panic : bool) (r : Registry) : option Registry :=
  t ← task r id;
  let go ph panicked r := set_tasks (<[Z.to_nat id := mkTask ph (tk_aborted t) panicked]> (tr_tasks r)) r in
  match tk_phase t with
  | TRun => Some (if panic then go TPanicked true (set_panicked (u64_wrap (tr_panicked r + 1)) r) else go TFinished (tk_panicked t) r)
  | TPanicked => Some (go TFinished (tk_panicked t) r)
  | TFinished => Some (go TRemoved (tk_panicked t) (set_handles (tr_handles r ∖ {[id]}) r))
  | TRemoved => Some (go TInactive (tk_panicked t) (set_act (u64_wrap (tr_active r - 1)) r))
  | TInactive => Some (go TDone (tk_panicked t) (set_completed (u64_wrap (tr_completed r + 1)) r))
  | TDone => None
  end.

(** *** Draining and aborting *)

Definition reg_begin_draining (r : Registry) : option (bool * Registry) :=
  match tr_holder r with
  | Some _ => None
  | None =>
      Some (tr_accepting r,
            mkReg false None (tr_handles r) (tr_next_task_id r) (tr_active r) (tr_spawned r) (tr_completed r)
              (tr_panicked r) (tr_tasks r))
  end.

(** [handle.is_finished()] *)
Definition handle_finished (r : Registry) (id : Z) : bool :=
  match task r id with Some t => match tk_phase t with TDone => true | _ => false end | None => false end.

(** [retain] drops the handles of tasks that are finished, [drain] aborts the rest. *)
Definition abort_all (r : Registry) : Z * Registry :=
  let live := filter (fun id => handle_finished r id = false) (elements (tr_handles r)) in
  (zlen live,
   set_handles ∅ (set_tasks
     (imap (fun n t => if decide (Z.of_nat n ∈ live) then mkTask (tk_phase t) true (tk_panicked t) else t) (tr_tasks r)) r)).

Record TaskSnapshot := mkSnap { sn_active : Z; sn_spawned : Z; sn_completed : Z; sn_panicked : Z }.

Definition snapshot (r : Registry) : TaskSnapshot :=
  mkSnap (tr_active r) (tr_spawned r) (tr_completed r) (tr_panicked r).

(** ** Steps *)

Inductive RegAct := ASpawn | ASpawnStep | ATask (id : Z) (panic : bool) | ADrain | AAbort.

(** Fewer tasks are started than a [usize] counts. *)
Definition reg_next (a : RegAct) (r : Registry) : option Registry :=
  match a with
  | ASpawn => if zlen (tr_tasks r) + 1 <? 2 ^ 64 - 1 then spawn_begin r else None
  | ASpawnStep => ph ← tr_holder r; Some (spawn_next ph r)
  | ATask id panic => if 0 <=? id then task_next id panic r else None
  | ADrain => snd <$> reg_begin_draining r
  | AAbort => Some (abort_all r).2
  end.

Definition reg_step (r r' : Registry) : Prop := exists a, reg_next a r = Some r'.

Fixpoint reg_run (acts : list RegAct) (r : Registry) : option Registry :=
  match acts with [] => Some r | a :: acts => r ← reg_next a r; reg_run acts r end.

Lemma reg_run_sound acts r r' : reg_run acts r = Some r' -> rtc reg_step r r'.
Proof.
  revert r. induction acts as [|a acts IH]; intros r H; cbn [reg_run] in H; [injection H as <-; constructor|].
  destruct (reg_next a r) as [r1|] eqn:E; [|done]. eapply rtc_l; [by exists a|by apply IH].
Qed.

(** ** The invariant *)

Definition is_active (t : Task) : bool := match tk_phase t with TInactive | TDone => false | _ => true end.
Definition is_done (t : Task) : bool := match tk_phase t with TDone => true | _ => false end.

(** What the lock holder has counted for a task that does not exist yet. *)
Definition pre_active (h : option SpawnPhase) : Z :=
  match h with Some (SActive | SSpawned | SNumbered _) => 1 | _ => 0 end.
Definition pre_spawned (h : option SpawnPhase) : Z := match h with Some (SSpawned | SNumbered _) => 1 | _ => 0 end.
Definition pre_numbered (h : option SpawnPhase) : Z := match h with Some (SNumbered _) => 1 | _ => 0 end.

Definition holder_ok (r : Registry) : Prop :=
  match tr_holder r with
  | Some (SNumbered id) => id = zlen (tr_tasks r)
  | Some (SRunning id) => id = zlen (tr_tasks r) - 1 /\ 0 <= id
  | _ => True
  end.

(** A task that has not ended can be aborted, was aborted, or is being registered. *)
Definition reachable_task (r : Registry) (id : Z) (t : Task) : Prop :=
  finished t = false -> tk_aborted t = true \/ id ∈ tr_handles r \/ tr_holder r = Some (SRunning id).

Record RegInv (r : Registry) : Prop := {
  ri_room : zlen (tr_tasks r) + (if tr_holder r is Some (SLocked | SActive | SSpawned | SNumbered _) then 1 else 0) < 2 ^ 64 - 1;
  ri_active : tr_active r = count is_active (tr_tasks r) + pre_active (tr_holder r);
  ri_spawned : tr_spawned r = zlen (tr_tasks r) + pre_spawned (tr_holder r);
  ri_completed : tr_completed r = count is_done (tr_tasks r);
  ri_panicked : tr_panicked r = count tk_panicked (tr_tasks r);
  ri_running : forall id t, task r id = Some t -> tk_phase t = TRun -> tk_panicked t = false;
  ri_next : tr_next_task_id r = zlen (tr_tasks r) + pre_numbered (tr_holder r);
  ri_holder : holder_ok r;
  ri_closed : tr_accepting r = false -> tr_holder r = None;
  ri_handles : forall id, id ∈ tr_handles r -> 0 <= id /\ exists t, task r id = Some t /\
    match tk_phase t with TRun | TPanicked | TFinished => True | _ => False end;
  ri_tasks : forall id t, 0 <= id -> task r id = Some t -> reachable_task r id t
}.

Lemma registry_new_inv : RegInv registry_new.
Proof.
  constructor; done.
Qed.

(** *** Steps of the lock holder *)

Lemma task_lookup_range r id t : 0 <= id -> task r id = Some t -> id < zlen (tr_tasks r).
Proof. intros H E. apply lookup_lt_Some in E. unfold zlen. lia. Qed.

Lemma task_snoc r id t x :
  0 <= id -> (tr_tasks r ++ [x]) !! Z.to_nat id = Some t ->
  task r id = Some t \/ id = zlen (tr_tasks r) /\ t = x.
Proof.
  intros Hid H. apply lookup_app_Some in H as [H|[Hge H]]; [by left|]. right.
  destruct (Z.to_nat id - length (tr_tasks r))%nat eqn:E; [|done]. injection H as <-. split; [unfold zlen; lia|done].
Qed.

(** A step that leaves tasks, handles and admission alone. *)
Lemma keep_counts r r' :
  RegInv r -> tr_tasks r' = tr_tasks r -> tr_handles r' = tr_handles r -> tr_accepting r' = tr_accepting r ->
  tr_completed r' = tr_completed r -> tr_panicked r' = tr_panicked r ->
  zlen (tr_tasks r') + (if tr_holder r' is Some (SLocked | SActive | SSpawned | SNumbered _) then 1 else 0) < 2 ^ 64 - 1 ->
  tr_active r' - pre_active (tr_holder r') = tr_active r - pre_active (tr_holder r) ->
  tr_spawned r' - pre_spawned (tr_holder r') = tr_spawned r - pre_spawned (tr_holder r) ->
  tr_next_task_id r' - pre_numbered (tr_holder r') = tr_next_task_id r - pre_numbered (tr_holder r) ->
  holder_ok r' -> (tr_accepting r = false -> tr_holder r' = None) ->
  (forall id, tr_holder r = Some (SRunning id) -> tr_holder r' = Some (SRunning id)) -> RegInv r'.
Proof.
  intros [H1 H2 H3 H4 HP HR H5 H6 H7 H8 H9] Et Eh Ea Ec Ep Hroom Hact Hsp Hn Hok Hcl Hrun.
  rewrite Et in Hroom. constructor; rewrite ?Et, ?Eh, ?Ea, ?Ec, ?Ep; try done; try lia.
  - intros id t Ht. unfold task in Ht. rewrite Et in Ht. by eapply HR.
  - intros id Hid. destruct (H8 id Hid) as (? & t & Ht & ?). split; [done|]. exists t. unfold task. by rewrite Et.
  - intros id t Hid Ht Hf. unfold task in Ht. rewrite Et in Ht. destruct (H9 id t Hid Ht Hf) as [?|[?|?]]; rewrite ?Eh; auto.
Qed.

(** Discharge the premises of [keep_counts] for a step of the holder. *)
Ltac keep_step r Hh H7 :=
  eapply (keep_counts r); try done; rewrite ?Hh; cbn in *; unfold u64_wrap, holder_ok; rewrite ?Z.mod_small by lia; cbn;
  try done; try lia; try (intros Ha; by specialize (H7 Ha)).

Lemma spawn_next_inv ph r : tr_holder r = Some ph -> RegInv r -> RegInv (spawn_next ph r).
Proof.
  intros Hh I. pose proof I as [H1 H2 H3 H4 HP HR H5 H6 H7 H8 H9]. rewrite Hh in *. unfold holder_ok in H6. rewrite Hh in H6.
  pose proof (count_bounds is_active (tr_tasks r)). pose proof (zlen_nonneg (tr_tasks r)).
  destruct ph as [| | |id|id|]; cbn [spawn_next].
  - keep_step r Hh H7.
  - keep_step r Hh H7.
  - keep_step r Hh H7.
  - constructor; cbn in *; rewrite ?count_snoc, ?zlen_snoc; cbn; try done; try lia.
    + intros i t Ht Hp. unfold task in Ht. cbn in Ht. apply lookup_app_Some in Ht as [Ht|[_ Ht]]; [by eapply HR|].
      by apply list_lookup_singleton_Some in Ht as [_ <-].
    + intros Ha. by specialize (H7 Ha).
    + intros i Hi. destruct (H8 i Hi) as (Hi0 & t & Ht & Hp). split; [done|]. exists t. split; [|done].
      unfold task in *. cbn. by apply lookup_app_l_Some.
    + intros i t Hi Ht Hf. unfold task in Ht. cbn in Ht. apply task_snoc in Ht as [Ht|[-> ->]]; [|right; right; by rewrite H6|done].
      destruct (H9 i t Hi Ht Hf) as [?|[?|Hx]]; [by left|right; by left|]. rewrite Hh in Hx. discriminate Hx.
  - destruct H6 as [-> Hid]. set (id := zlen (tr_tasks r) - 1) in *.
    destruct (task r id) as [t|] eqn:Ht; [|apply lookup_ge_None in Ht; unfold id, zlen in *; lia].
    destruct (finished t) eqn:Hf.
    + constructor; cbn in *; try done; try lia; [intros Ha; by specialize (H7 Ha)|].
      intros i u Hi Hu Hfu. destruct (H9 i u Hi Hu Hfu) as [?|[?|Hx]]; [by left|right; by left|].
      rewrite Hh in Hx. injection Hx as <-. change (task r id = Some u) in Hu. congruence.
    + constructor; cbn in *; try done; try lia; [intros Ha; by specialize (H7 Ha)| |].
      * intros i [->%elem_of_singleton|Hi]%elem_of_union; [|by apply H8]. split; [done|]. exists t. split; [done|].
        unfold finished in Hf. by destruct (tk_phase t).
      * intros i u Hi Hu Hfu. destruct (H9 i u Hi Hu Hfu) as [?|[?|Hx]]; [by left|right; left; set_solver|].
        rewrite Hh in Hx. injection Hx as <-. right. left. set_solver.
  - keep_step r Hh H7.
Qed.

(** *** Steps of a task *)

Lemma task_set r id t i u :
  0 <= id -> 0 <= i -> task r id = Some t ->
  <[Z.to_nat id := u]> (tr_tasks r) !! Z.to_nat i = if decide (i = id) then Some u else task r i.
Proof.
  intros Hid Hi Ht. case_decide as E.
  - subst i. apply list_lookup_insert_eq. by eapply lookup_lt_Some.
  - rewrite list_lookup_insert_ne; [done|]. intros ?. apply E. lia.
Qed.

(** A task moves to a later phase; its handle may go, nobody else's does. *)
Lemma task_moves r r' id t ph pan :
  RegInv r -> 0 <= id -> task r id = Some t ->
  tr_tasks r' = <[Z.to_nat id := mkTask ph (tk_aborted t) pan]> (tr_tasks r) ->
  tr_panicked r' = tr_panicked r - (if tk_panicked t then 1 else 0) + (if pan then 1 else 0) -> ph <> TRun ->
  tr_holder r' = tr_holder r -> tr_accepting r' = tr_accepting r -> tr_spawned r' = tr_spawned r ->
  tr_next_task_id r' = tr_next_task_id r ->
  tr_active r' = tr_active r - (if is_active t then 1 else 0) + (if is_active (mkTask ph false false) then 1 else 0) ->
  tr_completed r' = tr_completed r - (if is_done t then 1 else 0) + (if is_done (mkTask ph false false) then 1 else 0) ->
  (finished t = true -> finished (mkTask ph false false) = true) ->
  (forall i, i <> id -> i ∈ tr_handles r' <-> i ∈ tr_handles r) ->
  (id ∈ tr_handles r' -> id ∈ tr_handles r /\ match ph with TRun | TPanicked | TFinished => True | _ => False end) ->
  (finished (mkTask ph false false) = false -> id ∈ tr_handles r -> id ∈ tr_handles r') -> RegInv r'.
Proof.
  intros [H1 H2 H3 H4 HP HR H5 H6 H7 H8 H9] Hid Ht Et Epan Hph Eh Ea Es En Hact Hdone Hfin Hoth Hown Hkeep.
  assert (Hc : forall f, count f (tr_tasks r') = count f (tr_tasks r) - (if f t then 1 else 0) +
                           (if f (mkTask ph (tk_aborted t) pan) then 1 else 0)).
  { intros f. rewrite Et. by apply count_insert. }
  assert (Hz : zlen (tr_tasks r') = zlen (tr_tasks r)) by (rewrite Et; apply zlen_insert).
  constructor; rewrite ?Hz, ?Hc, ?Eh, ?Ea; try done.
  - unfold is_active in *. cbn in *. lia.
  - by rewrite Es.
  - unfold is_done in *. cbn in *. lia.
  - cbn. lia.
  - intros i u Hu Hp. unfold task in Hu. rewrite Et in Hu. apply list_lookup_insert_Some in Hu as [(_ & <- & _)|[_ Hu]]; [done|].
    by eapply (HR i).
  - by rewrite En.
  - unfold holder_ok in *. by rewrite Eh, Hz.
  - intros i Hi. unfold task. rewrite Et. destruct (decide (i = id)) as [->|Hne].
    + destruct (Hown Hi) as [_ Hp]. split; [done|]. eexists. split; [by rewrite (task_set r id t), decide_True|done].
    + apply Hoth in Hi; [|done]. destruct (H8 i Hi) as (Hi0 & u & Hu & Hp). split; [done|]. exists u. split; [|done].
      by rewrite (task_set r id t), decide_False by done.
  - intros i u Hi Hu Hf. unfold task in Hu. rewrite Et, (task_set r id t) in Hu by done. case_decide as E.
    + subst i. injection Hu as <-. assert (Hft : finished t = false).
      { destruct (finished t) eqn:E; [|done]. specialize (Hfin eq_refl). unfold finished in *. cbn in *. congruence. }
      destruct (H9 id t Hid Ht Hft) as [?|[?|?]]; [by left| |right; right; by rewrite Eh].
      right. left. by apply Hkeep.
    + destruct (H9 i u Hi Hu Hf) as [?|[?|?]]; [by left|right; left; by apply Hoth|right; right; by rewrite Eh].
Qed.

Lemma task_next_inv id panic r r' : 0 <= id -> task_next id panic r = Some r' -> RegInv r -> RegInv r'.
Proof.
  intros Hid H I. unfold task_next in H. destruct (task r id) as [t|] eqn:Ht; [|done]. cbn in H.
  pose proof I as [H1 H2 _ H4 HP HR _ _ _ H8 _]. pose proof (count_bounds is_active (tr_tasks r)) as Hb.
  pose proof (count_bounds is_done (tr_tasks r)) as Hd.
  assert (0 <= pre_active (tr_holder r)) by (destruct (tr_holder r) as [[]|]; done || (cbn; lia)).
  assert (Hpos : is_active t = true -> 0 < tr_active r).
  { intros Ha. pose proof (count_pos is_active (tr_tasks r) _ t Ht Ha). lia. }
  assert (Hdl : is_done t = false -> count is_done (tr_tasks r) < zlen (tr_tasks r)).
  { intros Hn. pose proof (count_insert is_done (tr_tasks r) (Z.to_nat id) t (mkTask TDone false false) Ht) as Hi.
    rewrite Hn in Hi. cbn in Hi. pose proof (count_bounds is_done (<[Z.to_nat id:=mkTask TDone false false]> (tr_tasks r))) as Hb2.
    rewrite zlen_insert in Hb2. lia. }
  assert (Hroom : zlen (tr_tasks r) < 2 ^ 64 - 1) by (destruct (tr_holder r) as [[]|]; lia).
  assert (Ha64 : tr_active r < 2 ^ 64) by (rewrite H2; destruct (tr_holder r) as [[]|]; cbn in *; lia).
  pose proof (count_bounds tk_panicked (tr_tasks r)) as Hpb. unfold is_active, is_done, finished in *.
  destruct (tk_phase t) eqn:Ep; [destruct panic| | | | |done]; injection H as <-;
    [eapply (task_moves r _ id t TPanicked true)|eapply (task_moves r _ id t TFinished)|eapply (task_moves r _ id t TFinished)|
     eapply (task_moves r _ id t TRemoved)|eapply (task_moves r _ id t TInactive)|eapply (task_moves r _ id t TDone)];
    try done; cbn; unfold is_active, is_done, finished; rewrite ?Ep; cbn; try done; try lia.
  - rewrite (HR id t Ht Ep). unfold u64_wrap. rewrite Z.mod_small; lia.
  - intros i Hne. set_solver.
  - set_solver.
  - unfold u64_wrap. rewrite Z.mod_small; [lia|]. specialize (Hpos eq_refl). lia.
  - intros Hin. destruct (H8 id Hin) as (_ & u & Hu & Hp). rewrite Ht in Hu. injection Hu as <-. by rewrite Ep in Hp.
  - unfold u64_wrap. rewrite Z.mod_small; [lia|]. specialize (Hdl eq_refl). lia.
  - intros Hin. destruct (H8 id Hin) as (_ & u & Hu & Hp). rewrite Ht in Hu. injection Hu as <-. by rewrite Ep in Hp.
Qed.

(** *** Draining and aborting *)

Lemma abort_task r id t :
  task r id = Some t ->
  task (abort_all r).2 id =
    Some (if decide (Z.of_nat (Z.to_nat id) ∈ filter (fun id => handle_finished r id = false) (elements (tr_handles r)))
          then mkTask (tk_phase t) true (tk_panicked t) else t).
Proof. intros H. unfold task, abort_all in *. cbn. by rewrite list_lookup_imap, H. Qed.

Lemma abort_task_inv r id u :
  task (abort_all r).2 id = Some u ->
  exists t, task r id = Some t /\ (tk_phase u = tk_phase t /\ tk_panicked u = tk_panicked t) /\ (tk_aborted t = true -> tk_aborted u = true) /\
    (0 <= id -> id ∈ tr_handles r -> tk_phase t <> TDone -> tk_aborted u = true).
Proof.
  intros H. destruct (task r id) as [t|] eqn:E.
  - rewrite (abort_task r id t E) in H. injection H as <-. exists t. split; [done|]. case_decide as Hd; [done|].
    split; [done|]. split; [done|]. intros Hid Hin Hp. exfalso. apply Hd. rewrite Z2Nat.id by done.
    apply list_elem_of_filter. split; [|by apply elem_of_elements]. unfold handle_finished. rewrite E. by destruct (tk_phase t).
  - exfalso. unfold task, abort_all in *. cbn in H. by rewrite list_lookup_imap, E in H.
Qed.

Lemma abort_all_inv r : RegInv r -> RegInv (abort_all r).2.
Proof.
  intros [H1 H2 H3 H4 HP HR H5 H6 H7 H8 H9].
  assert (Hc : forall f, (forall ph a b c, f (mkTask ph a c) = f (mkTask ph b c)) ->
            count f (tr_tasks (abort_all r).2) = count f (tr_tasks r)).
  { intros f Hf. cbn. apply count_imap. intros n [ph a c]. case_decide; [apply Hf|done]. }
  assert (Hz : zlen (tr_tasks (abort_all r).2) = zlen (tr_tasks r)) by (cbn; unfold zlen; by rewrite length_imap).
  constructor; rewrite ?Hz, ?Hc by done; try done.
  - intros id u Hu Hp. destruct (abort_task_inv r id u Hu) as (t & Ht & [Hp' ->] & _). apply (HR id t Ht). congruence.
  - unfold holder_ok in *. by rewrite Hz.
  - intros id u Hid Hu Hf. destruct (abort_task_inv r id u Hu) as (t & Ht & [Hp _] & Hab & Hh).
    assert (Hft : finished t = false) by (unfold finished in *; by rewrite <- Hp).
    destruct (H9 id t Hid Ht Hft) as [?|[Hin|?]]; [left; auto| |by right; right].
    left. apply Hh; [done|done|]. intros E. unfold finished in Hft. by rewrite E in Hft.
Qed.

Lemma reg_step_inv r r' : reg_step r r' -> RegInv r -> RegInv r'.
Proof.
  intros [a H] I. pose proof I as [H1 H2 H3 H4 HP HR H5 H6 H7 H8 H9]. destruct a as [| |id panic| |]; cbn in H.
  - destruct (_ <? _) eqn:Eb; [|done]. to_prop. unfold spawn_begin in H. destruct (tr_holder r) eqn:Eh; [done|].
    destruct (tr_accepting r) eqn:Ea; injection H as <-; [|done].
    eapply (keep_counts r); try done; rewrite ?Eh; cbn in *; rewrite ?Ea; unfold holder_ok; cbn; try done; lia.
  - destruct (tr_holder r) as [ph|] eqn:Eh; [|done]. injection H as <-. by apply spawn_next_inv.
  - destruct (0 <=? id) eqn:E; [|done]. to_prop. by eapply task_next_inv.
  - unfold reg_begin_draining in H. destruct (tr_holder r) eqn:Eh; [done|]. injection H as <-.
    constructor; cbn in *; rewrite ?Eh in *; try done.
    intros id t Hid Ht Hf. destruct (H9 id t Hid Ht Hf) as [?|[?|Hx]]; [by left|right; by left|]. by rewrite Eh in Hx.
  - injection H as <-. by apply abort_all_inv.
Qed.

Lemma reg_steps_inv r r' : rtc reg_step r r' -> RegInv r -> RegInv r'.
Proof. induction 1; eauto using reg_step_inv. Qed.

(** C19: the counters and the handles account for exactly the tasks, at every moment
    of every interleaving: active are the tasks whose guard has not been dropped and
    the one a spawn has counted but not started yet, spawned all tasks and that one,
    completed those whose guard is gone, panicked those whose future panicked; an
    abort handle is held only for a task whose guard has not removed it yet, and a
    task that has not ended has its handle there, was aborted, or is the one that is
    being registered. *)
Theorem registry_accounts r :
  rtc reg_step registry_new r ->
  snapshot r = mkSnap (count is_active (tr_tasks r) + pre_active (tr_holder r)) (zlen (tr_tasks r) + pre_spawned (tr_holder r))
                 (count is_done (tr_tasks r)) (count tk_panicked (tr_tasks r)) /\
  (forall id, id ∈ tr_handles r -> 0 <= id /\ exists t, task r id = Some t /\ is_active t = true) /\
  (forall id t, 0 <= id -> task r id = Some t -> finished t = false ->
    tk_aborted t = true \/ id ∈ tr_handles r \/ tr_holder r = Some (SRunning id)).
Proof.
  intros Hr. destruct (reg_steps_inv _ _ Hr registry_new_inv) as [_ H2 H3 H4 HP _ _ _ _ H8 H9]. split_and!.
  - unfold snapshot. by rewrite H2, H3, H4, HP.
  - intros id Hin. destruct (H8 id Hin) as (Hid & t & Ht & Hp). split; [done|]. exists t. split; [done|].
    unfold is_active. by destruct (tk_phase t).
  - exact H9.
Qed.

(** Every task that still runs was aborted, and no task can start. *)
Definition all_aborted (r : Registry) : Prop :=
  tr_accepting r = false /\ tr_holder r = None /\
  forall id t, 0 <= id -> task r id = Some t -> finished t = false -> tk_aborted t = true.

Lemma task_next_aborted r r' id panic : 0 <= id -> task_next id panic r = Some r' -> all_aborted r -> all_aborted r'.
Proof.
  intros Hid H (Ha & Hh & Ht). unfold task_next in H. destruct (task r id) as [t|] eqn:E; [|done]. cbn in H.
  assert (Hr : exists ph pan, tr_tasks r' = <[Z.to_nat id := mkTask ph (tk_aborted t) pan]> (tr_tasks r) /\
            tr_accepting r' = tr_accepting r /\ tr_holder r' = tr_holder r /\
            (finished t = true -> finished (mkTask ph (tk_aborted t) pan) = true)).
  { unfold finished. destruct (tk_phase t); [destruct panic|..|done]; injection H as <-;
      (eexists _, _; split; [reflexivity|]; split; [done|]; split; done). }
  destruct Hr as (ph & pan & Et & E1 & E2 & Hf). split; [by rewrite E1|]. split; [by rewrite E2|].
  intros i u Hi Hu Hfu. unfold task in Hu. rewrite Et, (task_set r id t) in Hu by done. case_decide as Ei.
  - injection Hu as <-. cbn. apply (Ht id t); [done|done|]. destruct (finished t); [by rewrite Hf in Hfu|done].
  - by apply (Ht i u).
Qed.

Lemma all_aborted_step r r' : reg_step r r' -> all_aborted r -> all_aborted r'.
Proof.
  intros [a H] I. pose proof I as (Ha & Hh & Ht). destruct a as [| |id panic| |]; cbn in H.
  - destruct (_ <? _); [|done]. unfold spawn_begin in H. rewrite Hh, Ha in H. by injection H as <-.
  - by rewrite Hh in H.
  - destruct (0 <=? id) eqn:E; [|done]. to_prop. by eapply task_next_aborted.
  - unfold reg_begin_draining in H. rewrite Hh in H. by injection H as <-.
  - injection H as <-. split; [done|]. split; [done|]. intros id u Hid Hu Hf.
    destruct (abort_task_inv r id u Hu) as (t & Et & [Hp _] & Hab & _). apply Hab, (Ht id t); [done|done|].
    unfold finished in *. by rewrite <- Hp.
Qed.

(** C20: once [begin_draining] has returned, [abort_all] reaches every task: no
    task that was admitted can be missing from the handles it aborts, and from
    then on every task that has not ended is aborted and no task starts. *)
Theorem abort_reaches_every_task r r' :
  rtc reg_step registry_new r -> tr_accepting r = false -> rtc reg_step (abort_all r).2 r' ->
  (forall id t, 0 <= id -> task r' id = Some t -> finished t = false -> tk_aborted t = true) /\
  zlen (tr_tasks r') = zlen (tr_tasks r).
Proof.
  intros Hr Hacc Hs. pose proof (reg_steps_inv _ _ Hr registry_new_inv) as I. pose proof (ri_closed _ I Hacc) as Hh.
  assert (Hall : all_aborted (abort_all r).2).
  { split; [done|]. split; [done|]. intros id u Hid Hu Hf. pose proof (abort_all_inv r I) as I2.
    destruct (ri_tasks _ I2 id u Hid Hu Hf) as [?|[Hin|Hx]]; [done|by apply elem_of_empty in Hin|]. cbn in Hx. congruence. }
  assert (Hz : zlen (tr_tasks (abort_all r).2) = zlen (tr_tasks r)) by (cbn; unfold zlen; by rewrite length_imap).
  rewrite <- Hz. clear Hr I Hacc Hh Hz. induction Hs as [|x y z Hxy Hyz IH]; [split; [apply Hall|done]|].
  destruct (IH (all_aborted_step _ _ Hxy Hall)) as [H1 H2]. split; [done|]. rewrite H2. destruct Hall as (Ha & Hh & _).
  destruct Hxy as [a H]. destruct a as [| |id panic| |]; cbn in H.
  - destruct (_ <? _); [|done]. unfold spawn_begin in H. rewrite Hh, Ha in H. by injection H as <-.
  - by rewrite Hh in H.
  - destruct (0 <=? id); [|done]. unfold task_next in H. destruct (task x id) as [t|]; [|done]. cbn in H.
    destruct (tk_phase t); [destruct panic|..|done]; injection H as <-; cbn; apply zlen_insert.
  - unfold reg_begin_draining in H. rewrite Hh in H. by injection H as <-.
  - injection H as <-. cbn. unfold zlen. by rewrite length_imap.
Qed.

(** *** Runs *)

(** Task 0 ends before its handle is registered, task 1 panics, task 2 is stuck;
    then draining starts. *)
Definition reg_acts : list RegAct :=
  [ASpawn; ASpawnStep; ASpawnStep; ASpawnStep; ASpawnStep; ATask 0 false; ASpawnStep; ASpawnStep;
   ATask 0 false; ATask 0 false; ATask 0 false;
   ASpawn; ASpawnStep; ASpawnStep; ASpawnStep; ASpawnStep; ASpawnStep; ASpawnStep; ATask 1 true; ATask 1 false;
   ASpawn; ASpawnStep; ASpawnStep; ASpawnStep; ASpawnStep; ASpawnStep; ASpawnStep; ADrain].
Definition reg_drained : Registry := default registry_new (reg_run reg_acts registry_new).

Lemma registry_accounts_witness :
  snapshot reg_drained = mkSnap 2 3 1 1 /\ (2 ∈ tr_handles reg_drained \/ tk_aborted (mkTask TRun false false) = true \/ tr_holder reg_drained = Some (SRunning 2)).
Proof.
  assert (H : reg_run reg_acts registry_new = Some reg_drained) by (vm_compute; reflexivity).
  destruct (registry_accounts reg_drained (reg_run_sound _ _ _ H)) as (H1 & _ & H3). split; [rewrite H1; vm_compute; reflexivity|].
  destruct (H3 2 (mkTask TRun false false) ltac:(lia) ltac:(vm_compute; reflexivity) eq_refl) as [?|[?|?]]; auto.
Defined.

Lemma abort_reaches_every_task_witness :
  (abort_all reg_drained).1 = 2 /\ task (abort_all reg_drained).2 2 = Some (mkTask TRun true false) /\
  forall id t, 0 <= id -> task (abort_all reg_drained).2 id = Some t -> finished t = false -> tk_aborted t = true.
Proof.
  assert (H : reg_run reg_acts registry_new = Some reg_drained) by (vm_compute; reflexivity).
  split; [vm_compute; reflexivity|]. split; [vm_compute; reflexivity|].
  exact (proj1 (abort_reaches_every_task reg_drained (abort_all reg_drained).2 (reg_run_sound _ _ _ H) eq_refl (rtc_refl _ _))).
Defined.
