(* ===== verification/HandleLock.v ===== *)
(** * The lock of a file handle (components/vfs/src/handle.rs)

    Reads of a handle count themselves, writes take an exclusive flag, and both
    wait for notifications; a request may be cancelled at any time.  Each atomic
    access is one step.  [select!] picks any ready branch: the choice [true]
    takes the cancellation. *)

From S2P Require Import Prelude Interleave.

(** [fl_excl_epoch], [fl_read_epoch]: the calls of [notify_waiters] on
    [exclusive_lock_notify] and [reader_notify]; a waiter is woken by a call after
    its [notified()] was created.  [fl_cancelled]: the requests that were
    cancelled. *)
Record FhLock := mkFhLock {
  fl_reader_cnt : Z;
  fl_write_wait_cnt : Z;
  fl_exclusive : bool;
  fl_excl_epoch : Z;
  fl_read_epoch : Z;
  fl_cancelled : gset Z
}.

Definition fh_lock_new : FhLock := mkFhLock 0 0 false 0 0 ∅.

Definition set_readers n l := mkFhLock n (fl_write_wait_cnt l) (fl_exclusive l) (fl_excl_epoch l) (fl_read_epoch l) (fl_cancelled l).
Definition set_wait n l := mkFhLock (fl_reader_cnt l) n (fl_exclusive l) (fl_excl_epoch l) (fl_read_epoch l) (fl_cancelled l).
Definition set_exclusive b l := mkFhLock (fl_reader_cnt l) (fl_write_wait_cnt l) b (fl_excl_epoch l) (fl_read_epoch l) (fl_cancelled l).
Definition notify_excl l := mkFhLock (fl_reader_cnt l) (fl_write_wait_cnt l) (fl_exclusive l) (fl_excl_epoch l + 1) (fl_read_epoch l) (fl_cancelled l).
Definition notify_read l := mkFhLock (fl_reader_cnt l) (fl_write_wait_cnt l) (fl_exclusive l) (fl_excl_epoch l) (fl_read_epoch l + 1) (fl_cancelled l).
Definition cancel r l := mkFhLock (fl_reader_cnt l) (fl_write_wait_cnt l) (fl_exclusive l) (fl_excl_epoch l) (fl_read_epoch l) ({[r]} ∪ fl_cancelled l).

Definition is_cancelled (r : Z) (l : FhLock) : bool := bool_decide (r ∈ fl_cancelled l).

(** *** read_lock and the drop of its guard *)

Inductive ReadPhase :=
| RLoop
| RCheckExcl
| RArm
| RWait (epoch : Z)
| RCount
| RCheckCancel
| RUndo
| RHold
| RNotify
| RDone (locked : bool).

Definition read_next (choice : bool) (req : Z) (ph : ReadPhase) (l : FhLock) : option (ReadPhase * FhLock) :=
  match ph with
  | RLoop => Some (if 0 <? fl_write_wait_cnt l then RArm else RCheckExcl, l)
  | RCheckExcl => Some (if fl_exclusive l then RArm else RCount, l)
  | RArm => Some (RWait (fl_excl_epoch l), l)
  | RWait e =>
      if choice then (if is_cancelled req l then Some (RDone false, l) else None)
      else (if e =? fl_excl_epoch l then None else Some (RLoop, l))
  | RCount => Some (RCheckCancel, set_readers (u64_wrap (fl_reader_cnt l + 1)) l)
  | RCheckCancel => Some (if is_cancelled req l then RUndo else RHold, l)
  | RUndo => Some (RDone false, set_readers (u64_wrap (fl_reader_cnt l - 1)) l)
  | RHold => Some (RNotify, set_readers (u64_wrap (fl_reader_cnt l - 1)) l)
  | RNotify => Some (RDone true, notify_read l)
  | RDone _ => None
  end.

(** *** write_lock on a handle with a writer, and the drop of its guard *)

Inductive WritePhase :=
| WEnter
| WLoop
| WCheckExcl
| WArm
| WWait (excl read : Z)
| WGiveUp
| WCas
| WLeave
| WCheckCancel
| WUnlock
| WHold
| WNotify
| WDone (locked : bool).

Definition write_next (choice : bool) (req : Z) (ph : WritePhase) (l : FhLock) : option (WritePhase * FhLock) :=
  match ph with
  | WEnter => Some (WLoop, set_wait (u64_wrap (fl_write_wait_cnt l + 1)) l)
  | WLoop => Some (if 0 <? fl_reader_cnt l then WArm else WCheckExcl, l)
  | WCheckExcl => Some (if fl_exclusive l then WArm else WCas, l)
  | WArm => Some (WWait (fl_excl_epoch l) (fl_read_epoch l), l)
  | WWait e r =>
      if choice then (if is_cancelled req l then Some (WGiveUp, l) else None)
      else (if (e =? fl_excl_epoch l) && (r =? fl_read_epoch l) then None else Some (WLoop, l))
  | WGiveUp => Some (WDone false, set_wait (u64_wrap (fl_write_wait_cnt l - 1)) l)
  | WCas => Some (if fl_exclusive l then (WLoop, l) else (WLeave, set_exclusive true l))
  | WLeave => Some (WCheckCancel, set_wait (u64_wrap (fl_write_wait_cnt l - 1)) l)
  | WCheckCancel => Some (if is_cancelled req l then WUnlock else WHold, l)
  | WUnlock => Some (WDone false, set_exclusive false l)
  | WHold => Some (WNotify, set_exclusive false l)
  | WNotify => Some (WDone true, notify_excl l)
  | WDone _ => None
  end.

(** *** wait_all_operations_done; [req] as the caller gave it *)

Inductive AllPhase := ALoop | ACheckWait | ACheckExcl | AArm | AWait (excl read : Z) | ADone (ok : bool).

Definition all_next (choice : bool) (req : option Z) (ph : AllPhase) (l : FhLock) : option (AllPhase * FhLock) :=
  match ph with
  | ALoop => Some (if 0 <? fl_reader_cnt l then AArm else ACheckWait, l)
  | ACheckWait => Some (if 0 <? fl_write_wait_cnt l then AArm else ACheckExcl, l)
  | ACheckExcl => Some (if fl_exclusive l then AArm else ADone true, l)
  | AArm => Some (AWait (fl_excl_epoch l) (fl_read_epoch l), l)
  | AWait e r =>
      if choice then (if req is Some req then if is_cancelled req l then Some (ADone false, l) else None else None)
      else (if (e =? fl_excl_epoch l) && (r =? fl_read_epoch l) then None else Some (ALoop, l))
  | ADone _ => None
  end.

(** ** Threads *)

Inductive HThread :=
| HRead (req : Z) (ph : ReadPhase)
| HWrite (req : Z) (ph : WritePhase)
| HAll (req : option Z) (ph : AllPhase)
| HCancel (req : Z) (done : bool).

Definition h_next (choice : bool) (t : HThread) (l : FhLock) : option (HThread * FhLock) :=
  match t with
  | HRead r ph => prod_map (HRead r) id <$> read_next choice r ph l
  | HWrite r ph => prod_map (HWrite r) id <$> write_next choice r ph l
  | HAll r ph => prod_map (HAll r) id <$> all_next choice r ph l
  | HCancel r false => Some (HCancel r true, cancel r l)
  | HCancel r true => None
  end.

Definition h_entry (t : HThread) : bool :=
  match t with HRead _ RLoop | HWrite _ WEnter | HAll _ ALoop | HCancel _ false => true | _ => false end.

Definition h_init : FhLock * list HThread := (fh_lock_new, []).
Abbreviation h_step := (i_step h_next h_entry).
Abbreviation h_run := (schedule h_next h_entry).

(** ** Exclusion *)

Definition reading (t : HThread) : bool := match t with HRead _ (RCheckCancel | RUndo | RHold) => true | _ => false end.
Definition waiting (t : HThread) : bool :=
  match t with HWrite _ (WLoop | WCheckExcl | WArm | WWait _ _ | WGiveUp | WCas | WLeave) => true | _ => false end.
(** Holds the exclusive flag. *)
Definition owning (t : HThread) : bool := match t with HWrite _ (WLeave | WCheckCancel | WUnlock | WHold) => true | _ => false end.
Definition writing (t : HThread) : bool := match t with HWrite _ WHold => true | _ => false end.
Definition in_read (t : HThread) : bool := match t with HRead _ RHold => true | _ => false end.

Record HInv (s : FhLock * list HThread) : Prop := {
  hi_bound : zlen s.2 < MAX_THREADS;
  hi_readers : fl_reader_cnt s.1 = count reading s.2;
  hi_waiting : fl_write_wait_cnt s.1 = count waiting s.2;
  hi_owner : (if fl_exclusive s.1 then 1 else 0) = count owning s.2
}.

Abbreviation z_of b := (if b : bool then 1 else 0).

(** The counters follow the phases. *)
Lemma h_next_effect c t l t' l' :
  h_next c t l = Some (t', l') ->
  0 <= fl_reader_cnt l < MAX_THREADS -> 0 <= fl_write_wait_cnt l < MAX_THREADS ->
  (reading t = true -> 0 < fl_reader_cnt l) -> (waiting t = true -> 0 < fl_write_wait_cnt l) ->
  (owning t = true -> fl_exclusive l = true) ->
  fl_reader_cnt l' = fl_reader_cnt l - z_of (reading t) + z_of (reading t') /\
  fl_write_wait_cnt l' = fl_write_wait_cnt l - z_of (waiting t) + z_of (waiting t') /\
  z_of (fl_exclusive l') = z_of (fl_exclusive l) - z_of (owning t) + z_of (owning t').
Proof.
  unfold MAX_THREADS. intros H Hr Hw Hrd Hwt Ho. destruct t as [r ph|r ph|r ph|r []]; cbn [h_next] in H; try done.
  - destruct (read_next c r ph l) as [[p m]|] eqn:E; [|done]. injection H as <- <-.
    destruct ph; cbn in *; repeat case_match; simplify_eq; cbn in *; unfold u64_wrap; rewrite ?Z.mod_small by lia;
      split_and!; try done; try lia; destruct (fl_exclusive _); lia.
  - destruct (write_next c r ph l) as [[p m]|] eqn:E; [|done]. injection H as <- <-.
    destruct ph; cbn in *; repeat case_match; simplify_eq; cbn in *; unfold u64_wrap; rewrite ?Z.mod_small by lia;
      split_and!; try done; try lia; try (rewrite Ho by done; done); destruct (fl_exclusive _); done || lia.
  - destruct (all_next c r ph l) as [[p m]|] eqn:E; [|done]. injection H as <- <-.
    destruct ph; cbn in *; repeat case_match; simplify_eq; cbn in *; split_and!; try done; try lia;
      destruct (fl_exclusive _); lia.
  - injection H as <- <-. cbn. split_and!; lia.
Qed.

Lemma h_step_inv s s' : h_step s s' -> HInv s -> HInv s'.
Proof.
  intros Hst [Hb Hr Hw Ho]. destruct Hst as [l ts i c t t' l' Hi Hn|l ts t Ht Hz]; cbn [fst snd] in *.
  - pose proof (count_bounds reading ts) as B1. pose proof (count_bounds waiting ts) as B2.
    pose proof (count_bounds owning ts) as B3.
    destruct (h_next_effect c t l t' l' Hn) as (E1 & E2 & E3); try lia.
    + intros H. rewrite Hr. by eapply count_pos.
    + intros H. rewrite Hw. by eapply count_pos.
    + intros H. pose proof (count_pos owning ts i t Hi H). destruct (fl_exclusive l); [done|lia].
    + pose proof (count_insert reading ts i t t' Hi). pose proof (count_insert waiting ts i t t' Hi).
      pose proof (count_insert owning ts i t t' Hi).
      constructor; cbn [fst snd]; rewrite ?zlen_insert; [done|lia|lia|]. rewrite E3, Ho. lia.
  - assert (reading t = false /\ waiting t = false /\ owning t = false) as (H1 & H2 & H3)
      by (destruct t as [? []|? []|? []|? []]; done).
    constructor; cbn [fst snd]; rewrite ?zlen_snoc, ?count_snoc, ?H1, ?H2, ?H3; [done|lia|lia|lia].
Qed.

Lemma h_init_inv : HInv h_init.
Proof. by constructor. Qed.

Lemma h_steps_inv s s' : rtc h_step s s' -> HInv s -> HInv s'.
Proof. apply i_steps_inv, h_step_inv. Qed.

(** C21: at most one request writes to a handle at a time, under any interleaving
    and any cancellations; a request that starts waits until the others have
    released the flag. *)
Theorem writers_exclusive s i j r r' :
  rtc h_step h_init s -> s.2 !! i = Some (HWrite r WHold) -> s.2 !! j = Some (HWrite r' WHold) -> i = j.
Proof.
  intros Hs Hi Hj. destruct (h_steps_inv _ _ Hs h_init_inv) as [_ _ _ Ho].
  destruct (decide (i = j)) as [|Hne]; [done|]. exfalso.
  pose proof (count_insert owning s.2 i _ (HWrite r (WDone true)) Hi) as E. cbn in E.
  assert (Hj' : <[i := HWrite r (WDone true)]> s.2 !! j = Some (HWrite r' WHold)) by (by rewrite list_lookup_insert_ne).
  pose proof (count_pos owning _ j _ Hj' eq_refl). destruct (fl_exclusive s.1); lia.
Qed.

(** *** Runs that go wrong *)

(** A reader (0) passes its two checks, a writer (1) takes the flag, the reader
    counts itself. *)
Definition overlap_acts : list (Act (C:=bool) (T:=HThread)) :=
  [Start (HRead 10 RLoop); Step 0 false; Step 0 false; Start (HWrite 11 WEnter); Step 1 false; Step 1 false; Step 1 false;
   Step 1 false; Step 1 false; Step 1 false; Step 0 false; Step 0 false].

(** C40: reads and writes of a handle are not exclusive: a read and a write of
    the same handle may hold their guards at the same time. *)
Theorem read_overlaps_write : exists s, rtc h_step h_init s /\ 0 < count in_read s.2 /\ 0 < count writing s.2.
Proof.
  destruct (h_run overlap_acts h_init) as [s|] eqn:E; [|vm_compute in E; discriminate E].
  exists s. split; [by eapply schedule_sound|]. vm_compute in E. injection E as <-. split; vm_compute; reflexivity.
Qed.

(** A reader (1) finds the flag taken by a writer (0); the writer lets go and
    notifies before the reader waits. *)
Definition lost_acts : list (Act (C:=bool) (T:=HThread)) :=
  [Start (HWrite 10 WEnter); Step 0 false; Step 0 false; Step 0 false; Step 0 false; Step 0 false; Step 0 false;
   Start (HRead 11 RLoop); Step 1 false; Step 1 false; Step 0 false; Step 0 false; Step 1 false].

(** A writer (1) waits for a reader (0), a second reader (2) waits for the
    writer; the writer is cancelled and tells nobody. *)
Definition cancel_acts : list (Act (C:=bool) (T:=HThread)) :=
  [Start (HRead 10 RLoop); Step 0 false; Step 0 false; Step 0 false; Step 0 false;
   Start (HWrite 11 WEnter); Step 1 false; Step 1 false; Step 1 false;
   Start (HRead 12 RLoop); Step 2 false; Step 2 false; Start (HCancel 11 false); Step 3 false; Step 1 true; Step 1 false;
   Step 0 false; Step 0 false].

(** Thread [i] waits for a lock that is free and that nobody holds, waits for or
    is about to release: no thread of the state can take a step. *)
Definition stranded (s : FhLock * list HThread) (i : nat) : Prop :=
  (exists r e, s.2 !! i = Some (HRead r (RWait e)) /\ is_cancelled r s.1 = false) /\
  fl_exclusive s.1 = false /\ fl_write_wait_cnt s.1 = 0 /\ fl_reader_cnt s.1 = 0 /\
  Forall (fun t => forall c, h_next c t s.1 = None) s.2.

(** A read may wait for ever on a free handle: when the writer releases the
    lock between the reader's check and its wait, and when the writer the reader
    waits for is cancelled. *)
Theorem reader_left_waiting :
  (exists s, h_run lost_acts h_init = Some s /\ stranded s 1) /\
  (exists s, h_run cancel_acts h_init = Some s /\ stranded s 2).
Proof.
  split.
  - eexists. split; [vm_compute; reflexivity|]. split; [eexists _, _; split; [reflexivity|vm_compute; reflexivity]|].
    split; [reflexivity|]. split; [reflexivity|]. split; [reflexivity|].
    repeat (apply Forall_cons_2; [by intros []|]). by apply Forall_nil.
  - eexists. split; [vm_compute; reflexivity|]. split; [eexists _, _; split; [reflexivity|vm_compute; reflexivity]|].
    split; [reflexivity|]. split; [reflexivity|]. split; [reflexivity|].
    repeat (apply Forall_cons_2; [by intros []|]). by apply Forall_nil.
Qed.

Lemma writers_exclusive_witness :
  exists s, h_run overlap_acts h_init = Some s /\ s.2 !! 1%nat = Some (HWrite 11 WHold) /\
    forall j r, s.2 !! j = Some (HWrite r WHold) -> 1%nat = j.
Proof.
  destruct (h_run overlap_acts h_init) as [s|] eqn:E; [|vm_compute in E; discriminate E].
  exists s. split; [reflexivity|].
  assert (H : s.2 !! 1%nat = Some (HWrite 11 WHold)) by (vm_compute in E; injection E as <-; reflexivity).
  split; [exact H|]. intros j r Hj. exact (writers_exclusive s 1 j 11 r (schedule_sound _ _ _ _ _ E) H Hj).
Defined.
