(* ===== verification/Handles.v ===== *)
(** * The data manager and the handle table (components/vfs/src/data_manager.rs,
    handle.rs, and the operations of writer.rs and reader.rs on them)

    A file open for writing has one [FileWriter], shared by every handle of the
    inode; it is held by reference, so the writers live in a heap
    ([dm_heap]) and the table of the data manager and the handles name them.  Every
    handle has its own reader.  Operations run one after the other, so the lock of
    a handle is free when a request asks for it (HandleLock.v has the lock itself):
    it is refused only to a cancelled request and, for writing, on a handle without
    a writer. *)

From stdpp Require Import sorting.
From S2P Require Import Prelude Common Types Slice SliceKey Meta Pool SliceBuffer FileCache Writer RangeMap Reader.
Open Scope Z_scope.

(** ** Operations with state, errors and waiting

    [None]: the operation is still waiting when the environment stops. *)

Definition opr (S A : Type) : Type := S -> option (VResult A * S).

#[export] Instance opr_ret {S} : MRet (opr S) := fun A a s => Some (Ok a, s).
#[export] Instance opr_bind {S} : MBind (opr S) := fun A B f m s =>
  '(r, s) ← m s;
  match r with
  | Ok a => f a s
  | Err e => Some (Err e, s)
  | Panic => Some (Panic, s)
  end.

Section opr.
Context {S : Type}.

Definition op_lift {A} (r : VResult A) : opr S A := fun s => Some (r, s).
Definition op_fail {A} (e : VfsError) : opr S A := op_lift (Err e).
Definition op_guard (b : bool) (e : VfsError) : opr S () := op_lift (ensure b e).
Definition op_gets {A} (f : S -> A) : opr S A := fun s => Some (Ok (f s), s).
Definition op_modify (f : S -> S) : opr S () := fun s => Some (Ok (), f s).

(** [let r = m;]: the result as a value; a panic still ends the program. *)
Definition op_try {A} (m : opr S A) : opr S (VResult A) := fun s =>
  '(r, s) ← m s; Some (match r with Panic => Panic | _ => Ok r end, s).

(** The operation leaves a state with [I] when it started in one and did not end
    the program. *)
Definition keeps {A} (I : S -> Prop) (m : opr S A) : Prop :=
  forall s r s', m s = Some (r, s') -> r <> Panic -> I s -> I s'.

Lemma bind_run {A B} (m : opr S A) (f : A -> opr S B) s :
  (m ≫= f) s =
    match m s with
    | Some (Ok a, s1) => f a s1
    | Some (Err e, s1) => Some (Err e, s1)
    | Some (Panic, s1) => Some (Panic, s1)
    | None => None
    end.
Proof. unfold mbind, opr_bind. destruct (m s) as [[[] s1]|]; done. Qed.

Lemma bind_ok {A B} (m : opr S A) (g : A -> opr S B) s b s' :
  (m ≫= g) s = Some (Ok b, s') -> exists a s1, m s = Some (Ok a, s1) /\ g a s1 = Some (Ok b, s').
Proof. rewrite bind_run. destruct (m s) as [[[a|e|] s1]|]; [|done..]. intros H. by exists a, s1. Qed.

Lemma keeps_ret {A} I (a : A) : keeps I (mret a).
Proof. intros s r s' [= <- <-]. done. Qed.
Lemma keeps_lift {A} I (r : VResult A) : keeps I (op_lift r).
Proof. intros s r' s' [= <- <-]. done. Qed.
Lemma keeps_gets {A} I (f : S -> A) : keeps I (op_gets f).
Proof. intros s r s' [= <- <-]. done. Qed.
Lemma keeps_modify I (f : S -> S) : (forall s, I s -> I (f s)) -> keeps I (op_modify f).
Proof. intros Hf s r s' [= <- <-]. auto. Qed.
Lemma op_keeps_bind {A B} I (m : opr S A) (f : A -> opr S B) :
  keeps I m -> (forall a, keeps I (f a)) -> keeps I (m ≫= f).
Proof.
  intros Hm Hf s r s' H Hr Hs. unfold mbind, opr_bind in H. destruct (m s) as [[r1 s1]|] eqn:E; [|done].
  cbn in H. destruct r1; [|injection H as <- <-..]; [|by eapply Hm|done].
  specialize (Hm _ _ _ E ltac:(done) Hs). by eapply Hf.
Qed.
Lemma keeps_try {A} I (m : opr S A) : keeps I m -> keeps I (op_try m).
Proof.
  intros Hm s r s' H Hr Hs. unfold op_try in H. destruct (m s) as [[r1 s1]|] eqn:E; [|done].
  injection H as <- <-. eapply Hm; [done| |done]. by intros ->.
Qed.
End opr.

#[export] Hint Resolve keeps_ret keeps_lift keeps_gets op_keeps_bind keeps_try : kiseki.
#[export] Hint Unfold op_fail op_guard : kiseki.

(** ** The data manager *)

(** What the environment does during one operation: the outcome of the local and
    remote storage calls, the numbers the id generator gives, and the number of
    rounds a flush may wait. *)
Record VEnv := mkVEnv {
  ve_stage : Z -> StageIo;
  ve_mig : SliceKey -> MigrateIo;
  ve_block : SliceKey -> BlockIo;
  ve_ids : nat -> Z;
  ve_rounds : nat
}.

Section handles.
Context `{L : Layout} `{R : RangeMapOps Slice} `{RV : RangeMapOps VirtualSlice} {M : Type} `{MC : MetaClient M} `{MR : MetaReader M}.

(** [dm_accepting]: the task registry still admits the flusher of a new writer. *)
Record DataManager := mkDM {
  dm_chunk_size : Z;
  dm_writers : gmap Z Z;
  dm_heap : gmap Z FileWriter;
  dm_next_ref : Z;
  dm_readers : Readers;
  dm_pool : HybridPagePool;
  dm_cache : FileCache;
  dm_mem : MemCache;
  dm_meta : M;
  dm_accepting : bool
}.

Definition data_manager_new (chunk_size : Z) (m : M) (c : FileCache) (p : HybridPagePool) : DataManager :=
  mkDM chunk_size ∅ ∅ 0 ∅ p c ∅ m true.

Definition set_writers ws heap next dm := mkDM (dm_chunk_size dm) ws heap next (dm_readers dm) (dm_pool dm)
  (dm_cache dm) (dm_mem dm) (dm_meta dm) (dm_accepting dm).
Definition set_heap heap dm := set_writers (dm_writers dm) heap (dm_next_ref dm) dm.
Definition set_readers rs dm := mkDM (dm_chunk_size dm) (dm_writers dm) (dm_heap dm) (dm_next_ref dm) rs (dm_pool dm)
  (dm_cache dm) (dm_mem dm) (dm_meta dm) (dm_accepting dm).
Definition set_deps p c m dm := mkDM (dm_chunk_size dm) (dm_writers dm) (dm_heap dm) (dm_next_ref dm) (dm_readers dm)
  p c (dm_mem dm) m (dm_accepting dm).
Definition set_mem mem dm := mkDM (dm_chunk_size dm) (dm_writers dm) (dm_heap dm) (dm_next_ref dm) (dm_readers dm)
  (dm_pool dm) (dm_cache dm) mem (dm_meta dm) (dm_accepting dm).
Definition set_accepting b dm := mkDM (dm_chunk_size dm) (dm_writers dm) (dm_heap dm) (dm_next_ref dm) (dm_readers dm)
  (dm_pool dm) (dm_cache dm) (dm_mem dm) (dm_meta dm) b.

(** *** Writers *)

Definition find_file_writer (ino : Z) (dm : DataManager) : option FileWriter :=
  w ← dm_writers dm !! ino; dm_heap dm !! w.

Definition dm_get_length (ino : Z) (dm : DataManager) : Z :=
  match find_file_writer ino dm with Some fw => fw_length fw | None => 0 end.

Definition dm_set_length (ino length : Z) (dm : DataManager) : DataManager :=
  match dm_writers dm !! ino with
  | Some w => set_heap (alter (set_fw_length length) w (dm_heap dm)) dm
  | None => dm
  end.

(** The writer of the inode, created when there is none; the caller gets a
    reference and is counted. *)
Definition open_file_writer (ino len : Z) : opr DataManager Z := fun dm =>
  let count w dm :=
    set_heap (alter (fun fw => set_ref_count (u64_wrap (fw_ref_count fw + 1)) fw) w (dm_heap dm)) dm in
  match dm_writers dm !! ino with
  | Some w => Some (Ok w, count w dm)
  | None =>
      if dm_accepting dm then
        let w := dm_next_ref dm in
        Some (Ok w, count w (set_writers (<[ino := w]> (dm_writers dm)) (<[w := file_writer_new ino len]> (dm_heap dm))
                               (w + 1) dm))
      else Some (Err VMountDraining, dm)
  end.

(** Run an operation of a writer on the writer behind a reference. *)
Definition on_writer {A} (w : Z)
    (f : Deps (M:=M) -> FileWriter -> option (VResult A * Deps (M:=M) * FileWriter)) : opr DataManager A := fun dm =>
  match dm_heap dm !! w with
  | None => Some (Panic, dm)
  | Some fw =>
      '(r, d, fw) ← f (mkDeps (dm_pool dm) (dm_cache dm) (dm_meta dm)) fw;
      Some (r, set_deps (d_pool d) (d_cache d) (d_meta d) (set_heap (<[w := fw]> (dm_heap dm)) dm))
  end.

Definition writer_finish (io : VEnv) (w : Z) : opr DataManager () :=
  on_writer w (fw_finish (ve_rounds io) (ve_stage io) (ve_mig io)).
Definition writer_sync_remote (io : VEnv) (w : Z) : opr DataManager () :=
  on_writer w (fw_sync_remote (ve_rounds io) (ve_stage io) (ve_mig io)).
Definition writer_write (io : VEnv) (w offset : Z) (data : bytes) : opr DataManager Z :=
  on_writer w (fun d fw =>
    let '(r, p, fw) := fw_write (ve_ids io) offset data (d_pool d) fw in
    Some (r, mkDeps p (d_cache d) (d_meta d), fw)).

Definition direct_flush (io : VEnv) (ino : Z) : opr DataManager () := fun dm =>
  match dm_writers dm !! ino with
  | Some w => writer_finish io w dm
  | None => Some (Ok (), dm)
  end.

(** The loop of [flush_all_writers_local]; the map gives the writers in some
    order. *)
Fixpoint flush_writers (io : VEnv) (ws : list Z) (flushed : Z) (errors : list VfsError)
    : opr DataManager (Z * list VfsError) :=
  match ws with
  | [] => mret (flushed, errors)
  | w :: ws =>
      r ← op_try (writer_finish io w);
      match r with
      | Ok _ => flush_writers io ws (flushed + 1) errors
      | Err e => flush_writers io ws flushed (if (length errors <? 8)%nat then errors ++ [e] else errors)
      | Panic => op_lift Panic
      end
  end.

Definition flush_all_writers_local (io : VEnv) : opr DataManager (Z * Z * list VfsError) :=
  ws ← op_gets (fun dm => (map_to_list (dm_writers dm)).*2);
  '(flushed, errors) ← flush_writers io ws 0 [];
  mret (zlen ws, flushed, errors).

(** A cancelled flusher receives nothing any more. *)
Definition cancel_all_writers (dm : DataManager) : DataManager :=
  set_heap (foldr (fun w heap => alter (set_closed true) w heap) (dm_heap dm) (map_to_list (dm_writers dm)).*2) dm.

(** The end of [FileWriter::close]: the references are compared as pointers; the
    last reference retires the writer. *)
Definition drop_writer (w : Z) (dm : DataManager) : DataManager :=
  match dm_heap dm !! w with
  | None => dm
  | Some fw =>
      match dm_writers dm !! fw_inode fw with
      | None => dm
      | Some w' =>
          if negb (w' =? w) then dm
          else if fw_ref_count fw =? 0 then dm
          else
            let fw' := set_ref_count (u64_wrap (fw_ref_count fw - 1)) fw in
            if fw_ref_count fw =? 1 then
              set_writers (delete (fw_inode fw) (dm_writers dm)) (<[w := set_closed true fw']> (dm_heap dm))
                (dm_next_ref dm) dm
            else set_heap (<[w := fw']> (dm_heap dm)) dm
      end
  end.

Definition writer_close (io : VEnv) (w : Z) : opr DataManager () :=
  _ ← op_try (writer_finish io w);
  op_modify (drop_writer w).

(** *** Readers *)

Definition dm_open_reader (ino fh length : Z) (dm : DataManager) : DataManager :=
  set_readers (open_file_reader ino fh length (dm_readers dm)).2 dm.
Definition dm_truncate_reader (ino length : Z) (dm : DataManager) : DataManager :=
  set_readers (truncate_reader ino length (dm_readers dm)) dm.

(** The reader of a handle, which the table holds while the handle is open. *)
Definition find_reader (ino fh : Z) (dm : DataManager) : option FileReader :=
  m ← dm_readers dm !! ino; m !! fh.

Definition dm_close_reader (ino fh : Z) (dm : DataManager) : DataManager :=
  match find_reader ino fh dm with
  | Some fr => set_readers (reader_close fr (dm_readers dm)).2 dm
  | None => dm
  end.

(** [FileHandleReadGuard::read]: the count and the buffer. *)
Definition reader_read (io : VEnv) (ino fh offset : Z) (dst : bytes) : opr DataManager (Z * bytes) := fun dm =>
  match find_reader ino fh dm with
  | None => Some (Panic, dm)
  | Some fr =>
      let '(r, (m, d)) := read (ve_block io) fr (dm_chunk_size dm) offset dst (dm_meta dm)
                            (mkData (dm_cache dm) (dm_mem dm)) in
      Some (r, set_mem (ds_mem d) (set_deps (dm_pool dm) (ds_cache d) m dm))
  end.

(** ** Handles *)

(** [fhd_operations]: process -> requests that hold or held the lock. *)
Record FileHandle := mkFileHandle {
  fhd_fh : Z;
  fhd_inode : Z;
  fhd_writer : option Z;
  fhd_operations : gmap Z (gset Z);
  fhd_locks : Z;
  fhd_flock_owner : Z;
  fhd_ofd_owner : Z
}.

Definition file_handle_new (inode fh : Z) (fw : option Z) : FileHandle := mkFileHandle fh inode fw ∅ 0 0 0.

Definition set_operations ops h := mkFileHandle (fhd_fh h) (fhd_inode h) (fhd_writer h) ops (fhd_locks h)
  (fhd_flock_owner h) (fhd_ofd_owner h).
Definition set_ofd_owner o h := mkFileHandle (fhd_fh h) (fhd_inode h) (fhd_writer h) (fhd_operations h) (fhd_locks h)
  (fhd_flock_owner h) o.

Definition has_writer (h : FileHandle) : bool := match fhd_writer h with Some _ => true | None => false end.

Definition try_set_ofd_owner (lock_owner : Z) (h : FileHandle) : FileHandle :=
  if fhd_ofd_owner h =? lock_owner then set_ofd_owner 0 h else h.

Definition add_operation (ctx : FuseContext) (h : FileHandle) : FileHandle :=
  set_operations (<[ctx_pid ctx := {[ctx_unique ctx]} ∪ default ∅ (fhd_operations h !! ctx_pid ctx)]> (fhd_operations h)) h.
Definition remove_operation (ctx : FuseContext) (h : FileHandle) : FileHandle :=
  set_operations (alter (fun s => s ∖ {[ctx_unique ctx]}) (ctx_pid ctx) (fhd_operations h)) h.
Definition cancel_operations (pid : Z) (h : FileHandle) : FileHandle :=
  set_operations (delete pid (fhd_operations h)) h.

(** The locks, when no other request is in the handle: the handle with the request
    registered, or [None]. *)
Definition read_lock (ctx : FuseContext) (h : FileHandle) : option FileHandle :=
  if ctx_cancelled ctx then None else Some (add_operation ctx h).
Definition write_lock (ctx : FuseContext) (h : FileHandle) : option FileHandle :=
  match fhd_writer h with
  | None => None
  | Some _ => if ctx_cancelled ctx then None else Some (add_operation ctx h)
  end.

Record DirHandle := mkDirHandle {
  dh_fh : Z;
  dh_inode : Z;
  dh_children : list Entry;
  dh_read_at : option SystemTime
}.

Definition dir_handle_new (inode fh : Z) : DirHandle := mkDirHandle fh inode [] None.

Inductive Handle := HFile (h : FileHandle) | HDir (h : DirHandle).

Definition get_fh (h : Handle) : Z := match h with HFile h => fhd_fh h | HDir h => dh_fh h end.
Definition as_file_handle (h : Handle) : option FileHandle := match h with HFile h => Some h | HDir _ => None end.
Definition as_dir_handle (h : Handle) : option DirHandle := match h with HDir h => Some h | HFile _ => None end.

(** ** The handle table, with the data manager it works on *)

Record HandleTable := mkHT {
  ht_handles : gmap Z (gmap Z Handle);
  ht_next_fh : Z;
  ht_dm : DataManager
}.

Definition handle_table_new (dm : DataManager) : HandleTable := mkHT ∅ 1 dm.

Definition ht_on_dm {A} (m : opr DataManager A) : opr HandleTable A := fun t =>
  '(r, dm) ← m (ht_dm t); Some (r, mkHT (ht_handles t) (ht_next_fh t) dm).

Definition allocate_fh : opr HandleTable Z := fun t =>
  Some (Ok (ht_next_fh t), mkHT (ht_handles t) (u64_wrap (ht_next_fh t + 1)) (ht_dm t)).

Definition insert_handle (inode fh : Z) (h : Handle) (t : HandleTable) : HandleTable :=
  mkHT (<[inode := <[fh := h]> (default ∅ (ht_handles t !! inode))]> (ht_handles t)) (ht_next_fh t) (ht_dm t).

Definition find_handle (ino fh : Z) (t : HandleTable) : option Handle :=
  m ← ht_handles t !! ino; m !! fh.

(** The handles of an inode in the order of their numbers. *)
Definition by_fh (a b : Z * Handle) : Prop := a.1 <= b.1.

#[export] Instance by_fh_dec : RelDecision by_fh.
Proof. unfold by_fh. intros a b. apply _. Defined.

Definition get_handles (ino : Z) (t : HandleTable) : list Handle :=
  (merge_sort by_fh (map_to_list (default ∅ (ht_handles t !! ino)))).*2.

Definition new_dir_handle (inode : Z) : opr HandleTable Z :=
  fh ← allocate_fh;
  _ ← op_modify (insert_handle inode fh (HDir (dir_handle_new inode fh)));
  mret fh.

(** The handle of an open, by the access mode of its flags. *)
Definition open_handle (inode fh length flags : Z) : opr HandleTable FileHandle :=
  match Z.land flags 3 with
  | 0 =>
      _ ← ht_on_dm (op_modify (dm_open_reader inode fh length));
      mret (file_handle_new inode fh None)
  | 1 | 2 =>
      _ ← ht_on_dm (op_modify (dm_open_reader inode fh length));
      w ← ht_on_dm (open_file_writer inode length);
      mret (file_handle_new inode fh (Some w))
  | _ => op_fail (VLibc EPERM)
  end.

Definition new_file_handle (inode length flags : Z) : opr HandleTable Z :=
  fh ← allocate_fh;
  h ← open_handle inode fh length flags;
  _ ← op_modify (insert_handle inode fh (HFile h));
  mret fh.

(** [FileHandle::close] *)
Definition file_handle_close (io : VEnv) (h : FileHandle) : opr HandleTable () :=
  _ ← ht_on_dm (op_modify (dm_close_reader (fhd_inode h) (fhd_fh h)));
  match fhd_writer h with
  | Some w => ht_on_dm (writer_close io w)
  | None => mret ()
  end.

Definition release_file_handle (io : VEnv) (inode fh : Z) : opr HandleTable () := fun t =>
  match find_handle inode fh t with
  | None => Some (Ok (), t)
  | Some h =>
      let t := mkHT (alter (delete fh) inode (ht_handles t)) (ht_next_fh t) (ht_dm t) in
      match h with
      | HFile h => file_handle_close io h t
      | HDir _ => Some (Ok (), t)
      end
  end.

(** Change a file handle in place. *)
Definition update_handle (inode fh : Z) (f : FileHandle -> FileHandle) (t : HandleTable) : HandleTable :=
  mkHT (alter (alter (fun h => match h with HFile h => HFile (f h) | _ => h end) fh) inode (ht_handles t))
    (ht_next_fh t) (ht_dm t).
End handles.
