(* ===== verification/InternalNodes.v ===== *)
(** * The virtual nodes of the root directory (components/types/src/internal_nodes.rs)

    A map from a fixed name to the entry shown for it. *)

From S2P Require Import Prelude Common Types.
Open Scope Z_scope.

Definition LOG_INODE_NAME : string := ".accesslog".
Definition CONTROL_INODE_NAME : string := ".control".
Definition STATS_INODE_NAME : string := ".stats".
Definition CONFIG_INODE_NAME : string := ".config".

Definition InternalNodeTable : Type := gmap string FullEntry.

(** [InternalNodeTable::new]; [now] are the clock reads of the four default
    attributes. *)
Definition internal_nodes_new (now : nat -> SystemTime) : InternalNodeTable :=
  let control := mkFullEntry CONTROL_INODE CONTROL_INODE_NAME (set_mode 0x1B6 (attr_default (now 0%nat))) in
  let log := mkFullEntry LOG_INODE LOG_INODE_NAME (set_mode 0x100 (attr_default (now 1%nat))) in
  let stats := mkFullEntry STATS_INODE STATS_INODE_NAME (set_mode 0x100 (attr_default (now 2%nat))) in
  let config := mkFullEntry CONFIG_INODE CONFIG_INODE_NAME (set_mode 0x100 (attr_default (now 3%nat))) in
  <[CONFIG_INODE_NAME := config]> (<[STATS_INODE_NAME := stats]>
    (<[CONTROL_INODE_NAME := control]> (<[LOG_INODE_NAME := log]> ∅))).

Definition get_internal_node_by_name (name : string) (t : InternalNodeTable) : option FullEntry := t !! name.

Definition get_internal_node (ino : Ino) (t : InternalNodeTable) : option FullEntry :=
  snd <$> list_find (fun e => fe_inode e = ino) (map_to_list t).*2.

Definition add_prefix (t : InternalNodeTable) : InternalNodeTable :=
  (fun e => mkFullEntry (fe_inode e) (".kfs" +:+ fe_name e) (fe_attr e)) <$> t.

Definition contains_name (name : string) (t : InternalNodeTable) : bool := bool_decide (is_Some (t !! name)).

(** ** Facts *)

Lemma get_internal_node_spec ino t e :
  get_internal_node ino t = Some e -> fe_inode e = ino /\ exists name, t !! name = Some e.
Proof.
  unfold get_internal_node. intros H. apply fmap_Some in H as ([i x] & H & ->).
  apply list_find_Some in H as (H & Hi & _). split; [done|].
  apply list_elem_of_lookup_2, list_elem_of_fmap in H as ([n y] & -> & H).
  exists n. by apply elem_of_map_to_list.
Qed.

Lemma add_prefix_lookup t name :
  add_prefix t !! name = (fun e => mkFullEntry (fe_inode e) (".kfs" +:+ fe_name e) (fe_attr e)) <$> t !! name.
Proof. apply lookup_fmap. Qed.
