(* ===== verification/Vfs.v ===== *)
(** * The VFS front end (components/vfs/src/kiseki.rs and kiseki/)

    [KisekiVFS] is the state the front end keeps: the virtual nodes, the handle
    table with the data manager and, behind it, the metadata engine.  Every
    operation checks its arguments, calls the engine and the data manager and
    keeps the handles.  An operation runs in an environment [VEnv] and the engine
    calls it makes in the successive worlds [ws]; tracing is left out. *)

From S2P Require Import Prelude Common Types Bincode RangeMap Slice SliceKey Keys KV Meta OpenFiles Backend Engine.
From S2P Require Import Pool SliceBuffer FileCache Writer Reader DataPath InternalNodes Handles.
Open Scope Z_scope.

Definition ENAMETOOLONG : Z := 36.
Definition FOPEN_DIRECT_IO : Z := 1.
Definition FOPEN_KEEP_CACHE : Z := 2.

(** [SetAttrFlags::from_bits] *)
Definition SA_ALL : Z :=
  foldr Z.lor 0 [SA_MODE; SA_UID; SA_GID; SA_SIZE; SA_ATIME; SA_MTIME; SA_CTIME; SA_ATIME_NOW; SA_MTIME_NOW; SA_FLAG].

Inductive TimeOrNow := SpecificTime (t : SystemTime) | Now.

(** [get_file_type] of a [mknod] mode. *)
Definition get_file_type (mode : Z) : VResult FileType :=
  match Z.land mode S_IFMT with
  | 0x1000 => Ok NamedPipe
  | 0xC000 => Ok Socket
  | 0xA000 => Ok Symlink
  | 0x8000 => Ok RegularFile
  | 0x6000 => Ok BlockDevice
  | 0x4000 => Ok Directory
  | 0x2000 => Ok CharDevice
  | _ => Err (VLibc EPERM)
  end.

Definition validate_filename (name : string) : VResult () :=
  if bool_decide (name = "") then Err (VLibc EINVAL)
  else if bool_decide (name = ".") || bool_decide (name = "..") then Err (VLibc EEXIST)
  else Ok ().

(** [checked_io_range]: [offset] is an [i64], [length] a [usize]. *)
Definition checked_io_range (offset length : Z) : VResult (Z * Z) :=
  _ ← ensure (0 <=? offset) (VLibc EINVAL);
  end_ ← ok_or (checked_add64 offset length) (VLibc EFBIG);
  _ ← ensure (end_ <=? MAX_FILE_SIZE) (VLibc EFBIG);
  Ok (offset, end_).

Definition name_len (name : string) : Z := Z.of_nat (String.length name).

Section vfs.
Context `{L : Layout} `{R : RangeMapOps Slice} `{RV : RangeMapOps VirtualSlice} `{K : KVStore} `{C : MetaCodec}.
Variable ws : nat -> World.

Abbreviation EM := EngM.
#[local] Instance vfs_client : MetaClient EM := engine_client ws.
#[local] Instance vfs_reader : MetaReader EM := engine_reader ws.

Record KisekiVFS := mkVfs {
  v_prefix_internal : bool;
  v_hide_internal : bool;
  v_nodes : InternalNodeTable;
  v_modified_at : gmap Z SystemTime;
  v_table : HandleTable (M:=EM)
}.

(** [new_with_object_storage]: the virtual nodes, with the length of the serialized
    configuration on the config node, over a data manager without handles. *)
Definition vfs_new (prefix_internal hide_internal : bool) (now : nat -> SystemTime) (config_len : Z)
    (dm : DataManager (M:=EM)) : KisekiVFS :=
  let nodes := alter (fun e => mkFullEntry (fe_inode e) (fe_name e) (set_length config_len (fe_attr e))) CONFIG_INODE_NAME
                 (internal_nodes_new now) in
  mkVfs prefix_internal hide_internal (if prefix_internal then add_prefix nodes else nodes) ∅ (handle_table_new dm).

Definition vfs (A : Type) : Type := opr KisekiVFS A.

Definition set_table t v := mkVfs (v_prefix_internal v) (v_hide_internal v) (v_nodes v) (v_modified_at v) t.
Definition set_modified m v := mkVfs (v_prefix_internal v) (v_hide_internal v) (v_nodes v) m (v_table v).

Definition on_table {A} (m : opr (HandleTable (M:=EM)) A) : vfs A := fun v =>
  '(r, t) ← m (v_table v); Some (r, set_table t v).
Definition on_dm {A} (m : opr (DataManager (M:=EM)) A) : vfs A := on_table (ht_on_dm m).

(** A call of the metadata engine; its error becomes [Error::Meta]. *)
Definition meta {A} (f : World -> Engine.eng A) : vfs A := on_dm (fun dm =>
  let '(r, m) := em_run ws f (dm_meta dm) in
  Some (map_err VMeta r, set_deps (dm_pool dm) (dm_cache dm) m dm)).

(** [SystemTime::now()], [Instant::now()] *)
Definition now : vfs SystemTime := meta (fun w => Engine.lift (Ok (clk w 0))).

(** *** Helpers *)

Definition get_length (ino : Ino) : vfs Z := op_gets (fun v => dm_get_length ino (ht_dm (v_table v))).

Definition try_update_file_reader_length (inode : Ino) (attr : InodeAttr) : vfs InodeAttr :=
  if is_file attr then
    len ← get_length inode;
    let attr := if attr_length attr <? len then set_length len attr else attr in
    _ ← (if len <? attr_length attr
         then on_dm (op_modify (dm_truncate_reader inode (attr_length attr))) else mret ());
    mret attr
  else mret attr.

Definition invalidate_length (ino : Ino) : vfs () :=
  t ← now;
  op_modify (fun v => set_modified (alter (fun _ => t) ino (v_modified_at v)) v).

Definition find_handle_or (errno : Z) (ino : Ino) (fh : Z) : vfs Handle :=
  h ← op_gets (fun v => find_handle ino fh (v_table v));
  op_lift (ok_or h (VLibc errno)).

Definition file_handle_or (errno : Z) (h : Handle) : vfs FileHandle := op_lift (ok_or (as_file_handle h) (VLibc errno)).

Definition upd_handle (ino : Ino) (fh : Z) (f : FileHandle -> FileHandle) : vfs () :=
  op_modify (fun v => set_table (update_handle ino fh f (v_table v)) v).

(** Take a lock of a handle for the request, or fail with [EINTR]. *)
Definition lock_handle (lock : FuseContext -> FileHandle -> option FileHandle) (ctx : FuseContext) (ino : Ino)
    (fh : Z) (h : FileHandle) : vfs () :=
  _ ← op_lift (ok_or (lock ctx h) (VLibc EINTR));
  upd_handle ino fh (fun h => default h (lock ctx h)).

(** *** Attributes (metadata.rs) *)

Definition v_lookup (ctx : FuseContext) (parent : Ino) (name : string) : vfs FullEntry :=
  nodes ← op_gets v_nodes;
  let special :=
    match (if (parent =? ROOT_INO) || bool_decide (name = CONTROL_INODE_NAME)
           then get_internal_node_by_name name nodes else None) with
    | Some n => Some n
    | None => if is_special parent && bool_decide (name = DOT) then get_internal_node parent nodes else None
    end in
  match special with
  | Some n => mret n
  | None =>
      '(inode, attr) ← meta (fun w => Engine.lookup w ctx parent name true);
      mret (mkFullEntry inode name attr)
  end.

Definition v_get_attr (inode : Ino) : vfs InodeAttr :=
  nodes ← op_gets v_nodes;
  match (if is_special inode then get_internal_node inode nodes else None) with
  | Some n => mret (fe_attr n)
  | None => meta (fun w => Engine.get_attr w inode)
  end.

(** The loop of [truncate] that takes the lock of every handle of the inode. *)
Fixpoint lock_all (ctx : FuseContext) (ino : Ino) (fh : option Z) (hs : list Handle) : vfs () :=
  match hs with
  | [] => mret ()
  | h :: hs =>
      let given := bool_decide (fh = Some (get_fh h)) in
      match as_file_handle h with
      | Some f =>
          match write_lock ctx f with
          | Some _ =>
              _ ← upd_handle ino (get_fh h) (fun h => default h (write_lock ctx h));
              lock_all ctx ino fh hs
          | None => if given then op_fail (VLibc EACCES) else lock_all ctx ino fh hs
          end
      | None => if given then op_fail (VLibc EBADF) else lock_all ctx ino fh hs
      end
  end.

Definition v_truncate (io : VEnv) (ctx : FuseContext) (ino : Ino) (size : Z) (fh : option Z) : vfs InodeAttr :=
  _ ← op_guard (negb (is_special ino)) (VLibc EPERM);
  _ ← op_guard (size <? MAX_FILE_SIZE) (VLibc EFBIG);
  hs ← op_gets (fun v => get_handles ino (v_table v));
  _ ← lock_all ctx ino fh hs;
  _ ← on_dm (direct_flush io ino);
  attr ← meta (fun w => Engine.truncate w ctx ino size (bool_decide (fh <> None)));
  _ ← on_dm (op_modify (dm_set_length ino size));
  _ ← on_dm (op_modify (dm_truncate_reader ino size));
  mret attr.

(** One requested field of [set_attr]: [EINVAL] when its value is missing. *)
Definition field {A} (flags flag : Z) (value : option A) (set : A -> InodeAttr -> InodeAttr) (attr : InodeAttr)
    : vfs InodeAttr :=
  if bits_contain flags flag then
    match value with
    | Some x => mret (set x attr)
    | None => op_fail (VLibc EINVAL)
    end
  else mret attr.

(** A requested timestamp: the attributes and whether one was set. *)
Definition time_field (flags flag now_flag : Z) (value : option TimeOrNow)
    (set : SystemTime -> InodeAttr -> InodeAttr) (attr : InodeAttr) : vfs (InodeAttr * bool) :=
  st ← (if bits_contain flags flag then
          match value with
          | Some (SpecificTime t) => mret (set t attr, true)
          | Some Now => t ← now; mret (set t attr, true)
          | None => op_fail (VLibc EINVAL)
          end
        else mret (attr, false));
  if bits_contain flags now_flag then t ← now; mret (set t st.1, true) else mret st.

Definition v_set_attr (io : VEnv) (ctx : FuseContext) (ino : Ino) (flags : Z) (atime mtime : option TimeOrNow)
    (mode uid gid size fh file_flags : option Z) : vfs InodeAttr :=
  nodes ← op_gets v_nodes;
  if is_special ino then
    match get_internal_node ino nodes with
    | Some n => mret (fe_attr n)
    | None => op_fail (VLibc EPERM)
    end
  else
    t ← now;
    let new_attr := attr_default t in
    flags ← op_lift (ok_or (from_bits SA_ALL flags) (VLibc EINVAL));
    new_attr ← (if bits_contain flags SA_SIZE then
                  match size with
                  | Some size => v_truncate io ctx ino size fh
                  | None => op_fail (VLibc EINVAL)
                  end
                else mret new_attr);
    new_attr ← field flags SA_MODE mode (fun m => set_mode (Z.land m 0xFFF)) new_attr;
    new_attr ← field flags SA_UID uid set_uid new_attr;
    new_attr ← field flags SA_GID gid set_gid new_attr;
    new_attr ← field flags SA_FLAG file_flags set_flags new_attr;
    '(new_attr, at_set) ← time_field flags SA_ATIME SA_ATIME_NOW atime set_atime new_attr;
    '(new_attr, mt_set) ← time_field flags SA_MTIME SA_MTIME_NOW mtime set_mtime new_attr;
    new_attr ← (if (at_set || mt_set) && ctx_check_permission ctx
                then meta (fun w => Engine.check_set_attr w ctx ino flags new_attr) else mret new_attr);
    new_attr ← meta (fun w => Engine.set_attr w ctx flags ino new_attr);
    try_update_file_reader_length ino new_attr.

(** *** Directories (namespace.rs) *)

Definition v_open_dir (ctx : FuseContext) (inode : Ino) (flags : Z) : vfs Z :=
  attr ← meta (fun w => Engine.get_attr w inode);
  _ ← op_guard (is_dir attr) (VLibc ENOTDIR);
  _ ← (if ctx_check_permission ctx then
         let mmask :=
           match Z.land flags 3 with
           | 0 => MODE_MASK_R
           | 1 => MODE_MASK_W
           | 2 => Z.lor MODE_MASK_R MODE_MASK_W
           | _ => 0
           end in
         op_lift (map_err VMeta (check_access ctx attr mmask))
       else mret ());
  on_table (new_dir_handle inode).

(** [&children[offset as usize..]] *)
Definition entries_from (offset : Z) (l : list Entry) : list Entry :=
  if u64_wrap offset <? zlen l then drop (Z.to_nat (u64_wrap offset)) l else [].

Definition set_dir (ino : Ino) (fh : Z) (f : DirHandle -> DirHandle) : vfs () :=
  op_modify (fun v =>
    let t := v_table v in
    set_table (mkHT (alter (alter (fun h => match h with HDir d => HDir (f d) | _ => h end) fh) ino (ht_handles t))
                 (ht_next_fh t) (ht_dm t)) v).

Definition v_read_dir (ctx : FuseContext) (inode : Ino) (fh offset : Z) (plus : bool) : vfs (list Entry) :=
  h ← find_handle_or EBADF inode fh;
  d ← op_lift (ok_or (as_dir_handle h) (VLibc EBADF));
  if bool_decide (dh_children d = []) || (offset =? 0) then
    t ← now;
    _ ← set_dir inode fh (fun d => mkDirHandle (dh_fh d) (dh_inode d) (dh_children d) (Some t));
    children ← meta (fun w => Engine.read_dir w ctx inode plus);
    _ ← set_dir inode fh (fun d => mkDirHandle (dh_fh d) (dh_inode d) children (dh_read_at d));
    mret (entries_from offset children)
  else mret (entries_from offset (dh_children d)).

Definition v_mkdir (ctx : FuseContext) (parent : Ino) (name : string) (mode umask : Z) : vfs FullEntry :=
  _ ← op_lift (validate_filename name);
  nodes ← op_gets v_nodes;
  _ ← op_guard (negb (is_root parent && contains_name name nodes)) (VLibc EEXIST);
  _ ← op_guard (negb (MAX_NAME_LENGTH <? name_len name)) (VLibc ENAMETOOLONG);
  '(ino, attr) ← meta (fun w => Engine.mkdir w ctx parent name mode umask);
  mret (mkFullEntry ino name attr).

Definition v_rmdir (ctx : FuseContext) (parent : Ino) (name : string) : vfs () :=
  _ ← op_guard (negb (bool_decide (name = DOT))) (VLibc EINVAL);
  _ ← op_guard (negb (bool_decide (name = DOT_DOT))) (VLibc EINVAL);
  _ ← op_guard (name_len name <? MAX_NAME_LENGTH) (VLibc ENAMETOOLONG);
  meta (fun w => Engine.rmdir w ctx parent name).

Definition v_release_dir (io : VEnv) (inode : Ino) (fh : Z) : vfs () :=
  h ← op_gets (fun v => find_handle inode fh (v_table v));
  match h with
  | None => mret ()
  | Some h =>
      _ ← op_lift (ok_or (as_dir_handle h) (VLibc EBADF));
      on_table (release_file_handle io inode fh)
  end.

(** *** Nodes and links *)

Definition v_mknod (ctx : FuseContext) (parent : Ino) (name : string) (mode umask rdev : Z) : vfs FullEntry :=
  nodes ← op_gets v_nodes;
  _ ← op_guard (negb (is_root parent && contains_name name nodes)) (VLibc EEXIST);
  _ ← op_guard (negb (MAX_NAME_LENGTH <? name_len name)) (VLibc ENAMETOOLONG);
  file_type ← op_lift (get_file_type mode);
  '(ino, attr) ← meta (fun w => Engine.mknod w ctx parent name file_type (Z.land mode 0xFFF) umask rdev "");
  mret (mkFullEntry ino name attr).

Definition v_create (ctx : FuseContext) (parent : Ino) (name : string) (mode umask flags : Z) : vfs (FullEntry * Z) :=
  _ ← op_lift (validate_filename name);
  nodes ← op_gets v_nodes;
  _ ← op_guard (negb (is_root parent && contains_name name nodes)) (VLibc EEXIST);
  _ ← op_guard (negb (MAX_NAME_LENGTH <? name_len name)) (VLibc ENAMETOOLONG);
  '(inode, attr) ← meta (fun w => Engine.create w ctx parent name (Z.land mode 0xFFF) umask);
  attr ← try_update_file_reader_length inode attr;
  fh ← on_table (new_file_handle inode (attr_length attr) flags);
  mret (mkFullEntry inode name attr, fh).

Definition v_link (ctx : FuseContext) (inode new_parent : Ino) (new_name : string) : vfs FullEntry :=
  _ ← op_guard (name_len new_name <? MAX_NAME_LENGTH) (VLibc ENAMETOOLONG);
  _ ← op_guard (negb (bool_decide (new_name = ""))) (VLibc ENOENT);
  attr ← meta (fun w => Engine.link w ctx inode new_parent new_name);
  mret (mkFullEntry inode new_name attr).

Definition v_unlink (ctx : FuseContext) (parent : Ino) (name : string) : vfs () :=
  _ ← op_guard (name_len name <? MAX_NAME_LENGTH) (VLibc ENAMETOOLONG);
  _ ← op_guard (negb (bool_decide (name = ""))) (VLibc ENOENT);
  meta (fun w => Engine.unlink w ctx parent name).

(** [target]: the path after [to_string_lossy]. *)
Definition v_symlink (ctx : FuseContext) (parent : Ino) (link_name target : string) : vfs FullEntry :=
  _ ← op_guard (name_len link_name <? MAX_NAME_LENGTH) (VLibc ENAMETOOLONG);
  _ ← op_guard (name_len target <? MAX_SYMLINK_LEN) (VLibc EINVAL);
  '(inode, attr) ← meta (fun w => Engine.symlink w ctx parent link_name target);
  mret (mkFullEntry inode link_name attr).

Definition v_readlink (inode : Ino) : vfs bytes := meta (fun _ => Engine.readlink inode).

Definition v_rename (ctx : FuseContext) (parent : Ino) (name : string) (new_parent : Ino) (new_name : string)
    (flags : Z) : vfs () :=
  _ ← op_guard (negb (bool_decide (name = "")) && negb (bool_decide (new_name = ""))) (VLibc ENOENT);
  _ ← op_guard ((name_len name <? MAX_NAME_LENGTH) && (name_len new_name <? MAX_NAME_LENGTH)) (VLibc ENAMETOOLONG);
  meta (fun w => Engine.rename w ctx parent name new_parent new_name flags).

(** *** File I/O (file_io.rs) *)

Record Opened := mkOpened { op_fh : Z; op_flags : Z; op_inode : Ino; op_attr : InodeAttr }.

Definition v_open (ctx : FuseContext) (inode : Ino) (flags : Z) : vfs Opened :=
  nodes ← op_gets v_nodes;
  attr ← (if is_special inode
          then op_lift (ok_or (fe_attr <$> get_internal_node inode nodes) (VLibc ENOENT))
          else meta (fun w => Engine.open_inode w ctx inode flags));
  attr ← try_update_file_reader_length inode attr;
  fh ← on_table (new_file_handle inode (attr_length attr) flags);
  mret (mkOpened fh (if is_special inode then FOPEN_DIRECT_IO else if keep_cache attr then FOPEN_KEEP_CACHE else 0)
          inode attr).

Definition v_read (io : VEnv) (ctx : FuseContext) (ino : Ino) (fh offset size : Z) : vfs bytes :=
  '(offset, _) ← op_lift (checked_io_range offset size);
  h ← find_handle_or EBADF ino fh;
  f ← file_handle_or EBADF h;
  _ ← op_guard (negb (is_special ino)) (VLibc ENOTSUP);
  _ ← lock_handle read_lock ctx ino fh f;
  _ ← on_dm (direct_flush io ino);
  r ← op_try (on_dm (reader_read io ino fh offset (replicate (Z.to_nat size) Byte.x00)));
  _ ← upd_handle ino fh (remove_operation ctx);
  '(n, buf) ← op_lift r;
  mret (take (Z.to_nat n) buf).

Definition v_write (io : VEnv) (ctx : FuseContext) (ino : Ino) (fh offset : Z) (data : bytes) : vfs Z :=
  '(offset, _) ← op_lift (checked_io_range offset (zlen data));
  h ← find_handle_or EBADF ino fh;
  _ ← op_guard (negb (is_special ino)) (VLibc ENOTSUP);
  f ← file_handle_or EBADF h;
  _ ← lock_handle write_lock ctx ino fh f;
  w ← op_lift (ok_or (fhd_writer f) (VLibc EINTR));
  r ← op_try (on_dm (writer_write io w offset data));
  _ ← upd_handle ino fh (remove_operation ctx);
  n ← op_lift r;
  len ← op_gets (fun v => match dm_heap (ht_dm (v_table v)) !! w with Some fw => fw_length fw | None => 0 end);
  _ ← on_dm (op_modify (dm_truncate_reader ino len));
  mret (u32_wrap n).

Definition v_flush (io : VEnv) (ctx : FuseContext) (ino : Ino) (fh lock_owner : Z) : vfs () :=
  h ← find_handle_or ENOENT ino fh;
  f ← file_handle_or EBADF h;
  if is_special ino then mret ()
  else
    _ ← match fhd_writer f with
        | Some w =>
            _ ← lock_handle write_lock ctx ino fh f;
            _ ← on_dm (writer_finish io w);
            upd_handle ino fh (remove_operation ctx)
        | None => upd_handle ino fh (cancel_operations (ctx_pid ctx))
        end;
    upd_handle ino fh (try_set_ofd_owner lock_owner).

Definition v_fsync (io : VEnv) (ctx : FuseContext) (ino : Ino) (fh : Z) : vfs () :=
  if is_special ino then mret ()
  else
    h ← find_handle_or EBADF ino fh;
    match as_file_handle h with
    | Some f =>
        _ ← lock_handle write_lock ctx ino fh f;
        w ← op_lift (ok_or (fhd_writer f) (VLibc EINTR));
        _ ← on_dm (writer_sync_remote io w);
        upd_handle ino fh (remove_operation ctx)
    | None => mret ()
    end.

Definition v_fallocate (inode : Ino) (fh offset length mode : Z) : vfs () :=
  _ ← op_guard ((0 <=? offset) && (0 <? length)) (VLibc EINVAL);
  _ ← op_lift (checked_io_range offset length);
  _ ← op_guard ((0 <=? mode) && (mode <? 256)) (VLibc EINVAL);
  h ← find_handle_or EBADF inode fh;
  _ ← file_handle_or EBADF h;
  _ ← op_guard (negb (is_special inode)) (VLibc ENOTSUP);
  meta (fun _ => Engine.fallocate mode).

(** The posix and flock unlocks of the engine do nothing. *)
Definition v_release (io : VEnv) (ctx : FuseContext) (inode : Ino) (fh : Z) : vfs () :=
  if is_special inode then on_table (release_file_handle io inode fh)
  else
    h ← op_gets (fun v => find_handle inode fh (v_table v));
    _ ← match h with
        | Some (HFile f) =>
            match fhd_writer f with
            | Some w =>
                _ ← on_dm (writer_finish io w);
                invalidate_length inode
            | None => mret ()
            end
        | _ => mret ()
        end;
    _ ← meta (fun _ => Engine.close inode);
    on_table (release_file_handle io inode fh).

Definition v_stat_fs : vfs FSStat := meta (fun _ => Engine.stat_fs).

(** [init_inner], without the log lines. *)
Definition v_init : vfs () :=
  root_attr ← meta (fun w => Engine.get_attr w ROOT_INO);
  _ ← op_guard (is_dir root_attr) (VLibc ENOTDIR);
  v ← op_gets id;
  _ ← (if v_prefix_internal v || negb (v_hide_internal v) then
         _ ← op_guard (bool_decide (is_Some (get_internal_node CONTROL_INODE (v_nodes v)))) (VLibc EIO);
         op_guard (bool_decide (is_Some (get_internal_node_by_name CONFIG_INODE_NAME (v_nodes v)))) (VLibc EIO)
       else mret ());
  _ ← v_stat_fs;
  mret ().
End vfs.
