(* ===== verification/HandleThms.v ===== *)
(** * Accounting of handles, writers and readers

    Whatever operations of the front end have run, a writer counts exactly the
    handles that write through it, every open file handle has its reader, and the
    last close of a file retires its writer: [writer_close] never finds the writer
    missing, replaced or with a count of zero. *)

From S2P Require Import Prelude Common Types Bincode RangeMap Slice SliceKey Keys KV Meta OpenFiles Backend Engine.
From S2P Require Import Pool SliceBuffer FileCache Writer Reader DataPath InternalNodes Handles Vfs.
Open Scope Z_scope.

(** ** Writers keep their inode and their count *)

Definition same_refs (fw fw' : FileWriter) : Prop :=
  fw_inode fw' = fw_inode fw /\ fw_ref_count fw' = fw_ref_count fw.

#[export] Instance same_refs_preorder : PreOrder same_refs.
Proof. split; [done|]. intros x y z [H1 H2] [H3 H4]. split; congruence. Qed.

Section writer_frame.
Context `{L : Layout} {M : Type} `{MC : MetaClient M}.

Lemma record_error_refs e fw : same_refs fw (record_flush_error e fw).
Proof. unfold record_flush_error. case_match; done. Qed.

Lemma send_req_refs req fw : same_refs fw (send_req req fw).2.
Proof. unfold send_req. case_match; done. Qed.

Lemma send_all_refs reqs fw : same_refs fw (send_all reqs fw).
Proof.
  unfold send_all. revert fw. induction reqs as [|req reqs IH]; intros fw; [done|]. cbn.
  etrans; [|apply IH]. pose proof (send_req_refs req fw) as H. destruct (send_req req fw) as [[] fw1]; [done|].
  etrans; [exact H|apply record_error_refs].
Qed.

Lemma chunk_find_refs id cx fw sw old fw' : chunk_find id cx fw = (sw, old, fw') -> same_refs fw fw'.
Proof.
  unfold chunk_find. destruct (find_loop _ _ _ _) as [[found l'] reqs]. intros H.
  destruct found as [[sw1 old1]|]; injection H as <- <- <-;
    (etrans; [|apply send_all_refs || (etrans; [apply send_all_refs|done])]; done).
Qed.

Lemma fw_find_refs ids n cxs fw sws fw' : fw_find ids n cxs fw = (sws, fw') -> same_refs fw fw'.
Proof.
  revert n fw sws. induction cxs as [|cx cxs IH]; intros n fw sws H; cbn in H; [by injection H as <- <-|].
  destruct (chunk_find (ids n) cx fw) as [[sw old] fw1] eqn:E. destruct (fw_find ids (S n) cxs fw1) as [rest fw2] eqn:E2.
  injection H as <- <-. etrans; [by eapply chunk_find_refs|by eapply IH].
Qed.

Lemma write_loop_refs sws data w p fw r p' fw' : write_loop sws data w p fw = (r, p', fw') -> same_refs fw fw'.
Proof.
  revert w p fw. induction sws as [|[[seq old] cx] sws IH]; intros w p fw H; cbn in H; [by injection H as <- <- <-|].
  destruct (get_sw (cx_chunk_idx cx) seq fw) as [sw|]; [|by injection H as <- <- <-].
  destruct (sw_write_at _ _ _ _ _) as [[r1 p1] sw1]. destruct r1; [|by injection H as <- <- <-..].
  destruct (make_flush_req _ _ _) as [[req|] sw2]; [|eapply IH in H; exact H].
  pose proof (send_req_refs req (put_sw sw2 (put_sw sw1 fw))) as Hs.
  destruct (send_req _ _) as [[] fw2]; [eapply IH in H; etrans; [exact Hs|exact H]|by injection H as <- <- <-].
Qed.

Lemma fw_write_refs ids off data p fw r p' fw' : fw_write ids off data p fw = (r, p', fw') -> same_refs fw fw'.
Proof.
  unfold fw_write, take_flush_error. case_match; [by intros [= <- <- <-]|]. destruct (fw_error fw); [by intros [= <- <- <-]|].
  destruct (fw_find _ _ _ _) as [sws fw1] eqn:E1. destruct (write_loop _ _ _ _ _) as [[r1 p1] fw2] eqn:E2. intros Hw.
  apply fw_find_refs in E1. apply write_loop_refs in E2.
  assert (Hs : same_refs fw fw2) by (etrans; [exact E1|exact E2]).
  destruct r1; injection Hw as <- <- <-; done.
Qed.

Lemma flush_result_refs c n r sw reset closes fw fw' :
  flush_result c n r sw reset closes fw = Ok fw' -> same_refs fw fw'.
Proof.
  unfold flush_result. destruct r as [[sid|]|e|]; intros H; [| | |done]; injection H as <-.
  - by case_match.
  - by case_match.
  - etrans; [apply (record_error_refs e)|done].
Qed.

Lemma run_req_refs io req (d : Deps (M:=M)) fw fw' d' : run_req io req d fw = (Ok fw', d') -> same_refs fw fw'.
Proof.
  destruct req as [c n off|c n|c n]; cbn; destruct (get_sw c n fw) as [sw|]; try done;
    [destruct (do_flush_bulk _ _ _ _) as [[r d1] sw1]|destruct (flush_and_commit _ _ _ _) as [[r d1] sw1]
    |destruct (commit_partial _ _ _) as [[r d1] sw1]]; intros H; injection H as H _; by eapply flush_result_refs.
Qed.

Lemma run_queue_refs io q (d : Deps (M:=M)) fw fw' d' : run_queue io q d fw = (Ok fw', d') -> same_refs fw fw'.
Proof.
  revert d fw. induction q as [|req q IH]; intros d fw H; cbn in H; [by injection H as <- <-|].
  destruct (run_req io req d fw) as [[fw1|e|] d1] eqn:E; [|done..].
  etrans; [by eapply run_req_refs|by eapply IH].
Qed.

Lemma chunk_finish_refs c fw : same_refs fw (chunk_finish c fw).
Proof.
  unfold chunk_finish. case_match; [done|]. case_match; [|done]. destruct (finish_sws _ _) as [[[l' done] reqs] failed].
  case_match; [etrans; [|apply record_error_refs]|]; done.
Qed.

Lemma finish_round_refs fw : same_refs fw (finish_round fw).
Proof.
  unfold finish_round. generalize (elements (dom (fw_chunks fw))). intros ks. revert fw.
  induction ks as [|k ks IH]; intros fw; [done|]. cbn. etrans; [apply (chunk_finish_refs k)|apply IH].
Qed.

Lemma finish_chunks_refs fuel io (d : Deps (M:=M)) fw fw' d' :
  finish_chunks fuel io d fw = Some (Ok fw', d') -> same_refs fw fw'.
Proof.
  revert d fw. induction fuel as [|fuel IH]; intros d fw H; cbn in H; case_match; try done; try by injection H as <- <-.
  destruct (run_queue _ _ _ _) as [[fw1|e|] d1] eqn:E; [|done..]. apply run_queue_refs in E. apply IH in H.
  etrans; [apply finish_round_refs|]. etrans; [exact E|exact H].
Qed.

Lemma finish_local_refs fuel io (d : Deps (M:=M)) fw r d' fw' :
  finish_local fuel io d fw = Some (r, d', fw') -> same_refs fw fw'.
Proof.
  unfold finish_local, take_flush_error. destruct (fw_error fw); [by intros [= <- <- <-]|].
  case_match; [by intros [= <- <- <-]|]. destruct (finish_chunks _ _ _ _) as [[r1 d1]|] eqn:E; [|done]. cbn.
  destruct r1 as [fw1|e|]; [|by intros [= <- <- <-]..]. apply finish_chunks_refs in E.
  destruct (fw_error fw1); intros [= <- <- <-]; exact E.
Qed.

Lemma flush_published_refs mio sids (d : Deps (M:=M)) fw r d' fw' :
  flush_published mio sids d fw = (r, d', fw') -> same_refs fw fw'.
Proof.
  revert d fw. induction sids as [|sid sids IH]; intros d fw H; cbn in H; [by injection H as <- <- <-|].
  destruct (flush_slice _ _ _) as [[x|e|] c]; [|by injection H as <- <- <-..]. apply IH in H. exact H.
Qed.

Lemma flush_to_refs fuel io mio dur (d : Deps (M:=M)) fw r d' fw' :
  flush_to fuel io mio dur d fw = Some (r, d', fw') -> same_refs fw fw'.
Proof.
  unfold flush_to. destruct (finish_local _ _ _ _) as [[[r1 d1] fw1]|] eqn:E; [|done]. cbn. apply finish_local_refs in E.
  destruct r1, dur; intros H; try (by injection H as <- <- <-). injection H as H. apply flush_published_refs in H.
  by etrans.
Qed.
End writer_frame.

(** ** Counting handles *)

Definition handle_writer (h : Handle) : option Z := match h with HFile f => fhd_writer f | HDir _ => None end.

(** The handles of an inode that write through [w]. *)
Definition refs (w : Z) (m : gmap Z Handle) : Z :=
  Z.of_nat (size (filter (fun kv => handle_writer kv.2 = Some w) m)).

Lemma refs_insert w m fh h :
  m !! fh = None -> refs w (<[fh := h]> m) = refs w m + (if decide (handle_writer h = Some w) then 1 else 0).
Proof.
  intros Hn. unfold refs. case_decide as Hw.
  - rewrite map_filter_insert_True by done. rewrite map_size_insert_None; [lia|].
    apply map_lookup_filter_None. by left.
  - rewrite map_filter_insert_not'; [lia|done|]. intros y Hy. congruence.
Qed.

Lemma refs_delete w m fh h :
  m !! fh = Some h -> refs w (delete fh m) = refs w m - (if decide (handle_writer h = Some w) then 1 else 0).
Proof.
  intros Hs. rewrite <- (insert_delete_id m fh h Hs) at 2.
  rewrite refs_insert by apply lookup_delete_eq. lia.
Qed.

Lemma refs_pos w m fh h : m !! fh = Some h -> handle_writer h = Some w -> 0 < refs w m.
Proof.
  intros Hs Hw. pose proof (refs_delete w m fh h Hs) as H. rewrite decide_True in H by done. unfold refs in *. lia.
Qed.

Lemma refs_zero w m : refs w m = 0 -> forall fh h, m !! fh = Some h -> handle_writer h <> Some w.
Proof. intros H fh h Hs Hw. pose proof (refs_pos _ _ _ _ Hs Hw). lia. Qed.

Lemma refs_some w m : 0 < refs w m -> exists fh h, m !! fh = Some h /\ handle_writer h = Some w.
Proof.
  unfold refs. intros H. destruct (map_choose (filter (fun kv => handle_writer kv.2 = Some w) m)) as (fh & h & Hh).
  { intros E. rewrite E, map_size_empty in H. lia. }
  apply map_lookup_filter_Some in Hh. eauto.
Qed.

Lemma refs_none w m : (forall fh h, m !! fh = Some h -> handle_writer h <> Some w) -> refs w m = 0.
Proof.
  intros H. unfold refs. replace (filter _ m) with (∅ : gmap Z Handle); [done|]. symmetry. apply map_empty. intros k.
  apply map_lookup_filter_None. right. intros h Hh. by apply (H k h).
Qed.

Lemma refs_alter w m fh f :
  (forall h, handle_writer (f h) = handle_writer h) -> refs w (alter f fh m) = refs w m.
Proof.
  intros Hf. destruct (m !! fh) as [h|] eqn:E.
  - assert (Ha : alter f fh m = <[fh := f h]> (delete fh m)).
    { apply map_eq. intros k. destruct (decide (k = fh)) as [->|Hk].
      - by rewrite lookup_alter_eq, lookup_insert_eq, E.
      - by rewrite lookup_alter_ne, lookup_insert_ne, lookup_delete_ne by done. }
    rewrite Ha, refs_insert by apply lookup_delete_eq. rewrite (refs_delete w m fh h E), Hf. case_decide; lia.
  - f_equal. apply map_eq. intros k. destruct (decide (k = fh)) as [->|Hk].
    + by rewrite lookup_alter_eq, E.
    + by rewrite lookup_alter_ne.
Qed.

Lemma size_below {A} (m : gmap Z A) a n :
  a <= n -> (forall k x, m !! k = Some x -> a <= k < n) -> Z.of_nat (size m) <= n - a.
Proof.
  intros Hn Hk. rewrite <- (size_dom (D:=gset Z)). pose proof (subseteq_size (dom m) (list_to_set (seqZ a (n - a)))) as H.
  rewrite size_list_to_set in H by apply NoDup_seqZ. rewrite length_seqZ in H.
  assert (size (dom m) <= Z.to_nat (n - a))%nat; [|lia]. apply H. intros k Hd. apply elem_of_dom in Hd as [x Hx].
  apply elem_of_list_to_set, elem_of_seqZ. pose proof (Hk _ _ Hx). lia.
Qed.

Lemma refs_below w m a n :
  a <= n -> (forall k x, m !! k = Some x -> a <= k < n) -> refs w m <= n - a.
Proof.
  intros Hn Hk. unfold refs. apply size_below; [done|]. intros k x Hx. apply map_lookup_filter_Some in Hx as [Hx _].
  by apply Hk in Hx.
Qed.

(** ** The invariant *)

Section invariant.
Context `{L : Layout} `{R : RangeMapOps Slice} `{RV : RangeMapOps VirtualSlice} {M : Type} `{MC : MetaClient M} `{MR : MetaReader M}.

Abbreviation Table := (HandleTable (M:=M)).

Definition handles_of (ino : Z) (t : Table) : gmap Z Handle := default ∅ (ht_handles t !! ino).

(** An open file handle: its names, its reader and its writer. *)
Definition file_handle_ok (dm : DataManager (M:=M)) (ino fh : Z) (f : FileHandle) : Prop :=
  fhd_inode f = ino /\ fhd_fh f = fh /\ is_Some (find_reader ino fh dm) /\
  forall w, fhd_writer f = Some w -> dm_writers dm !! ino = Some w.

(** The writer of an inode, used by [n] handles. *)
Definition writer_ok (dm : DataManager (M:=M)) (ino w n : Z) : Prop :=
  exists fw, dm_heap dm !! w = Some fw /\ fw_inode fw = ino /\ fw_ref_count fw = n /\ 0 < n.

(** [x]: a reference to a writer that no handle of the table holds (yet, or any
    more). *)
Definition held (x : option Z) (w : Z) : Z := if decide (x = Some w) then 1 else 0.

Record TInvX (x : option Z) (t : Table) : Prop := {
  ti_next : 1 <= ht_next_fh t < 2 ^ 64;
  ti_fh : forall ino fh h, find_handle ino fh t = Some h -> 1 <= fh < ht_next_fh t;
  ti_handle : forall ino fh f, find_handle ino fh t = Some (HFile f) -> file_handle_ok (ht_dm t) ino fh f;
  ti_writer : forall ino w, dm_writers (ht_dm t) !! ino = Some w ->
    writer_ok (ht_dm t) ino w (refs w (handles_of ino t) + held x w);
  ti_heap : forall w fw, dm_heap (ht_dm t) !! w = Some fw -> w < dm_next_ref (ht_dm t);
  ti_reader : forall ino fh fr, find_reader ino fh (ht_dm t) = Some fr ->
    fh < ht_next_fh t /\ fr_ino fr = ino /\ fr_fh fr = fh /\ fr_closing fr = false
}.

Definition TInv : Table -> Prop := TInvX None.

Lemma find_handles_of ino fh t : find_handle ino fh t = handles_of ino t !! fh.
Proof. unfold find_handle, handles_of. destruct (ht_handles t !! ino); [done|]. cbn. by rewrite lookup_empty. Qed.

Lemma held_bounds x w : 0 <= held x w <= 1.
Proof. unfold held. case_decide; lia. Qed.

Lemma held_None w : held None w = 0.
Proof. done. Qed.

Lemma tinv_refs x t ino w : TInvX x t -> refs w (handles_of ino t) <= ht_next_fh t - 1.
Proof.
  intros HI. pose proof (ti_next _ _ HI). apply refs_below; [lia|]. intros k h Hx.
  rewrite <- find_handles_of in Hx. by eapply ti_fh.
Qed.

Lemma tinv_writer_inj x t i j w :
  TInvX x t -> dm_writers (ht_dm t) !! i = Some w -> dm_writers (ht_dm t) !! j = Some w -> i = j.
Proof.
  intros HI Hi Hj. destruct (ti_writer _ _ HI _ _ Hi) as (fw & E & <- & _).
  destruct (ti_writer _ _ HI _ _ Hj) as (fw' & E' & <- & _). congruence.
Qed.

(** Data managers that agree on the writers, their counts and the readers of
    handles carry the same invariant. *)
Record dm_same (dm dm' : DataManager (M:=M)) : Prop := {
  ds_writers : dm_writers dm' = dm_writers dm;
  ds_next : dm_next_ref dm' = dm_next_ref dm;
  ds_heap1 : forall w fw, dm_heap dm !! w = Some fw -> exists fw', dm_heap dm' !! w = Some fw' /\ same_refs fw fw';
  ds_heap2 : forall w fw', dm_heap dm' !! w = Some fw' -> exists fw, dm_heap dm !! w = Some fw;
  ds_readers1 : forall i k, is_Some (find_reader i k dm) -> is_Some (find_reader i k dm');
  ds_readers2 : forall i k fr', find_reader i k dm' = Some fr' ->
    exists fr, find_reader i k dm = Some fr /\ fr_ino fr' = fr_ino fr /\ fr_fh fr' = fr_fh fr /\
      fr_closing fr' = fr_closing fr
}.

#[export] Instance dm_same_refl : Reflexive dm_same.
Proof.
  intros dm. split; [done|done| | |done|].
  - intros w fw H. by exists fw.
  - intros w fw H. by exists fw.
  - intros i k fr H. by exists fr.
Qed.

Lemma tinv_same x hs next dm dm' : dm_same dm dm' -> TInvX x (mkHT hs next dm) -> TInvX x (mkHT hs next dm').
Proof.
  intros [Hw Hn Hh1 Hh2 Hr1 Hr2] [I1 I2 I3 I4 I5 I6]. split; cbn in *.
  - done.
  - exact I2.
  - intros ino fh f Hf. destruct (I3 ino fh f Hf) as (E1 & E2 & E3 & E4).
    split; [done|]. split; [done|]. split; [by apply Hr1|by rewrite Hw].
  - intros ino w. rewrite Hw. intros H. destruct (I4 ino w H) as (fw & F1 & F2 & F3 & F4).
    destruct (Hh1 _ _ F1) as (fw' & G1 & G2 & G3). exists fw'. split; [done|]. split; [congruence|]. split; [|done].
    transitivity (fw_ref_count fw); [done|exact F3].
  - intros w fw' H. rewrite Hn. destruct (Hh2 _ _ H) as [fw Hfw]. by eapply I5.
  - intros i k fr' H. destruct (Hr2 _ _ _ H) as (fr & Hfr & -> & -> & ->). by apply I6.
Qed.

(** *** Operations that leave the accounting alone *)

Definition stays {A} (m : opr (DataManager (M:=M)) A) : Prop :=
  forall dm r dm', m dm = Some (r, dm') -> dm_same dm dm'.

Lemma stays_keeps {A} x (m : opr (DataManager (M:=M)) A) : stays m -> keeps (TInvX x) (ht_on_dm m).
Proof.
  intros Hm [hs next dm] r t' H _ HI. unfold ht_on_dm in H. cbn in H. destruct (m dm) as [[r1 dm1]|] eqn:E; [|done].
  injection H as <- <-. by eapply tinv_same; [eapply Hm|].
Qed.

Lemma same_deps p c m dm : dm_same dm (set_deps p c m dm).
Proof. destruct (dm_same_refl dm). by split. Qed.

Lemma same_heap w fw fw' dm :
  dm_heap dm !! w = Some fw -> same_refs fw fw' -> dm_same dm (set_heap (<[w := fw']> (dm_heap dm)) dm).
Proof.
  intros Hw Hs. destruct (dm_same_refl dm) as [A1 A2 A3 A4 A5 A6]. split; [done|done| | |done|done]; cbn.
  - intros w1 fw1 H1. destruct (decide (w1 = w)) as [->|Hne].
    + exists fw'. rewrite lookup_insert_eq. split; [done|]. congruence.
    + exists fw1. by rewrite lookup_insert_ne.
  - intros w1 fw1 H1. destruct (decide (w1 = w)) as [->|Hne]; [by exists fw|].
    rewrite lookup_insert_ne in H1 by done. by exists fw1.
Qed.

Lemma on_writer_stays {A} w (f : Deps (M:=M) -> FileWriter -> option (VResult A * Deps (M:=M) * FileWriter)) :
  (forall d fw r d' fw', f d fw = Some (r, d', fw') -> same_refs fw fw') -> stays (on_writer w f).
Proof.
  intros Hf dm r dm' H. unfold on_writer in H. destruct (dm_heap dm !! w) as [fw|] eqn:E; [|by injection H as <- <-].
  destruct (f _ fw) as [[[r1 d1] fw1]|] eqn:Ef; [|done]. injection H as <- <-.
  destruct (same_heap w fw fw1 dm E (Hf _ _ _ _ _ Ef)). by split.
Qed.

Lemma writer_finish_stays io w : stays (writer_finish io w).
Proof. apply on_writer_stays. intros d fw r d' fw'. apply flush_to_refs. Qed.
Lemma writer_sync_stays io w : stays (writer_sync_remote io w).
Proof. apply on_writer_stays. intros d fw r d' fw'. apply flush_to_refs. Qed.
Lemma writer_write_stays io w off data : stays (writer_write io w off data).
Proof.
  apply on_writer_stays. intros d fw r d' fw'. destruct (fw_write _ _ _ _ _) as [[r1 p1] fw1] eqn:E.
  intros [= <- <- <-]. by eapply fw_write_refs.
Qed.

Lemma direct_flush_stays io ino : stays (direct_flush io ino).
Proof.
  intros dm r dm' H. unfold direct_flush in H. destruct (dm_writers dm !! ino); [by eapply writer_finish_stays|].
  by injection H as <- <-.
Qed.

Lemma reader_read_stays io ino fh off dst : stays (reader_read io ino fh off dst).
Proof.
  intros dm r dm' H. unfold reader_read in H. destruct (find_reader ino fh dm); [|by injection H as <- <-].
  destruct (read _ _ _ _ _ _ _) as [r1 [m d]]. injection H as <- <-. destruct (dm_same_refl dm). by split.
Qed.

Lemma modify_stays (f : DataManager (M:=M) -> DataManager (M:=M)) : (forall dm, dm_same dm (f dm)) -> stays (op_modify f).
Proof. intros Hf dm r dm' [= <- <-]. apply Hf. Qed.

Lemma truncate_reader_find ino len i k (rs : Readers) :
  (truncate_reader ino len rs : gmap Z (gmap Z FileReader)) !! i ≫= (.!! k) =
    (fun fr => if decide (i = ino) then mkFR (fr_ino fr) (fr_fh fr) len (fr_closing fr) else fr) <$>
      ((rs : gmap Z (gmap Z FileReader)) !! i ≫= (.!! k)).
Proof.
  unfold truncate_reader. case_decide as Hi; [subst i|].
  - setoid_rewrite lookup_alter_eq. destruct ((rs : gmap Z (gmap Z FileReader)) !! ino) as [m|]; [|done]. cbn in *.
    by rewrite lookup_fmap.
  - setoid_rewrite lookup_alter_ne; [|done]. by rewrite option_fmap_id.
Qed.

Lemma truncate_reader_same ino len dm : dm_same dm (dm_truncate_reader ino len dm).
Proof.
  assert (Hf : forall i k, find_reader i k (dm_truncate_reader ino len dm) =
    (fun fr => if decide (i = ino) then mkFR (fr_ino fr) (fr_fh fr) len (fr_closing fr) else fr) <$> find_reader i k dm).
  { intros i k. apply truncate_reader_find. }
  destruct (dm_same_refl dm). split; try done.
  - intros i k. by rewrite Hf, fmap_is_Some.
  - intros i k fr'. rewrite Hf. intros H. apply fmap_Some in H as (fr & H & ->). exists fr. split; [done|]. by case_decide.
Qed.

Lemma set_length_same ino len dm : dm_same dm (dm_set_length ino len dm).
Proof.
  unfold dm_set_length. destruct (dm_writers dm !! ino) as [w|]; [|done].
  destruct (dm_heap dm !! w) as [fw|] eqn:E.
  - assert (Ha : alter (set_fw_length len) w (dm_heap dm) = <[w := set_fw_length len fw]> (dm_heap dm)).
    { apply map_eq. intros k. destruct (decide (k = w)) as [->|Hk].
      - by rewrite lookup_alter_eq, lookup_insert_eq, E.
      - by rewrite lookup_alter_ne, lookup_insert_ne. }
    rewrite Ha. by eapply same_heap.
  - rewrite alter_id; [by destruct dm|]. intros fw Hfw. congruence.
Qed.

(** *** Changing a handle in place *)

Definition handle_shape (h : Handle) : option (Z * Z * option Z) :=
  match h with HFile f => Some (fhd_inode f, fhd_fh f, fhd_writer f) | HDir _ => None end.

Lemma shape_writer h h' : handle_shape h' = handle_shape h -> handle_writer h' = handle_writer h.
Proof. destruct h, h'; cbn; congruence. Qed.

Lemma handles_alter (g : Handle -> Handle) hs next (dm : DataManager (M:=M)) ino fh i :
  handles_of i (mkHT (alter (alter g fh) ino hs) next dm) =
    if decide (i = ino) then alter g fh (handles_of i (mkHT hs next dm)) else handles_of i (mkHT hs next dm).
Proof.
  unfold handles_of. cbn. case_decide as Hi; [subst i|].
  - setoid_rewrite lookup_alter_eq. destruct (hs !! ino); [done|]. cbn. apply map_eq. intros k.
    destruct (decide (k = fh)) as [->|Hk]; by rewrite ?lookup_alter_eq, ?lookup_alter_ne, lookup_empty by done.
  - by setoid_rewrite lookup_alter_ne.
Qed.

Lemma tinv_alter x (g : Handle -> Handle) hs next (dm : DataManager (M:=M)) ino fh :
  (forall h, handle_shape (g h) = handle_shape h) ->
  TInvX x (mkHT hs next dm) -> TInvX x (mkHT (alter (alter g fh) ino hs) next dm).
Proof.
  intros Hg [I1 I2 I3 I4 I5 I6].
  assert (Hfind : forall i k h, find_handle i k (mkHT (alter (alter g fh) ino hs) next dm) = Some h ->
    exists h0, find_handle i k (mkHT hs next dm) = Some h0 /\ handle_shape h = handle_shape h0).
  { intros i k h H. rewrite find_handles_of, handles_alter in H. setoid_rewrite find_handles_of. case_decide; [|by exists h].
    destruct (decide (k = fh)) as [->|Hk]; [|rewrite lookup_alter_ne in H by done; by exists h].
    rewrite lookup_alter_eq in H. apply fmap_Some in H as (h0 & H & ->). by exists h0. }
  split; cbn in *.
  - done.
  - intros i k h H. destruct (Hfind i k h H) as (h0 & H0 & _). by apply I2 in H0.
  - intros i k f H. destruct (Hfind i k _ H) as (h0 & H0 & Hs). destruct h0 as [f0|]; [|done]. cbn in Hs.
    injection Hs as E1 E2 E3. destruct (I3 _ _ _ H0) as (F1 & F2 & F3 & F4).
    split; [congruence|]. split; [congruence|]. split; [done|]. by rewrite E3.
  - intros i w H. specialize (I4 i w H). rewrite handles_alter. case_decide; [|done].
    rewrite refs_alter; [done|]. intros h. apply shape_writer, Hg.
  - done.
  - done.
Qed.

(** *** Opening and closing *)

(** The handle [fh] of [ino] is gone; its writer reference is still held. *)
Lemma tinv_remove hs next (dm : DataManager (M:=M)) ino fh h :
  TInv (mkHT hs next dm) -> find_handle ino fh (mkHT hs next dm) = Some h ->
  TInvX (handle_writer h) (mkHT (alter (delete fh) ino hs) next dm) /\
  find_handle ino fh (mkHT (alter (delete fh) ino hs) next dm) = None /\
  (forall f, h = HFile f -> file_handle_ok dm ino fh f).
Proof.
  intros J Hh. destruct J as [I1 I2 I3 I4 I5 I6] eqn:EJ. clear EJ.
  assert (Hof : forall i, handles_of i (mkHT (alter (delete fh) ino hs) next dm) =
    if decide (i = ino) then delete fh (handles_of i (mkHT hs next dm)) else handles_of i (mkHT hs next dm)).
  { intros i. unfold handles_of. cbn. case_decide as Hi; [subst i|].
    - setoid_rewrite lookup_alter_eq. destruct (hs !! ino); [done|]. cbn. by rewrite delete_empty.
    - by setoid_rewrite lookup_alter_ne. }
  assert (Hfind : forall i k h', find_handle i k (mkHT (alter (delete fh) ino hs) next dm) = Some h' ->
    find_handle i k (mkHT hs next dm) = Some h').
  { intros i k h'. rewrite !find_handles_of, Hof. case_decide; [|done]. intros Hd.
    apply lookup_delete_Some in Hd. tauto. }
  split; [|split].
  - split; cbn in *.
    + done.
    + intros i k h' H. apply Hfind in H. by apply I2 in H.
    + intros i k f H. apply Hfind in H. by apply I3.
    + intros i w H. specialize (I4 i w H). rewrite Hof. destruct I4 as (fw & F1 & F2 & F3 & F4).
      exists fw. split; [done|]. split; [done|]. rewrite find_handles_of in Hh. unfold held in *. cbn in F3, F4.
      destruct (decide (i = ino)) as [->|Hi]; [rewrite (refs_delete w _ _ _ Hh); repeat case_decide; try done; lia|].
      rewrite decide_False in F3, F4 by done. rewrite decide_False; [lia|]. intros Hw. apply Hi. destruct h as [f|]; [|done]. rewrite <- find_handles_of in Hh.
      destruct (I3 _ _ _ Hh) as (_ & _ & _ & E4). pose proof (E4 _ Hw) as E. cbn in E.
      by eapply (tinv_writer_inj _ _ i ino w J).
    + done.
    + done.
  - rewrite find_handles_of, Hof, decide_True by done. apply lookup_delete_eq.
  - intros f ->. by apply I3.
Qed.

Lemma alter_delete_find {V} (rs : gmap Z (gmap Z V)) i k j fh x :
  rs !! i ≫= (.!! k) = Some x -> (i, k) <> (j, fh) -> alter (delete fh) j rs !! i ≫= (.!! k) = Some x.
Proof.
  intros H Hne. destruct (decide (i = j)) as [->|Hi]; [|by rewrite lookup_alter_ne].
  rewrite lookup_alter_eq. destruct (rs !! j) as [m|]; [|done]. cbn in *. rewrite lookup_delete_ne; [done|congruence].
Qed.

Lemma tinv_close_reader x hs next (dm : DataManager (M:=M)) ino fh :
  find_handle ino fh (mkHT hs next dm) = None ->
  TInvX x (mkHT hs next dm) -> TInvX x (mkHT hs next (dm_close_reader ino fh dm)).
Proof.
  intros Hn [I1 I2 I3 I4 I5 I6]. unfold dm_close_reader. destruct (find_reader ino fh dm) as [fr|] eqn:E; [|by split].
  destruct (I6 _ _ _ E) as (_ & E1 & E2 & E3). unfold reader_close. rewrite E3, E1, E2. split; try done; cbn in *.
  - intros i k f Hf. destruct (I3 i k f Hf) as (F1 & F2 & [fr' F3] & F4). split; [done|]. split; [done|]. split; [|done].
    exists fr'. apply alter_delete_find; [exact F3|]. intros [= -> ->]. unfold find_handle in *. cbn in *. congruence.
  - intros i k fr' H. apply I6. unfold find_reader in *. cbn in H. destruct (decide (i = ino)) as [->|Hi].
    + setoid_rewrite lookup_alter_eq in H. apply bind_Some in H as (m & Hm & H). apply fmap_Some in Hm as (m0 & Hm & ->).
      apply lookup_delete_Some in H as [_ H]. by apply bind_Some; eexists.
    + by setoid_rewrite lookup_alter_ne in H.
Qed.

Lemma tinv_drop_writer hs next (dm : DataManager (M:=M)) ino w :
  TInvX (Some w) (mkHT hs next dm) -> dm_writers dm !! ino = Some w -> TInv (mkHT hs next (drop_writer w dm)).
Proof.
  intros HI Hw. pose proof (tinv_refs _ _ ino w HI) as Hb. pose proof HI as [I1 I2 I3 I4 I5 I6]. cbn in *.
  destruct (I4 ino w Hw) as (fw & F1 & <- & F3 & F4).
  assert (Hr : 0 <= refs w (handles_of (fw_inode fw) (mkHT hs next dm))) by (unfold refs; lia).
  assert (Hheld : held (Some w) w = 1) by (unfold held; by rewrite decide_True).
  unfold drop_writer. rewrite F1, Hw, Z.eqb_refl. cbn. rewrite (proj2 (Z.eqb_neq _ 0)) by lia.
  assert (Hother : forall i v, dm_writers dm !! i = Some v -> v <> w -> held (Some w) v = 0 /\ i <> fw_inode fw).
  { intros i v Hv Hne. unfold held. rewrite decide_False by congruence. split; [done|]. intros ->. congruence. }
  destruct (fw_ref_count fw =? 1) eqn:E1; to_prop.
  - assert (Hz : refs w (handles_of (fw_inode fw) (mkHT hs next dm)) = 0) by lia.
    assert (Hkey : forall i v, delete (fw_inode fw) (dm_writers dm) !! i = Some v -> dm_writers dm !! i = Some v /\ v <> w).
    { intros i v Hv. apply lookup_delete_Some in Hv as [Hi Hv]. split; [done|]. intros ->. apply Hi.
      by eapply (tinv_writer_inj _ _ _ _ w HI). }
    split; try done; cbn.
    + intros i k f Hf. destruct (I3 i k f Hf) as (G1 & G2 & G3 & G4). split; [done|]. split; [done|]. split; [done|].
      intros v Hv. pose proof (G4 v Hv) as Hd. cbn. rewrite lookup_delete_ne; [done|]. intros <-.
      rewrite find_handles_of in Hf. apply (refs_zero _ _ Hz _ _ Hf). cbn. congruence.
    + intros i v Hv. destruct (Hkey _ _ Hv) as [Hd Hne]. destruct (I4 i v Hd) as (fv & K1 & K2 & K3 & K4).
      destruct (Hother i v Hd Hne) as [Hh _]. exists fv. cbn. rewrite lookup_insert_ne by done. rewrite Hh in *.
      rewrite held_None. done.
    + intros v fv Hv. apply lookup_insert_Some in Hv as [[<- _]|[_ Hv]]; [|by eapply I5]. by eapply I5.
  - split; try done; cbn.
    + intros i v Hv. destruct (decide (v = w)) as [->|Hne].
      * assert (i = fw_inode fw) as -> by (by eapply (tinv_writer_inj _ _ _ _ w HI)).
        eexists. cbn. rewrite lookup_insert_eq. split; [done|]. cbn. split; [done|].
        rewrite held_None. unfold u64_wrap. rewrite Z.mod_small by lia. unfold handles_of in *. cbn in *. lia.
      * destruct (I4 i v Hv) as (fv & K1 & K2 & K3 & K4). destruct (Hother i v Hv Hne) as [Hh _]. exists fv. cbn.
        rewrite lookup_insert_ne by done. rewrite Hh in *. rewrite held_None. done.
    + intros v fv Hv. apply lookup_insert_Some in Hv as [[<- _]|[_ Hv]]; by eapply I5.
Qed.

Lemma release_keeps io ino fh : keeps TInv (release_file_handle io ino fh).
Proof.
  intros [hs next dm] r t' H Hr HI. unfold release_file_handle in H.
  destruct (find_handle ino fh (mkHT hs next dm)) as [h|] eqn:Eh; [|by injection H as <- <-].
  destruct (tinv_remove hs next dm ino fh h HI Eh) as (I1 & Hn & Hok). cbn [ht_handles ht_next_fh ht_dm] in H.
  destruct h as [f|d]; [|injection H as <- <-; exact I1].
  destruct (Hok f eq_refl) as (E1 & E2 & _ & E4). apply (tinv_close_reader _ _ _ _ _ _ Hn) in I1.
  unfold file_handle_close in H. rewrite bind_run in H. cbn in H. rewrite E1, E2 in H. cbn in I1.
  destruct (fhd_writer f) as [w|] eqn:Ew; [|injection H as <- <-; exact I1].
  unfold ht_on_dm, writer_close, op_try in H. cbn in H. rewrite bind_run in H.
  destruct (writer_finish io w (dm_close_reader ino fh dm)) as [[r1 dm1]|] eqn:Ef; [|done]. cbn in H.
  pose proof (writer_finish_stays io w _ _ _ Ef) as Hs. pose proof (tinv_same _ _ _ _ _ Hs I1) as I2.
  assert (Hw : dm_writers dm1 !! ino = Some w).
  { rewrite (ds_writers _ _ Hs). unfold dm_close_reader. destruct (find_reader ino fh dm); cbn; by apply E4. }
  assert (Hd : TInv (mkHT (alter (delete fh) ino hs) next (drop_writer w dm1))) by by eapply tinv_drop_writer.
  destruct r1; injection H as <- <-; [exact Hd|exact Hd|done].
Qed.

Lemma tinv_allocate x hs next (dm : DataManager (M:=M)) :
  next < 2 ^ 64 - 1 -> TInvX x (mkHT hs next dm) ->
  allocate_fh (mkHT hs next dm) = Some (Ok next, mkHT hs (next + 1) dm) /\ TInvX x (mkHT hs (next + 1) dm) /\
  (forall i, find_handle i next (mkHT hs (next + 1) dm) = None) /\ (forall i, find_reader i next dm = None) /\ 1 <= next.
Proof.
  intros Hn [I1 I2 I3 I4 I5 I6]. cbn in *. split.
  { unfold allocate_fh. cbn. unfold u64_wrap. by rewrite Z.mod_small by lia. }
  split; [|split; [|split; [|lia]]].
  - split; try done; cbn; [lia| |].
    + intros i k h H. specialize (I2 i k h H). lia.
    + intros i k fr H. destruct (I6 i k fr H) as (H1 & H2). split; [lia|done].
  - intros i. destruct (find_handle i next _) as [h|] eqn:E; [|done]. specialize (I2 _ _ _ E). lia.
  - intros i. destruct (find_reader i next dm) as [fr|] eqn:E; [|done]. destruct (I6 _ _ _ E) as [H1 _]. lia.
Qed.

Lemma open_reader_find ino fh len i k (dm : DataManager (M:=M)) :
  find_reader ino fh dm = None ->
  find_reader i k (dm_open_reader ino fh len dm) =
    if decide ((i, k) = (ino, fh)) then Some (mkFR ino fh len false) else find_reader i k dm.
Proof.
  unfold find_reader, dm_open_reader, open_file_reader. intros Hn. cbn.
  assert (Hd : (default ∅ (dm_readers dm !! ino) : gmap Z FileReader) !! fh = None).
  { destruct (dm_readers dm !! ino); [exact Hn|]. cbn. by rewrite lookup_empty. }
  rewrite Hd. cbn. destruct (decide (i = ino)) as [->|Hi].
  - setoid_rewrite lookup_insert_eq. cbn. destruct (decide (k = fh)) as [->|Hk].
    + rewrite lookup_insert_eq. by rewrite decide_True.
    + rewrite lookup_insert_ne by done. rewrite decide_False by congruence. by destruct (dm_readers dm !! ino).
  - setoid_rewrite lookup_insert_ne; [|done]. rewrite decide_False by congruence. done.
Qed.

Lemma tinv_open_reader x hs next (dm : DataManager (M:=M)) ino fh len :
  fh < next -> find_reader ino fh dm = None ->
  TInvX x (mkHT hs next dm) ->
  TInvX x (mkHT hs next (dm_open_reader ino fh len dm)) /\ is_Some (find_reader ino fh (dm_open_reader ino fh len dm)).
Proof.
  intros Hl Hn [I1 I2 I3 I4 I5 I6]. cbn in *. pose proof (fun i k => open_reader_find ino fh len i k dm Hn) as Hf. split.
  - split; try done; cbn.
    + intros i k f H. destruct (I3 i k f H) as (E1 & E2 & E3 & E4). split; [done|]. split; [done|]. split; [|done].
      rewrite Hf. by case_decide.
    + intros i k fr. rewrite Hf. case_decide as Hik; [|by apply I6]. injection Hik as -> ->. by intros [= <-].
  - rewrite Hf. by case_decide.
Qed.

Lemma tinv_open_writer hs next (dm : DataManager (M:=M)) ino len r dm' :
  open_file_writer ino len dm = Some (r, dm') -> TInv (mkHT hs next dm) ->
  match r with
  | Ok w => TInvX (Some w) (mkHT hs next dm') /\ dm_writers dm' !! ino = Some w /\ dm_readers dm' = dm_readers dm
  | _ => dm' = dm
  end.
Proof.
  intros H HI. pose proof HI as [I1 I2 I3 I4 I5 I6]. unfold open_file_writer in H. cbn in *.
  destruct (dm_writers dm !! ino) as [w|] eqn:Ew.
  - injection H as <- <-. destruct (I4 ino w Ew) as (fw & F1 & F2 & F3 & F4).
    pose proof (tinv_refs _ _ ino w HI) as Hb. cbn in Hb. rewrite held_None in F3, F4.
    split; [|done]. split; try done; cbn.
    + intros i v Hv. destruct (decide (v = w)) as [->|Hne].
      * assert (i = ino) as -> by (by eapply (tinv_writer_inj _ _ _ _ w HI)).
        exists (set_ref_count (u64_wrap (fw_ref_count fw + 1)) fw). cbn. rewrite lookup_alter_eq, F1. cbn.
        split; [done|]. split; [done|]. unfold held. rewrite decide_True by done. unfold u64_wrap.
        rewrite F3, Z.mod_small by lia. unfold handles_of in *. cbn in *. lia.
      * destruct (I4 i v Hv) as (fv & K1 & K2 & K3 & K4). exists fv. cbn. rewrite lookup_alter_ne by done.
        unfold held in *. rewrite decide_False by congruence. done.
    + intros v fv Hv. destruct (decide (v = w)) as [->|Hne]; [by eapply I5|].
      rewrite lookup_alter_ne in Hv by done. by eapply I5.
  - destruct (dm_accepting dm); [|by injection H as <- <-]. injection H as <- <-.
    set (w := dm_next_ref dm) in *.
    assert (Hfresh : dm_heap dm !! w = None).
    { destruct (dm_heap dm !! w) as [fw|] eqn:E; [|done]. pose proof (I5 _ _ E). lia. }
    split; [|split; [by setoid_rewrite lookup_insert_eq|done]]. split; try done; cbn.
    + intros i k f Hf. destruct (I3 i k f Hf) as (E1 & E2 & E3 & E4). split; [done|]. split; [done|]. split; [done|].
      intros v Hv. pose proof (E4 v Hv) as Hd. cbn in *. rewrite lookup_insert_ne; [done|]. intros <-. congruence.
    + intros i v Hv. destruct (decide (i = ino)) as [->|Hi].
      * rewrite lookup_insert_eq in Hv. injection Hv as <-.
        exists (set_ref_count (u64_wrap (fw_ref_count (file_writer_new ino len) + 1)) (file_writer_new ino len)).
        cbn. rewrite lookup_alter_eq, lookup_insert_eq. split; [done|]. split; [done|].
        unfold held. rewrite decide_True by done.
        assert (Hz : refs w (handles_of ino (mkHT hs next dm)) = 0).
        { apply refs_none. intros k h Hk Hh. rewrite <- find_handles_of in Hk. destruct h as [f|]; [|done].
          destruct (I3 _ _ _ Hk) as (_ & _ & _ & E4). pose proof (E4 _ Hh). cbn in *. congruence. }
        unfold handles_of in *. cbn in *. rewrite Hz. split; reflexivity.
      * rewrite lookup_insert_ne in Hv by done. destruct (I4 i v Hv) as (fv & K1 & K2 & K3 & K4).
        assert (v <> w) by congruence. exists fv. cbn. rewrite lookup_alter_ne, lookup_insert_ne by done.
        unfold held in *. rewrite decide_False by congruence. done.
    + intros v fv Hv. destruct (decide (v = w)) as [->|Hne]; [lia|].
      rewrite lookup_alter_ne, lookup_insert_ne in Hv by done. pose proof (I5 _ _ Hv). lia.
Qed.

Lemma tinv_insert hs next (dm : DataManager (M:=M)) ino fh h :
  1 <= fh < next -> find_handle ino fh (mkHT hs next dm) = None ->
  (forall f, h = HFile f -> file_handle_ok dm ino fh f) ->
  TInvX (handle_writer h) (mkHT hs next dm) -> TInv (insert_handle ino fh h (mkHT hs next dm)).
Proof.
  intros Hb Hn Hok HI. pose proof HI as [I1 I2 I3 I4 I5 I6]. cbn in *.
  assert (Hof : forall i, handles_of i (insert_handle ino fh h (mkHT hs next dm)) =
    if decide (i = ino) then <[fh := h]> (handles_of i (mkHT hs next dm)) else handles_of i (mkHT hs next dm)).
  { intros i. unfold handles_of, insert_handle. cbn. case_decide as Hi; [subst i; by rewrite lookup_insert_eq|].
    by rewrite lookup_insert_ne. }
  assert (Hfind : forall i k h', find_handle i k (insert_handle ino fh h (mkHT hs next dm)) = Some h' ->
    ((i, k) = (ino, fh) /\ h' = h) \/ find_handle i k (mkHT hs next dm) = Some h').
  { intros i k h' H. rewrite find_handles_of, Hof in H. rewrite find_handles_of. destruct (decide (i = ino)) as [->|]; [|by right].
    apply lookup_insert_Some in H as [[-> ->]|[_ H]]; [by left|by right]. }
  split; cbn.
  - done.
  - intros i k h' H. destruct (Hfind _ _ _ H) as [[[= -> ->] _]|H']; [done|]. by eapply I2.
  - intros i k f H. destruct (Hfind _ _ _ H) as [[[= -> ->] Hh]|H']; [by apply Hok|]. by apply I3.
  - intros i w Hw. specialize (I4 i w Hw). rewrite held_None, Hof. rewrite find_handles_of in Hn.
    destruct (decide (i = ino)) as [->|Hi].
    + rewrite refs_insert by done. unfold held in I4. rewrite Z.add_0_r. exact I4.
    + rewrite Z.add_0_r. unfold held in I4. rewrite decide_False in I4; [by rewrite Z.add_0_r in I4|].
      intros Hh. destruct h as [f|]; [|done]. destruct (Hok f eq_refl) as (_ & _ & _ & E4).
      apply Hi. by eapply (tinv_writer_inj _ _ _ _ w HI); [|apply E4].
  - exact I5.
  - exact I6.
Qed.

(** From a table with numbers left, a new handle. *)
Definition TReady (t : Table) : Prop := TInv t /\ ht_next_fh t < 2 ^ 64 - 1.

Lemma new_dir_inv ino t r t' : new_dir_handle ino t = Some (r, t') -> TReady t -> TInv t'.
Proof.
  destruct t as [hs next dm]. intros H [HI Hn]. cbn in Hn. destruct (tinv_allocate _ _ _ _ Hn HI) as (Ea & I1 & Hf & _ & Hp).
  unfold new_dir_handle in H. rewrite bind_run, Ea in H. injection H as <- <-.
  by apply tinv_insert; [lia|apply Hf| |exact I1].
Qed.

Lemma open_handle_inv ino fh len flags hs next (dm : DataManager (M:=M)) r t' :
  1 <= fh < next -> find_handle ino fh (mkHT hs next dm) = None -> find_reader ino fh dm = None ->
  TInv (mkHT hs next dm) -> open_handle ino fh len flags (mkHT hs next dm) = Some (r, t') ->
  match r with Ok f => TInv (insert_handle ino fh (HFile f) t') | _ => TInv t' end.
Proof.
  intros Hb Hn Hr HI H. destruct (tinv_open_reader None hs next dm ino fh len ltac:(lia) Hr HI) as [I2 Hrd].
  assert (Hc : open_handle (M:=M) ino fh len flags = op_fail (VLibc EPERM) \/
    open_handle (M:=M) ino fh len flags = (_ ← ht_on_dm (op_modify (dm_open_reader ino fh len)); mret (file_handle_new ino fh None)) \/
    open_handle (M:=M) ino fh len flags = (_ ← ht_on_dm (op_modify (dm_open_reader ino fh len));
      w ← ht_on_dm (open_file_writer ino len); mret (file_handle_new ino fh (Some w)))).
  { unfold open_handle. repeat case_match; auto. }
  destruct Hc as [E|[E|E]]; rewrite E in H; [by injection H as <- <-|rewrite bind_run in H; injection H as <- <-|].
  - apply tinv_insert; [lia|done| |exact I2]. intros f [= <-]. by split_and!.
  - rewrite bind_run in H. cbn in H. rewrite bind_run in H. unfold ht_on_dm in H. cbn in H.
    destruct (open_file_writer _ _ _) as [[r2 dm2]|] eqn:Eo; [|done].
    pose proof (tinv_open_writer _ _ _ _ _ _ _ Eo I2) as Ho. destruct r2 as [w|e|]; injection H as <- <-; [|by subst dm2..].
    destruct Ho as (I3 & Hw & Hrd'). apply tinv_insert; [lia|done| |exact I3]. intros f [= <-].
    split; [done|]. split; [done|]. split; [|by intros v [= <-]]. unfold find_reader in *. by rewrite Hrd'.
Qed.

Lemma new_file_inv ino len flags t r t' : new_file_handle ino len flags t = Some (r, t') -> TReady t -> TInv t'.
Proof.
  destruct t as [hs next dm]. intros H [HI Hn]. cbn in Hn. destruct (tinv_allocate _ _ _ _ Hn HI) as (Ea & I1 & Hf & Hr & Hp).
  unfold new_file_handle in H. rewrite bind_run, Ea, bind_run in H.
  destruct (open_handle _ _ _ _ _) as [[r1 s1]|] eqn:E; [|done].
  pose proof (open_handle_inv ino next len flags hs (next + 1) dm r1 s1 ltac:(lia) (Hf ino) (Hr ino) I1 E) as Ho.
  destruct r1; by injection H as <- <-.
Qed.
End invariant.

(** ** The operations of the front end *)

(** Step through a request: each call keeps the invariant by a hint. *)
Ltac keep :=
  repeat first
    [ apply op_keeps_bind; [|intros ?]
    | progress unfold now, invalidate_length, find_handle_or, file_handle_or, lock_handle, get_length
    | match goal with |- keeps _ (match ?x with _ => _ end) => destruct x end
    | match goal with |- keeps _ (if ?x then _ else _) => destruct x end
    | progress autounfold with kiseki
    | solve [eauto 6 with kiseki] ].

Section front_end.
Context `{L : Layout} `{R : RangeMapOps Slice} `{RV : RangeMapOps VirtualSlice} `{K : KVStore} `{C : MetaCodec}.
Variable ws : nat -> World.

#[local] Instance thms_client : MetaClient EngM := engine_client ws.
#[local] Instance thms_reader : MetaReader EngM := engine_reader ws.

Definition VInv (v : KisekiVFS) : Prop := TInv (v_table v).
Definition VReady (v : KisekiVFS) : Prop := TReady (v_table v).

Lemma on_table_keeps {A} (m : opr (HandleTable (M:=EngM)) A) : keeps TInv m -> keeps VInv (on_table m).
Proof.
  intros Hm v r v' H Hr HI. unfold on_table in H. destruct (m (v_table v)) as [[r1 t1]|] eqn:E; [|done].
  injection H as <- <-. by eapply Hm.
Qed.

Lemma on_dm_keeps {A} (m : opr (DataManager (M:=EngM)) A) : stays m -> keeps VInv (on_dm m).
Proof. intros Hm. by apply on_table_keeps, stays_keeps. Qed.

Lemma meta_stays {A} (f : World -> Engine.eng A) : stays (fun dm =>
  let '(r, m) := em_run ws f (dm_meta dm) in Some (map_err VMeta r, set_deps (dm_pool dm) (dm_cache dm) m dm)).
Proof. intros dm r dm' H. destruct (em_run ws f (dm_meta dm)) as [r1 m1]. injection H as <- <-. apply same_deps. Qed.

Lemma meta_keeps {A} (f : World -> Engine.eng A) : keeps VInv (meta ws f).
Proof. apply on_dm_keeps, meta_stays. Qed.

Lemma upd_handle_keeps ino fh (f : FileHandle -> FileHandle) :
  (forall h, handle_shape (HFile (f h)) = handle_shape (HFile h)) -> keeps VInv (upd_handle ino fh f).
Proof.
  intros Hf. apply keeps_modify. intros [p h n m [hs next dm]] HI. apply tinv_alter; [|exact HI]. intros [x|]; [apply Hf|done].
Qed.

Lemma set_dir_keeps ino fh f : keeps VInv (set_dir ino fh f).
Proof. apply keeps_modify. intros [p h n m [hs next dm]] HI. apply tinv_alter; [|exact HI]. by intros [x|]. Qed.

Lemma read_lock_shape ctx h : handle_shape (HFile (default h (read_lock ctx h))) = handle_shape (HFile h).
Proof. unfold read_lock. by case_match. Qed.
Lemma write_lock_shape ctx h : handle_shape (HFile (default h (write_lock ctx h))) = handle_shape (HFile h).
Proof. unfold write_lock. by repeat case_match. Qed.
Lemma ofd_shape o h : handle_shape (HFile (try_set_ofd_owner o h)) = handle_shape (HFile h).
Proof. unfold try_set_ofd_owner. by case_match. Qed.

Lemma modified_keeps f : keeps VInv (op_modify (fun v => set_modified (f v) v)).
Proof. by apply keeps_modify. Qed.

Hint Resolve on_dm_keeps meta_keeps set_dir_keeps read_lock_shape write_lock_shape ofd_shape modified_keeps
  upd_handle_keeps writer_finish_stays writer_sync_stays writer_write_stays direct_flush_stays reader_read_stays
  modify_stays truncate_reader_same set_length_same on_table_keeps release_keeps : kiseki.

Lemma update_length_keeps ino attr : keeps VInv (try_update_file_reader_length ino attr).
Proof. unfold try_update_file_reader_length. keep. Qed.
Hint Resolve update_length_keeps : kiseki.

Lemma lock_all_keeps ctx ino fh hs : keeps VInv (lock_all ctx ino fh hs).
Proof. induction hs as [|h hs IH]; cbn; keep. Qed.
Hint Resolve lock_all_keeps : kiseki.

Lemma truncate_keeps io ctx ino size fh : keeps VInv (v_truncate ws io ctx ino size fh).
Proof. unfold v_truncate. keep. Qed.
Hint Resolve truncate_keeps : kiseki.

Lemma field_keeps {A} flags flag (x : option A) set attr : keeps VInv (field flags flag x set attr).
Proof. unfold field. keep. Qed.
Lemma time_field_keeps flags f1 f2 x set attr : keeps VInv (time_field ws flags f1 f2 x set attr).
Proof. unfold time_field. keep. Qed.
Hint Resolve field_keeps time_field_keeps : kiseki.

Lemma v_set_attr_keeps io ctx ino flags at_ mt mode uid gid size fh ff :
  keeps VInv (v_set_attr ws io ctx ino flags at_ mt mode uid gid size fh ff).
Proof. unfold v_set_attr. keep. Qed.

Lemma read_keeps io ctx ino fh off size : keeps VInv (v_read ws io ctx ino fh off size).
Proof. unfold v_read. keep. Qed.
Lemma write_keeps io ctx ino fh off data : keeps VInv (v_write io ctx ino fh off data).
Proof. unfold v_write. keep. Qed.
Lemma flush_keeps io ctx ino fh owner : keeps VInv (v_flush ws io ctx ino fh owner).
Proof. unfold v_flush. keep. Qed.
Lemma fsync_keeps io ctx ino fh : keeps VInv (v_fsync ws io ctx ino fh).
Proof. unfold v_fsync. keep. Qed.
Lemma v_release_keeps io ctx ino fh : keeps VInv (v_release ws io ctx ino fh).
Proof. unfold v_release. keep. Qed.

(** Until a handle is opened, the number of the next one stays. *)
Definition VAt (n : Z) (v : KisekiVFS) : Prop := VInv v /\ ht_next_fh (v_table v) = n.

Lemma on_dm_at {A} n (m : opr (DataManager (M:=EngM)) A) : stays m -> keeps (VAt n) (on_dm m).
Proof.
  intros Hm v r v' H Hr [HI Hn]. split; [by eapply on_dm_keeps|]. rewrite <- Hn. unfold on_dm, on_table, ht_on_dm in H.
  destruct (m (ht_dm (v_table v))) as [[r1 dm1]|]; [|done]. by injection H as <- <-.
Qed.

Lemma meta_at {A} n (f : World -> Engine.eng A) : keeps (VAt n) (meta ws f).
Proof. apply on_dm_at, meta_stays. Qed.

Lemma update_length_at n ino attr : keeps (VAt n) (try_update_file_reader_length ino attr).
Proof.
  unfold try_update_file_reader_length, get_length. case_match; [|auto with kiseki].
  apply op_keeps_bind; [auto with kiseki|]. intros len. apply op_keeps_bind; [|auto with kiseki].
  case_match; [|auto with kiseki]. apply on_dm_at, modify_stays. intros dm. apply truncate_reader_same.
Qed.

Definition opens {A} (m : opr KisekiVFS A) : Prop :=
  forall v r v', m v = Some (r, v') -> r <> Panic -> VReady v -> VInv v'.

Lemma opens_bind {A B} (m : opr KisekiVFS A) (f : A -> opr KisekiVFS B) :
  (forall n, keeps (VAt n) m) -> (forall a, opens (f a)) -> opens (m ≫= f).
Proof.
  intros Hm Hf v r v' H Hr [HI Hn]. rewrite bind_run in H. destruct (m v) as [[r1 v1]|] eqn:E; [|done].
  assert (Hk : r1 <> Panic -> VAt (ht_next_fh (v_table v)) v1) by (intros Hp; by eapply Hm).
  destruct r1 as [a|e|]; [|injection H as <- <-; by apply Hk|by injection H as <- <-].
  destruct Hk as [HI1 Hn1]; [done|]. eapply Hf; [exact H|done|]. split; [exact HI1|]. by rewrite Hn1.
Qed.

Lemma opens_then {A B} (m : opr KisekiVFS A) (f : A -> opr KisekiVFS B) :
  opens m -> (forall a, keeps VInv (f a)) -> opens (m ≫= f).
Proof.
  intros Hm Hf v r v' H Hr Hv. rewrite bind_run in H. destruct (m v) as [[r1 v1]|] eqn:E; [|done].
  destruct r1 as [a|e|]; [|injection H as <- <-; by eapply Hm|by injection H as <- <-].
  eapply Hf; [exact H|done|]. by eapply Hm.
Qed.

Lemma opens_table {A} (m : opr (HandleTable (M:=EngM)) A) :
  (forall t r t', m t = Some (r, t') -> TReady t -> TInv t') -> opens (on_table m).
Proof.
  intros Hm v r v' H _ Hv. unfold on_table in H. destruct (m (v_table v)) as [[r1 t1]|] eqn:E; [|done].
  injection H as <- <-. by eapply Hm.
Qed.

Lemma keeps_opens {A} (m : opr KisekiVFS A) : keeps VInv m -> opens m.
Proof. intros Hm v r v' H Hr [HI _]. by eapply Hm. Qed.

Ltac opn :=
  repeat first
    [ apply opens_bind; [intros ?; autounfold with kiseki; solve [auto using meta_at, update_length_at with kiseki
        | case_match; auto using meta_at with kiseki] | intros ?]
    | match goal with |- opens (match ?x with _ => _ end) => destruct x end
    | apply opens_then; [|intros ?; auto with kiseki] ].

Lemma open_opens ctx ino flags : opens (v_open ws ctx ino flags).
Proof. unfold v_open. opn. apply opens_table. intros t r t'. apply new_file_inv. Qed.
Lemma create_opens ctx parent name mode umask flags : opens (v_create ws ctx parent name mode umask flags).
Proof. unfold v_create. opn. apply opens_table. intros t r t'. apply new_file_inv. Qed.
Lemma open_dir_opens ctx ino flags : opens (v_open_dir ws ctx ino flags).
Proof. unfold v_open_dir. opn. apply opens_table. intros t r t'. apply new_dir_inv. Qed.

(** *** Every request, in any order *)

Inductive VOp :=
| OLookup (ctx : FuseContext) (parent : Ino) (name : string)
| OGetAttr (ino : Ino)
| OSetAttr (ctx : FuseContext) (ino : Ino) (flags : Z) (atime mtime : option TimeOrNow)
    (mode uid gid size fh file_flags : option Z)
| OOpenDir (ctx : FuseContext) (ino : Ino) (flags : Z)
| OReadDir (ctx : FuseContext) (ino : Ino) (fh offset : Z) (plus : bool)
| OMkdir (ctx : FuseContext) (parent : Ino) (name : string) (mode umask : Z)
| ORmdir (ctx : FuseContext) (parent : Ino) (name : string)
| OReleaseDir (ino : Ino) (fh : Z)
| OMknod (ctx : FuseContext) (parent : Ino) (name : string) (mode umask rdev : Z)
| OCreate (ctx : FuseContext) (parent : Ino) (name : string) (mode umask flags : Z)
| OLink (ctx : FuseContext) (ino parent : Ino) (name : string)
| OUnlink (ctx : FuseContext) (parent : Ino) (name : string)
| OSymlink (ctx : FuseContext) (parent : Ino) (name target : string)
| OReadlink (ino : Ino)
| ORename (ctx : FuseContext) (parent : Ino) (name : string) (new_parent : Ino) (new_name : string) (flags : Z)
| OOpen (ctx : FuseContext) (ino : Ino) (flags : Z)
| ORead (ctx : FuseContext) (ino : Ino) (fh offset size : Z)
| OWrite (ctx : FuseContext) (ino : Ino) (fh offset : Z) (data : bytes)
| OFlush (ctx : FuseContext) (ino : Ino) (fh owner : Z)
| OFsync (ctx : FuseContext) (ino : Ino) (fh : Z)
| OFallocate (ino : Ino) (fh offset length mode : Z)
| ORelease (ctx : FuseContext) (ino : Ino) (fh : Z)
| OStatFs.

Definition v_run (io : VEnv) (op : VOp) : vfs () :=
  let done {A} (m : vfs A) : vfs () := m ≫= (fun _ => mret ()) in
  match op with
  | OLookup ctx p n => done (v_lookup ws ctx p n)
  | OGetAttr i => done (v_get_attr ws i)
  | OSetAttr ctx i fl a m mo u g s f ff => done (v_set_attr ws io ctx i fl a m mo u g s f ff)
  | OOpenDir ctx i fl => done (v_open_dir ws ctx i fl)
  | OReadDir ctx i fh off plus => done (v_read_dir ws ctx i fh off plus)
  | OMkdir ctx p n mo um => done (v_mkdir ws ctx p n mo um)
  | ORmdir ctx p n => v_rmdir ws ctx p n
  | OReleaseDir i fh => v_release_dir ws io i fh
  | OMknod ctx p n mo um rd => done (v_mknod ws ctx p n mo um rd)
  | OCreate ctx p n mo um fl => done (v_create ws ctx p n mo um fl)
  | OLink ctx i p n => done (v_link ws ctx i p n)
  | OUnlink ctx p n => v_unlink ws ctx p n
  | OSymlink ctx p n t => done (v_symlink ws ctx p n t)
  | OReadlink i => done (v_readlink ws i)
  | ORename ctx p n p' n' fl => v_rename ws ctx p n p' n' fl
  | OOpen ctx i fl => done (v_open ws ctx i fl)
  | ORead ctx i fh off sz => done (v_read ws io ctx i fh off sz)
  | OWrite ctx i fh off d => done (v_write io ctx i fh off d)
  | OFlush ctx i fh o => v_flush ws io ctx i fh o
  | OFsync ctx i fh => v_fsync ws io ctx i fh
  | OFallocate i fh off len mo => v_fallocate ws i fh off len mo
  | ORelease ctx i fh => v_release ws io ctx i fh
  | OStatFs => done (v_stat_fs ws)
  end.

(** A request that did not end the program, or the start of the shutdown, which
    closes the admission of new writers; fewer than 2^64 handles were ever opened. *)
Inductive v_step : KisekiVFS -> KisekiVFS -> Prop :=
| vs_op io op v r v' :
    v_run io op v = Some (r, v') -> r <> Panic -> ht_next_fh (v_table v) < 2 ^ 64 - 1 -> v_step v v'
| vs_drain v :
    v_step v (set_table (mkHT (ht_handles (v_table v)) (ht_next_fh (v_table v)) (set_accepting false (ht_dm (v_table v)))) v).

Lemma v_run_opens io op : opens (v_run io op).
Proof.
  pose proof open_opens as H1. pose proof create_opens as H2. pose proof open_dir_opens as H3.
  destruct op; cbn [v_run];
    first [apply opens_then; [by auto|intros ?; apply keeps_ret]
          |apply keeps_opens; try (apply op_keeps_bind; [|intros ?; apply keeps_ret]);
           auto using v_set_attr_keeps, read_keeps, write_keeps, flush_keeps, fsync_keeps, v_release_keeps with kiseki].
  all: unfold v_lookup, v_get_attr, v_read_dir, v_mkdir, v_rmdir, v_release_dir, v_mknod, v_link, v_unlink, v_symlink,
    v_readlink, v_rename, v_fallocate, v_stat_fs; keep.
Qed.

Lemma v_step_inv v v' : v_step v v' -> VInv v -> VInv v'.
Proof.
  intros [io op s r s' H Hr Hn|s] HI.
  - by eapply v_run_opens.
  - destruct s as [p h n m [hs next dm]]. by eapply tinv_same; [|exact HI]; destruct (dm_same_refl dm).
Qed.

Lemma v_steps_inv v v' : rtc v_step v v' -> VInv v -> VInv v'.
Proof. induction 1 as [|x y z Hs _ IH]; [done|]. intros HI. by eapply IH, v_step_inv. Qed.

Lemma vfs_new_inv prefix hide nw len cs m c p : VInv (vfs_new prefix hide nw len (data_manager_new cs m c p)).
Proof.
  assert (Hf : forall i k, find_handle (M:=EngM) i k (handle_table_new (data_manager_new cs m c p)) = None).
  { intros i k. unfold find_handle. cbn. by rewrite lookup_empty. }
  split; cbn.
  - lia.
  - intros i k h H. by rewrite Hf in H.
  - intros i k f H. by rewrite Hf in H.
  - intros i w H. by rewrite lookup_empty in H.
  - intros w fw H. by rewrite lookup_empty in H.
  - intros i k fr H. unfold find_reader in H. cbn in H. by setoid_rewrite lookup_empty in H.
Qed.

(** C8: After any sequence of requests to the front end, whatever they return,
    every open file handle has its reader in the table; every handle opened for
    writing holds the one writer of its inode, and that writer counts exactly the
    handles that hold it.  A writer stays in the table only while a handle holds
    it, so the last close retires it. *)
Theorem handles_account prefix hide nw len cs m c p v :
  rtc v_step (vfs_new prefix hide nw len (data_manager_new cs m c p)) v ->
  let t := v_table v in let dm := ht_dm t in
  (forall ino fh f, find_handle ino fh t = Some (HFile f) ->
     is_Some (find_reader ino fh dm) /\
     forall w, fhd_writer f = Some w -> exists fw, dm_writers dm !! ino = Some w /\ dm_heap dm !! w = Some fw /\
       fw_inode fw = ino /\ fw_ref_count fw = refs w (handles_of ino t)) /\
  (forall ino w, dm_writers dm !! ino = Some w ->
     exists fh f, find_handle ino fh t = Some (HFile f) /\ fhd_writer f = Some w).
Proof.
  intros Hs. pose proof (v_steps_inv _ _ Hs (vfs_new_inv _ _ _ _ _ _ _ _)) as [_ _ I3 I4 _ _]. cbn zeta. split.
  - intros ino fh f Hf. destruct (I3 ino fh f Hf) as (_ & _ & Hr & Hw). split; [done|]. intros w Hf'.
    destruct (I4 ino w (Hw w Hf')) as (fw & F1 & F2 & F3 & _). exists fw. rewrite held_None, Z.add_0_r in F3. auto.
  - intros ino w Hw. destruct (I4 ino w Hw) as (fw & _ & _ & _ & F4). rewrite held_None, Z.add_0_r in F4.
    apply refs_some in F4 as (fh & h & Hh & Hhw). rewrite <- find_handles_of in Hh. destruct h as [f|]; [|done]. eauto.
Qed.
End front_end.
