(* ===== verification/FileFlow.v ===== *)
(** * A file through its writer and its readers

    From a request that writes to a file to one that reads it: the write fills a
    slice writer, the read first flushes the writer ([direct_flush]), which
    publishes the slice, and then reads the chunks.  [vfs_holds f len ino] says that
    the file is [f]; write and read requests refine it, with one write since the last
    flush.  [overlapping_writes_reordered] shows that two writes that share a slice
    writer with a third one in between do not: the older one wins where they overlap. *)

From S2P Require Import Prelude Common Types Bincode RangeMap Slice SliceKey Keys KV Meta OpenFiles Backend FsModel.
From S2P Require Import Namespace Reach RefStore NsThms Chunks IdTable Engine Records EngineInv EngineThms Pool SliceBuffer SliceBufferThms.
From S2P Require Import SliceIO FileCache FileCacheThms Writer Staging WriterThms WriterFlow Reader ReaderThms DataPath InternalNodes Handles Vfs HandleThms.
Open Scope Z_scope.

(** ** One slice writer *)

(** Nothing waits to be written. *)
Definition fw_clean (fw : FileWriter) : Prop :=
  fw_chunks fw = ∅ /\ fw_queue fw = [] /\ fw_closed fw = false /\ fw_error fw = None.

(** One slice writer waits: dirty, or full and handed to the flusher. *)
Definition fw_one (ci : Z) (sw : SliceWriter) (fw : FileWriter) : Prop :=
  fw_chunks fw = {[ci := [sw]]} /\ sw_chunk_index sw = ci /\ fw_closed fw = false /\ fw_error fw = None /\
  (sw_state sw = SwDirty /\ fw_queue fw = [] \/ sw_state sw = SwFlushing /\ fw_queue fw = [FlushFull ci (sw_seq sw)]).

(** The data lies in one chunk. *)
Definition one_chunk `{Layout} (off : Z) (data : bytes) : Prop :=
  0 <= off /\ 0 < zlen data /\ off / CHUNK_SIZE = (off + zlen data - 1) / CHUNK_SIZE.

(** No bulk flush: the writes look sequential, or there is less than a block. *)
Definition no_bulk `{Layout} (off : Z) (data : bytes) (fw : FileWriter) : Prop :=
  is_seq (monitor_write_at off (zlen data) (fw_pattern fw)) = true \/ zlen data < BLOCK_SIZE.

Section one.
Context `{L : Layout} {M : Type} `{MC : MetaClient M}.

Lemma locate_one off data :
  one_chunk off data ->
  locate_chunk CHUNK_SIZE off (zlen data) = [mkCtx off (off / CHUNK_SIZE) (off `mod` CHUNK_SIZE) (zlen data) 0].
Proof.
  intros (Ho & Hd & Hc). pose proof chunk_size_pos as HC. unfold locate_chunk, cal_chunk_idx, cal_chunk_offset.
  rewrite <- Hc, Z.sub_diag, Z.add_0_l. unfold seqZ. cbn [seq fmap list_fmap locate_loop Z.to_nat Pos.to_nat Pos.iter_op].
  change (Z.to_nat 1) with 1%nat. cbn [seq fmap list_fmap locate_loop].
  assert (Hn : Z.min (CHUNK_SIZE - off `mod` CHUNK_SIZE) (zlen data) = zlen data).
  { assert (HC0 : CHUNK_SIZE <> 0) by lia.
    pose proof (Z.div_mod off CHUNK_SIZE HC0). pose proof (Z.div_mod (off + zlen data - 1) CHUNK_SIZE HC0).
    pose proof (Z.mod_pos_bound (off + zlen data - 1) CHUNK_SIZE HC). nia. }
  rewrite Hn. do 2 f_equal; lia.
Qed.

Lemma one_chunk_fits off data :
  one_chunk off data -> 0 <= off `mod` CHUNK_SIZE < CHUNK_SIZE /\ off `mod` CHUNK_SIZE + zlen data <= CHUNK_SIZE.
Proof.
  intros (Ho & Hd & Hc). pose proof chunk_size_pos as HC. assert (HC0 : CHUNK_SIZE <> 0) by lia.
  pose proof (Z.div_mod off CHUNK_SIZE HC0). pose proof (Z.div_mod (off + zlen data - 1) CHUNK_SIZE HC0).
  pose proof (Z.mod_pos_bound (off + zlen data - 1) CHUNK_SIZE HC). pose proof (Z.mod_pos_bound off CHUNK_SIZE HC). nia.
Qed.

Lemma get_sw_one ci sw fw : fw_chunks fw = {[ci := [sw]]} -> get_sw ci (sw_seq sw) fw = Some sw.
Proof. intros H. unfold get_sw. rewrite H, lookup_singleton_eq. cbn. by rewrite decide_True. Qed.

Lemma put_sw_one ci sw sw' fw :
  fw_chunks fw = {[ci := [sw]]} -> sw_chunk_index sw' = ci -> sw_seq sw' = sw_seq sw ->
  put_sw sw' fw = set_chunks {[ci := [sw']]} fw.
Proof.
  intros H Hc Hs. unfold put_sw. rewrite H, Hc. f_equal. rewrite alter_singleton_eq. cbn. by rewrite decide_True.
Qed.

(** A write into a new slice writer. *)
Lemma write_new ci seq pos data p others n p' sw' :
  pool_wf p others -> hp_page_size p = PAGE_SIZE -> 0 < zlen data ->
  sw_write_at SwIdle 0 data p (slice_writer_new ci SwWriting seq pos) = (Ok n, p', sw') ->
  n = zlen data /\ sw_chunk_index sw' = ci /\ sw_seq sw' = seq /\ sw_offset_of_chunk sw' = pos /\ sw_slice_id sw' = 0 /\
  sw_state sw' = SwDirty /\ sb_length (sw_buffer sw') = n /\ sb_flushed (sw_buffer sw') = 0 /\ n <= CHUNK_SIZE.
Proof.
  intros Hp Hs Hd H. destruct (new_buffer_wf p others Hp Hs) as [Hw _]. unfold sw_write_at in H. cbn [slice_writer_new sw_buffer] in H.
  destruct (write_at_effect p slice_buffer_new others 0 data Hw ltac:(lia)) as (r & p1 & sb1 & E & _ & _ & Hr).
  rewrite E in H. destruct r as [w|e|]; [|by injection H|done].
  destruct Hr as (-> & Hb & Hf & Hlen & _). rewrite (proj2 (Z.eqb_neq _ _)) in H by lia.
  unfold cas_state in H. cbn in H. injection H as <- <- <-. cbn. rewrite (proj2 (Z.eqb_neq _ _)) in Hlen by lia.
  cbn in Hlen. specialize (Hb ltac:(lia)). cbn in Hf. split_and!; try done; lia.
Qed.

(** The flush request of the write: none, or a full flush of a full chunk. *)
Lemma request_new sw n seq :
  sw_state sw = SwDirty -> sb_length (sw_buffer sw) = n -> sb_flushed (sw_buffer sw) = 0 -> 0 < n <= CHUNK_SIZE ->
  seq = true \/ n < BLOCK_SIZE ->
  make_flush_req seq false sw = (None, sw) \/
  make_flush_req seq false sw = (Some (FlushFull (sw_chunk_index sw) (sw_seq sw)), set_state SwFlushing sw).
Proof.
  intros Hst Hl Hf Hn Hq. pose proof chunk_size_u32. unfold make_flush_req. rewrite Hst, Hl, Hf.
  rewrite cas_from by done. destruct (n =? CHUNK_SIZE); [by right|]. left.
  unfold u64_wrap. rewrite Z.sub_0_r, Z.mod_small by lia.
  destruct Hq as [->|Hq]; [by rewrite andb_false_r|]. by rewrite (proj2 (Z.leb_gt _ _)) by lia.
Qed.

Lemma write_clean ids off data p others fw n p' fw' :
  pool_wf p others -> hp_page_size p = PAGE_SIZE ->
  fw_clean fw -> one_chunk off data -> no_bulk off data fw -> fw_write ids off data p fw = (Ok n, p', fw') ->
  let ci := off / CHUNK_SIZE in
  exists sw1 sw, sw_write_at SwIdle 0 data p (slice_writer_new ci SwWriting (ids 0%nat) (off `mod` CHUNK_SIZE)) = (Ok n, p', sw1) /\
    (sw = sw1 \/ sw = set_state SwFlushing sw1) /\ fw_one ci sw fw' /\ fw_inode fw' = fw_inode fw /\
    fw_length fw' = Z.max (fw_length fw) (off + n).
Proof.
  intros Hp Hps (Hc & Hq & Hcl & He) Hone Hbulk H ci. pose proof Hone as (Ho & Hd & _). unfold fw_write in H.
  rewrite (proj2 (Z.eqb_neq _ _)) in H by lia. unfold take_flush_error in H. rewrite He, locate_one in H by done.
  cbn [fw_find] in H. unfold chunk_find in H. cbn [set_pattern set_error fw_chunks] in H. rewrite Hc in H.
  cbn [cx_chunk_idx cx_chunk_offset] in H. fold ci in H. rewrite lookup_empty in H. cbn [default reverse find_loop] in H.
  change (reverse []) with ([] : list SliceWriter) in H. cbn [find_loop] in H. change (reverse []) with ([] : list SliceWriter) in H.
  unfold send_all in H. cbn [foldl] in H.
  set (sw0 := slice_writer_new ci SwWriting (ids 0%nat) (off `mod` CHUNK_SIZE)) in *.
  cbn [set_chunks set_slice_cnt fw_chunks] in H.
  assert (Hchunks : alter (bt_insert sw0) ci (<[ci := []]> (∅ : gmap Z (list SliceWriter))) = {[ci := [sw0]]}).
  { rewrite alter_insert_eq. done. }
  rewrite Hchunks in H. clear Hchunks.
  match type of H with context [set_chunks {[ci := [sw0]]} ?f] => set (fw1 := set_chunks {[ci := [sw0]]} f) in * end.
  assert (Hf1 : fw_chunks fw1 = {[ci := [sw0]]} /\ fw_queue fw1 = [] /\ fw_closed fw1 = false /\ fw_error fw1 = None /\
    fw_inode fw1 = fw_inode fw /\ fw_length fw1 = fw_length fw /\ fw_pattern fw1 = monitor_write_at off (zlen data) (fw_pattern fw))
    by (split_and!; done).
  clearbody fw1. destruct Hf1 as (F1 & F2 & F3 & F4 & F5 & F6 & F7). cbn [write_loop] in H.
  cbn [cx_chunk_idx cx_chunk_offset cx_need_write_len cx_buf_start_at] in H. rewrite (get_sw_one ci sw0 fw1 F1) in H.
  replace (off `mod` CHUNK_SIZE - sw_offset_of_chunk sw0) with 0 in H by (cbn; lia).
  replace (sublist 0 (zlen data) data) with data in H by (unfold sublist, zlen; rewrite Nat2Z.id, drop_0; by rewrite take_ge).
  destruct (sw_write_at SwIdle 0 data p sw0) as [[r1 p1] sw1] eqn:Ew. destruct r1 as [w|e|]; [|done..].
  destruct (write_new ci _ _ data p others w p1 sw1 Hp Hps Hd Ew) as (Wn & W1 & W2 & W3 & W4 & W5 & W6 & W7 & W8).
  rewrite (put_sw_one ci sw0 sw1 fw1 F1 W1 W2) in H. cbn [fw_pattern set_chunks] in H. rewrite F7 in H.
  destruct (request_new sw1 w (is_seq (monitor_write_at off (zlen data) (fw_pattern fw))) W5 W6 W7 ltac:(lia)) as [E|E];
    [subst w; exact Hbulk|..]; rewrite E in H.
  - rewrite (put_sw_one ci sw1 sw1) in H by done. injection H as <- <- <-. exists sw1, sw1. split; [by rewrite Z.add_0_l|].
    split; [by left|]. split; [|by cbn; rewrite F6, Z.add_0_l]. split_and!; try done. by left.
  - rewrite (put_sw_one ci sw1 (set_state SwFlushing sw1)) in H by done. unfold send_req in H. cbn [set_chunks fw_closed] in H.
    rewrite F3 in H. injection H as <- <- <-. exists sw1, (set_state SwFlushing sw1). split; [by rewrite Z.add_0_l|].
    split; [by right|]. split; [|by cbn; rewrite F6, Z.add_0_l]. split_and!; try done. right. cbn. rewrite F2, W1. done.
Qed.

Lemma round_one ci sw fw :
  fw_chunks fw = {[ci := [sw]]} -> fw_error fw = None -> finish_round fw = chunk_finish ci fw /\
  has_flush_error fw = false /\ all_finished fw = false.
Proof.
  intros Hc He. unfold finish_round. rewrite Hc, dom_singleton_L, elements_singleton. split; [done|].
  unfold has_flush_error. rewrite He. split; [done|]. unfold all_finished. apply bool_decide_eq_false. rewrite Hc.
  rewrite map_Forall_singleton. done.
Qed.

Lemma set_state_same sw : set_state (sw_state sw) sw = sw.
Proof. by destruct sw. Qed.

Lemma chunks_ok_one ci sw fw : fw_chunks fw = {[ci := [sw]]} -> sw_chunk_index sw = ci -> chunks_ok fw.
Proof.
  intros Hc Hi c l H. rewrite Hc in H. apply lookup_singleton_Some in H as [<- <-]. split; [by constructor|apply NoDup_singleton].
Qed.

(** The first round hands the slice writer to the flusher. *)
Lemma round_hands ci sw fw :
  fw_one ci sw fw ->
  chunk_finish ci fw = set_queue [FlushFull ci (sw_seq sw)] (set_chunks {[ci := [set_state SwFlushing sw]]} fw).
Proof.
  intros (Hc & Hi & Hcl & He & Hst). assert (Hn : has_flush_error fw = false) by (unfold has_flush_error; by rewrite He).
  rewrite chunk_finish_open; [|by eapply chunks_ok_one|exact Hn|exact Hcl]. rewrite Hc, lookup_singleton_eq. unfold finish_list.
  rewrite filter_cons_True by (unfold not_done; destruct Hst as [[-> _]|[-> _]]; done). rewrite filter_nil.
  cbn [fmap list_fmap omap list_omap]. rewrite insert_singleton_eq. unfold finish_step, finish_req.
  destruct Hst as [[Hs ->]|[Hs ->]]; rewrite Hs; cbn; [by rewrite Hi|].
  by rewrite <- Hs, set_state_same.
Qed.

(** The second one takes a published slice writer away. *)
Lemma round_removes ci sw fw :
  fw_chunks fw = {[ci := [sw]]} -> sw_chunk_index sw = ci -> sw_state sw = SwDone -> fw_closed fw = false -> fw_error fw = None -> fw_queue fw = [] ->
  chunk_finish ci fw = set_queue [] (set_chunks {[ci := []]} fw).
Proof.
  intros Hc Hi Hs Hcl He Hq. assert (Hn : has_flush_error fw = false) by (unfold has_flush_error; by rewrite He).
  rewrite chunk_finish_open; [|by eapply chunks_ok_one|exact Hn|exact Hcl]. rewrite Hc, lookup_singleton_eq. unfold finish_list. rewrite filter_cons_False by (unfold not_done; naive_solver).
  rewrite filter_nil. cbn [fmap list_fmap omap list_omap]. unfold finish_req. rewrite Hs, Hq. cbn.
  by rewrite insert_singleton_eq.
Qed.

Lemma finish_one fuel io (D : Deps (M:=M)) fw ci sw r D1 sw1 :
  fw_one ci sw fw -> flush_and_commit io (fw_inode fw) D (set_state SwFlushing sw) = (r, D1, sw1) ->
  exists fw', finish_local (S (S (S fuel))) io D fw =
      Some (match r with Ok _ => Ok () | Err e => Err e | Panic => Panic end, D1, fw') /\
    (is_ok r = true -> fw_clean fw' /\ fw_inode fw' = fw_inode fw /\ fw_length fw' = fw_length fw) /\
    (forall e, r = Err e -> fw_chunks fw' = {[ci := [set_state SwDirty sw1]]} /\ fw_inode fw' = fw_inode fw).
Proof.
  intros Hone Hf. pose proof Hone as (Hc & Hi & Hcl & He & Hst).
  destruct (commit_state io _ D (set_state SwFlushing sw) r D1 sw1 eq_refl Hf) as (Hid & Hdone & Herr). cbn in Hid. injection Hid as Hidc Hids.
  unfold finish_local, take_flush_error. rewrite He. cbn [fw_chunks set_error].
  rewrite bool_decide_false by (rewrite Hc; apply map_non_empty_singleton).
  assert (Hone' : fw_one ci sw (set_error None fw)) by done. set (fw0 := set_error None fw) in *.
  assert (E0 : fw_inode fw0 = fw_inode fw /\ fw_length fw0 = fw_length fw) by done. clearbody fw0.
  pose proof Hone' as (Hc0 & _ & Hcl0 & He0 & _).
  destruct (round_one ci sw fw0 Hc0 He0) as (R1 & R2 & R3). cbn [finish_chunks]. rewrite R2, R3, R1. cbn [orb].
  rewrite (round_hands ci sw fw0 Hone').
  set (fw2 := set_chunks {[ci := [set_state SwFlushing sw]]} fw0).
  cbn [fw_queue set_queue]. change (set_queue [] (set_queue [FlushFull ci (sw_seq sw)] fw2)) with (set_queue [] fw2).
  cbn [run_queue run_req].
  rewrite (get_sw_one ci (set_state SwFlushing sw) (set_queue [] fw2) eq_refl : get_sw ci (sw_seq sw) _ = _).
  change (fw_inode (set_queue [] fw2)) with (fw_inode fw0). rewrite (proj1 E0), Hf.
  destruct r as [sid|e|].
  - unfold flush_result. rewrite (put_sw_one ci (set_state SwFlushing sw) sw1) by (done || congruence).
    match goal with |- context [Ok (set_slice_cnt ?n ?f)] => set (fw3 := set_slice_cnt n f) in * end.
    assert (F3 : fw_chunks fw3 = {[ci := [sw1]]} /\ fw_closed fw3 = false /\ fw_error fw3 = None /\ fw_queue fw3 = [] /\
      fw_inode fw3 = fw_inode fw /\ fw_length fw3 = fw_length fw) by (cbn; by rewrite Hcl0, He0, (proj1 E0), (proj2 E0)).
    clearbody fw3. destruct F3 as (G1 & G2 & G3 & G4 & G5 & G6).
    destruct (round_one ci sw1 fw3 G1 G3) as (S1 & S2 & S3). rewrite S2, S3, S1. cbn [orb].
    rewrite (round_removes ci sw1 fw3 G1 ltac:(congruence) (Hdone eq_refl) G2 G3 G4). cbn [fw_queue set_queue run_queue].
    set (fw4 := set_queue [] (set_queue [] (set_chunks {[ci := []]} fw3))).
    assert (Hfin : all_finished fw4 = true).
    { unfold all_finished. apply bool_decide_eq_true. cbn. by rewrite map_Forall_singleton. }
    destruct fuel; cbn [finish_chunks]; rewrite Hfin, orb_true_r; cbn; rewrite G3;
      (eexists; split; [done|]; split; [intros _; by split_and!|done]).
  - unfold flush_result. set (fw3 := put_sw _ (record_flush_error e _)).
    assert (G3 : fw_error fw3 = Some e /\ fw_chunks fw3 = {[ci := [set_state SwDirty sw1]]} /\ fw_inode fw3 = fw_inode fw).
    { unfold fw3, record_flush_error. cbn [set_queue fw2 set_chunks fw_error]. rewrite He0.
      unfold reset_after_flush_failure. rewrite cas_from by (by apply (Herr e)). cbn [snd].
      rewrite (put_sw_one ci (set_state SwFlushing sw)) by (done || (cbn; congruence)). split; [done|]. split; [done|]. apply E0. }
    destruct G3 as (G3 & G4 & G5).
    assert (H3 : has_flush_error fw3 = true) by (unfold has_flush_error; by rewrite G3).
    clearbody fw3. rewrite H3. cbn. rewrite G3. eexists. split; [done|]. split; [done|]. intros e0 _. by split.
  - cbn. eexists. split; [done|]. by split.
Qed.
End one.

(** ** The file behind a writer *)

Section flow.
Context `{L : Layout} `{R : RangeMapOps Slice} {HR : RangeMapLaws Slice} `{RV : RangeMapOps VirtualSlice}
  {HV : RangeMapLaws VirtualSlice} {M : Type} `{ML : MetaLog M}.

Abbreviation DM := (DataManager (M:=M)).

Definition deps_of (dm : DM) : Deps (M:=M) := mkDeps (dm_pool dm) (dm_cache dm) (dm_meta dm).

(** The published part of the file: [f] lists its bytes, no chunk before [len] is
    missing. *)
Record published (f : Z -> Byte.byte) (len ino w : Z) (dm : DM) (fw : FileWriter) (content : Z -> Z -> Byte.byte)
    (old : Z -> list Slice) (s : CacheSys) : Prop := {
  pb_writer : dm_writers dm !! ino = Some w;
  pb_heap : dm_heap dm !! w = Some fw;
  pb_inode : fw_inode fw = ino;
  pb_ino : 0 <= ino;
  pb_len : 0 <= len;
  pb_size : dm_chunk_size dm = CHUNK_SIZE;
  pb_data : data_ok s (mkData (dm_cache dm) (dm_mem dm));
  pb_meta : mv_ok (dm_meta dm);
  pb_slices : forall c, 0 <= c -> default [] (mv_slices (dm_meta dm) ino c) = old c;
  pb_dense : forall c, 0 <= c -> c * CHUNK_SIZE < len -> mv_slices (dm_meta dm) ino c = Some (old c);
  pb_ok : forall c, Forall (slice_ok content s) (old c);
  pb_bytes : forall x, 0 <= x -> file_byte content old x = f x
}.

(** Everything written was published. *)
Definition dm_clean (f : Z -> Byte.byte) (len ino w : Z) (dm : DM) : Prop :=
  exists fw content old s others, published f len ino w dm fw content old s /\ fw_clean fw /\ fw_length fw = len /\
    pool_wf (dm_pool dm) others /\ hp_page_size (dm_pool dm) = PAGE_SIZE.

(** One write of [data] at [off] waits in a slice writer. *)
Definition dm_pending (f : Z -> Byte.byte) (len ino w off : Z) (data : bytes) (dm : DM) : Prop :=
  exists fw content old s sw g, published f len ino w dm fw content old s /\
    fw_one (off / CHUNK_SIZE) sw fw /\ fw_length fw = Z.max len (off + zlen data) /\
    sw_offset_of_chunk sw = off `mod` CHUNK_SIZE /\ sw_slice_id sw = 0 /\ sb_length (sw_buffer sw) = zlen data /\
    (forall x, 0 <= x < zlen data -> g x = bget data x) /\ sw_good sw (dm_pool dm) g false s.

(** The file is [f], published or with its last write still waiting. *)
Definition dm_holds (f : Z -> Byte.byte) (len ino w : Z) (dm : DM) : Prop :=
  dm_clean f len ino w dm \/
  exists f0 len0 off data, dm_pending f0 len0 ino w off data dm /\ one_chunk off data /\ off <= len0 /\
    f = overwrite f0 off data /\ len = Z.max len0 (off + zlen data).

(** The flush of that write failed: what was published is unchanged, and the bytes are
    still in the slice writer, which a later flush takes up again. *)
Definition dm_failed (f : Z -> Byte.byte) (len ino w off : Z) (data : bytes) (dm : DM) : Prop :=
  exists fw content old s sw g b, published f len ino w dm fw content old s /\
    fw_chunks fw = {[off / CHUNK_SIZE := [sw]]} /\ sw_state sw = SwDirty /\
    sw_offset_of_chunk sw = off `mod` CHUNK_SIZE /\ sb_length (sw_buffer sw) = zlen data /\
    (forall x, 0 <= x < zlen data -> g x = bget data x) /\ sw_good sw (dm_pool dm) g b s.

(** *** Writing *)

Lemma good_state sw st p f b s : sw_good sw p f b s -> sw_good (set_state st sw) p f b s.
Proof. done. Qed.

Lemma write_pending io off data f len ino w dm fw n dm1 :
  dm_clean f len ino w dm -> dm_heap dm !! w = Some fw -> one_chunk off data -> no_bulk off data fw ->
  writer_write io w off data dm = Some (Ok n, dm1) ->
  n = zlen data /\ dm_pending f len ino w off data dm1 /\
  (fw_length <$> dm_heap dm1 !! w = Some (Z.max len (off + zlen data))) /\ dm_readers dm1 = dm_readers dm.
Proof.
  intros (fw' & content & old & s & others & P & Hcl & Hlen & Hpool & Hps) Hfw Hone Hbulk H.
  pose proof (pb_heap _ _ _ _ _ _ _ _ _ P) as E. rewrite Hfw in E. injection E as <-.
  unfold writer_write, on_writer in H. rewrite Hfw in H. cbn [d_pool d_cache d_meta] in H.
  destruct (fw_write (ve_ids io) off data (dm_pool dm) fw) as [[r p1] fw1] eqn:Ew. injection H as -> <-.
  destruct (write_clean _ off data _ others fw n p1 fw1 Hpool Hps Hcl Hone Hbulk Ew) as (sw1 & sw & Ewr & Hsw & Hf1 & Hi1 & Hl1).
  pose proof Hone as (Ho & Hd & _).
  destruct (write_new _ _ _ data _ others n p1 sw1 Hpool Hps Hd Ewr) as (Wn & W1 & W2 & W3 & W4 & W5 & W6 & W7 & W8).
  assert (Hg : sw_good sw1 p1 (overwrite (fun _ => Byte.x00) 0 data) false s).
  { eapply (write_effect SwIdle 0 data (dm_pool dm)) in Ewr; [exact (proj2 Ewr)|by eapply sw_new_good|done|]. cbn. lia. }
  subst n. split; [done|]. cbn. rewrite lookup_insert_eq. cbn. rewrite Hl1, Hlen.
  split; [|done].
  exists fw1, content, old, s, sw, (overwrite (fun _ => Byte.x00) 0 data). split.
  { destruct P. constructor; try done; cbn; [by rewrite lookup_insert_eq|congruence]. }
  split; [exact Hf1|]. split; [by rewrite Hl1, Hlen|].
  assert (Ht : forall x, 0 <= x < zlen data -> overwrite (fun _ => Byte.x00) 0 data x = bget data x).
  { intros x Hx. rewrite overwrite_in by lia. f_equal. lia. }
  destruct Hsw as [->| ->]; cbn; split_and!; done.
Qed.

(** *** Flushing *)

Lemma commit_new_id io ino (D : Deps (M:=M)) sw sid D' sw' :
  sw_slice_id sw = 0 -> flush_and_commit io ino D sw = (Ok sid, D', sw') -> exists m, mc_next_slice_id (d_meta D) = (Ok sid, m).
Proof.
  intros H0 H. unfold flush_and_commit, prepare_slice_id in H. rewrite H0 in H. cbn in H.
  destruct (mc_next_slice_id (d_meta D)) as [[id|e|] m]; [|done..]. exists m. do 2 f_equal.
  destruct (flush_v2 _ _ _ _) as [[] [[p sb] c]]; [|done..]. destruct (mc_write_slice _ _ _ _ _) as [[] m']; by injection H.
Qed.

(** An identifier no block has is not the identifier of a slice of the file. *)
Lemma unused_slices content s l sid :
  CacheInv s -> sid <> EMPTY_SLICE_ID -> unused sid (cs_cache s) -> Forall (slice_ok content s) l ->
  Forall (fun t => get_id t <> sid) l.
Proof.
  intros I Hs Hu H. eapply Forall_impl; [exact H|]. intros t [Hsz Hst] Hid. rewrite <- Hid in Hs.
  destruct (Hst Hs) as (Hu0 & Hu1 & Hall). assert (Hlt : 0 * BLOCK_SIZE < get_underlying_size t) by lia.
  specialize (Hall 0 (Z.le_refl 0) Hlt). cbv zeta in Hall. rewrite Hid, (unused_fresh sid s I Hu) in Hall. done.
Qed.

Lemma with_policy_none io sid sb c : (forall i, si_policy (io i) = None) -> policy_knows io sid sb c.
Proof. intros H i db e _ _ He. by rewrite H in He. Qed.

Lemma cache_run s s' c c' mem :
  data_ok s (mkData c mem) -> rtc cache_step s s' -> cs_cache s' = c' -> data_ok s' (mkData c' mem) /\ grows s s'.
Proof.
  intros (I & _ & Hm) H Hc. assert (Hd : rtc data_step (s, mem) (s', mem)).
  { clear -H. induction H; [apply rtc_refl|]. eapply rtc_l; [by apply dst_cache|]. done. }
  destruct (data_steps_ok _ _ Hd I Hm) as (I' & Hm' & Ha & Hr). by split.
Qed.

Lemma reads_bget g data : (forall x, 0 <= x < zlen data -> g x = bget data x) -> reads g 0 (zlen data) = data.
Proof.
  intros H. pose proof (zlen_nonneg data). apply bytes_ext; rewrite zlen_reads by done; [done|]. intros i Hi.
  rewrite bget_reads by lia. by rewrite Z.add_0_l, H.
Qed.

(** The published file after the waiting slice was added. *)
Lemma published_grows f len ino w dm fw content old s off data g sid fw' p' c' m' s' m :
  published f len ino w dm fw content old s -> one_chunk off data -> off <= len ->
  (forall x, 0 <= x < zlen data -> g x = bget data x) ->
  0 < sid < 2 ^ 64 -> unused sid (cs_cache s) ->
  rtc cache_step s s' -> cs_cache s' = c' -> slice_stored sid g (zlen data) s' ->
  meta_with_id (dm_meta dm) m ->
  mc_write_slice ino (off / CHUNK_SIZE) (off `mod` CHUNK_SIZE) (Owned (off `mod` CHUNK_SIZE) sid (zlen data) 0) m = (Ok (), m') ->
  fw_inode fw' = ino ->
  let ci := off / CHUNK_SIZE in
  published (overwrite f off data) (Z.max len (off + zlen data)) ino w
    (set_deps p' c' m' (set_heap (<[w := fw']> (dm_heap dm)) dm)) fw' (with_slice sid g content)
    (fun k => if k =? ci then old ci ++ [Owned (off `mod` CHUNK_SIZE) sid (zlen data) 0] else old k) s'.
Proof.
  intros P Hone Hol Hg Hsid Hun Hst Hc Hstored Hid Hw Hino ci. pose proof Hone as (Ho & Hd & Hci). pose proof chunk_size_pos as HC.
  destruct P as [P1 P2 P3 P4 P5 P6 P7 P8 P9 P10 P11 P12].
  pose proof P7 as (I & _ & _). destruct (cache_run s s' _ c' _ P7 Hst Hc) as [Hd' Hgr].
  assert (HC0 : CHUNK_SIZE <> 0) by lia. destruct (one_chunk_fits off data Hone) as [Hmod Hfit].
  pose proof (Z.div_mod off CHUNK_SIZE HC0) as Hdm.
  assert (Hci0 : 0 <= ci) by (apply Z.div_pos; lia). pose proof chunk_size_u32 as H32.
  assert (Hwf : slice_wf (Owned (off `mod` CHUNK_SIZE) sid (zlen data) 0) = true) by (unfold slice_wf, is_u32, is_u64; lia).
  assert (Hm1 : mv_ok m /\ forall i k, 0 <= i -> 0 <= k -> mv_slices m i k = mv_slices (dm_meta dm) i k).
  { destruct Hid as [->|[r Hn]]; [done|]. by eapply ml_next. }
  destruct Hm1 as [Hm1 Hm2]. destruct (ml_write _ _ _ _ _ _ P4 Hci0 Hwf Hm1 Hw) as (Hmo & Hnew & Hrest).
  assert (Hs0 : sid <> EMPTY_SLICE_ID) by (unfold EMPTY_SLICE_ID; lia).
  assert (Hfr : forall c, Forall (fun t => get_id t <> sid) (old c)) by (intros c; by eapply unused_slices).
  assert (Hnew' : mv_slices m' ino ci = Some (old ci ++ [Owned (off `mod` CHUNK_SIZE) sid (zlen data) 0])).
  { fold ci in Hnew. rewrite Hnew, Hm2, P9 by done. f_equal. unfold add_slice. rewrite decide_False; [done|]. intros Hin.
    pose proof (Hfr ci) as Hf. rewrite Forall_forall in Hf. by apply (Hf _ Hin). }
  assert (Hrest' : forall k, 0 <= k -> k <> ci -> mv_slices m' ino k = mv_slices (dm_meta dm) ino k)
    by (intros k Hk Hne; rewrite Hrest, Hm2 by (done || congruence); done).
  constructor; cbn; try done; try lia.
  - by rewrite lookup_insert_eq.
  - intros c Hc0. destruct (c =? ci) eqn:E; to_prop; [by rewrite E, Hnew'|]. rewrite Hrest' by done. by apply P9.
  - intros c Hc0 Hcl. destruct (c =? ci) eqn:E; to_prop; [by rewrite E|]. rewrite Hrest' by done. apply P10; [done|].
    destruct (decide (c * CHUNK_SIZE < len)); [done|]. assert (c < ci \/ ci < c) as [|] by lia; unfold ci in *; nia.
  - intros c. destruct (c =? ci) eqn:E; to_prop.
    + apply Forall_app. split; [apply slices_ok_with; [done|]|].
      * eapply Forall_impl; [apply P11|]. intros t. by apply slice_ok_grows.
      * constructor; [|done]. split; [done|]. intros _. cbn. split; [lia|]. split; [lia|]. unfold with_slice. by rewrite Z.eqb_refl.
    + apply slices_ok_with; [done|]. eapply Forall_impl; [apply P11|]. intros t. by apply slice_ok_grows.
  - intros x Hx. rewrite (file_byte_published content old _ sid g ci (off `mod` CHUNK_SIZE) (zlen data)) by (done || lia).
    rewrite (reads_bget g data Hg). replace (ci * CHUNK_SIZE + off `mod` CHUNK_SIZE) with off by (unfold ci; lia).
    unfold overwrite. destruct (_ && _); [done|]. by apply P12.
Qed.

Lemma finish_idle fuel io (D : Deps (M:=M)) fw :
  fw_clean fw -> exists fw', finish_local fuel io D fw = Some (Ok (), D, fw') /\ fw_clean fw' /\
    fw_inode fw' = fw_inode fw /\ fw_length fw' = fw_length fw.
Proof.
  intros (Hc & Hq & Hcl & He). unfold finish_local, take_flush_error. rewrite He. cbn [set_error fw_chunks].
  rewrite bool_decide_true by done. eexists. split; [done|]. by split_and!.
Qed.

Lemma flush_clean io f len ino w dm :
  dm_clean f len ino w dm -> exists dm', direct_flush io ino dm = Some (Ok (), dm') /\ dm_clean f len ino w dm' /\
    dm_readers dm' = dm_readers dm.
Proof.
  intros (fw & content & old & s & others & P & Hcl & Hlen & Hpool & Hps).
  destruct (finish_idle (ve_rounds io) (ve_stage io) (deps_of dm) fw Hcl) as (fw' & E & Hcl' & Hi & Hl).
  unfold direct_flush. rewrite (pb_writer _ _ _ _ _ _ _ _ _ P). unfold writer_finish, on_writer.
  rewrite (pb_heap _ _ _ _ _ _ _ _ _ P). unfold fw_finish, flush_to. unfold deps_of in E. rewrite E. cbn.
  eexists. split; [done|]. split; [|done]. exists fw', content, old, s, others.
  split; [|by rewrite Hl]. destruct P. constructor; try done; cbn; [by rewrite lookup_insert_eq|congruence].
Qed.

(** A commit that failed changed no chunk. *)
Lemma commit_failed_meta io ino (D : Deps (M:=M)) sw r D' sw' :
  mv_ok (d_meta D) -> flush_and_commit io ino D sw = (r, D', sw') -> is_ok r = false ->
  mv_ok (d_meta D') /\ forall i c, 0 <= i -> 0 <= c -> mv_slices (d_meta D') i c = mv_slices (d_meta D) i c.
Proof.
  intros Hm H Hr. unfold flush_and_commit in H. destruct (prepare_slice_id D sw) as [[r0 D1] sw1] eqn:Ep.
  assert (H1 : mv_ok (d_meta D1) /\ forall i c, 0 <= i -> 0 <= c -> mv_slices (d_meta D1) i c = mv_slices (d_meta D) i c).
  { unfold prepare_slice_id in Ep. destruct (negb _); [by injection Ep as <- <- <-|].
    destruct (mc_next_slice_id (d_meta D)) as [r1 m1] eqn:En. pose proof (ml_next _ _ _ Hm En) as Hn.
    destruct r1; injection Ep as <- <- <-; exact Hn. }
  destruct H1 as [Hm1 Hs1]. destruct r0 as [sid| |]; [|by injection H as <- <- <-..].
  destruct (flush_v2 _ _ _ _) as [r1 [[p1 sb1] c1]]. destruct r1; [|by injection H as <- <- <-..]. cbn [d_meta] in H.
  destruct (mc_write_slice _ _ _ _ _) as [r2 m2] eqn:Ew.
  assert (Hr2 : r2 <> Ok () /\ d_meta D' = m2) by (destruct r2 as [[]| |]; injection H as <- <- <-; done). destruct Hr2 as [Hr2 ->].
  destruct (ml_write_failed _ _ _ _ _ _ _ Hm1 Ew Hr2) as [Hm2 Hs2]. split; [done|]. intros i c Hi Hc. by rewrite Hs2, Hs1.
Qed.

(** After a failed flush the published part is as before and the bytes still wait. *)
Lemma failed_kept f len ino w off data dm fw content old s sw g e (D1 : Deps (M:=M)) sw1 fw' io :
  published f len ino w dm fw content old s -> sw_good (set_state SwFlushing sw) (dm_pool dm) g false s ->
  io_ok io (deps_of dm) (set_state SwFlushing sw) ->
  flush_and_commit io ino (deps_of dm) (set_state SwFlushing sw) = (Err e, D1, sw1) ->
  sw_offset_of_chunk sw = off `mod` CHUNK_SIZE -> sb_length (sw_buffer sw) = zlen data ->
  (forall x, 0 <= x < zlen data -> g x = bget data x) ->
  fw_chunks fw' = {[off / CHUNK_SIZE := [set_state SwDirty sw1]]} -> fw_inode fw' = ino ->
  dm_failed f len ino w off data (set_deps (d_pool D1) (d_cache D1) (d_meta D1) (set_heap (<[w := fw']> (dm_heap dm)) dm)).
Proof.
  intros P Hgood Hio E Hpos Hsz Hg Hch Hino. pose proof (pb_data _ _ _ _ _ _ _ _ _ P) as Hdata. pose proof Hdata as (I & Hcs & _). cbn in Hcs.
  destruct (commit_effect_pool io ino (deps_of dm) (set_state SwFlushing sw) g false s (Err e) D1 sw1 Hcs I Hgood Hio E)
    as (s' & Hc' & Hst & (Hgood' & Hl' & Ho') & _).
  destruct (commit_failed_meta io ino (deps_of dm) (set_state SwFlushing sw) (Err e) D1 sw1 (pb_meta _ _ _ _ _ _ _ _ _ P) E eq_refl) as [Hm Hs].
  destruct (cache_run s s' _ (d_cache D1) _ Hdata Hst Hc') as [Hd' Hgr].
  exists fw', content, old, s', (set_state SwDirty sw1), g, (if e is VMeta _ then true else false). split.
  - destruct P as [P1 P2 P3 P4 P5 P6 P7 P8 P9 P10 P11 P12]. constructor; cbn; try done.
    + by rewrite lookup_insert_eq.
    + intros c Hc. rewrite Hs by done. by apply P9.
    + intros c Hc Hcl. rewrite Hs by done. by apply P10.
    + intros c. eapply Forall_impl; [apply P11|]. intros t. by apply slice_ok_grows.
  - cbn in Hl', Ho' |- *. split_and!; try done; congruence.
Qed.

Lemma flush_pending io f len ino w off data dm k :
  ve_rounds io = S (S (S k)) -> (forall i, si_policy (ve_stage io i) = None) -> ids_fresh (deps_of dm) ->
  one_chunk off data -> off <= len -> dm_pending f len ino w off data dm ->
  exists r dm', direct_flush io ino dm = Some (r, dm') /\
    match r with
    | Ok _ => dm_clean (overwrite f off data) (Z.max len (off + zlen data)) ino w dm' /\ dm_readers dm' = dm_readers dm
    | Err _ => dm_failed f len ino w off data dm'
    | Panic => False
    end.
Proof.
  intros Hk Hpol Hids Hone Hol (fw & content & old & s & sw & g & P & Hf1 & Hlen & Hpos & Hsid0 & Hsz & Hg & Hgood).
  pose proof (pb_data _ _ _ _ _ _ _ _ _ P) as (I & Hcs & _). cbn in Hcs.
  destruct (flush_and_commit (ve_stage io) (fw_inode fw) (deps_of dm) (set_state SwFlushing sw)) as [[r D1] sw1] eqn:E.
  destruct (finish_one k (ve_stage io) (deps_of dm) fw _ sw r D1 sw1 Hf1 E) as (fw' & Efin & Hok & Hbad).
  unfold direct_flush. rewrite (pb_writer _ _ _ _ _ _ _ _ _ P). unfold writer_finish, on_writer.
  rewrite (pb_heap _ _ _ _ _ _ _ _ _ P). unfold fw_finish, flush_to. rewrite Hk. unfold deps_of in Efin. rewrite Efin.
  assert (Hio : io_ok (ve_stage io) (deps_of dm) (set_state SwFlushing sw)) by (split; [done|]; intros; by apply with_policy_none).
  destruct r as [sid|e|]; cbn; eexists _, _; (split; [done|]).
  2:{ destruct (Hbad e eq_refl) as [Hch Hino]. pose proof (pb_inode _ _ _ _ _ _ _ _ _ P) as Hpi.
      rewrite Hpi in E, Hino. eapply (failed_kept f len ino w off data dm fw content old s sw g e D1 sw1 fw' (ve_stage io)). all: try done. }
  2:{ destruct (commit_effect_pool _ _ (deps_of dm) (set_state SwFlushing sw) g false s Panic D1 sw1 Hcs I Hgood Hio E)
        as (_ & _ & _ & [Hp|(sid & m & Hp)] & _); [by apply ml_next_total in Hp|]. unfold slice_of in Hp. by apply ml_write_total in Hp. }
  split; [|done]. destruct (Hok eq_refl) as (Hcl' & Hi' & Hl').
  destruct (commit_effect_pool _ _ (deps_of dm) (set_state SwFlushing sw) g false s (Ok sid) D1 sw1 Hcs I Hgood Hio E) as (s' & Hc' & Hst & (Hsid & Hstored & m & Hm & Hw) & Hpool).
  destruct (Hpool eq_refl) as (Hps & others & Hpw). destruct (commit_new_id _ _ (deps_of dm) (set_state SwFlushing sw) _ _ _ Hsid0 E) as [m0 Hnext].
  destruct (Hids sid m0 Hnext) as [_ Hun]. cbn in Hstored, Hw, Hun. rewrite <- Hcs in Hun. rewrite Hsz in Hstored.
  pose proof Hf1 as (_ & Hci & _). pose proof Hone as (Ho & Hd & Hc2). pose proof chunk_size_pos as HC. pose proof chunk_size_u32 as H32.
  destruct (one_chunk_fits off data Hone) as [Hmod Hfit].
  assert (Hsl : slice_of sid (set_state SwFlushing sw) = Owned (off `mod` CHUNK_SIZE) sid (zlen data) 0).
  { unfold slice_of, u32_wrap. cbn. rewrite Hpos, Hsz. rewrite (Z.mod_small (off `mod` CHUNK_SIZE)), (Z.mod_small (zlen data)) by lia. done. }
  rewrite Hsl, Hci, Hpos, (pb_inode _ _ _ _ _ _ _ _ _ P) in Hw.
  pose proof (published_grows _ _ _ _ _ _ _ _ _ off data g sid fw' (d_pool D1) (d_cache D1) (d_meta D1) s' m P Hone Hol Hg Hsid Hun
                Hst Hc' Hstored Hm Hw ltac:(rewrite Hi'; apply P)) as P'. cbv zeta in P'.
  eexists fw', _, _, s', others. split; [exact P'|]. split; [done|]. split; [by rewrite Hl'|done].
Qed.

(** The file is [f] once its last write, whose flush failed, is published. *)
Definition dm_waits (f : Z -> Byte.byte) (len ino w : Z) (dm : DM) : Prop :=
  exists f0 len0 off data, dm_failed f0 len0 ino w off data dm /\
    f = overwrite f0 off data /\ len = Z.max len0 (off + zlen data).

Lemma flush_holds io f len ino w dm k :
  ve_rounds io = S (S (S k)) -> (forall i, si_policy (ve_stage io i) = None) -> ids_fresh (deps_of dm) ->
  dm_holds f len ino w dm ->
  exists r dm', direct_flush io ino dm = Some (r, dm') /\
    match r with
    | Ok _ => dm_clean f len ino w dm' /\ dm_readers dm' = dm_readers dm
    | Err _ => dm_waits f len ino w dm'
    | Panic => False
    end.
Proof.
  intros Hk Hp Hi [H|(f0 & len0 & off & data & H & Ho & Hl & -> & ->)].
  - destruct (flush_clean io f len ino w dm H) as (dm' & E & H1 & H2). by exists (Ok ()), dm'.
  - destruct (flush_pending io f0 len0 ino w off data dm k Hk Hp Hi Ho Hl H) as (r & dm' & E & Hr). exists r, dm'. split; [done|].
    destruct r; [done| |done]. by exists f0, len0, off, data.
Qed.

(** *** Reading *)

Lemma read_clean io f len ino w dm fh fr offset dst :
  dm_clean f len ino w dm -> find_reader ino fh dm = Some fr -> fr_ino fr = ino -> fr_length fr = len ->
  (forall k, block_io_ok (ve_block io k)) -> 0 <= offset ->
  let expected := file_read f len offset (zlen dst) in
  exists r dm', reader_read io ino fh offset dst dm = Some (r, dm') /\ dm_clean f len ino w dm' /\
    dm_readers dm' = dm_readers dm /\
    outcome_ok (ve_block io) r (fun nb => nb.1 = zlen expected /\ nb.2 = splice 0 expected dst).
Proof.
  intros (fw & content & old & s & others & P & Hcl & Hlen & Hpool & Hps) Hfr Hino Hl Hio Ho expected.
  destruct P as [P1 P2 P3 P4 P5 P6 P7 P8 P9 P10 P11 P12].
  assert (Hv : file_visible content old (fr_ino fr) (fr_length fr) (dm_meta dm) s).
  { rewrite Hino, Hl. intros c Hc Hcl'. split; [by apply P10|done]. }
  destruct (read_full (ve_block io) content old fr offset dst (dm_meta dm) s (mkData (dm_cache dm) (dm_mem dm)) Hio P7 P8
              ltac:(lia) Ho Hv) as [Hr (s' & Hd & Hg & Hm & Hms)].
  assert (He : file_read (file_byte content old) (fr_length fr) offset (zlen dst) = expected).
  { unfold file_read, expected. rewrite Hl. apply reads_ext. intros x Hx. apply P12. lia. }
  rewrite He in Hr. unfold reader_read. rewrite Hfr, P6.
  destruct (read (ve_block io) fr CHUNK_SIZE offset dst (dm_meta dm) (mkData (dm_cache dm) (dm_mem dm))) as [r [m' d']] eqn:E.
  cbn [fst snd] in *. eexists r, _. split; [done|]. split; [|done]. exists fw, content, old, s', others.
  split; [|done]. constructor; cbn; try done.
  - by rewrite Hms.
  - by rewrite Hms.
  - intros c. eapply Forall_impl; [apply P11|]. intros t. by apply slice_ok_grows.
Qed.
End flow.

(** ** Requests on an open file *)

Section requests.
Context `{L : Layout} `{KL : KVLaws} `{CL : MetaCodecLaws} `{R : RangeMapOps Slice} {HR : RangeMapLaws Slice}
  `{RV : RangeMapOps VirtualSlice} {HV : RangeMapLaws VirtualSlice}.
Variable ws : nat -> World.
Hypothesis clock_after_epoch : forall n, UNIX_EPOCH <= clk (ws n) 0.

#[local] Instance rq_client : MetaClient EngM := engine_client ws.
#[local] Instance rq_reader : MetaReader EngM := engine_reader ws.
#[local] Instance rq_view : MetaReaderView EngM := engine_view ws clock_after_epoch.
#[local] Instance rq_log : MetaLog EngM := engine_log ws clock_after_epoch.

Abbreviation dm_of v := (ht_dm (v_table v)).

(** The file handles of the inode share its writer and each has a reader that
    knows the length. *)
Definition handles_ok (ino w len : Z) (t : HandleTable (M:=EngM)) : Prop :=
  forall fh h, find_handle ino fh t = Some (HFile h) ->
    (forall w', fhd_writer h = Some w' -> w' = w) /\
    exists fr, find_reader ino fh (ht_dm t) = Some fr /\ fr_ino fr = ino /\ fr_length fr = len.

(** The file is [f] of [len] bytes: for every handle of it, and with nothing left
    to publish ([vfs_clean]) or at most one write ([vfs_holds]). *)
Definition vfs_clean (f : Z -> Byte.byte) (len ino : Z) (v : KisekiVFS) : Prop :=
  exists w, dm_clean f len ino w (dm_of v) /\ handles_ok ino w len (v_table v).
Definition vfs_holds (f : Z -> Byte.byte) (len ino : Z) (v : KisekiVFS) : Prop :=
  exists w, dm_holds f len ino w (dm_of v) /\ handles_ok ino w len (v_table v).
Definition vfs_waits (f : Z -> Byte.byte) (len ino : Z) (v : KisekiVFS) : Prop := exists w, dm_waits f len ino w (dm_of v).

Lemma find_update ino fh g fh' (t : HandleTable (M:=EngM)) :
  find_handle ino fh' (update_handle ino fh g t) =
    (fun h => match h with HFile h => HFile (if fh' =? fh then g h else h) | _ => h end) <$> find_handle ino fh' t.
Proof.
  unfold find_handle, update_handle. cbn. rewrite lookup_alter_eq. destruct (ht_handles t !! ino) as [m|]; cbn; [|done].
  destruct (fh' =? fh) eqn:E; to_prop.
  - subst. rewrite lookup_alter_eq. by destruct (m !! fh) as [[]|].
  - rewrite lookup_alter_ne by done. by destruct (m !! fh') as [[]|].
Qed.

Lemma handles_update ino w len fh g t :
  (forall h, fhd_writer (g h) = fhd_writer h) -> handles_ok ino w len t -> handles_ok ino w len (update_handle ino fh g t).
Proof.
  intros Hg H fh' h. rewrite find_update. destruct (find_handle ino fh' t) as [[h0|]|] eqn:E; [|done..]. cbn. intros [= <-].
  destruct (H fh' h0 E) as [H1 H2]. split; [|exact H2]. intros w'. destruct (fh' =? fh); [rewrite Hg|]; apply H1.
Qed.

(** A change of the data manager that leaves the readers. *)
Lemma handles_dm ino w len t dm :
  dm_readers dm = dm_readers (ht_dm t) -> handles_ok ino w len t -> handles_ok ino w len (mkHT (ht_handles t) (ht_next_fh t) dm).
Proof. intros Hr H fh h E. destruct (H fh h E) as [H1 H2]. split; [done|]. unfold find_reader in *. cbn. by rewrite Hr. Qed.

(** After a write every reader is told the length. *)
Lemma handles_truncated ino w len len' t :
  handles_ok ino w len t ->
  handles_ok ino w len' (mkHT (ht_handles t) (ht_next_fh t) (dm_truncate_reader ino len' (ht_dm t))).
Proof.
  intros H fh h E. destruct (H fh h E) as [H1 (fr & H2 & H3 & H4)]. split; [done|]. unfold find_reader in *.
  cbn. unfold truncate_reader. cbn in H2. change Readers with (gmap Z (gmap Z FileReader)) in *.
  set (rs := dm_readers (ht_dm t)) in *. change Readers with (gmap Z (gmap Z FileReader)) in rs. rewrite (lookup_alter_eq (M:=gmap Z)).
  destruct (rs !! ino) as [m|]; [|done]. cbn in *. rewrite lookup_fmap, H2. cbn. by eexists.
Qed.

Lemma lock_writer (lock : FuseContext -> FileHandle -> option FileHandle) ctx h :
  (forall h h', lock ctx h = Some h' -> fhd_writer h' = fhd_writer h) -> fhd_writer (default h (lock ctx h)) = fhd_writer h.
Proof. intros Hl. destruct (lock ctx h) eqn:E; [|done]. by apply Hl. Qed.

Lemma read_lock_writer ctx h h' : read_lock ctx h = Some h' -> fhd_writer h' = fhd_writer h.
Proof. unfold read_lock. destruct (ctx_cancelled ctx); [done|]. by intros [= <-]. Qed.
Lemma write_lock_writer ctx h h' : write_lock ctx h = Some h' -> fhd_writer h' = fhd_writer h.
Proof. unfold write_lock. destruct (fhd_writer h) eqn:E; [|done]. destruct (ctx_cancelled ctx); [done|]. by intros [= <-]. Qed.

(** A request that takes the lock of a handle goes on with the request registered. *)
Lemma lock_run lock ctx ino fh h v r v' :
  lock_handle lock ctx ino fh h v = Some (Ok r, v') ->
  v' = set_table (update_handle ino fh (fun h => default h (lock ctx h)) (v_table v)) v.
Proof.
  intros H. apply bind_ok in H as (x & v1 & H & H1). unfold op_lift in H. injection H as _ <-. by injection H1 as _ <-.
Qed.

(** An accepted write: the handle, its writer, and what the data manager did. *)
Lemma write_run io ctx ino fh off data v k v' :
  v_write io ctx ino fh off data v = Some (Ok k, v') ->
  exists h w n dm1, find_handle ino fh (v_table v) = Some (HFile h) /\ fhd_writer h = Some w /\
    writer_write io w off data (dm_of v) = Some (Ok n, dm1) /\ k = u32_wrap n /\
    let t1 := update_handle ino fh (fun h => default h (write_lock ctx h)) (v_table v) in
    let t2 := update_handle ino fh (remove_operation ctx) (mkHT (ht_handles t1) (ht_next_fh t1) dm1) in
    let len := match dm_heap dm1 !! w with Some fw => fw_length fw | None => 0 end in
    v_table v' = mkHT (ht_handles t2) (ht_next_fh t2) (dm_truncate_reader ino len (ht_dm t2)).
Proof.
  intros H. unfold v_write in H.
  apply bind_ok in H as ([off' e] & v0 & H0 & H). unfold op_lift in H0. injection H0 as Hr <-.
  assert (off' = off) as ->.
  { unfold checked_io_range, ensure in Hr. destruct (0 <=? off); [|done]. cbn in Hr. destruct (checked_add64 _ _); [|done]. cbn in Hr.
    destruct (_ <=? _); [|done]. by injection Hr. }
  apply bind_ok in H as (hd & v0 & H0 & H). unfold find_handle_or in H0. apply bind_ok in H0 as (hd' & v1 & H0 & H1).
  injection H0 as <- <-. unfold op_lift in H1. injection H1 as Hfind <-.
  destruct (find_handle ino fh (v_table v)) as [hd0|] eqn:Ef; [|done]. injection Hfind as ->.
  apply bind_ok in H as ([] & v0 & H0 & H). injection H0 as _ <-.
  apply bind_ok in H as (h & v0 & H0 & H). unfold file_handle_or, op_lift in H0. injection H0 as Hfile <-.
  destruct hd as [h0|]; [|done]. injection Hfile as ->.
  apply bind_ok in H as ([] & v1 & Hl & H). apply lock_run in Hl as ->.
  apply bind_ok in H as (w & v0 & H0 & H). unfold op_lift in H0. injection H0 as Hw <-.
  destruct (fhd_writer h) as [w0|] eqn:Ew; [|done]. injection Hw as ->.
  apply bind_ok in H as (r & v2 & H2 & H). unfold op_try, on_dm, on_table, ht_on_dm in H2. cbn [set_table v_table] in H2.
  change (ht_dm (update_handle ino fh (fun h => default h (write_lock ctx h)) (v_table v))) with (dm_of v) in H2.
  destruct (writer_write io w off data (dm_of v)) as [[rw dm1]|] eqn:Ewr; [|done]. cbn in H2.
  injection H2 as Hrw <-. apply bind_ok in H as ([] & v3 & H3 & H). injection H3 as <-.
  apply bind_ok in H as (n & v4 & H4 & H). unfold op_lift in H4. injection H4 as Hn <-.
  assert (rw = Ok n) as ->.
  { destruct rw; [by injection Hrw as <-|by injection Hrw as <-|done]. }
  apply bind_ok in H as (len1 & v5 & H5 & H). injection H5 as <- <-.
  apply bind_ok in H as ([] & v6 & H6 & H). injection H as <- <-. injection H6 as <-.
  by exists h, w, n, dm1.
Qed.

(** What an accepted write makes of the file. *)
Lemma write_holds io ctx ino fh off data f len v k v' :
  vfs_clean f len ino v -> one_chunk off data -> off <= len ->
  (forall fw, find_file_writer ino (dm_of v) = Some fw -> no_bulk off data fw) ->
  v_write io ctx ino fh off data v = Some (Ok k, v') ->
  k = zlen data /\ vfs_holds (overwrite f off data) (Z.max len (off + zlen data)) ino v'.
Proof.
  intros (w & Hc & Hh) Hone Hol Hb H. destruct (write_run _ _ _ _ _ _ _ _ _ H) as (h & w' & n & dm1 & Ef & Ew & Ewr & -> & Ht).
  destruct (Hh fh h Ef) as [Hsame _]. rewrite (Hsame w' Ew) in *. clear Ew H. cbv zeta in Ht.
  set (t1 := update_handle ino fh (fun h => default h (write_lock ctx h)) (v_table v)) in *.
  assert (Hh1 : handles_ok ino w len t1).
  { apply handles_update; [|done]. intros h1. apply lock_writer, write_lock_writer. }
  assert (Ed : ht_dm t1 = dm_of v) by done. clearbody t1.
  pose proof Hc as (fw & c0 & o0 & s0 & ot0 & P & _).
  assert (Hfw : find_file_writer ino (dm_of v) = Some fw).
  { unfold find_file_writer. rewrite (pb_writer _ _ _ _ _ _ _ _ _ P). cbn. apply P. }
  destruct (write_pending io off data f len ino w (dm_of v) fw n dm1 Hc (pb_heap _ _ _ _ _ _ _ _ _ P) Hone (Hb fw Hfw) Ewr)
    as (-> & Hp & Hlen & Hrd).
  destruct (one_chunk_fits off data Hone) as [Hmod Hfit]. pose proof Hone as (_ & Hd & _). pose proof chunk_size_u32 as H32.
  split; [unfold u32_wrap; apply Z.mod_small; lia|].
  destruct (dm_heap dm1 !! w) as [fw1|] eqn:Eh; [|done]. injection Hlen as Hlen. rewrite Hlen in Ht.
  exists w. rewrite Ht. cbn [ht_dm]. split.
  - right. exists f, len, off, data. split; [|done].
    destruct Hp as (fw2 & content & old & s & sw & g & P2 & Hrest). exists fw2, content, old, s, sw, g. split; [|exact Hrest].
    destruct P2. constructor; done.
  - apply (handles_truncated ino w len _ (update_handle ino fh (remove_operation ctx) (mkHT (ht_handles t1) (ht_next_fh t1) dm1))).
    apply handles_update; [done|]. apply handles_dm; [by rewrite Ed|done].
Qed.

(** C4: a write request on a file whose earlier writes are all published overwrites the
    file, when the write lies in one chunk, begins inside the file or at its end, and
    looks sequential to the writer or is shorter than a block (so that no part of it is
    flushed on its own): when it is accepted it answers the number of bytes, the file
    of every handle has the data at the offset and its old bytes elsewhere, and it is
    as long as the end of the write if it was shorter.  A second write before a flush
    is outside of this: see [overlapping_writes_reordered]. *)
Theorem write_request_refines io ctx ino fh off data f len v k v' :
  vfs_clean f len ino v -> one_chunk off data -> off <= len ->
  (forall fw, find_file_writer ino (dm_of v) = Some fw -> no_bulk off data fw) ->
  v_write io ctx ino fh off data v = Some (Ok k, v') ->
  k = zlen data /\ vfs_holds (overwrite f off data) (Z.max len (off + zlen data)) ino v'.
Proof. apply write_holds. Qed.

Lemma bind_eq {S A B} (m : opr S A) (g : A -> opr S B) s a s1 : m s = Some (Ok a, s1) -> (m ≫= g) s = g a s1.
Proof. intros H. rewrite bind_run. by rewrite H. Qed.

Lemma bind_stop {S A B} (m : opr S A) (g : A -> opr S B) s e s1 : m s = Some (Err e, s1) -> (m ≫= g) s = Some (Err e, s1).
Proof. intros H. by rewrite bind_run, H. Qed.

(** What a read request does once it has the lock. *)
Definition read_body (io : VEnv) (ctx : FuseContext) (ino : Ino) (fh offset size : Z) : vfs bytes :=
  _ ← on_dm (direct_flush io ino);
  r ← op_try (on_dm (reader_read io ino fh offset (replicate (Z.to_nat size) Byte.x00)));
  _ ← upd_handle ino fh (remove_operation ctx);
  '(n, buf) ← op_lift r;
  mret (take (Z.to_nat n) buf).

Lemma checked_range_ok off size :
  0 <= off -> 0 <= size -> off + size <= MAX_FILE_SIZE -> checked_io_range off size = Ok (off, off + size).
Proof.
  intros Ho Hs Hm. unfold checked_io_range, checked_add64, ensure. rewrite (proj2 (Z.leb_le 0 off)) by done. cbn.
  assert (HM : MAX_FILE_SIZE < 2 ^ 64) by (vm_compute; reflexivity). rewrite (proj2 (Z.ltb_lt _ _)) by lia. cbn. by rewrite (proj2 (Z.leb_le _ _)) by lia.
Qed.

Lemma read_enters io ctx ino fh off size v h :
  0 <= off -> 0 <= size -> off + size <= MAX_FILE_SIZE -> find_handle ino fh (v_table v) = Some (HFile h) ->
  is_special ino = false -> ctx_cancelled ctx = false ->
  v_read ws io ctx ino fh off size v =
    read_body io ctx ino fh off size (set_table (update_handle ino fh (fun h => default h (read_lock ctx h)) (v_table v)) v).
Proof.
  intros Ho Hs Hm Hf Hsp Hc. unfold v_read. rewrite (checked_range_ok off size Ho Hs Hm).
  etrans; [eapply bind_eq; reflexivity|]. cbv beta iota.
  etrans; [eapply bind_eq; unfold find_handle_or; etrans; [eapply bind_eq; reflexivity|]; rewrite Hf; reflexivity|]. cbv beta.
  etrans; [eapply bind_eq; reflexivity|]. rewrite Hsp.
  etrans; [eapply bind_eq; reflexivity|].
  etrans; [eapply bind_eq; unfold lock_handle; etrans; [eapply bind_eq; unfold read_lock; rewrite Hc; reflexivity|]; reflexivity|].
  reflexivity.
Qed.

(** C3: a read request on any handle of a file that is [f] of [len] bytes and has at
    most one write waiting ([vfs_holds]): the file has a record for every chunk before
    its end, and the waiting write lies in one chunk, begins inside the file or at its
    end and has not been flushed in part.  The request is not cancelled, its range is
    valid and the inode not one of the internal ones; the flusher gets at least three
    rounds, the slice identifier is new, and the policy cache has no entry yet for a
    block of the new slice.  Then the request always comes to an answer, and either
    the flush of the waiting write failed with an error: the answer is that error, what
    was published is unchanged and the bytes of the write are still in the writer; or
    the answer is the bytes of the abstract file from the offset on, up to the size and
    the end of the file, or an error of a store that did not answer, and afterwards the
    file is published and still [f]. *)
Theorem read_request_refines io ctx ino fh off size f len v h k :
  vfs_holds f len ino v -> find_handle ino fh (v_table v) = Some (HFile h) ->
  is_special ino = false -> ctx_cancelled ctx = false -> 0 <= off -> 0 <= size -> off + size <= MAX_FILE_SIZE ->
  ve_rounds io = S (S (S k)) -> (forall i, si_policy (ve_stage io i) = None) -> ids_fresh (deps_of (dm_of v)) ->
  (forall b, block_io_ok (ve_block io b)) ->
  exists r v', v_read ws io ctx ino fh off size v = Some (r, v') /\
    ((exists e, direct_flush io ino (dm_of v) = Some (Err e, dm_of v') /\ r = Err e /\ vfs_waits f len ino v') \/
     outcome_ok (ve_block io) r (.= file_read f len off size) /\ vfs_clean f len ino v').
Proof.
  intros (w & Hf & Hh) Hfind Hsp Hc Ho Hs Hm Hk Hpol Hids Hio.
  rewrite (read_enters io ctx ino fh off size v h Ho Hs Hm Hfind Hsp Hc). unfold read_body.
  set (t1 := update_handle ino fh (fun h => default h (read_lock ctx h)) (v_table v)).
  assert (Hh1 : handles_ok ino w len t1).
  { apply handles_update; [|done]. intros h1. apply lock_writer, read_lock_writer. }
  assert (Hfind1 : exists h1, find_handle ino fh t1 = Some (HFile h1)) by (unfold t1; rewrite find_update, Hfind; cbn; by eexists).
  assert (Ed : ht_dm t1 = dm_of v) by done. clearbody t1. destruct Hfind1 as [h1 Hfind1].
  destruct (flush_holds io f len ino w (dm_of v) k Hk Hpol Hids Hf) as (q & dm1 & Eflush & Hq).
  assert (E1 : on_dm (direct_flush io ino) (set_table t1 v) = Some (q, set_table (mkHT (ht_handles t1) (ht_next_fh t1) dm1) v)).
  { unfold on_dm, on_table, ht_on_dm. cbn. by rewrite Ed, Eflush. }
  match goal with |- exists r v', mbind ?g ?m ?s = _ /\ _ => set (body := g); set (s1 := s) in * end.
  destruct q as [[]|e|]; [| |done].
  2:{ eexists (Err e), _. split; [exact (bind_stop (on_dm (direct_flush io ino)) body s1 e _ E1)|]. left. exists e. split; [done|].
      split; [done|]. by exists w. }
  destruct Hq as [Hcl Hrd].
  pose proof (bind_eq (on_dm (direct_flush io ino)) body _ _ _ E1) as Eb. setoid_rewrite Eb. clear Eb s1 E1. subst body. cbv beta.
  destruct (Hh1 fh h1 Hfind1) as (_ & fr & Hfr & Hfi & Hfl).
  assert (Hfr1 : find_reader ino fh dm1 = Some fr) by (unfold find_reader in *; by rewrite Hrd, <- Ed).
  set (dst := replicate (Z.to_nat size) Byte.x00). assert (Hdst : zlen dst = size) by (unfold dst, zlen; rewrite length_replicate; lia).
  destruct (read_clean io f len ino w dm1 fh fr off dst Hcl Hfr1 Hfi Hfl Hio Ho) as (r & dm2 & Eread & Hcl2 & Hrd2 & Hout).
  rewrite Hdst in Hout. assert (Hnp : r <> Panic) by (by intros ->).
  assert (E2 : op_try (on_dm (reader_read io ino fh off dst)) (set_table (mkHT (ht_handles t1) (ht_next_fh t1) dm1) v) =
    Some (Ok r, set_table (mkHT (ht_handles t1) (ht_next_fh t1) dm2) v)).
  { unfold op_try, on_dm, on_table, ht_on_dm. cbn. rewrite Eread. by destruct r. }
  rewrite (bind_eq (op_try _) _ _ _ _ E2). rewrite (bind_eq (upd_handle ino fh _) _ _ _ _ eq_refl).
  set (t2 := update_handle ino fh (remove_operation ctx) _).
  assert (Hclean : vfs_clean f len ino (set_table t2 v)).
  { exists w. split; [exact Hcl2|]. apply handles_update; [done|]. apply handles_dm; [cbn; by rewrite Hrd2, Hrd, Ed|done]. }
  change (set_table t2 (set_table _ v)) with (set_table t2 v) in *.
  destruct r as [[n buf]|e|]; [|eexists _, _; split; [reflexivity|by right]|done]. cbn in Hout. destruct Hout as [-> ->].
  eexists _, _. split; [reflexivity|]. right. split; [|exact Hclean]. unfold splice, zlen. rewrite Nat2Z.id.
  change (Z.to_nat 0) with 0%nat. rewrite take_0, app_nil_l, take_app_length. done.
Qed.
End requests.

(** ** A run on the small layout *)

Section flow_run.
#[local] Existing Instance tiny_layout.
#[local] Existing Instance list_range_map.
#[local] Existing Instance list_range_map_laws.

Definition vr_cache : FileCache := mkFC ∅ ∅ ∅ 0 false 100 0.
Definition vr_dm : DataManager (M:=EngM) := data_manager_new 12 sp_m0 vr_cache tiny_pool.
Definition vr0 : KisekiVFS := vfs_new false false (fun _ => 0) 7 vr_dm.
Definition vr_io (k : Z) : VEnv :=
  mkVEnv wr_io (fun _ => mkMigrateIo true true true true) sp_io (fun n => 1000 * k + Z.of_nat n) 3.

Definition state_of {A} (v : KisekiVFS) (r : option (VResult A * KisekiVFS)) : KisekiVFS :=
  match r with Some (_, v) => v | None => v end.

(** A handle for reading and writing on the empty file 3, and a write of three
    bytes through it. *)
Definition vr1 : KisekiVFS := state_of vr0 (on_table (new_file_handle 3 0 2) vr0).
Definition vr2 : KisekiVFS := state_of vr0 (v_write (vr_io 2) root_ctx 3 1 0 ab vr1).
Definition empty_file : Z -> Byte.byte := fun _ => Byte.x00.

Lemma vr1_clean : vfs_clean sp_worlds sp_clock empty_file 0 3 vr1.
Proof.
  exists 0. split.
  - exists (set_ref_count 1 (file_writer_new 3 0)), (fun _ _ => Byte.x00), (fun _ => []), (sys_new 100), [].
    split; [|split; [by split_and!|split; [reflexivity|split; [apply tiny_pool_wf|reflexivity]]]].
    constructor; try reflexivity; try done.
    + split; [apply sys_new_inv|]. split; [reflexivity|]. intros k b H. vm_compute in H. discriminate.
    + exact sp_m0_ok.
    + intros c H1 H2. change CHUNK_SIZE with 12 in H2. lia.
  - intros fh h H. assert (H1 : ht_handles (v_table vr1) = {[3 := {[1 := HFile (file_handle_new 3 1 (Some 0))]}]}) by (vm_compute; reflexivity).
    unfold find_handle in H. rewrite H1, lookup_singleton_eq in H. cbn in H. apply lookup_singleton_Some in H as [<- [= <-]].
    split; [by intros w' [= <-]|]. eexists. split; [vm_compute; reflexivity|done].
Qed.

Lemma vr_one : one_chunk 0 ab.
Proof. split; [lia|]. split; vm_compute; reflexivity. Qed.

Lemma vr_bulk fw : find_file_writer 3 (ht_dm (v_table vr1)) = Some fw -> no_bulk 0 ab fw.
Proof. intros _. right. vm_compute. reflexivity. Qed.

Lemma vr_write : v_write (vr_io 2) root_ctx 3 1 0 ab vr1 = Some (Ok 3, vr2).
Proof.
  assert (E : fst <$> v_write (vr_io 2) root_ctx 3 1 0 ab vr1 = Some (Ok 3)) by (vm_compute; reflexivity).
  unfold vr2. destruct (v_write (vr_io 2) root_ctx 3 1 0 ab vr1) as [[r v]|]; [|done]. injection E as ->. done.
Qed.

Lemma write_request_refines_witness :
  zlen ab = 3 /\ vfs_holds sp_worlds sp_clock (overwrite empty_file 0 ab) 3 3 vr2.
Proof.
  split; [reflexivity|].
  exact (proj2 (write_request_refines sp_worlds sp_clock (vr_io 2) root_ctx 3 1 0 ab empty_file 0 vr1 3 vr2 vr1_clean vr_one
    (Z.le_refl 0) vr_bulk vr_write)).
Defined.

Lemma vr2_holds : vfs_holds sp_worlds sp_clock (overwrite empty_file 0 ab) 3 3 vr2.
Proof.
  exact (proj2 (write_holds sp_worlds sp_clock (vr_io 2) root_ctx 3 1 0 ab empty_file 0 vr1 3 vr2 vr1_clean vr_one
    (Z.le_refl 0) vr_bulk vr_write)).
Qed.

Lemma vr2_fresh : ids_fresh (MC:=engine_client sp_worlds) (deps_of (ht_dm (v_table vr2))).
Proof.
  intros id m H. assert (id = 2) as ->.
  { apply (f_equal fst) in H. vm_compute in H. by injection H as <-. }
  split; [lia|]. intros i len b _ _ [Hb|Hb]; unfold local_has, remote_has in Hb;
    change (d_cache (deps_of (ht_dm (v_table vr2)))) with vr_cache in Hb; cbn in Hb; by rewrite lookup_empty in Hb.
Qed.

Definition vr_read := v_read sp_worlds (vr_io 3) root_ctx 3 1 1 8 vr2.

Lemma read_request_refines_witness :
  (fst <$> vr_read) = Some (Ok [Byte.x62; Byte.x63]) /\
  exists r v', vr_read = Some (r, v') /\
    ((exists e, direct_flush (MC:=engine_client sp_worlds) (vr_io 3) 3 (ht_dm (v_table vr2)) = Some (Err e, ht_dm (v_table v')) /\
        r = Err e /\ vfs_waits sp_worlds sp_clock (overwrite empty_file 0 ab) 3 3 v') \/
     outcome_ok (ve_block (vr_io 3)) r (.= file_read (overwrite empty_file 0 ab) 3 1 8) /\
       vfs_clean sp_worlds sp_clock (overwrite empty_file 0 ab) 3 3 v').
Proof.
  split; [vm_compute; reflexivity|].
  assert (Hf : exists h, find_handle 3 1 (v_table vr2) = Some (HFile h)) by (eexists; vm_compute; reflexivity).
  destruct Hf as [h Hf].
  exact (read_request_refines sp_worlds sp_clock (vr_io 3) root_ctx 3 1 1 8 (overwrite empty_file 0 ab) 3 vr2 h 0 vr2_holds Hf
    eq_refl eq_refl ltac:(lia) ltac:(lia) ltac:(vm_compute; discriminate) eq_refl (fun _ => eq_refl) vr2_fresh
    (fun _ => conj id_env_ok id_env_ok)).
Defined.

(** *** Overlapping writes before a flush *)

(** The requests a client makes one after the other, each in its own environment,
    when all are answered without an error and handle numbers are left. *)
Fixpoint vr_requests (k : Z) (ops : list VOp) (v : KisekiVFS) : option KisekiVFS :=
  match ops with
  | [] => Some v
  | op :: ops =>
      match v_run sp_worlds (vr_io k) op v with
      | Some (Ok _, v') => if ht_next_fh (v_table v) <? 2 ^ 64 - 1 then vr_requests (k + 1) ops v' else None
      | _ => None
      end
  end.

Definition vr_overlap : list VOp :=
  [OOpen root_ctx 3 2; OWrite root_ctx 3 1 0 [Byte.x61]; OWrite root_ctx 3 1 2 [Byte.x62; Byte.x62];
   OWrite root_ctx 3 1 0 [Byte.x63; Byte.x63; Byte.x63]].

(** Three writes through one handle, all accepted: a at 0, bb at 2 and then
    ccc at 0.  The last one is put into the slice writer of the first, which has
    the lower sequence number, so the slice of bb is published over it: the
    read returns ccbb, where the last write left cccb. *)
Example overlapping_writes_reordered :
  exists v v', vr_requests 1 vr_overlap vr0 = Some v /\
    v_read sp_worlds (vr_io 5) root_ctx 3 1 0 4 v = Some (Ok [Byte.x63; Byte.x63; Byte.x62; Byte.x62], v') /\
    file_read (overwrite (overwrite (overwrite empty_file 0 [Byte.x61]) 2 [Byte.x62; Byte.x62]) 0
                 [Byte.x63; Byte.x63; Byte.x63]) 4 0 4 = [Byte.x63; Byte.x63; Byte.x63; Byte.x62].
Proof.
  assert (E : (v ← vr_requests 1 vr_overlap vr0; fst <$> v_read sp_worlds (vr_io 5) root_ctx 3 1 0 4 v) =
    Some (Ok [Byte.x63; Byte.x63; Byte.x62; Byte.x62])) by (vm_compute; reflexivity).
  destruct (vr_requests 1 vr_overlap vr0) as [v|]; [|done]. cbn in E. exists v.
  destruct (v_read sp_worlds (vr_io 5) root_ctx 3 1 0 4 v) as [[r v']|]; [|done]. injection E as ->. exists v'.
  split; [done|]. split; [done|]. vm_compute. reflexivity.
Qed.

(** *** Handles *)

(** Two opens for writing and a close leave one handle on the writer. *)
Definition vr_handles : list VOp := [OOpen root_ctx 3 2; OOpen root_ctx 3 1; ORelease root_ctx 3 1].

Lemma vr_steps ops k v v' : vr_requests k ops v = Some v' -> rtc (v_step sp_worlds) v v'.
Proof.
  revert k v. induction ops as [|op ops IH]; intros k v H; cbn in H; [injection H as <-; apply rtc_refl|].
  destruct (v_run sp_worlds (vr_io k) op v) as [[[r| |] v1]|] eqn:E; [|done..].
  destruct (_ <? _) eqn:En; [|done]. to_prop. eapply rtc_l; [by eapply vs_op|]. by eapply IH.
Qed.

Lemma handles_account_witness :
  exists v, vr_requests 1 vr_handles vr0 = Some v /\
    (exists f, find_handle 3 2 (v_table v) = Some (HFile f) /\ fhd_writer f = Some 0) /\
    exists fw, dm_writers (ht_dm (v_table v)) !! 3 = Some 0 /\ dm_heap (ht_dm (v_table v)) !! 0 = Some fw /\
      fw_inode fw = 3 /\ fw_ref_count fw = refs 0 (handles_of 3 (v_table v)).
Proof.
  assert (E : (v ← vr_requests 1 vr_handles vr0; find_handle 3 2 (v_table v)) = Some (HFile (file_handle_new 3 2 (Some 0))))
    by (vm_compute; reflexivity).
  destruct (vr_requests 1 vr_handles vr0) as [v|] eqn:Ev; [|done]. cbn in E. exists v. split; [done|].
  split; [exists (file_handle_new 3 2 (Some 0)); split; [exact E|reflexivity]|].
  exact (proj2 (proj1 (handles_account sp_worlds false false (fun _ => 0) 7 12 sp_m0 vr_cache tiny_pool v
    (vr_steps _ _ _ _ Ev)) 3 2 _ E) 0 eq_refl).
Defined.
End flow_run.
