(* ===== verification/VfsThms.v ===== *)
(** * Errors and answers of the front end

    What the requests of Vfs.v answer where an argument is at its bound, where a
    flush fails during a release, and what [set_attr] sends back. *)

From S2P Require Import Prelude Common Types Bincode RangeMap Slice SliceKey Keys KV Meta OpenFiles Backend FsModel RefStore Chunks Engine EngineInv EngineThms.
From S2P Require Import Pool SliceBuffer SliceBufferThms SliceIO FileCache FileCacheThms Writer Staging WriterThms WriterFlow Reader ReaderThms DataPath InternalNodes Handles Vfs HandleThms FileFlow.
Open Scope Z_scope.

Section vfs_thms.
Context `{L : Layout} `{R : RangeMapOps Slice} `{RV : RangeMapOps VirtualSlice} `{K : KVStore} `{C : MetaCodec}.
Variable ws : nat -> World.

Abbreviation dm_of v := (ht_dm (v_table v)).

(** *** I/O ranges *)

(** The check of a read, a write or an allocation accepts exactly the ranges
    that start at a non-negative offset and end within the largest file, and then
    no 64-bit computation on the range wraps; a negative offset is [EINVAL] and
    every other refusal [EFBIG]. *)
Theorem checked_io_range_exact offset length :
  - 2 ^ 63 <= offset < 2 ^ 63 -> 0 <= length < 2 ^ 64 ->
  match checked_io_range offset length with
  | Ok (o, e) => 0 <= offset /\ o = offset /\ e = offset + length /\ e <= MAX_FILE_SIZE /\ u64_wrap e = e
  | Err (VLibc n) => n = EINVAL /\ offset < 0 \/ n = EFBIG /\ 0 <= offset /\ MAX_FILE_SIZE < offset + length
  | _ => False
  end.
Proof.
  intros Ho Hl. unfold checked_io_range, ensure, checked_add64. assert (HM : 0 < MAX_FILE_SIZE < 2 ^ 64) by (split; vm_compute; reflexivity).
  destruct (0 <=? offset) eqn:E1; cbn; to_prop; [|left; lia].
  destruct (offset + length <? 2 ^ 64) eqn:E2; cbn; to_prop; [|right; lia].
  destruct (offset + length <=? MAX_FILE_SIZE) eqn:E3; cbn; to_prop; [|right; lia].
  split_and!; try done. unfold u64_wrap. apply Z.mod_small. lia.
Qed.

(** *** Release *)

(** A release of a file handle whose last flush fails answers the error of the
    flush and stops there: the handle is still in the table and the file still open
    in the engine, although the kernel has let the handle go and will not release
    it again. *)
Theorem failed_release_keeps_handle io ctx ino fh v h w e dm1 :
  is_special ino = false -> find_handle ino fh (v_table v) = Some (HFile h) -> fhd_writer h = Some w ->
  writer_finish (MC:=engine_client ws) io w (dm_of v) = Some (Err e, dm1) ->
  exists v', v_release ws io ctx ino fh v = Some (Err e, v') /\
    find_handle ino fh (v_table v') = Some (HFile h) /\ dm_of v' = dm1.
Proof.
  intros Hs Hf Hw He. unfold v_release. rewrite Hs. eexists. split.
  - etrans; [eapply bind_eq; reflexivity|]. cbv beta. rewrite Hf, Hw.
    assert (E : on_dm (writer_finish (MC:=engine_client ws) io w) v =
      Some (Err e, set_table (mkHT (ht_handles (v_table v)) (ht_next_fh (v_table v)) dm1) v)).
    { unfold on_dm, on_table, ht_on_dm. by rewrite He. }
    unfold mbind, opr_bind. unfold vfs_client. rewrite E. reflexivity.
  - done.
Qed.
End vfs_thms.

(** ** Runs *)

Section vfs_run.
#[local] Existing Instance tiny_layout.
#[local] Existing Instance list_range_map.

Fixpoint long_name (n : nat) : string := match n with O => "" | S n => String (Ascii.ascii_of_nat 110) (long_name n) end.
Definition name_255 : string := long_name 255.

Lemma checked_io_range_exact_witness :
  checked_io_range 0 (MAX_FILE_SIZE + 1) = Err (VLibc EFBIG) /\
  match checked_io_range 0 MAX_FILE_SIZE with
  | Ok (o, e) => 0 <= 0 /\ o = 0 /\ e = 0 + MAX_FILE_SIZE /\ e <= MAX_FILE_SIZE /\ u64_wrap e = e
  | Err (VLibc n) => n = EINVAL /\ 0 < 0 \/ n = EFBIG /\ 0 <= 0 /\ MAX_FILE_SIZE < 0 + MAX_FILE_SIZE
  | _ => False
  end.
Proof.
  split; [vm_compute; reflexivity|].
  exact (checked_io_range_exact 0 MAX_FILE_SIZE ltac:(lia) ltac:(split; [discriminate|reflexivity])).
Defined.

(** A name of exactly 255 bytes is accepted when a node is made and refused with
    [ENAMETOOLONG] by every request that would remove or rename it, in every state:
    the node stays. *)
Theorem longest_name_stays :
  (exists e v, v_mknod sp_worlds root_ctx ROOT_INO name_255 33188 0 0 vr0 = Some (Ok e, v) /\ fe_name e = name_255) /\
  forall ctx parent flags new_parent new_name v,
    v_unlink sp_worlds ctx parent name_255 v = Some (Err (VLibc ENAMETOOLONG), v) /\
    v_rmdir sp_worlds ctx parent name_255 v = Some (Err (VLibc ENAMETOOLONG), v) /\
    (new_name <> "" -> v_rename sp_worlds ctx parent name_255 new_parent new_name flags v = Some (Err (VLibc ENAMETOOLONG), v)).
Proof.
  split.
  - assert (E : (fun x => match x.1 with Ok e => Some (fe_name e) | _ => None end) <$>
        v_mknod sp_worlds root_ctx ROOT_INO name_255 33188 0 0 vr0 = Some (Some name_255)) by (vm_compute; reflexivity).
    destruct (v_mknod sp_worlds root_ctx ROOT_INO name_255 33188 0 0 vr0) as [[[e| |] v]|]; [|done..]. cbn in E. injection E as E.
    by exists e, v.
  - intros ctx parent flags np nn v. split; [reflexivity|]. split; [reflexivity|]. intros Hn.
    unfold v_rename. rewrite (bool_decide_false (nn = "")) by done. reflexivity.
Qed.

(** Changing the mode of a directory answers attributes that are not the
    directory's: the answer is made from defaults and the requested field, so its
    type, link count, length and parent are those of a fresh regular file, while the
    store keeps the directory. *)
Theorem set_attr_answer_differs :
  exists a v a' v', v_set_attr sp_worlds (vr_io 1) root_ctx ROOT_INO SA_MODE None None (Some 448) None None None None None vr0 = Some (Ok a, v) /\
    v_get_attr sp_worlds ROOT_INO v = Some (Ok a', v') /\ mode a = mode a' /\
    (kind a, nlink a, attr_length a, parent a) = (RegularFile, 1, 0, 0) /\
    (kind a', nlink a', attr_length a', parent a') = (Directory, 2, 4096, ROOT_INO).
Proof.
  assert (E : ('(r, v) ← v_set_attr sp_worlds (vr_io 1) root_ctx ROOT_INO SA_MODE None None (Some 448) None None None None None vr0;
        '(r', _) ← v_get_attr sp_worlds ROOT_INO v;
        match r, r' with
        | Ok a, Ok a' => Some ((mode a, kind a, nlink a, attr_length a, parent a), (mode a', kind a', nlink a', attr_length a', parent a'))
        | _, _ => None
        end) = Some ((448, RegularFile, 1, 0, 0), (448, Directory, 2, 4096, ROOT_INO))) by (vm_compute; reflexivity).
  destruct (v_set_attr sp_worlds (vr_io 1) root_ctx ROOT_INO SA_MODE None None (Some 448) None None None None None vr0) as [[r v]|]; [|done].
  cbn -[v_get_attr] in E. destruct (v_get_attr sp_worlds ROOT_INO v) as [[r' v']|] eqn:E2; [|done]. cbn in E.
  destruct r as [a| |]; [|done..]. destruct r' as [a'| |]; [|done..]. exists a, v, a', v'. split; [done|]. split; [done|].
  injection E as -> -> -> -> -> -> -> -> -> ->. done.
Qed.

(** The staging of the waiting write fails. *)
Definition bad_io : VEnv :=
  mkVEnv (fun _ => mkStageIo None false None false) (fun _ => mkMigrateIo true true true true) sp_io (fun n => Z.of_nat n) 3.
Definition bad_finish := writer_finish (MC:=engine_client sp_worlds) bad_io 0 (ht_dm (v_table vr2)).

Lemma failed_release_keeps_handle_witness :
  exists h e dm1 v', bad_finish = Some (Err e, dm1) /\
    v_release sp_worlds bad_io root_ctx 3 1 vr2 = Some (Err e, v') /\
    find_handle 3 1 (v_table v') = Some (HFile h) /\ ht_dm (v_table v') = dm1.
Proof.
  assert (E : (fun x => is_ok x.1) <$> bad_finish = Some false) by (vm_compute; reflexivity).
  assert (Hh : exists h, find_handle 3 1 (v_table vr2) = Some (HFile h) /\ fhd_writer h = Some 0)
    by (eexists; split; vm_compute; reflexivity).
  destruct Hh as (h & Hf & Hw). unfold bad_finish in *.
  assert (Hp : (fun x => match x.1 with Panic => true | _ => false end) <$>
    writer_finish (MC:=engine_client sp_worlds) bad_io 0 (ht_dm (v_table vr2)) = Some false) by (vm_compute; reflexivity).
  destruct (writer_finish (MC:=engine_client sp_worlds) bad_io 0 (ht_dm (v_table vr2))) as [[[u|e|] dm1]|] eqn:Ef; [done| |done|done].
  destruct (failed_release_keeps_handle sp_worlds bad_io root_ctx 3 1 vr2 h 0 e dm1 eq_refl Hf Hw Ef) as (v' & H).
  exists h, e, dm1, v'. split; [reflexivity|exact H].
Defined.
End vfs_run.
