(* ===== verification/Shutdown.v ===== *)
(** * Shutdown of a mount (components/vfs/src/kiseki.rs, lifecycle.rs)

    A mount is the front end with its lifecycle and its task registry.  A shutdown
    closes admission, waits for the running operations, flushes the writers, drains
    the staged blocks when the policy asks for it, stops the tasks and reports;
    every wait ends at the deadline.  What the deadline cuts off and what the tasks
    do meanwhile is the environment's. *)

From stdpp Require Import sorting.
From S2P Require Import Prelude Common Types Bincode RangeMap Slice SliceKey Keys KV Meta OpenFiles Backend Engine.
From S2P Require Import Pool SliceBuffer SliceBufferThms SliceIO FileCache FileCacheThms Writer Staging WriterThms Reader ReaderThms DataPath.
From S2P Require Import Interleave Lifecycle TaskRegistry InternalNodes Handles Vfs HandleThms FileFlow EngineInv RefStore.
Open Scope Z_scope.

Inductive ShutdownPolicy := LocalDurable | RemoteDurable.

(** [ShutdownPolicy::from_str] *)
Definition policy_from_str (value : string) : option ShutdownPolicy :=
  if bool_decide (value = "local") then Some LocalDurable
  else if bool_decide (value = "remote") then Some RemoteDurable
  else None.

(** The errors of a report. *)
Inductive ShutdownCause := STimeout (what : string) | SWriter (e : VfsError) | SStage (e : StorageError) | STasks (what : string).

(** Without the elapsed time. *)
Record ShutdownReport := mkReport {
  sr_state : LifecycleState;
  sr_active_operations : Z;
  sr_writers_total : Z;
  sr_writers_flushed : Z;
  sr_staged_pending_before : Z;
  sr_staged_pending_after : Z;
  sr_tasks : TaskSnapshot;
  sr_tasks_aborted : Z;
  sr_timed_out : bool;
  sr_errors : list ShutdownCause
}.

Definition is_clean (r : ShutdownReport) : bool :=
  negb (sr_timed_out r) && bool_decide (length (sr_errors r) = 0%nat) && (sn_panicked (sr_tasks r) =? 0) && (sn_active (sr_tasks r) =? 0).

(** At most eight errors are kept. *)
Definition push_error (e : ShutdownCause) (errors : list ShutdownCause) : list ShutdownCause :=
  if (length errors <? 8)%nat then errors ++ [e] else errors.

(** The sequential [begin_draining], [mark_stopped] and [mark_shutdown_failed] of
    the lifecycle. *)
Definition lc_begin_draining (l : MountLifecycle) : MountLifecycle :=
  if draining_or_stopped (lc_state l) then l else (transition (lc_state l) Draining l).2.

Section shutdown.
Context `{L : Layout} `{R : RangeMapOps Slice} `{RV : RangeMapOps VirtualSlice} `{K : KVStore} `{C : MetaCodec}.
Variable ws : nat -> World.
#[local] Instance sd_client : MetaClient EngM := engine_client ws.

(** What happens around a shutdown: which waits end before the deadline, what the
    flush and the drain had done when the deadline cut them off, what the tasks do
    until the wait for them ends and in the grace period, and whether the index of
    the stage cache is free for the last count. *)
Record ShutdownEnv := mkSE {
  se_operations : bool;
  se_pending : bool;
  se_flush : option (DataManager (M:=EngM) -> DataManager (M:=EngM));
  se_drain : option (FileCache -> FileCache);
  se_tasks : Registry -> Registry;
  se_tasks_joined : bool;
  se_grace : Registry -> Registry;
  se_grace_joined : bool;
  se_index_free : bool
}.

Record Mount := mkMount {
  mt_lifecycle : MountLifecycle;
  mt_tasks : Registry;
  mt_vfs : KisekiVFS;
  mt_shutdown_result : option (outcome ShutdownReport ShutdownReport)
}.

Definition mt_dm (m : Mount) : DataManager := ht_dm (v_table (mt_vfs m)).
Definition with_dm (dm : DataManager) (v : KisekiVFS) : KisekiVFS :=
  set_table (mkHT (ht_handles (v_table v)) (ht_next_fh (v_table v)) dm) v.

(** *** Starting *)

(** [new_with_object_storage] starts the recovery, [init] ends it. *)
Definition mount_new (v : KisekiVFS) : Mount := mkMount (transition Starting Recovering lifecycle_new).2 registry_new v None.

Definition mount_init (m : Mount) : option (VResult () * Mount) :=
  '(r, v) ← v_init ws (mt_vfs m);
  let l := mt_lifecycle m in
  let l := if is_ok r then (transition Recovering Ready l).2
           else if draining_or_stopped (lc_state l) then l else set_lc_state Failed l in
  Some (r, mkMount l (mt_tasks m) v (mt_shutdown_result m)).

(** *** The phases *)

(** Count, flush: the totals, whether the deadline has passed, the errors. *)
Definition flush_phase (se : ShutdownEnv) (io : VEnv) (timed_out : bool) (errors : list ShutdownCause)
    (dm : DataManager) : option (VResult (Z * Z * bool * list ShutdownCause) * DataManager) :=
  if timed_out then Some (Ok (0, 0, true, errors), dm)
  else
    match se_flush se with
    | Some cut =>
        let dm := cut dm in
        Some (Ok (Z.of_nat (size (dm_writers dm)), 0, true, errors ++ [STimeout "flushing writers"]), dm)
    | None =>
        '(r, dm) ← flush_all_writers_local io dm;
        match r with
        | Ok (total, flushed, writer_errors) =>
            Some (Ok (total, flushed, false, errors ++ take (8 - length errors) (SWriter <$> writer_errors)), dm)
        | Err e => Some (Err e, dm)
        | Panic => Some (Panic, dm)
        end
    end.

(** Drain the staged blocks to the object store. *)
Definition drain_phase (se : ShutdownEnv) (io : VEnv) (policy : ShutdownPolicy) (timed_out : bool)
    (errors : list ShutdownCause) (c : FileCache) : VResult (bool * list ShutdownCause) * FileCache :=
  match timed_out, policy with
  | false, RemoteDurable =>
      match se_drain se with
      | Some cut => (Ok (true, push_error (STimeout "draining staged blocks") errors), cut c)
      | None =>
          let '(r, c) := flush_all (ve_mig io) c in
          match r with
          | Ok _ => (Ok (false, errors), c)
          | Err e => (Ok (false, push_error (SStage e) errors), c)
          | Panic => (Panic, c)
          end
      end
  | _, _ => (Ok (timed_out, errors), c)
  end.

(** Stop the tasks: how many were aborted. *)
Definition task_phase (se : ShutdownEnv) (timed_out : bool) (errors : list ShutdownCause) (r : Registry)
    : Z * bool * list ShutdownCause * Registry :=
  let r := se_tasks se r in
  if se_tasks_joined se then (0, timed_out, errors, r)
  else
    let '(aborted, r) := abort_all r in
    let r := se_grace se r in
    let errors := if se_grace_joined se then errors else push_error (STasks "did not join") errors in
    (aborted, true, push_error (STasks "drain exceeded the deadline") errors, r).

Definition run_shutdown (se : ShutdownEnv) (io : VEnv) (policy : ShutdownPolicy) (m : Mount)
    : option (outcome ShutdownReport ShutdownReport * Mount) :=
  let l := lc_begin_draining (mt_lifecycle m) in
  '(_, reg) ← reg_begin_draining (mt_tasks m);
  let dm := set_accepting false (mt_dm m) in
  let active_operations := lc_active l in
  let '(timed_out, errors) := if se_operations se then (false, []) else (true, [STimeout "active operations"]) in
  let '(pending_before, timed_out, errors) :=
    if timed_out then (0, true, errors)
    else if se_pending se then (pending_count (dm_cache dm), false, errors)
    else (0, true, errors ++ [STimeout "staged cache state"]) in
  let after l reg dm := mkMount l reg (with_dm dm (mt_vfs m)) (mt_shutdown_result m) in
  '(r, dm) ← flush_phase se io timed_out errors dm;
  match r with
  | Ok (total, flushed, timed_out, errors) =>
      let '(r, c) := drain_phase se io policy timed_out errors (dm_cache dm) in
      match r with
      | Ok (timed_out, errors) =>
          let dm := cancel_all_writers (set_deps (dm_pool dm) c (dm_meta dm) dm) in
          let '(aborted, timed_out, errors, reg) := task_phase se timed_out errors reg in
          let '(pending_after, errors) :=
            if se_index_free se then (pending_count (dm_cache dm), errors)
            else (pending_before, push_error (STimeout "staged cache snapshot") errors) in
          let tasks := snapshot reg in
          let l := set_lc_state (if sn_active tasks =? 0 then Stopped else Failed) l in
          let report := mkReport (lc_state l) active_operations total flushed pending_before pending_after tasks aborted
                          timed_out errors in
          Some (if is_clean report then Ok report else Err report, after l reg dm)
      | _ => Some (Panic, after l reg dm)
      end
  | _ => Some (Panic, after l reg dm)
  end.

(** [shutdown]: the first call runs, the later ones get its result. *)
Definition shutdown (se : ShutdownEnv) (io : VEnv) (policy : ShutdownPolicy) (m : Mount)
    : option (outcome ShutdownReport ShutdownReport * Mount) :=
  match mt_shutdown_result m with
  | Some r => Some (r, m)
  | None =>
      '(r, m) ← run_shutdown se io policy m;
      Some (r, mkMount (mt_lifecycle m) (mt_tasks m) (mt_vfs m) (Some r))
  end.

(** ** A clean shutdown *)

Abbreviation SDM := (DataManager (M:=EngM)).

(** The writer has nothing left to publish. *)
Definition writer_empty (fw : FileWriter) : Prop := fw_chunks fw = ∅ /\ fw_error fw = None.
Definition flushed_at (w : Z) (dm : SDM) : Prop := exists fw, dm_heap dm !! w = Some fw /\ writer_empty fw.

Lemma finish_local_empty fuel io (D : Deps (M:=EngM)) fw D' fw' :
  finish_local fuel io D fw = Some (Ok (), D', fw') -> writer_empty fw'.
Proof.
  unfold finish_local, take_flush_error. destruct (fw_error fw); [done|]. cbn [set_error fw_chunks].
  destruct (bool_decide _) eqn:Eb; [apply bool_decide_eq_true in Eb; by intros [= _ <-]|].
  destruct (finish_chunks _ _ _ _) as [[[fw1| |] D1]|]; cbn; [|done..]. destruct (fw_error fw1); [done|].
  by intros [= _ <-].
Qed.

Lemma finish_local_idle fuel io (D : Deps (M:=EngM)) fw :
  writer_empty fw -> exists fw', finish_local fuel io D fw = Some (Ok (), D, fw') /\ writer_empty fw'.
Proof.
  intros [Hc He]. unfold finish_local, take_flush_error. rewrite He. cbn [set_error fw_chunks].
  rewrite bool_decide_true by done. eexists. split; [done|]. by split.
Qed.

Lemma writer_finish_flushed io w (dm : SDM) r dm' :
  writer_finish io w dm = Some (r, dm') ->
  (r = Ok () -> flushed_at w dm') /\ (forall w', flushed_at w' dm -> flushed_at w' dm') /\ dm_writers dm' = dm_writers dm.
Proof.
  unfold writer_finish, on_writer, fw_finish, flush_to. destruct (dm_heap dm !! w) as [fw|] eqn:Ew; [|by intros [= <- <-]].
  destruct (finish_local _ _ _ _) as [[[r1 D1] fw1]|] eqn:E; [|done]. cbn. intros H.
  assert (r = r1 /\ dm' = set_deps (d_pool D1) (d_cache D1) (d_meta D1) (set_heap (<[w:=fw1]> (dm_heap dm)) dm)) as [-> ->]
    by (destruct r1; by injection H as <- <-). clear H.
  split; [|split; [|done]].
  - intros ->. apply finish_local_empty in E. exists fw1. cbn. by rewrite lookup_insert_eq.
  - intros w' (fw' & Hw' & He). destruct (decide (w' = w)) as [->|Hne].
    + rewrite Ew in Hw'. injection Hw' as ->.
      destruct (finish_local_idle (ve_rounds io) (ve_stage io) (mkDeps (dm_pool dm) (dm_cache dm) (dm_meta dm)) fw' He) as (fw2 & E2 & He2).
      rewrite E2 in E. injection E as <- <- <-. exists fw2. cbn. by rewrite lookup_insert_eq.
    + exists fw'. cbn. by rewrite lookup_insert_ne.
Qed.

Lemma flush_writers_flushed io refs n errors (dm : SDM) total errs dm' :
  flush_writers io refs n errors dm = Some (Ok (total, errs), dm') ->
  dm_writers dm' = dm_writers dm /\ (forall w, flushed_at w dm -> flushed_at w dm') /\
  (errs = [] -> errors = [] /\ total = n + zlen refs /\ forall w, w ∈ refs -> flushed_at w dm').
Proof.
  revert n errors dm. induction refs as [|w refs IH]; intros n errors dm H; cbn [flush_writers] in H.
  { injection H as <- <- <-. split; [done|]. split; [done|]. intros ->. split; [done|]. split; [unfold zlen; cbn; lia|]. intros w Hw. by apply elem_of_nil in Hw. }
  rewrite bind_run in H. unfold op_try in H. destruct (writer_finish io w dm) as [[r dm1]|] eqn:E; [|done]. cbn in H.
  destruct (writer_finish_flushed _ _ _ _ _ E) as (H1 & H2 & H3).
  destruct r as [[]|e|]; [| |done].
  - destruct (IH _ _ _ H) as (W & F & D). split; [congruence|]. split; [auto|]. intros (Z1 & Z2 & Z3)%D.
    split; [done|]. split; [unfold zlen in *; cbn; lia|]. intros w' Hw. apply elem_of_cons in Hw as [->|Hw]; auto.
  - destruct (IH _ _ _ H) as (W & F & D). split; [congruence|]. split; [auto|]. intros (Z1 & _)%D. exfalso.
    destruct (length errors <=? 7)%nat eqn:El; [|subst errors; done]. apply app_eq_nil in Z1 as [_ Z1]. done.
Qed.

Lemma cancel_flushed (dm : SDM) w : flushed_at w dm -> flushed_at w (cancel_all_writers dm).
Proof.
  unfold cancel_all_writers. cbn. generalize (map_to_list (dm_writers dm)).*2 as refs.
  intros refs (fw & Hw & He). unfold flushed_at. cbn. induction refs as [|r refs IH]; cbn; [by exists fw|].
  destruct IH as (fw1 & Hw1 & He1). destruct (decide (r = w)) as [->|Hne].
  - exists (set_closed true fw1). rewrite lookup_alter_eq, Hw1. by split.
  - exists fw1. by rewrite lookup_alter_ne.
Qed.

Lemma flush_all_remote io c c' n s :
  CacheInv s -> cs_cache s = c -> flush_all io c = (Ok n, c') ->
  fc_staged c' = ∅ /\ forall k b, cs_acked s !! k = Some b -> remote_has c' k b.
Proof.
  intros I <- H. unfold flush_all in H. destruct (flush_keys _ _ _) as [r c1] eqn:E.
  destruct (flush_keys_spec io _ s _ _ I E) as (I' & Hm & Hn). destruct r as [[]| |]; [|done..]. injection H as _ <-.
  assert (He : forall k, fc_staged c1 !! k = None).
  { intros k. destruct (Hm k) as [Hk|Hk]; [|done]. destruct (fc_staged (cs_cache s) !! k) as [e|] eqn:Ek; [|done].
    apply (Hn eq_refl). unfold staged_keys. rewrite merge_sort_Permutation, list_elem_of_fmap. exists (k, e).
    split; [done|]. by apply elem_of_map_to_list. }
  split; [by apply map_empty|]. intros k b Hk. by apply (ci_flushed _ I' k b Hk).
Qed.

Lemma flush_local_flushed io (dm : SDM) total flushed errs dm' :
  flush_all_writers_local io dm = Some (Ok (total, flushed, errs), dm') ->
  errs = [] -> flushed = total /\ forall ino w, dm_writers dm !! ino = Some w -> flushed_at w dm'.
Proof.
  unfold flush_all_writers_local. rewrite bind_run. cbn -[flush_writers]. rewrite bind_run.
  destruct (flush_writers io (map_to_list (dm_writers dm)).*2 0 [] dm) as [[[[n es]| |] dm1]|] eqn:E; [|done..].
  cbn. intros [= <- <- <- <-] ->. destruct (flush_writers_flushed _ _ _ _ _ _ _ _ E) as (_ & _ & H).
  destruct (H eq_refl) as (_ & -> & Hall). split; [lia|]. intros ino w Hw. apply Hall. apply list_elem_of_fmap. exists (ino, w).
  split; [done|]. by apply elem_of_map_to_list.
Qed.

(** What a clean report says of the phases. *)
Lemma push_nonempty e l : push_error e l = [] -> False.
Proof. unfold push_error. destruct l as [|x l]; [done|]. by destruct (_ <? _)%nat. Qed.

Lemma flush_phase_clean se io t errors (dm : SDM) total flushed dm' :
  flush_phase se io t errors dm = Some (Ok (total, flushed, false, []), dm') ->
  errors = [] /\ t = false /\ flush_all_writers_local io dm = Some (Ok (total, flushed, []), dm').
Proof.
  unfold flush_phase. destruct t; [done|]. destruct (se_flush se); [done|].
  destruct (flush_all_writers_local io dm) as [[[[[n f] es]| |] dm1]|]; cbn; [|done..].
  intros [= <- <- He <-]. apply app_eq_nil in He as [-> He]. cbn in He. destruct es as [|e es]; [done|]. done.
Qed.

Lemma drain_phase_clean se io policy t errors c c' :
  drain_phase se io policy t errors c = (Ok (false, []), c') ->
  errors = [] /\ t = false /\ (policy = RemoteDurable -> exists n, flush_all (ve_mig io) c = (Ok n, c')).
Proof.
  unfold drain_phase. destruct t; [done|]. destruct policy; [by intros [= -> <-]|].
  destruct (se_drain se); [done|].
  destruct (flush_all (ve_mig io) c) as [[n|e|] c1] eqn:E; [intros [= -> <-]; eauto|intros [= He _]|done].
  by apply push_nonempty in He.
Qed.

Lemma task_phase_clean se t errors reg n reg' :
  task_phase se t errors reg = (n, false, [], reg') -> errors = [] /\ t = false.
Proof.
  unfold task_phase. destruct (se_tasks_joined se); [by intros [= _ -> -> _]|].
  destruct (abort_all _) as [a r]. by intros [= _ He _].
Qed.

(** C9: a shutdown that reports a clean result lost nothing it had accepted: the
    running operations had ended, every writer of the table has published its
    buffers and holds no flush error, no task is active or panicked, and the mount
    is stopped; with the remote policy the stage index is empty and every block
    acknowledged by then is in the object store with its exact bytes. *)
Theorem clean_shutdown_durable se io policy m report m' :
  run_shutdown se io policy m = Some (Ok report, m') ->
  se_operations se = true /\
  (forall ino w, dm_writers (mt_dm m) !! ino = Some w -> flushed_at w (mt_dm m')) /\
  sr_writers_flushed report = sr_writers_total report /\
  lc_state (mt_lifecycle m') = Stopped /\ tr_active (mt_tasks m') = 0 /\ tr_panicked (mt_tasks m') = 0 /\
  exists n dm1, flush_all_writers_local io (set_accepting false (mt_dm m)) = Some (Ok (n, n, []), dm1) /\
    (policy = RemoteDurable -> forall s, CacheInv s -> cs_cache s = dm_cache dm1 ->
       fc_staged (dm_cache (mt_dm m')) = ∅ /\
       forall k b, cs_acked s !! k = Some b -> remote_has (dm_cache (mt_dm m')) k b).
Proof.
  unfold run_shutdown. destruct (reg_begin_draining (mt_tasks m)) as [[b0 reg]|]; [|done].
  change (mbind ?f (Some ?x)) with (f x). cbv beta iota.
  set (dm := set_accepting false (mt_dm m)).
  assert (Hops : se_operations se = true \/
    (if se_operations se then (false, []) else (true, [STimeout "active operations"])) = (true, [STimeout "active operations"]))
    by (destruct (se_operations se); auto).
  destruct (if se_operations se then _ else _) as [t0 er0].
  set (x := if t0 then _ else _). destruct x as [[pb t1] er1] eqn:Ex. subst x.
  destruct (flush_phase se io t1 er1 dm) as [[[[[[total flushed] t2] er2]| |] dm1]|] eqn:Ef; [|done..].
  change (mbind ?f (Some ?x)) with (f x). cbv beta iota.
  destruct (drain_phase se io policy t2 er2 (dm_cache dm1)) as [[[t3 er3]| |] c1] eqn:Ed; [|done..].
  set (dm2 := cancel_all_writers (set_deps (dm_pool dm1) c1 (dm_meta dm1) dm1)).
  destruct (task_phase se t3 er3 reg) as [[[ab t4] er4] reg1] eqn:Et.
  set (y := if se_index_free se then _ else _). destruct y as [pa er5] eqn:Ey. subst y.
  destruct (is_clean _) eqn:Ec; [|done]. intros [= <- <-]. unfold is_clean in Ec. cbn in Ec.
  apply andb_prop in Ec as [Ec E4]. apply andb_prop in Ec as [Ec E3]. apply andb_prop in Ec as [E1 E2].
  apply negb_true_iff in E1 as ->. apply bool_decide_eq_true, nil_length_inv in E2 as ->.
  apply Z.eqb_eq in E3, E4.
  assert (er4 = []) as ->.
  { destruct (se_index_free se); [by injection Ey|]. injection Ey as _ Hp. by apply push_nonempty in Hp. }
  destruct (task_phase_clean _ _ _ _ _ _ Et) as [-> ->]. destruct (drain_phase_clean _ _ _ _ _ _ _ Ed) as (-> & -> & Hpol).
  destruct (flush_phase_clean _ _ _ _ _ _ _ _ Ef) as (-> & -> & Efl).
  destruct (flush_local_flushed _ _ _ _ _ _ Efl eq_refl) as [-> Hall].
  assert (Ho : se_operations se = true).
  { destruct Hops as [?|[= -> ->]]; [done|]. done. }
  split; [done|]. split; [intros ino w Hw; apply cancel_flushed, (Hall ino w Hw)|].
  cbn. rewrite E4. split; [done|]. split; [done|]. split; [done|]. split; [done|].
  exists total, dm1. split; [done|]. intros Hr s I Hs. destruct (Hpol Hr) as [n Hn]. by eapply flush_all_remote.
Qed.
End shutdown.

(** ** A run *)

Section shutdown_run.
#[local] Existing Instance tiny_layout.
#[local] Existing Instance list_range_map.

(** A mount whose only file has a write that was not flushed yet. *)
Definition sd_mount : Mount := mkMount (mkLC Ready 0 0) registry_new vr2 None.
Definition sd_env : ShutdownEnv := mkSE true true None None id true id true true.
Definition sd_run := run_shutdown sp_worlds sd_env (vr_io 3) RemoteDurable sd_mount.
Definition sd_report : ShutdownReport := mkReport Stopped 0 1 1 0 0 (mkSnap 0 0 0 0) 0 false [].

Lemma clean_shutdown_durable_witness :
  exists m', sd_run = Some (Ok sd_report, m') /\ fw_chunks <$> (dm_heap (mt_dm sd_mount) !! 0) <> Some ∅ /\
    flushed_at 0 (mt_dm m').
Proof.
  assert (E : fst <$> sd_run = Some (Ok sd_report)) by (vm_compute; reflexivity).
  unfold sd_run in *. destruct (run_shutdown sp_worlds sd_env (vr_io 3) RemoteDurable sd_mount) as [[r m']|] eqn:Er; [|done].
  cbn in E. injection E as ->. exists m'. split; [reflexivity|]. split; [vm_compute; discriminate|].
  exact (proj1 (proj2 (clean_shutdown_durable sp_worlds sd_env (vr_io 3) RemoteDurable sd_mount sd_report m' Er)) 3 0
    ltac:(vm_compute; reflexivity)).
Defined.
End shutdown_run.
