(* ===== verification/Config.v ===== *)
(** * The mount configuration and the cache root (components/vfs/src/config.rs)

    A mount checks its layout, its capacities and its paths before it touches
    anything, and then owns its cache root: it opens every directory from the file
    system root down to the cache root, checks that the directory it opened is still
    the one at the path, and locks its inode, shared above and exclusively for the
    root itself.  [CacheOs] is what the checks and the locks see of the operating
    system: which inode each path names, and the locks held, by inode.  What
    [canonicalize] and symbolic links resolve to, which calls fail, the inodes of new
    files and what others do to the tree between the calls of a preparation are
    arguments ([OsEnv]). *)

From S2P Require Import Prelude Common Types Slice SliceKey Meta FileCache Writer Handles.
Open Scope Z_scope.

(** The components of a path, without [.]; an absolute path starts at the root. *)
Abbreviation Comps := (list string).
Record Path := mkPath { p_absolute : bool; p_comps : Comps }.

#[export] Instance path_eq_dec : EqDecision Path.
Proof. solve_decision. Defined.

Definition DOTDOT : string := "..".

(** [Path::starts_with] by components. *)
Definition starts_with (p base : Comps) : bool := bool_decide (base `prefix_of` p).

Definition paths_overlap (left right : Comps) : bool :=
  bool_decide (left = right) || starts_with left right || starts_with right left.

Definition invalid {A} (reason : string) : VResult A := Err (VInvalidConfig reason).

(** ** Sizes *)

Record Config := mkConfig {
  cfg_object_root : option Path;
  cfg_cache_dir : Path;
  cfg_memory_page_capacity : Z;
  cfg_disk_page_capacity : option Z;
  cfg_stage_cache_capacity : Z;
  cfg_memory_read_cache_capacity : Z;
  cfg_shutdown_deadline : Z;
  cfg_chunk_size : Z;
  cfg_block_size : Z;
  cfg_page_size : Z
}.

(** [usize::is_multiple_of]: only 0 is a multiple of 0. *)
Definition is_multiple_of (a b : Z) : bool := if b =? 0 then a =? 0 else a `mod` b =? 0.

Definition valid_page_capacity (cfg : Config) (name : string) (capacity : Z) : VResult Z :=
  _ ← ensure ((0 <? capacity) && is_multiple_of capacity (cfg_page_size cfg)) (VInvalidConfig name);
  Ok capacity.

Definition validate_resource_config (cfg : Config) : VResult (Z * option Z) :=
  memory ← valid_page_capacity cfg "memory page capacity" (cfg_memory_page_capacity cfg);
  disk ← match cfg_disk_page_capacity cfg with
         | Some c => c ← valid_page_capacity cfg "disk page capacity" c; Ok (Some c)
         | None => Ok None
         end;
  _ ← ensure (0 <? cfg_stage_cache_capacity cfg) (VInvalidConfig "stage cache capacity");
  _ ← ensure (0 <? cfg_memory_read_cache_capacity cfg) (VInvalidConfig "memory read cache capacity");
  _ ← ensure (negb (cfg_shutdown_deadline cfg =? 0)) (VInvalidConfig "shutdown deadline");
  _ ← ensure (p_absolute (cfg_cache_dir cfg)) (VInvalidConfig "cache directory");
  Ok (memory, disk).

Definition validate_layout (cfg : Config) (stored : Format) : VResult () :=
  _ ← ensure ((0 <? cfg_page_size cfg) && (0 <? cfg_block_size cfg) && (0 <? cfg_chunk_size cfg) &&
              is_multiple_of (cfg_block_size cfg) (cfg_page_size cfg) &&
              is_multiple_of (cfg_chunk_size cfg) (cfg_block_size cfg)) (VInvalidConfig "layout");
  let requested := mkFormat (fmt_name stored) (cfg_chunk_size cfg) (cfg_block_size cfg) (cfg_page_size cfg)
                     (max_capacity stored) (max_inodes stored) in
  match layout_mismatch stored requested with
  | Some _ => invalid "stored layout"
  | None => Ok ()
  end.

(** ** Paths *)

(** What a path names: an inode, of a kind.  [nd_ino] stands for the pair of device
    and inode number the code compares. *)
Inductive NodeKind := NDir | NFile (nlink : Z) | NSymlink.
Record Node := mkNode { nd_ino : Z; nd_kind : NodeKind }.

#[export] Instance node_kind_eq_dec : EqDecision NodeKind.
Proof. solve_decision. Defined.
#[export] Instance node_eq_dec : EqDecision Node.
Proof. solve_decision. Defined.

Abbreviation Nodes := (gmap Comps Node).

Definition is_dir (n : Node) : bool := bool_decide (nd_kind n = NDir).

(** A lock on an open directory or file.  It is on the inode, wherever the inode is
    in the tree, and lives until its mount drops the file. *)
Record Lease := mkLease { ls_ino : Z; ls_exclusive : bool; ls_owner : Z }.

#[export] Instance lease_eq_dec : EqDecision Lease.
Proof. solve_decision. Defined.

Record CacheOs := mkOs { os_nodes : Nodes; os_locks : list Lease }.

Definition set_nodes n o := mkOs n (os_locks o).
Definition set_locks l o := mkOs (os_nodes o) l.

Abbreviation cfgm := (opr CacheOs).

(** The system calls of a preparation. *)
Inductive Call := CStat | CValidate | CCreate | COpen | CIdentity | CLock | CCanonicalize.

(** The operating system and everybody else: [works c p]: the call on [p] does not
    fail for a reason of its own; [canonicalize], [None] when it fails; [relative]:
    what a relative path names, when it exists; [follow]: the path a symbolic link
    leads to; [alloc]: the inode of the next file created; [others c p]: what others
    did to the tree by the time of the call. *)
Record OsEnv := mkEnv {
  works : Call -> Path -> bool;
  canonicalize : Nodes -> Path -> option Comps;
  relative : Comps -> option Node;
  follow : Nodes -> Comps -> Comps;
  alloc : Nodes -> Z;
  others : Call -> Comps -> Nodes -> Nodes
}.

Definition validate_absolute_clean_path (name : string) (path : Path) : VResult () :=
  _ ← ensure (p_absolute path) (VInvalidConfig name);
  ensure (negb (bool_decide (DOTDOT ∈ p_comps path))) (VInvalidConfig name).

Section os.
Variable env : OsEnv.

(** [symlink_metadata]: a node, [NotFound], or another error. *)
Definition symlink_metadata (o : CacheOs) (p : Path) : VResult (option Node) :=
  if works env CStat p then Ok (if p_absolute p then os_nodes o !! p_comps p else relative env (p_comps p)) else Err VCacheRoot.

(** The loop of [resolve_path_for_overlap], from the last component up: the longest
    prefix that exists, and the names after it. *)
Fixpoint find_existing (o : CacheOs) (absolute : bool) (rev_comps missing : Comps) : VResult (Path * Comps) :=
  let existing := mkPath absolute (reverse rev_comps) in
  match symlink_metadata o existing with
  | Ok (Some _) => Ok (existing, missing)
  | Ok None =>
      match rev_comps with
      | [] => invalid "no existing ancestor"
      | name :: rest =>
          if bool_decide (name = DOTDOT) then invalid "no existing ancestor"
          else find_existing o absolute rest (name :: missing)
      end
  | _ => invalid "failed to inspect"
  end.

Definition resolve_path_for_overlap (p : Path) (o : CacheOs) : VResult Comps :=
  '(existing, missing) ← find_existing o (p_absolute p) (reverse (p_comps p)) [];
  match canonicalize env (os_nodes o) existing with
  | Some resolved => Ok (resolved ++ missing)
  | None => invalid "failed to resolve"
  end.

(** [validate_mount_paths]: every path resolved, then every pair checked. *)
Fixpoint resolve_all (ps : list (string * Path)) (o : CacheOs) : VResult (list Comps) :=
  match ps with
  | [] => Ok []
  | (name, p) :: ps =>
      _ ← validate_absolute_clean_path name p;
      r ← resolve_path_for_overlap p o;
      rs ← resolve_all ps o;
      Ok (r :: rs)
  end.

Fixpoint check_pairs (rs : list Comps) : VResult () :=
  match rs with
  | [] => Ok ()
  | r :: rs =>
      _ ← ensure (forallb (fun r' => negb (paths_overlap r r')) rs) (VInvalidConfig "must not overlap");
      check_pairs rs
  end.

Definition mount_paths (cfg : Config) (mount_point : Path) (ready_file : option Path) : list (string * Path) :=
  [("mount point", mount_point); ("cache directory", cfg_cache_dir cfg)] ++
  match cfg_object_root cfg with Some root => [("file object storage root", root)] | None => [] end ++
  match ready_file with Some f => [("ready file", f)] | None => [] end.

Definition validate_mount_paths (cfg : Config) (mount_point : Path) (ready_file : option Path) (o : CacheOs) : VResult () :=
  _ ← validate_resource_config cfg;
  rs ← resolve_all (mount_paths cfg mount_point ready_file) o;
  check_pairs rs.

Definition validate_storage_cache_paths (cfg : Config) (o : CacheOs) : VResult () :=
  match cfg_object_root cfg with
  | None => Ok ()
  | Some root =>
      _ ← validate_absolute_clean_path "cache directory" (cfg_cache_dir cfg);
      _ ← validate_absolute_clean_path "file object storage root" root;
      cache ← resolve_path_for_overlap (cfg_cache_dir cfg) o;
      objects ← resolve_path_for_overlap root o;
      ensure (negb (paths_overlap cache objects)) (VInvalidConfig "must not overlap")
  end.

Inductive CachePathKind := KDirectory | KFile.

Definition validate_existing_cache_path (p : Path) (expected : CachePathKind) (o : CacheOs) : VResult () :=
  m ← symlink_metadata o p;
  match nd_kind <$> m, expected with
  | None, _ | Some NDir, KDirectory | Some (NFile 1), KFile => Ok ()
  | _, _ => invalid "cache path"
  end.

(** ** The locks of the cache root *)

(** What others do comes between any two calls. *)
Definition interfere (c : Call) (p : Comps) : cfgm () :=
  op_modify (fun o => set_nodes (others env c p (os_nodes o)) o).

Definition look {A} (f : CacheOs -> VResult A) : cfgm A := fun o => Some (f o, o).

Definition observe {A} (c : Call) (p : Comps) (f : CacheOs -> VResult A) : cfgm A :=
  _ ← interfere c p; look f.

Definition validated (p : Comps) (kind : CachePathKind) : cfgm () :=
  observe CValidate p (validate_existing_cache_path (mkPath true p) kind).

(** [create_dir]; a directory that appeared meanwhile is validated. *)
Definition create_dir (p : Comps) : cfgm () :=
  _ ← interfere CCreate p;
  nodes ← op_gets os_nodes;
  match nodes !! p with
  | Some _ => validated p KDirectory
  | None =>
      _ ← op_guard (works env CCreate (mkPath true p)) VCacheRoot;
      op_modify (set_nodes (<[p := mkNode (alloc env nodes) NDir]> nodes))
  end.

(** [File::open] and [OpenOptions::open] open what a symbolic link leads to. *)
Definition target (nodes : Nodes) (p : Comps) : Comps :=
  match nd_kind <$> nodes !! p with Some NSymlink => follow env nodes p | _ => p end.

Definition open_path (p : Comps) : cfgm Node :=
  observe COpen p (fun o =>
    if works env COpen (mkPath true p) then ok_or (os_nodes o !! target (os_nodes o) p) VCacheRoot else Err VCacheRoot).

(** The opened file is the directory its path names now. *)
Definition opened_path_identity_matches (opened : Node) (p : Comps) : cfgm bool :=
  observe CIdentity p (fun o =>
    m ← symlink_metadata o (mkPath true p);
    current ← ok_or m VCacheRoot;
    Ok (bool_decide (nd_ino opened = nd_ino current) && is_dir opened && is_dir current)).

(** [try_lock_shared], [try_lock_exclusive] on a file of its own: refused while
    another open file holds a lock on the inode, unless both are shared. *)
Definition lock_conflict (ino : Z) (exclusive : bool) (l : Lease) : bool :=
  bool_decide (ls_ino l = ino) && (exclusive || ls_exclusive l).

Definition try_lock (p : Comps) (ino : Z) (exclusive : bool) (owner : Z) : cfgm () := fun o =>
  if negb (works env CLock (mkPath true p)) || existsb (lock_conflict ino exclusive) (os_locks o) then Some (Err VCacheRoot, o)
  else Some (Ok (), set_locks (os_locks o ++ [mkLease ino exclusive owner]) o).

(** One round of [prepare_and_lock_cache_hierarchy]: the inode it locked. *)
Definition lock_component (root : Comps) (owner : Z) (current : Comps) : cfgm Z :=
  m ← observe CStat current (fun o => symlink_metadata o (mkPath true current));
  _ ← match m with
      | Some _ => validated current KDirectory
      | None => create_dir current
      end;
  opened ← open_path current;
  same ← opened_path_identity_matches opened current;
  _ ← op_guard same (VInvalidConfig "changed while it was being locked");
  _ ← try_lock current (nd_ino opened) (bool_decide (current = root)) owner;
  mret (nd_ino opened).

(** The prefixes of a path, from the root directory down. *)
Definition ancestors (root : Comps) : list Comps := (fun n => take n root) <$> seq 0 (S (length root)).

Fixpoint lock_components (root : Comps) (owner : Z) (ps : list Comps) : cfgm (list Z) :=
  match ps with
  | [] => mret []
  | p :: ps =>
      lease ← lock_component root owner p;
      leases ← lock_components root owner ps;
      mret (lease :: leases)
  end.

Definition prepare_and_lock_cache_hierarchy (root : Comps) (owner : Z) : cfgm (list Z) :=
  _ ← op_guard (negb (bool_decide (root = []))) (VInvalidConfig "cache directory is the root");
  lock_components root owner (ancestors root).

(** The leases of a mount are closed with its [PreparedCacheConfig], or when the
    preparation fails. *)
Definition release (owner : Z) (o : CacheOs) : CacheOs :=
  set_locks (filter (fun l => ls_owner l <> owner) (os_locks o)) o.

Definition or_release {A} (owner : Z) (m : cfgm A) : cfgm A := fun o =>
  '(r, o) ← m o;
  Some (match r with Ok _ => (r, o) | _ => (r, release owner o) end).

(** The leases are the inodes locked: of the directories from the root directory
    down, and of the lock file. *)
Record PreparedCacheConfig := mkPrepared {
  pc_root : Comps;
  pc_stage_dir : Comps;
  pc_disk_page_pool_path : Comps;
  pc_memory_page_capacity : Z;
  pc_disk_page_capacity : option Z;
  pc_lease : Z;
  pc_hierarchy_leases : list Z
}.

(** [create_dir_all], from the root directory down. *)
Fixpoint create_dir_all (ps : list Comps) : cfgm () :=
  match ps with
  | [] => mret ()
  | p :: ps =>
      _ ← interfere CCreate p;
      nodes ← op_gets os_nodes;
      _ ← match nodes !! p, is_dir <$> nodes !! target nodes p with
          | None, _ =>
              _ ← op_guard (works env CCreate (mkPath true p)) VCacheRoot;
              op_modify (set_nodes (<[p := mkNode (alloc env nodes) NDir]> nodes))
          | Some _, Some true => mret ()
          | _, _ => op_fail VCacheRoot
          end;
      create_dir_all ps
  end.

(** [OpenOptions] with [create] and [write], which a directory refuses. *)
Definition open_or_create (p : Comps) : cfgm Node :=
  _ ← interfere COpen p;
  _ ← op_guard (works env COpen (mkPath true p)) VCacheRoot;
  nodes ← op_gets os_nodes;
  match nodes !! target nodes p with
  | Some n => _ ← op_guard (negb (is_dir n)) VCacheRoot; mret n
  | None =>
      let n := mkNode (alloc env nodes) (NFile 1) in
      _ ← op_modify (set_nodes (<[target nodes p := n]> nodes));
      mret n
  end.

Definition canonical (p : Path) : cfgm Comps :=
  observe CCanonicalize (p_comps p) (fun o => ok_or (canonicalize env (os_nodes o) p) VCacheRoot).

(** [prepare_cache_paths] once the directories are locked, and once the cache
    directory is resolved. *)
Definition prepare_locked (cfg : Config) (owner memory : Z) (disk : option Z) (expected_root : Comps) (leases : list Z)
    : cfgm PreparedCacheConfig :=
  root ← canonical (cfg_cache_dir cfg);
  _ ← op_guard (bool_decide (root = expected_root)) (VInvalidConfig "cache directory changed");
  let stage_dir := root ++ ["stage"] in
  _ ← validated stage_dir KDirectory;
  _ ← create_dir_all (ancestors stage_dir);
  stage_dir ← canonical (mkPath true stage_dir);
  _ ← op_guard (starts_with stage_dir root) (VInvalidConfig "stage path escaped");
  let lock_path := root ++ [".mount.lock"] in
  _ ← validated lock_path KFile;
  lease ← open_or_create lock_path;
  _ ← try_lock lock_path (nd_ino lease) true owner;
  let pool_path := root ++ ["page-pool.bin"] in
  _ ← validated pool_path KFile;
  mret (mkPrepared root stage_dir pool_path memory disk (nd_ino lease) leases).

Definition prepare_resolved (cfg : Config) (owner memory : Z) (disk : option Z) (expected_root : Comps)
    : cfgm PreparedCacheConfig :=
  leases ← prepare_and_lock_cache_hierarchy expected_root owner;
  prepare_locked cfg owner memory disk expected_root leases.

Definition prepare_cache_paths (cfg : Config) (owner memory : Z) (disk : option Z) : cfgm PreparedCacheConfig :=
  or_release owner (
    _ ← observe CValidate (p_comps (cfg_cache_dir cfg)) (validate_existing_cache_path (cfg_cache_dir cfg) KDirectory);
    expected_root ← observe CCanonicalize (p_comps (cfg_cache_dir cfg)) (resolve_path_for_overlap (cfg_cache_dir cfg));
    prepare_resolved cfg owner memory disk expected_root).

Definition prepare (cfg : Config) (stored : Format) (owner : Z) : cfgm PreparedCacheConfig :=
  _ ← op_lift (validate_layout cfg stored);
  '(memory, disk) ← op_lift (validate_resource_config cfg);
  _ ← look (validate_storage_cache_paths cfg);
  prepare_cache_paths cfg owner memory disk.
End os.

(** ** What a prepared mount can rely on *)

Lemma multiple_divide a b : 0 < b -> is_multiple_of a b = true -> (b | a).
Proof.
  intros Hb. unfold is_multiple_of. rewrite (proj2 (Z.eqb_neq b 0)) by lia. intros H%Z.eqb_eq. apply Z.mod_divide; [lia|done].
Qed.

Lemma capacity_ok cfg name c c' : valid_page_capacity cfg name c = Ok c' -> c' = c /\ 0 < c /\ is_multiple_of c (cfg_page_size cfg) = true.
Proof. unfold valid_page_capacity, ensure. destruct (_ && _) eqn:E; [|done]. to_prop. by intros [= <-]. Qed.

Lemma resources_ok cfg memory disk :
  validate_resource_config cfg = Ok (memory, disk) ->
  memory = cfg_memory_page_capacity cfg /\ disk = cfg_disk_page_capacity cfg /\
  (forall c, Some memory = Some c \/ disk = Some c -> 0 < c /\ is_multiple_of c (cfg_page_size cfg) = true) /\
  0 < cfg_stage_cache_capacity cfg /\ 0 < cfg_memory_read_cache_capacity cfg /\ cfg_shutdown_deadline cfg <> 0.
Proof.
  unfold validate_resource_config. destruct (valid_page_capacity cfg _ (cfg_memory_page_capacity cfg)) as [m| |] eqn:Em; [|done..].
  apply capacity_ok in Em as (-> & Em). cbn -[valid_page_capacity].
  assert (Hd : forall d, match cfg_disk_page_capacity cfg with
      | Some c => c ← valid_page_capacity cfg "disk page capacity" c; Ok (Some c) | None => Ok None end = Ok d ->
    d = cfg_disk_page_capacity cfg /\ forall c, d = Some c -> 0 < c /\ is_multiple_of c (cfg_page_size cfg) = true).
  { intros d. destruct (cfg_disk_page_capacity cfg) as [c|]; [|by intros [= <-]].
    destruct (valid_page_capacity cfg _ c) as [c1| |] eqn:Ec; [|done..]. apply capacity_ok in Ec as (-> & Ec). cbn. intros [= <-].
    split; [done|]. by intros c2 [= <-]. }
  destruct (match cfg_disk_page_capacity cfg with Some _ => _ | None => _ end) as [d| |]; [|done..].
  destruct (Hd d eq_refl) as [-> Hc]. cbn. unfold ensure.
  destruct (0 <? cfg_stage_cache_capacity cfg) eqn:E1; [|done]. cbn. destruct (0 <? cfg_memory_read_cache_capacity cfg) eqn:E2; [|done]. cbn.
  destruct (negb _) eqn:E3; [|done]. cbn. destruct (p_absolute _); [|done]. cbn. intros [= <- <-]. to_prop.
  split_and!; try done. intros c [[= <-]|Hx]; [done|by apply Hc].
Qed.

Lemma layout_ok cfg stored :
  validate_layout cfg stored = Ok () ->
  0 < cfg_page_size cfg /\ (cfg_page_size cfg | cfg_block_size cfg) /\ (cfg_block_size cfg | cfg_chunk_size cfg) /\
  page_size stored = cfg_page_size cfg /\ block_size stored = cfg_block_size cfg /\ chunk_size stored = cfg_chunk_size cfg.
Proof.
  unfold validate_layout, ensure. destruct (_ && _) eqn:E; [|done]. cbn -[layout_mismatch]. to_prop.
  intros HX. assert (Hm : layout_mismatch stored (mkFormat (fmt_name stored) (cfg_chunk_size cfg) (cfg_block_size cfg)
    (cfg_page_size cfg) (max_capacity stored) (max_inodes stored)) = None) by (by destruct (layout_mismatch _ _)). clear HX.
  unfold layout_mismatch in Hm. cbn in Hm. repeat case_match; try done. to_prop.
  split_and!; try done; by apply multiple_divide.
Qed.

(** C36: a mount that was prepared runs on the layout the volume was formatted with,
    its pages divide its blocks and its blocks its chunks, each page pool holds a
    positive whole number of pages, the other capacities and the shutdown deadline
    are positive, and its staged files lie inside its cache root, which is not the
    root directory. *)
Theorem prepared_config_sound env cfg stored owner o pc o' :
  prepare env cfg stored owner o = Some (Ok pc, o') ->
  (0 < page_size stored /\ (page_size stored | block_size stored) /\ (block_size stored | chunk_size stored)) /\
  (cfg_page_size cfg = page_size stored /\ cfg_block_size cfg = block_size stored /\ cfg_chunk_size cfg = chunk_size stored) /\
  (exists k, 0 < k /\ pc_memory_page_capacity pc = k * page_size stored) /\
  (forall c, pc_disk_page_capacity pc = Some c -> exists k, 0 < k /\ c = k * page_size stored) /\
  (0 < cfg_stage_cache_capacity cfg /\ 0 < cfg_memory_read_cache_capacity cfg /\ cfg_shutdown_deadline cfg <> 0) /\
  pc_root pc `prefix_of` pc_stage_dir pc /\ pc_root pc <> [].
Proof.
  intros H. unfold prepare in H. apply bind_ok in H as ([] & o1 & H1 & H). unfold op_lift in H1. injection H1 as HL <-.
  apply bind_ok in H as ([memory disk] & o1 & H1 & H). unfold op_lift in H1. injection H1 as HR <-.
  apply bind_ok in H as ([] & o1 & _ & H). unfold prepare_cache_paths, or_release in H.
  match type of H with context [mbind _ (?m o1)] => destruct (m o1) as [[[pc1| |] o2]|] eqn:E; [|done..] end.
  cbn in H. injection H as -> <-.
  apply bind_ok in E as ([] & o3 & _ & E). apply bind_ok in E as (er & o4 & _ & E).
  apply bind_ok in E as (ls & o5 & Hlock & E). unfold prepare_locked in E. apply bind_ok in E as (root & o6 & _ & E).
  apply bind_ok in E as ([] & o7 & Hg & E). unfold op_guard, op_lift, ensure in Hg.
  destruct (bool_decide (root = er)) eqn:Er; [|done]. apply bool_decide_eq_true in Er as ->. cbv zeta in E.
  do 2 apply bind_ok in E as ([] & ? & _ & E). apply bind_ok in E as (st & o8 & _ & E).
  apply bind_ok in E as ([] & o9 & Hs & E). unfold op_guard, op_lift, ensure in Hs.
  destruct (starts_with st er) eqn:Est; [|done]. unfold starts_with in Est. apply bool_decide_eq_true in Est.
  do 4 apply bind_ok in E as (? & ? & _ & E). injection E as <- _. cbn.
  unfold prepare_and_lock_cache_hierarchy in Hlock. apply bind_ok in Hlock as ([] & ? & Hroot & _).
  unfold op_guard, op_lift, ensure in Hroot. destruct (bool_decide (er = [])) eqn:Ee; [done|]. apply bool_decide_eq_false in Ee.
  destruct (layout_ok _ _ HL) as (L1 & L2 & L3 & L4 & L5 & L6). destruct (resources_ok _ _ _ HR) as (_ & _ & Hcap & R1 & R2 & R3).
  rewrite L4, L5, L6. assert (Hk : forall c, Some memory = Some c \/ disk = Some c -> exists k, 0 < k /\ c = k * cfg_page_size cfg).
  { intros c Hc. destruct (Hcap c Hc) as [Hp Hm]. destruct (multiple_divide _ _ L1 Hm) as [k ->]. exists k. split; [nia|done]. }
  split_and!; try done; eauto.
Qed.

(** ** A run: two mounts beside each other *)

(** New inodes are those neither in the tree nor held open. *)
Definition cr_env (held : list Z) : OsEnv := mkEnv (fun _ _ => true)
  (fun nodes p => match nodes !! p_comps p with Some _ => Some (p_comps p) | None => None end)
  (fun _ => None) (fun _ p => p)
  (fun nodes => infinite_fresh (held ++ (nd_ino ∘ snd <$> map_to_list nodes)))
  (fun _ _ nodes => nodes).

Definition cr_tree : Nodes := {[ [] := mkNode 1 NDir; ["var"] := mkNode 2 NDir ]}.
Definition cr_format : Format := mkFormat "vol" 64 16 4 None None.
Definition cr_config (leaf : string) : Config := mkConfig None (mkPath true ["var"; leaf]) 32 (Some 8) 100 100 30 64 16 4.
Definition cr_prepare (leaf : string) (owner : Z) (o : CacheOs) :=
  prepare (cr_env (ls_ino <$> os_locks o)) (cr_config leaf) cr_format owner o.

Definition cr0 : CacheOs := mkOs cr_tree [].
Definition cr_mounted (leaf : string) (first : Z) (owner : Z) (o : CacheOs) : CacheOs :=
  mkOs (<[["var"; leaf; ".mount.lock"] := mkNode (first + 2) (NFile 1)]> (<[["var"; leaf; "stage"] := mkNode (first + 1) NDir]>
         (<[["var"; leaf] := mkNode first NDir]> (os_nodes o))))
    (os_locks o ++ [mkLease 1 false owner; mkLease 2 false owner; mkLease first true owner; mkLease (first + 2) true owner]).
Definition cr_prepared (leaf : string) (first : Z) : PreparedCacheConfig :=
  mkPrepared ["var"; leaf] ["var"; leaf; "stage"] ["var"; leaf; "page-pool.bin"] 32 (Some 8) (first + 2) [1; 2; first].
Definition cr1 : CacheOs := cr_mounted "a" 3 1 cr0.
Definition cr2 : CacheOs := cr_mounted "b" 6 2 cr1.

Lemma cr_first : cr_prepare "a" 1 cr0 = Some (Ok (cr_prepared "a" 3), cr1).
Proof. vm_compute. reflexivity. Qed.
Lemma cr_second : cr_prepare "b" 2 cr1 = Some (Ok (cr_prepared "b" 6), cr2).
Proof. vm_compute. reflexivity. Qed.

Lemma prepared_config_sound_witness :
  cr_prepare "a" 1 cr0 = Some (Ok (cr_prepared "a" 3), cr1) /\ (page_size cr_format | block_size cr_format).
Proof.
  split; [exact cr_first|].
  exact (proj1 (proj2 (proj1 (prepared_config_sound _ _ _ _ _ _ _ cr_first)))).
Defined.
