(* ===== verification/CacheLocks.v ===== *)
(** * The locks of the cache roots (components/vfs/src/config.rs)

    Any number of mounts prepare, run and stop beside each other.  A preparation is
    the rounds of [prepare_and_lock_cache_hierarchy] and what follows them; each round
    takes one lock, so steps of rounds are all the interleavings there are, and the
    tree may change at any time.  The theorems say who can hold which root, and that
    the locks refuse exactly the roots that overlap with one in use. *)

From S2P Require Import Prelude Common Types Slice SliceKey Meta FileCache Writer Handles Config.
Open Scope Z_scope.

(** ** Who holds which lock *)

(** A mount that is locking the directories of its root, or runs. *)
Inductive Mount := Locking (root : Comps) (leases : list Z) | Running (pc : PreparedCacheConfig).

Definition mt_root (m : Mount) : Comps := match m with Locking root _ => root | Running pc => pc_root pc end.
Definition mt_leases (m : Mount) : list Z := match m with Locking _ ls => ls | Running pc => pc_hierarchy_leases pc end.
Definition lock_file (m : Mount) : option Z := match m with Locking _ _ => None | Running pc => Some (pc_lease pc) end.

(** The directories a mount locked, with the paths it locked them at. *)
Definition chain (m : Mount) : list (Comps * Z) := zip (ancestors (mt_root m)) (mt_leases m).

Arguments ancestors : simpl never.
Arguments chain : simpl never.

Definition complete (m : Mount) : Prop := length (mt_leases m) = length (ancestors (mt_root m)).

(** ** Mounts over time *)

Definition Mounts : Type := CacheOs * gmap Z Mount.

(** The rounds of any number of preparations interleave; in each the others may
    change the tree between the calls, and anyone may change it between rounds.
    A preparation that fails drops its files. *)
Inductive mount_step : Mounts -> Mounts -> Prop :=
| ms_begin owner root o live :
    live !! owner = None -> root <> [] -> mount_step (o, live) (o, <[owner := Locking root []]> live)
| ms_round env owner root leases p o live r o' :
    live !! owner = Some (Locking root leases) -> ancestors root !! length leases = Some p ->
    lock_component env root owner p o = Some (r, o') -> r <> Panic ->
    mount_step (o, live)
      match r with
      | Ok ino => (o', <[owner := Locking root (leases ++ [ino])]> live)
      | _ => (release owner o', delete owner live)
      end
| ms_locked env cfg owner memory disk root leases o live r o' :
    live !! owner = Some (Locking root leases) -> complete (Locking root leases) ->
    prepare_locked env cfg owner memory disk root leases o = Some (r, o') -> r <> Panic ->
    mount_step (o, live)
      match r with
      | Ok pc => (o', <[owner := Running pc]> live)
      | _ => (release owner o', delete owner live)
      end
| ms_unmount owner o live : mount_step (o, live) (release owner o, delete owner live)
| ms_tree n o live : mount_step (o, live) (set_nodes n o, live).

(** *** What a round and the rest of a preparation do to the locks *)

Definition silent {A} (m : cfgm A) : Prop := forall ls, keeps (fun o => os_locks o = ls) m.

Lemma silent_bind {A B} (m : cfgm A) (f : A -> cfgm B) : silent m -> (forall a, silent (f a)) -> silent (m ≫= f).
Proof. intros Hm Hf ls. apply op_keeps_bind; [apply Hm|intros a; apply Hf]. Qed.
Lemma silent_ret {A} (a : A) : silent (mret a).
Proof. intros ls. apply keeps_ret. Qed.
Lemma silent_lift {A} (r : VResult A) : silent (op_lift r).
Proof. intros ls. apply keeps_lift. Qed.
Lemma silent_gets {A} (f : CacheOs -> A) : silent (op_gets f).
Proof. intros ls. apply keeps_gets. Qed.
Lemma silent_look {A} (f : CacheOs -> VResult A) : silent (look f).
Proof. intros ls o r o' [= <- <-]. done. Qed.
Lemma silent_nodes f : silent (op_modify (fun o => set_nodes (f o) o)).
Proof. intros ls. by apply keeps_modify. Qed.

Lemma silent_interfere env c p : silent (interfere env c p).
Proof. apply silent_nodes. Qed.
Lemma silent_observe {A} env c p (f : CacheOs -> VResult A) : silent (observe env c p f).
Proof. apply silent_bind; [apply silent_interfere|]. intros _. apply silent_look. Qed.
Lemma silent_guard b e : silent (op_guard b e).
Proof. apply silent_lift. Qed.
Lemma silent_fail {A} e : silent (A := A) (op_fail e).
Proof. apply silent_lift. Qed.
Lemma silent_validated env p k : silent (validated env p k).
Proof. apply silent_observe. Qed.
Lemma silent_identity env n p : silent (opened_path_identity_matches env n p).
Proof. apply silent_observe. Qed.
Lemma silent_canonical env p : silent (canonical env p).
Proof. apply silent_observe. Qed.
Lemma silent_open env p : silent (open_path env p).
Proof. apply silent_observe. Qed.

Create HintDb locks.
#[export] Hint Resolve silent_bind silent_ret silent_lift silent_gets silent_look silent_interfere silent_observe silent_guard
  silent_fail silent_validated silent_identity silent_canonical silent_open : locks.

(** The outcome of an operation that did not end the program. *)
Definition post {A} (m : cfgm A) (o : CacheOs) (Q : VResult A -> CacheOs -> Prop) : Prop :=
  forall r o', m o = Some (r, o') -> r <> Panic -> Q r o'.

Lemma post_silent {A B} (m : cfgm A) (f : A -> cfgm B) o Q :
  silent m -> (forall e o1, os_locks o1 = os_locks o -> Q (Err e) o1) ->
  (forall a o1, m o = Some (Ok a, o1) -> os_locks o1 = os_locks o -> post (f a) o1 Q) -> post (m ≫= f) o Q.
Proof.
  intros Hs He Hf r o' H Hr. rewrite bind_run in H. destruct (m o) as [[[a|e|] o1]|] eqn:E; [|injection H as <- <-..|done]; [| |done].
  - eapply Hf; [done| |done..]. by eapply Hs.
  - apply He. by eapply Hs.
Qed.

Lemma post_ret {A} (a : A) o (Q : VResult A -> CacheOs -> Prop) : Q (Ok a) o -> post (mret a) o Q.
Proof. intros H r o' [= <- <-] _. done. Qed.

Lemma post_lock {B} env p ino ex owner (f : () -> cfgm B) o Q :
  Q (Err VCacheRoot) o ->
  (existsb (lock_conflict ino ex) (os_locks o) = false -> post (f ()) (set_locks (os_locks o ++ [mkLease ino ex owner]) o) Q) ->
  post (try_lock env p ino ex owner ≫= f) o Q.
Proof.
  intros He Hf r o' H Hr. rewrite bind_run in H. unfold try_lock in H. destruct (works env CLock _); cbn in H.
  - destruct (existsb _ _) eqn:E; [by injection H as <- <-|by apply Hf].
  - by injection H as <- <-.
Qed.

Section lock_facts.
Variable env : OsEnv.

Lemma silent_create_dir p : silent (create_dir env p).
Proof.
  unfold create_dir. apply silent_bind; [auto with locks|]. intros _. apply silent_bind; [auto with locks|]. intros n.
  destruct (n !! p); [auto with locks|]. apply silent_bind; [auto with locks|]. intros _. apply (silent_nodes (fun _ => _)).
Qed.

Lemma silent_create_dir_all ps : silent (create_dir_all env ps).
Proof.
  induction ps as [|p ps IH]; cbn [create_dir_all]; [apply silent_ret|]. apply silent_bind; [auto with locks|]. intros _.
  apply silent_bind; [auto with locks|]. intros n. apply silent_bind; [|done].
  repeat case_match; auto with locks; apply silent_bind; auto with locks; intros _; apply (silent_nodes (fun _ => _)).
Qed.

Lemma silent_open_or_create p : silent (open_or_create env p).
Proof.
  unfold open_or_create. do 2 (apply silent_bind; [auto with locks|intros _]). apply silent_bind; [auto with locks|]. intros n.
  case_match; [auto with locks|]. apply silent_bind; [apply (silent_nodes (fun _ => _))|auto with locks].
Qed.

Hint Resolve silent_create_dir silent_create_dir_all silent_open_or_create : locks.

Lemma identity_ok opened p o b o' :
  opened_path_identity_matches env opened p o = Some (Ok b, o') -> b = true ->
  exists nd, os_nodes o' !! p = Some nd /\ nd_ino nd = nd_ino opened /\ is_dir nd = true.
Proof.
  unfold opened_path_identity_matches, observe. intros H ->. apply bind_ok in H as ([] & o1 & _ & H). injection H as H <-.
  destruct (symlink_metadata env o1 (mkPath true p)) as [[nd|]| |] eqn:E; [|done..]. cbn in H. injection H as H. to_prop.
  unfold symlink_metadata in E. destruct (works _ _ _); [|done]. injection E as E. by exists nd.
Qed.

(** A round that succeeds added one lock, on the inode its path names at the end of
    the round; one that fails added none. *)
Lemma lock_component_post root owner p o :
  post (lock_component env root owner p) o (fun r o' =>
    match r with
    | Ok ino =>
        os_locks o' = os_locks o ++ [mkLease ino (bool_decide (p = root)) owner] /\
        existsb (lock_conflict ino (bool_decide (p = root))) (os_locks o) = false /\
        exists nd, os_nodes o' !! p = Some nd /\ nd_ino nd = ino /\ is_dir nd = true
    | _ => os_locks o' = os_locks o
    end).
Proof.
  unfold lock_component. apply post_silent; [auto with locks|done|]. intros m o1 _ E1.
  apply post_silent; [destruct m; auto with locks|by intros ? ? ->|]. intros [] o2 _ E2.
  apply post_silent; [auto with locks|by intros ? ? ->; congruence|]. intros opened o3 _ E3.
  apply post_silent; [auto with locks|intros ? ? ->; congruence|]. intros same o4 Hs E4.
  apply post_silent; [auto with locks|intros ? ? ->; congruence|]. intros [] o5 Hg E5.
  unfold op_guard, op_lift, ensure in Hg. destruct same; [|done]. injection Hg as <-.
  apply identity_ok in Hs; [|done]. rewrite <- E1, <- E2, <- E3, <- E4.
  apply post_lock; [done|]. intros Hc. apply post_ret. split; [done|]. by split.
Qed.

Lemma prepare_locked_post cfg owner memory disk root leases o :
  post (prepare_locked env cfg owner memory disk root leases) o (fun r o' =>
    match r with
    | Ok pc =>
        pc_root pc = root /\ pc_hierarchy_leases pc = leases /\
        os_locks o' = os_locks o ++ [mkLease (pc_lease pc) true owner] /\
        existsb (lock_conflict (pc_lease pc) true) (os_locks o) = false
    | _ => exists ls, os_locks o' = os_locks o ++ ls /\ forall l, l ∈ ls -> ls_owner l = owner
    end).
Proof.
  assert (Hnil : forall o1 : CacheOs, os_locks o1 = os_locks o ->
    exists ls, os_locks o1 = os_locks o ++ ls /\ forall l, l ∈ ls -> ls_owner l = owner).
  { intros o1 E. exists []. rewrite app_nil_r. split; [done|]. intros l Hl. by apply elem_of_nil in Hl. }
  unfold prepare_locked. apply post_silent; [auto with locks|auto|]. intros root1 o1 _ E1.
  apply post_silent; [auto with locks|intros; apply Hnil; congruence|]. intros [] o2 Hg E2.
  unfold op_guard, op_lift, ensure in Hg. destruct (bool_decide (root1 = root)) eqn:Er; [|done]. apply bool_decide_eq_true in Er as ->.
  cbv zeta. apply post_silent; [auto with locks|intros; apply Hnil; congruence|]. intros [] o3 _ E3.
  apply post_silent; [auto with locks|intros; apply Hnil; congruence|]. intros [] o4 _ E4.
  apply post_silent; [auto with locks|intros; apply Hnil; congruence|]. intros st o5 _ E5.
  apply post_silent; [auto with locks|intros; apply Hnil; congruence|]. intros [] o6 _ E6.
  apply post_silent; [auto with locks|intros; apply Hnil; congruence|]. intros [] o7 _ E7.
  apply post_silent; [auto with locks|intros; apply Hnil; congruence|]. intros lease o8 _ E8.
  assert (El : os_locks o8 = os_locks o) by congruence.
  apply post_lock; [by apply Hnil|]. rewrite El. intros Hc.
  apply post_silent; [auto with locks| |].
  - intros e o9 E9. cbn in E9. eexists. split; [exact E9|]. by intros l ->%list_elem_of_singleton.
  - intros [] o9 _ E9. apply post_ret. by split_and!.
Qed.
End lock_facts.

(** *** The locks of all mounts *)

Definition compatible (l1 l2 : Lease) : Prop :=
  ls_ino l1 = ls_ino l2 -> ls_exclusive l1 = false /\ ls_exclusive l2 = false.

Record MountsInv (m : Mounts) : Prop := {
  mi_lease : forall l, l ∈ os_locks m.1 -> exists mt, m.2 !! ls_owner l = Some mt /\
    ((exists p, (p, ls_ino l) ∈ chain mt /\ ls_exclusive l = bool_decide (p = mt_root mt)) \/ lock_file mt = Some (ls_ino l));
  mi_held : forall owner mt p i, m.2 !! owner = Some mt -> (p, i) ∈ chain mt ->
    mkLease i (bool_decide (p = mt_root mt)) owner ∈ os_locks m.1;
  mi_compatible : forall l1 l2, l1 ∈ os_locks m.1 -> l2 ∈ os_locks m.1 -> ls_owner l1 <> ls_owner l2 -> compatible l1 l2;
  mi_complete : forall owner pc, m.2 !! owner = Some (Running pc) -> complete (Running pc)
}.

Lemma compatible_sym l1 l2 : compatible l1 l2 -> compatible l2 l1.
Proof. unfold compatible. intros H E. by destruct (H (eq_sym E)). Qed.

Lemma no_conflict ino ex owner ls l :
  existsb (lock_conflict ino ex) ls = false -> l ∈ ls -> compatible l (mkLease ino ex owner).
Proof.
  intros H Hl E. cbn in *. destruct (lock_conflict ino ex l) eqn:Ec.
  - assert (existsb (lock_conflict ino ex) ls = true); [|congruence]. apply existsb_exists. exists l. by rewrite <- list_elem_of_In.
  - unfold lock_conflict in Ec. rewrite bool_decide_true in Ec by done. cbn in Ec. by apply orb_false_iff in Ec as [-> ->].
Qed.

(** A mount that took one lock more. *)
Lemma extend_inv o o' live owner mt mt' ino ex :
  MountsInv (o, live) -> live !! owner = Some mt -> os_locks o' = os_locks o ++ [mkLease ino ex owner] ->
  existsb (lock_conflict ino ex) (os_locks o) = false ->
  mt_root mt' = mt_root mt -> chain mt ⊆ chain mt' -> lock_file mt = None ->
  (forall p i, (p, i) ∈ chain mt' -> (p, i) ∈ chain mt \/ i = ino /\ ex = bool_decide (p = mt_root mt')) ->
  ((exists p, (p, ino) ∈ chain mt' /\ ex = bool_decide (p = mt_root mt')) \/ lock_file mt' = Some ino) ->
  (forall pc, mt' = Running pc -> complete mt') ->
  MountsInv (o', <[owner := mt']> live).
Proof.
  intros [I1 I2 I3 I4] Hm El Hc Hr Hsub Hf Hch Hnew Hcp. cbn in *. constructor; cbn.
  - intros l Hl. rewrite El in Hl. apply elem_of_app in Hl as [Hl| ->%list_elem_of_singleton].
    + destruct (I1 l Hl) as (mt1 & H1 & H2). destruct (decide (ls_owner l = owner)) as [E|Hne].
      * rewrite E in *. assert (mt1 = mt) as -> by congruence. exists mt'. rewrite lookup_insert_eq, Hr. split; [done|].
        destruct H2 as [(p & Hp & He)|H2]; [|congruence]. left. exists p. split; [by apply Hsub|done].
      * exists mt1. by rewrite lookup_insert_ne.
    + exists mt'. cbn. by rewrite lookup_insert_eq.
  - intros ow mt1 p i [[<- <-]|[_ H1]]%lookup_insert_Some Hp; rewrite El; apply elem_of_app.
    + destruct (Hch p i Hp) as [H1|[-> ->]]; [left; rewrite Hr; by apply I2|right; by apply list_elem_of_singleton].
    + left. by apply I2.
  - intros l1 l2 H1 H2 Hne. rewrite El in H1, H2.
    apply elem_of_app in H1 as [H1|E1%list_elem_of_singleton], H2 as [H2|E2%list_elem_of_singleton]; subst; cbn in *.
    + by apply I3.
    + by eapply no_conflict.
    + apply compatible_sym. by eapply no_conflict.
    + done.
  - intros ow pc [[<- ->]|[_ H1]]%lookup_insert_Some; eauto.
Qed.

(** A mount that is gone with its locks; those it took since [o] do not matter. *)
Lemma release_inv o o' live owner ls :
  MountsInv (o, live) -> os_locks o' = os_locks o ++ ls -> (forall l, l ∈ ls -> ls_owner l = owner) ->
  MountsInv (release owner o', delete owner live).
Proof.
  intros [I1 I2 I3 I4] El Hls. cbn in *.
  assert (Hin : forall l, l ∈ os_locks (release owner o') <-> ls_owner l <> owner /\ l ∈ os_locks o).
  { intros l. cbn. rewrite list_elem_of_filter, El, elem_of_app. pose proof (Hls l). tauto. }
  constructor; cbn [fst snd].
  - intros l [Hne Hl]%Hin. destruct (I1 l Hl) as (mt & Hm & Hl'). exists mt. by rewrite lookup_delete_ne.
  - intros ow mt p i [Hne Hm]%lookup_delete_Some Hp. apply Hin. split; [done|]. by apply I2.
  - intros l1 l2 [_ H1]%Hin [_ H2]%Hin. by apply I3.
  - intros ow pc [_ Hm]%lookup_delete_Some. eauto.
Qed.

Lemma zip_snoc {A B} (l : list A) (k : list B) p x :
  l !! length k = Some p -> zip l (k ++ [x]) = zip l k ++ [(p, x)].
Proof.
  revert l. induction k as [|y k IH]; intros [|q l] H; cbn in *; [done| |done|by rewrite IH].
  injection H as ->. by destruct l.
Qed.

Lemma chain_snoc root leases p ino :
  ancestors root !! length leases = Some p ->
  chain (Locking root (leases ++ [ino])) = chain (Locking root leases) ++ [(p, ino)].
Proof. apply zip_snoc. Qed.

Lemma begin_inv o live owner root :
  live !! owner = None -> MountsInv (o, live) -> MountsInv (o, <[owner := Locking root []]> live).
Proof.
  intros Hn [I1 I2 I3 I4]. constructor; cbn in *.
  - intros l Hl. destruct (I1 l Hl) as (mt & Hm & Hl'). exists mt. rewrite lookup_insert_ne by congruence. done.
  - intros ow mt p i [[<- <-]|[_ Hm]]%lookup_insert_Some Hp; [|by apply I2]. unfold chain in Hp. cbn [mt_leases] in Hp.
    rewrite zip_with_nil_r in Hp. by apply elem_of_nil in Hp.
  - done.
  - intros ow pc [[_ ?]|[_ Hm]]%lookup_insert_Some; [done|]. eauto.
Qed.

Lemma round_inv env o o' live owner root leases p ino :
  MountsInv (o, live) -> live !! owner = Some (Locking root leases) -> ancestors root !! length leases = Some p ->
  lock_component env root owner p o = Some (Ok ino, o') -> MountsInv (o', <[owner := Locking root (leases ++ [ino])]> live).
Proof.
  intros I Hm Hp H. destruct (lock_component_post env root owner p o _ _ H) as (El & Hc & _); [done|].
  eapply extend_inv; [done|exact Hm|exact El|done|done|..]; try done; rewrite (chain_snoc root leases p ino Hp).
  - intros x Hx. apply elem_of_app. by left.
  - intros q i [Hq|[= -> ->]%list_elem_of_singleton]%elem_of_app; [by left|by right].
  - left. exists p. split; [|done]. apply elem_of_app. right. by apply list_elem_of_singleton.
Qed.

Lemma mount_step_inv m m' : mount_step m m' -> MountsInv m -> MountsInv m'.
Proof.
  intros Hst I. destruct Hst as [owner root o live Hn Hr|env owner root leases p o live r o' Hm Hp H Hr
    |env cfg owner memory disk root leases o live r o' Hm Hcp H Hr|owner o live|n o live].
  - by apply begin_inv.
  - pose proof (lock_component_post env root owner p o _ _ H Hr) as Hpost. destruct r as [ino|e|]; [by eapply round_inv|..];
      (eapply (release_inv _ _ _ _ []); [done|by rewrite app_nil_r|]; intros l Hl; by apply elem_of_nil in Hl).
  - pose proof (prepare_locked_post env cfg owner memory disk root leases o _ _ H Hr) as Hpost.
    destruct r as [pc|e|]; [|destruct Hpost as (ls & El & Hls); by eapply release_inv..].
    destruct Hpost as (Er & Els & El & Hc). assert (Ech : chain (Running pc) = chain (Locking root leases))
      by (unfold chain; cbn; by rewrite Er, Els).
    eapply extend_inv; [done|exact Hm|exact El|done|done|rewrite Ech; done|done|rewrite Ech; by left|by right|].
    intros pc' _. unfold complete in *. cbn in *. by rewrite Er, Els.
  - eapply (release_inv _ _ _ _ []); [done|by rewrite app_nil_r|]. intros l Hl. by apply elem_of_nil in Hl.
  - by destruct I.
Qed.

Lemma mount_steps_inv m m' : rtc mount_step m m' -> MountsInv m -> MountsInv m'.
Proof. induction 1; eauto using mount_step_inv. Qed.

Lemma no_mounts n : MountsInv (mkOs n [], ∅).
Proof. constructor; cbn; [intros l Hl; by apply elem_of_nil in Hl|done|intros l1 l2 Hl; by apply elem_of_nil in Hl|done]. Qed.

(** *** Directories that stay where they were locked *)

Definition in_place (o : CacheOs) (mt : Mount) : Prop :=
  forall p i, (p, i) ∈ chain mt -> exists nd, os_nodes o !! p = Some nd /\ nd_ino nd = i /\ is_dir nd = true.

Definition placed (m : Mounts) : Prop := forall owner mt, m.2 !! owner = Some mt -> in_place m.1 mt.

(** A step during which nobody moves or removes a directory that a mount keeps
    locked. *)
Definition calm_step (m m' : Mounts) : Prop :=
  mount_step m m' /\
  forall owner mt, m.2 !! owner = Some mt -> is_Some (m'.2 !! owner) -> in_place m.1 mt -> in_place m'.1 mt.

Lemma calm_step_placed m m' : calm_step m m' -> placed m -> placed m'.
Proof.
  intros [Hst Hcalm] Hpl. unfold placed in *. assert (Hold : forall ow mt, m.2 !! ow = Some mt -> is_Some (m'.2 !! ow) -> in_place m'.1 mt) by eauto.
  destruct Hst as [owner root o live Hn Hr|env owner root leases p o live r o' Hm Hp H Hr
    |env cfg owner memory disk root leases o live r o' Hm Hcp H Hr|owner o live|n o live]; cbn [fst snd] in *.
  - intros ow mt Hmt; apply lookup_insert_Some in Hmt as [[<- <-]|[_ H1]]; [|by eapply Hpl]. intros p i Hp. unfold chain in Hp. cbn [mt_leases] in Hp.
    rewrite zip_with_nil_r in Hp. by apply elem_of_nil in Hp.
  - pose proof (lock_component_post env root owner p o _ _ H Hr) as Hpost.
    destruct r as [ino|e|]; cbn [fst snd] in *; [|intros ow mt Hmt; apply lookup_delete_Some in Hmt as [Hne H1]; eapply Hold;
      [done|rewrite lookup_delete_ne by done; eauto]..].
    destruct Hpost as (_ & _ & Hnd). intros ow mt Hmt. apply lookup_insert_Some in Hmt as [[<- <-]|[Hne H1]].
    + cbn [fst]. intros q i Hq. rewrite (chain_snoc root leases p ino Hp) in Hq.
      apply elem_of_app in Hq as [Hq|[= -> ->]%list_elem_of_singleton]; [|done].
      eapply Hold; [exact Hm|by rewrite lookup_insert_eq|done].
    + eapply Hold; [done|]. rewrite lookup_insert_ne by done. eauto.
  - pose proof (prepare_locked_post env cfg owner memory disk root leases o _ _ H Hr) as Hpost.
    destruct r as [pc|e|]; cbn [fst snd] in *; [|intros ow mt Hmt; apply lookup_delete_Some in Hmt as [Hne H1]; eapply Hold;
      [done|rewrite lookup_delete_ne by done; eauto]..].
    destruct Hpost as (Er & Els & _). intros ow mt Hmt. apply lookup_insert_Some in Hmt as [[<- <-]|[Hne H1]].
    + intros q i Hq. eapply Hold; [exact Hm|by rewrite lookup_insert_eq|]. unfold chain in Hq. cbn in Hq. by rewrite Er, Els in Hq.
    + eapply Hold; [done|]. rewrite lookup_insert_ne by done. eauto.
  - intros ow mt Hmt. apply lookup_delete_Some in Hmt as [Hne H1]. by eapply (Hpl ow).
  - intros ow mt H1. eapply (Hold ow); [done|]. cbn in *. eauto.
Qed.

Lemma calm_steps_mount m m' : rtc calm_step m m' -> rtc mount_step m m'.
Proof. apply rtc_subrel. by intros ? ? []. Qed.

Lemma calm_steps_placed m m' : rtc calm_step m m' -> placed m -> placed m'.
Proof. induction 1; eauto using calm_step_placed. Qed.

(** *** Roots of different mounts *)

Lemma ancestors_prefix root p : p ∈ ancestors root <-> p `prefix_of` root.
Proof.
  unfold ancestors. rewrite list_elem_of_fmap. split.
  - intros (n & -> & _). exists (drop n root). by rewrite take_drop.
  - intros [k ->]. exists (length p). split; [by rewrite take_app_length|]. apply elem_of_seq. rewrite length_app. lia.
Qed.

Lemma chain_prefix mt p i : (p, i) ∈ chain mt -> p `prefix_of` mt_root mt.
Proof. intros H. unfold chain in H. apply elem_of_zip_l in H. by apply ancestors_prefix. Qed.

Lemma complete_chain mt p : complete mt -> p `prefix_of` mt_root mt -> exists i, (p, i) ∈ chain mt.
Proof.
  intros Hc Hp%ancestors_prefix. apply list_elem_of_lookup in Hp as [k Hk].
  destruct (lookup_lt_is_Some_2 (mt_leases mt) k) as [i Hi].
  { rewrite Hc. by apply lookup_lt_Some in Hk. }
  exists i. apply list_elem_of_lookup. exists k. unfold chain. rewrite lookup_zip_with, Hk. cbn. by rewrite Hi.
Qed.

Lemma overlap_prefix r1 r2 : paths_overlap r1 r2 = true -> r1 `prefix_of` r2 \/ r2 `prefix_of` r1.
Proof.
  unfold paths_overlap, starts_with. rewrite !orb_true_iff, !bool_decide_eq_true. intros [[->|H]|H]; auto.
Qed.

(** No other mount locked the directory that is the root of a mount. *)
Lemma root_locked_once m a b ma mb p i :
  MountsInv m -> m.2 !! a = Some ma -> m.2 !! b = Some mb -> a <> b ->
  (mt_root ma, i) ∈ chain ma -> (p, i) ∈ chain mb -> False.
Proof.
  intros [I1 I2 I3 I4] Ha Hb Hne Hi Hp. pose proof (I2 _ _ _ _ Ha Hi) as H1. pose proof (I2 _ _ _ _ Hb Hp) as H2.
  destruct (I3 _ _ H1 H2 Hne eq_refl) as [H _]. cbn in H. by rewrite bool_decide_true in H.
Qed.

Lemma prefix_apart m a b ma mb :
  MountsInv m -> placed m -> m.2 !! a = Some ma -> m.2 !! b = Some mb -> a <> b -> complete ma -> complete mb ->
  mt_root ma `prefix_of` mt_root mb -> False.
Proof.
  intros I Hpl Ha Hb Hne Ca Cb Hp.
  destruct (complete_chain ma (mt_root ma) Ca) as [i Hi]; [done|]. destruct (complete_chain mb (mt_root ma) Cb Hp) as [j Hj].
  destruct (Hpl _ _ Ha _ _ Hi) as (nd & E1 & <- & _). destruct (Hpl _ _ Hb _ _ Hj) as (nd' & E2 & <- & _).
  assert (nd' = nd) as -> by congruence. by eapply (root_locked_once m a b).
Qed.

Lemma roots_apart m a b ma mb :
  MountsInv m -> placed m -> m.2 !! a = Some ma -> m.2 !! b = Some mb -> a <> b -> complete ma -> complete mb ->
  paths_overlap (mt_root ma) (mt_root mb) = false.
Proof.
  intros I Hpl Ha Hb Hne Ca Cb. apply not_true_is_false. intros [Hp|Hp]%overlap_prefix.
  - by eapply (prefix_apart m a b).
  - by eapply (prefix_apart m b a).
Qed.


(** *** A preparation is a run of these steps *)

(** Where the locks of one preparation lead: to the mount with them, or to none. *)
Definition locked_to {A} (owner : Z) (live : gmap Z Mount) (f : A -> Mount) (r : VResult A) (o' : CacheOs) : Mounts :=
  match r with Ok a => (o', <[owner := f a]> live) | _ => (release owner o', delete owner live) end.

Section steps.
Variable env : OsEnv.

Lemma lock_components_steps (R : relation Mounts) root owner :
  (forall p leases o live r o', live !! owner = Some (Locking root leases) -> ancestors root !! length leases = Some p ->
    lock_component env root owner p o = Some (r, o') -> r <> Panic ->
    R (o, live) (locked_to owner live (fun ino => Locking root (leases ++ [ino])) r o')) ->
  forall ps leases o live r o', drop (length leases) (ancestors root) = ps -> live !! owner = Some (Locking root leases) ->
    lock_components env root owner ps o = Some (r, o') -> r <> Panic ->
    rtc R (o, live) (locked_to owner live (fun ls => Locking root (leases ++ ls)) r o').
Proof.
  intros HR ps. induction ps as [|p ps IH]; intros leases o live r o' Hd Hm H Hr; cbn [lock_components] in H.
  { injection H as <- <-. cbn. rewrite app_nil_r, insert_id by done. apply rtc_refl. }
  assert (Hp : ancestors root !! length leases = Some p).
  { rewrite <- (Nat.add_0_r (length leases)), <- lookup_drop, Hd. done. }
  rewrite bind_run in H. destruct (lock_component env root owner p o) as [[[ino|e|] o1]|] eqn:E; [|injection H as <- <-..|done]; [| |done].
  - eapply rtc_l; [by eapply HR|]. cbn [locked_to]. rewrite bind_run in H.
    destruct (lock_components env root owner ps o1) as [[r1 o2]|] eqn:E1; [|done].
    assert (Hr1 : r1 <> Panic) by (intros ->; by injection H as <- <-).
    assert (Hs : rtc R (o1, <[owner := Locking root (leases ++ [ino])]> live)
      (locked_to owner (<[owner := Locking root (leases ++ [ino])]> live) (fun ls => Locking root ((leases ++ [ino]) ++ ls)) r1 o2)).
    { eapply IH; [|by rewrite lookup_insert_eq|done|done]. rewrite length_app. cbn. rewrite <- drop_drop, Hd. done. }
    destruct r1 as [ls|e1|]; injection H as <- <-; cbn in Hs |- *; [|by rewrite delete_insert_eq in Hs|done].
    by rewrite insert_insert_eq, <- app_assoc in Hs.
  - eapply rtc_once, (HR p leases _ _ (Err e)); done.
Qed.

Lemma lock_components_length root owner ps o ls o' : lock_components env root owner ps o = Some (Ok ls, o') -> length ls = length ps.
Proof.
  revert o o' ls. induction ps as [|p ps IH]; intros o o' ls E; cbn [lock_components] in E; [by injection E as <- <-|].
  apply bind_ok in E as (i & o2 & _ & E). apply bind_ok in E as (js & o3 & E & E'). injection E' as <- <-. cbn. f_equal. eauto.
Qed.

Lemma prepare_resolved_steps cfg owner memory disk root o live r o' :
  live !! owner = None -> prepare_resolved env cfg owner memory disk root o = Some (r, o') -> r <> Panic ->
  rtc mount_step (o, live) (locked_to owner live Running r o').
Proof.
  intros Hn H Hr. unfold prepare_resolved, prepare_and_lock_cache_hierarchy in H. rewrite !bind_run in H.
  assert (Hstop : mount_step (o, live) (release owner o, delete owner live)) by apply ms_unmount.
  destruct (bool_decide (root = [])) eqn:Er; cbn -[lock_components] in H; [injection H as <- <-; by apply rtc_once|].
  apply bool_decide_eq_false in Er. eapply rtc_l; [by apply (ms_begin owner root)|].
  destruct (lock_components env root owner (ancestors root) o) as [[r1 o1]|] eqn:E; [|done].
  assert (Hr1 : r1 <> Panic) by (intros ->; by injection H as <- <-).
  assert (Hs : rtc mount_step (o, <[owner := Locking root []]> live)
    (locked_to owner (<[owner := Locking root []]> live) (fun ls => Locking root ([] ++ ls)) r1 o1)).
  { eapply (lock_components_steps mount_step root owner); [|done|by rewrite lookup_insert_eq|done|done].
    intros p leases o2 live2 r2 o2' Hm Hp H2 Hr2. pose proof (ms_round env owner root leases p o2 live2 r2 o2' Hm Hp H2 Hr2). by destruct r2. }
  destruct r1 as [ls|e|]; [|injection H as <- <-; cbn in Hs |- *; by rewrite delete_insert_eq in Hs|done].
  cbn in Hs. rewrite insert_insert_eq in Hs. etrans; [exact Hs|]. apply rtc_once.
  assert (Hc : complete (Locking root ls)) by (by eapply lock_components_length).
  pose proof (ms_locked env cfg owner memory disk root ls o1 (<[owner := Locking root ls]> live) r o'
    ltac:(by rewrite lookup_insert_eq) Hc H Hr) as Hst.
  destruct r; cbn; [by rewrite insert_insert_eq in Hst|by rewrite delete_insert_eq in Hst|done].
Qed.

(** [prepare], run while others change the tree, is a run of the steps above: it
    ends with the mount running, or with the locks of before. *)
Lemma prepare_steps cfg stored owner o live r o' :
  live !! owner = None -> prepare env cfg stored owner o = Some (r, o') -> r <> Panic ->
  rtc mount_step (o, live) (match r with Ok pc => (o', <[owner := Running pc]> live) | _ => (o', live) end).
Proof.
  intros Hn H Hr. unfold prepare in H. rewrite bind_run in H.
  destruct (validate_layout cfg stored) as [[]|e|] eqn:E1; cbn in H; [|injection H as <- <-; apply rtc_refl|by injection H as <- <-].
  rewrite bind_run in H. destruct (validate_resource_config cfg) as [[memory disk]|e|] eqn:E2; cbn in H; [|injection H as <- <-; apply rtc_refl|by injection H as <- <-].
  rewrite bind_run in H. unfold look in H.
  destruct (validate_storage_cache_paths env cfg o) as [[]|e|] eqn:E3; [|injection H as <- <-; apply rtc_refl|by injection H as <- <-].
  unfold prepare_cache_paths, or_release in H.
  match type of H with context [mbind _ (?m o)] => destruct (m o) as [[r1 o1]|] eqn:E; [|done] end. cbn in H.
  assert (Hr1 : r1 <> Panic) by (intros ->; injection H as <- <-; done).
  assert (Hs : rtc mount_step (o, live) (locked_to owner live Running r1 o1)).
  { unfold observe, interfere in E. rewrite !bind_run in E. cbn -[prepare_resolved] in E.
    eapply rtc_l; [apply (ms_tree (others env CValidate (p_comps (cfg_cache_dir cfg)) (os_nodes o)))|].
    destruct (validate_existing_cache_path env _ _ _) as [[]|e|]; [|injection E as <- <-; apply rtc_once, ms_unmount|by injection E as <- <-].
    rewrite !bind_run in E. cbn -[prepare_resolved] in E. eapply rtc_l; [apply (ms_tree (others env CCanonicalize (p_comps (cfg_cache_dir cfg))
      (others env CValidate (p_comps (cfg_cache_dir cfg)) (os_nodes o))))|].
    destruct (resolve_path_for_overlap env _ _) as [er|e|]; [|injection E as <- <-; apply rtc_once, ms_unmount|by injection E as <- <-].
    by eapply prepare_resolved_steps. }
  destruct r1; injection H as <- <-; cbn in Hs; [done|by rewrite delete_id in Hs|done].
Qed.
End steps.

(** *** A root that is free is given *)

Lemma prefix_overlap r1 r2 : r1 `prefix_of` r2 -> paths_overlap r2 r1 = true.
Proof. intros H. unfold paths_overlap, starts_with. rewrite (bool_decide_true (r1 `prefix_of` r2)) by done. by rewrite orb_true_r. Qed.
Lemma prefix_overlap' r1 r2 : r1 `prefix_of` r2 -> paths_overlap r1 r2 = true.
Proof. intros H. unfold paths_overlap, starts_with. rewrite (bool_decide_true (r1 `prefix_of` r2)) by done. by rewrite !orb_true_r. Qed.

Lemma ancestors_nodup root : NoDup (ancestors root).
Proof.
  unfold ancestors. apply NoDup_fmap_2_strong; [|apply NoDup_seq]. intros i j Hi Hj E. apply elem_of_seq in Hi, Hj.
  apply (f_equal length) in E. rewrite !length_take in E. lia.
Qed.

(** What exists on the way to the root is a directory. *)
Definition all_dirs (ps : list Comps) (o : CacheOs) : Prop :=
  forall p nd, p ∈ ps -> os_nodes o !! p = Some nd -> is_dir nd = true.

(** Inode numbers as the operating system gives them out: two directories have
    different ones, a directory has not that of a lock file held open, and a new
    directory has one of its own. *)
Record Tidy (env : OsEnv) (o : CacheOs) (live : gmap Z Mount) : Prop := {
  td_dirs : forall p q nd nd', os_nodes o !! p = Some nd -> os_nodes o !! q = Some nd' ->
    is_dir nd = true -> is_dir nd' = true -> nd_ino nd = nd_ino nd' -> p = q;
  td_files : forall b mt i p nd, live !! b = Some mt -> lock_file mt = Some i -> os_nodes o !! p = Some nd ->
    is_dir nd = true -> nd_ino nd <> i;
  td_alloc : forall n p nd, n !! p = Some nd -> nd_ino nd <> alloc env n;
  td_alloc_files : forall b mt i n, live !! b = Some mt -> lock_file mt = Some i -> alloc env n <> i
}.

Section progress.
Variable env : OsEnv.
(** The calls work and nobody interferes. *)
Hypothesis all_work : forall c p, works env c p = true.
Hypothesis alone : forall c p n, others env c p n = n.

(** The tree after the round for [p]. *)
Definition with_dir (p : Comps) (nodes : Nodes) : Nodes :=
  match nodes !! p with Some _ => nodes | None => <[p := mkNode (alloc env nodes) NDir]> nodes end.

Lemma with_dir_at p o : all_dirs [p] o -> exists nd, with_dir p (os_nodes o) !! p = Some nd /\ is_dir nd = true.
Proof.
  intros Hd. unfold with_dir. destruct (os_nodes o !! p) as [nd|] eqn:E; [|eexists; by rewrite lookup_insert_eq].
  exists nd. split; [done|]. eapply Hd; [|done]. by apply list_elem_of_singleton.
Qed.

Lemma with_dir_grows p nodes : nodes ⊆ with_dir p nodes.
Proof. unfold with_dir. destruct (nodes !! p) eqn:E; [done|]. by apply insert_subseteq. Qed.

Lemma observe_alone {A} c p (f : CacheOs -> VResult A) o : observe env c p f o = Some (f o, o).
Proof. unfold observe, interfere. rewrite bind_run. cbn. rewrite alone. by destruct o. Qed.

Lemma lstat p o : symlink_metadata env o (mkPath true p) = Ok (os_nodes o !! p).
Proof. unfold symlink_metadata. by rewrite all_work. Qed.

Lemma lock_component_alone root owner p o :
  all_dirs [p] o ->
  exists nd, with_dir p (os_nodes o) !! p = Some nd /\ is_dir nd = true /\
    lock_component env root owner p o =
      if existsb (lock_conflict (nd_ino nd) (bool_decide (p = root))) (os_locks o)
      then Some (Err VCacheRoot, set_nodes (with_dir p (os_nodes o)) o)
      else Some (Ok (nd_ino nd), mkOs (with_dir p (os_nodes o)) (os_locks o ++ [mkLease (nd_ino nd) (bool_decide (p = root)) owner])).
Proof.
  intros Hd. destruct (with_dir_at p o Hd) as (nd & Hnd & Hdir). exists nd. split_and!; [done..|].
  set (o1 := set_nodes (with_dir p (os_nodes o)) o).
  assert (Hkind : nd_kind nd = NDir) by (unfold is_dir in Hdir; by apply bool_decide_eq_true in Hdir).
  assert (Hprep : match os_nodes o !! p with Some _ => validated env p KDirectory | None => create_dir env p end o = Some (Ok (), o1)).
  { subst o1. unfold with_dir in *. destruct (os_nodes o !! p) as [nd1|] eqn:E.
    - injection (eq_trans (eq_sym E) Hnd) as ->. unfold validated. rewrite observe_alone. unfold validate_existing_cache_path. rewrite lstat, E.
      cbn. rewrite Hkind. by destruct o.
    - unfold create_dir, interfere, op_modify. rewrite bind_run, alone, bind_run. unfold op_gets. cbn [os_nodes set_nodes]. rewrite E, bind_run.
      unfold op_guard, op_lift. rewrite all_work. done. }
  unfold lock_component. rewrite bind_run, observe_alone, lstat, bind_run, Hprep, bind_run. unfold open_path.
  rewrite observe_alone, all_work. unfold target. cbn [os_nodes o1 set_nodes]. rewrite Hnd. cbn [fmap option_fmap option_map].
  rewrite Hkind, Hnd. cbn [ok_or]. rewrite bind_run. unfold opened_path_identity_matches. rewrite observe_alone, lstat.
  cbn [os_nodes o1 set_nodes]. rewrite Hnd.
  assert (Hm : (m ← Ok (Some nd); current ← ok_or m VCacheRoot; Ok (bool_decide (nd_ino nd = nd_ino current) && is_dir nd && is_dir current)) = Ok true :> VResult bool).
  { cbn. by rewrite Hdir, bool_decide_true. }
  rewrite Hm, bind_run. unfold op_guard, op_lift. cbn [ensure andb]. rewrite bind_run. unfold try_lock. rewrite all_work. cbn [negb orb].
  subst o1. cbn [os_locks set_nodes]. by destruct (existsb _ _).
Qed.

(** A round nobody disturbs is calm. *)
Lemma round_calm root owner p leases o live r o' :
  all_dirs [p] o -> live !! owner = Some (Locking root leases) -> ancestors root !! length leases = Some p ->
  lock_component env root owner p o = Some (r, o') -> r <> Panic ->
  calm_step (o, live) (locked_to owner live (fun ino => Locking root (leases ++ [ino])) r o') /\ os_nodes o' = with_dir p (os_nodes o).
Proof.
  intros Hd Hm Hp H Hr. destruct (lock_component_alone root owner p o Hd) as (nd & _ & _ & E). rewrite E in H.
  assert (Hn : os_nodes o' = with_dir p (os_nodes o)) by (destruct (existsb _ _); injection H as <- <-; done). split; [|done]. split.
  - rewrite <- E in H. pose proof (ms_round env owner root leases p o live r o' Hm Hp H Hr). by destruct r.
  - intros ow mt _ _ Hpl q i Hq. destruct (Hpl q i Hq) as (nd1 & H1 & H2). exists nd1. split; [|done].
    assert (Hn' : os_nodes (locked_to owner live (fun ino => Locking root (leases ++ [ino])) r o').1 = with_dir p (os_nodes o)) by (by destruct r).
    rewrite Hn'. eapply lookup_weaken; [exact H1|apply with_dir_grows].
Qed.

Lemma with_dir_lookup p q nodes nd :
  with_dir p nodes !! q = Some nd -> nodes !! q = Some nd \/ q = p /\ nd = mkNode (alloc env nodes) NDir.
Proof.
  unfold with_dir. destruct (nodes !! p) eqn:E; [by left|]. intros [[<- <-]|[_ H]]%lookup_insert_Some; [by right|by left].
Qed.

Lemma with_dir_tidy p o o' live : Tidy env o live -> os_nodes o' = with_dir p (os_nodes o) -> Tidy env o' live.
Proof.
  intros [T1 T2 T3 T4] E. constructor; [| |done..]; rewrite E.
  - intros q q' nd nd' [H1|[-> ->]]%with_dir_lookup [H2|[-> ->]]%with_dir_lookup D1 D2 Hi; [eauto|..|done].
    + by destruct (T3 _ _ _ H1).
    + by destruct (T3 _ _ _ H2).
  - intros b mt i q nd Hb Hf [H1|[-> ->]]%with_dir_lookup D; [eauto|]. cbn. eauto.
Qed.

(** The lock of the next directory is free: whoever holds a lock on it locked it at
    the same path, as a directory on the way to another root. *)
Lemma next_lock_free root owner leases p o live nd nodes :
  MountsInv (o, live) -> placed (o, live) -> os_nodes o ⊆ nodes -> Tidy env (set_nodes nodes o) live ->
  live !! owner = Some (Locking root leases) -> ancestors root !! length leases = Some p ->
  (forall b mt, b <> owner -> live !! b = Some mt -> complete mt /\ paths_overlap root (mt_root mt) = false) ->
  nodes !! p = Some nd -> is_dir nd = true ->
  existsb (lock_conflict (nd_ino nd) (bool_decide (p = root))) (os_locks o) = false.
Proof.
  intros I Hpl Hsub T Hm Hp Hfree Hnd Hdir. destruct (existsb _ _) eqn:Ex; [exfalso|done].
  apply existsb_exists in Ex as (l & Hl%list_elem_of_In & Hc). unfold lock_conflict in Hc.
  apply andb_prop in Hc as [Hi%bool_decide_eq_true Hc]. destruct (mi_lease _ I l Hl) as (mt & Hmt & [(q & Hq & He)|Hf]); cbn in Hmt.
  - destruct (Hpl _ _ Hmt _ _ Hq) as (nd' & H1 & H2 & H3). cbn in H1.
    assert (q = p) as -> by (eapply (td_dirs _ _ _ T q p nd' nd); cbn; [by eapply lookup_weaken|done|done|done|congruence]).
    destruct (decide (ls_owner l = owner)) as [E|Hne].
    + rewrite E in Hmt. assert (mt = Locking root leases) as -> by congruence. unfold chain in Hq. cbn [mt_root mt_leases] in Hq.
      apply list_elem_of_lookup in Hq as [k Hk]. apply lookup_zip_with_Some in Hk as (q & j & [= <- _] & Hk & Hj).
      pose proof (NoDup_lookup _ _ _ _ (ancestors_nodup root) Hk Hp). apply lookup_lt_Some in Hj. lia.
    + destruct (Hfree _ _ Hne Hmt) as [_ Hov]. pose proof (chain_prefix _ _ _ Hq) as Hpr.
      assert (Hpr' : p `prefix_of` root) by (apply ancestors_prefix; by eapply list_elem_of_lookup_2).
      rewrite He in Hc. apply orb_prop in Hc as [->%bool_decide_eq_true|Hc%bool_decide_eq_true].
      * by rewrite prefix_overlap' in Hov.
      * subst p. by rewrite prefix_overlap in Hov.
  - by eapply (td_files _ _ _ T _ _ _ _ _ Hmt Hf Hnd).
Qed.

Lemma lock_components_run root owner ps leases o live :
  drop (length leases) (ancestors root) = ps -> live !! owner = Some (Locking root leases) ->
  MountsInv (o, live) -> placed (o, live) -> Tidy env o live -> all_dirs (ancestors root) o ->
  (forall b mt, b <> owner -> live !! b = Some mt -> complete mt /\ paths_overlap root (mt_root mt) = false) ->
  exists ls o', lock_components env root owner ps o = Some (Ok ls, o').
Proof.
  revert leases o live. induction ps as [|p ps IH]; intros leases o live Hd Hm I Hpl T Hall Hfree; cbn [lock_components]; [by eexists _, _|].
  assert (Hp : ancestors root !! length leases = Some p).
  { rewrite <- (Nat.add_0_r (length leases)), <- lookup_drop, Hd. done. }
  assert (Hd1 : all_dirs [p] o).
  { intros q nd ->%list_elem_of_singleton. apply Hall. by eapply list_elem_of_lookup_2. }
  destruct (lock_component_alone root owner p o Hd1) as (nd & Hnd & Hdir & E).
  rewrite (next_lock_free root owner leases p o live nd (with_dir p (os_nodes o))) in E;
    [|done|done|apply with_dir_grows|by eapply with_dir_tidy|done..].
  rewrite bind_run, E. pose proof (round_calm root owner p leases o live _ _ Hd1 Hm Hp E ltac:(done)) as [Hc Hn]. cbn [locked_to] in Hc.
  set (o1 := mkOs _ _) in *. set (live1 := <[owner := _]> live) in *.
  destruct (IH (leases ++ [nd_ino nd]) o1 live1) as (ls & o' & E1).
  - rewrite length_app. cbn. rewrite <- drop_drop, Hd. done.
  - subst live1. by rewrite lookup_insert_eq.
  - eapply mount_step_inv; [apply Hc|done].
  - by eapply calm_step_placed.
  - pose proof (with_dir_tidy p o o1 live T Hn) as [T1 T2 T3 T4]. constructor; try done.
    + intros b mt i q nd1 [[_ <-]|[_ Hb]]%lookup_insert_Some; [done|by eapply T2].
    + intros b mt i n [[_ <-]|[_ Hb]]%lookup_insert_Some; [done|by eapply T4].
  - intros q nd1 Hq H1. subst o1. cbn in H1. apply with_dir_lookup in H1 as [H1|[-> ->]]; [by eapply Hall|done].
  - intros b mt Hne Hb. apply (Hfree b); [done|]. subst live1. by rewrite lookup_insert_ne in Hb.
  - rewrite bind_run, E1. by eexists _, _.
Qed.

(** All rounds of a preparation nobody disturbs. *)
Lemma lock_components_calm root owner o live r o' :
  live !! owner = Some (Locking root []) -> all_dirs (ancestors root) o ->
  lock_components env root owner (ancestors root) o = Some (r, o') -> r <> Panic ->
  rtc calm_step (o, live) (locked_to owner live (Locking root) r o').
Proof.
  intros Hm Hd H Hr.
  set (R := fun m m' : Mounts => all_dirs (ancestors root) m.1 -> calm_step m m' /\ all_dirs (ancestors root) m'.1).
  assert (HR : rtc R (o, live) (locked_to owner live (fun ls => Locking root ([] ++ ls)) r o')).
  { eapply (lock_components_steps env R root owner); [|done..]. clear -all_work alone. intros p leases o live r o' Hm Hp H Hr Hd. cbn in Hd.
    assert (Hin : p ∈ ancestors root) by (by eapply list_elem_of_lookup_2).
    assert (Hd1 : all_dirs [p] o) by (intros q nd ->%list_elem_of_singleton; by apply Hd).
    destruct (round_calm root owner p leases o live r o' Hd1 Hm Hp H Hr) as [Hc Hn]. split; [done|].
    intros q nd Hq H1. assert (H2 : os_nodes o' !! q = Some nd) by (by destruct r). rewrite Hn in H2.
    apply with_dir_lookup in H2 as [H2|[-> ->]]; [by eapply Hd|done]. }
  change (Locking root) with (fun ls => Locking root ([] ++ ls)).
  remember (o, live) as m eqn:Em. assert (Hd' : all_dirs (ancestors root) m.1) by (by subst). clear -HR Hd'.
  induction HR as [|m1 m2 m3 H12 _ IH]; [apply rtc_refl|]. destruct (H12 Hd') as [Hc Hd2]. eapply rtc_l; eauto.
Qed.

Lemma lock_components_total root owner ps o :
  all_dirs ps o -> exists r o', lock_components env root owner ps o = Some (r, o') /\ r <> Panic.
Proof.
  revert o. induction ps as [|p ps IH]; intros o Hd; cbn [lock_components]; [by eexists _, _|].
  destruct (lock_component_alone root owner p o) as (nd & _ & _ & E).
  { intros q nd ->%list_elem_of_singleton. apply Hd. by left. }
  rewrite bind_run, E. destruct (existsb _ _); [by eexists _, _|]. rewrite bind_run. set (o1 := mkOs _ _).
  destruct (IH o1) as (r & o' & -> & Hr); [|destruct r; [by eexists _, _..|done]].
  intros q nd1 Hq H1. apply with_dir_lookup in H1 as [H1|[-> ->]]; [|done]. eapply Hd; [by right|done].
Qed.

End progress.

(** ** A run: two mounts beside each other *)

Definition cr_live1 : gmap Z Mount := <[1 := Running (cr_prepared "a" 3)]> ∅.
Definition cr_live : gmap Z Mount := <[2 := Running (cr_prepared "b" 6)]> cr_live1.

Definition dirs_check (root : Comps) (o : CacheOs) : bool :=
  forallb (fun p => match os_nodes o !! p with Some nd => is_dir nd | None => true end) (ancestors root).

Lemma dirs_checked root o : dirs_check root o = true -> all_dirs (ancestors root) o.
Proof.
  intros H p nd Hp Hn. unfold dirs_check in H. rewrite forallb_forall in H.
  specialize (H p (proj1 (list_elem_of_In _ _) Hp)). by rewrite Hn in H.
Qed.

(** A mount that starts undisturbed, its rounds and the rest of its preparation. *)
Lemma cr_mount held cfg owner root o o1 o2 ls pc live :
  live !! owner = None -> root <> [] -> dirs_check root o = true ->
  lock_components (cr_env held) root owner (ancestors root) o = Some (Ok ls, o1) ->
  prepare_locked (cr_env held) cfg owner 32 (Some 8) root ls o1 = Some (Ok pc, o2) ->
  bool_decide (os_nodes o1 ⊆ os_nodes o2) = true ->
  rtc calm_step (o, live) (o2, <[owner := Running pc]> live).
Proof.
  intros Hn Hr Hd E1 E2 Hsub%bool_decide_eq_true. eapply rtc_l; [split; [by apply (ms_begin owner root)|done]|].
  etrans; [eapply (lock_components_calm (cr_env held)); [done|done|by rewrite lookup_insert_eq|by apply dirs_checked|exact E1|done]|].
  cbn [locked_to]. rewrite insert_insert_eq. apply rtc_once. split.
  - pose proof (ms_locked (cr_env held) cfg owner 32 (Some 8) root ls o1 (<[owner := Locking root ls]> live) (Ok pc) o2
      ltac:(by rewrite lookup_insert_eq) (lock_components_length _ _ _ _ _ _ _ E1) E2 ltac:(done)) as H. cbv beta iota in H. by rewrite insert_insert_eq in H.
  - intros ow mt _ _ Hpl q i Hq. destruct (Hpl q i Hq) as (nd & H1 & H2). exists nd. split; [|done]. by eapply lookup_weaken.
Qed.

Lemma cr_calm : rtc calm_step (cr0, ∅) (cr2, cr_live).
Proof.
  etrans.
  - eapply (cr_mount [] (cr_config "a") 1 ["var"; "a"]); [done|done|by vm_compute|vm_compute; reflexivity|vm_compute; reflexivity|by vm_compute].
  - eapply (cr_mount [1; 2; 3; 5] (cr_config "b") 2 ["var"; "b"]); [done|done|by vm_compute|vm_compute; reflexivity|vm_compute; reflexivity|by vm_compute].
Qed.


Lemma cr_running b mt : cr_live !! b = Some mt -> mt = Running (cr_prepared "a" 3) \/ mt = Running (cr_prepared "b" 6).
Proof. unfold cr_live, cr_live1. intros [[_ <-]|[_ [[_ <-]|[_ H]]%lookup_insert_Some]]%lookup_insert_Some; [by right|by left|by rewrite lookup_empty in H]. Qed.

Definition tidy_check (o : CacheOs) (files : list Z) : bool :=
  let dirs := filter (fun x => is_dir x.2 = true) (map_to_list (os_nodes o)) in
  bool_decide (NoDup (nd_ino ∘ snd <$> dirs)) && forallb (fun x => negb (bool_decide (nd_ino x.2 ∈ files))) dirs.

Lemma cr_tidy : Tidy (cr_env [5; 8]) cr2 cr_live.
Proof.
  assert (Hc : tidy_check cr2 [5; 8] = true) by (vm_compute; reflexivity). unfold tidy_check in Hc. cbv zeta in Hc.
  set (dirs := filter _ _) in Hc. apply andb_prop in Hc as [Hnd%bool_decide_eq_true Hf].
  assert (Hin : forall p nd, os_nodes cr2 !! p = Some nd -> is_dir nd = true -> (p, nd) ∈ dirs).
  { intros p nd H1 H2. apply list_elem_of_filter. split; [done|]. by apply elem_of_map_to_list. }
  assert (Hfile : forall b mt i, cr_live !! b = Some mt -> lock_file mt = Some i -> i ∈ [5; 8]).
  { intros b mt i [->| ->]%cr_running [= <-]; cbn; [by left|right; by left]. }
  constructor.
  - intros p q nd nd' H1 H2 D1 D2 E. pose proof (Hin _ _ H1 D1) as [i Hi]%list_elem_of_lookup. pose proof (Hin _ _ H2 D2) as [j Hj]%list_elem_of_lookup.
    assert (i = j) as ->; [|congruence]. eapply (NoDup_lookup _ i j (nd_ino nd) Hnd); rewrite list_lookup_fmap, ?Hi, ?Hj; cbn; congruence.
  - intros b mt i p nd Hb Hl H1 D1 E. rewrite forallb_forall in Hf.
    specialize (Hf _ (proj1 (list_elem_of_In _ _) (Hin _ _ H1 D1))). cbn in Hf. rewrite E, bool_decide_true in Hf; [done|]. by eapply Hfile.
  - intros n p nd H1 E. apply (infinite_is_fresh ([5; 8] ++ (nd_ino ∘ snd <$> map_to_list n))).
    change (alloc (cr_env [5; 8]) n ∈ [5; 8] ++ (nd_ino ∘ snd <$> map_to_list n)). rewrite <- E. apply elem_of_app. right.
    apply list_elem_of_fmap. exists (p, nd). split; [done|]. by apply elem_of_map_to_list.
  - intros b mt i n Hb Hl E. apply (infinite_is_fresh ([5; 8] ++ (nd_ino ∘ snd <$> map_to_list n))).
    change (alloc (cr_env [5; 8]) n ∈ [5; 8] ++ (nd_ino ∘ snd <$> map_to_list n)). rewrite E. apply elem_of_app. left. by eapply Hfile.
Qed.


(** The locks are on inodes: once the cache root [/var/a] of a running mount was moved
    away, another mount gets a new directory at the same path, and both run. *)
Definition cr_moved : CacheOs :=
  set_nodes (<[["var"; "z"] := mkNode 3 NDir]> (<[["var"; "z"; "stage"] := mkNode 4 NDir]>
    (<[["var"; "z"; ".mount.lock"] := mkNode 5 (NFile 1)]> (delete ["var"; "a"] (delete ["var"; "a"; "stage"] (delete ["var"; "a"; ".mount.lock"]
    (os_nodes cr1))))))) cr1.

Lemma moved_root_locked_again :
  (exists o', cr_prepare "a" 2 cr_moved = Some (Ok (cr_prepared "a" 6), o')) /\
  is_ok (default (Err VCacheRoot) (fst <$> cr_prepare "a" 2 cr1)) = false.
Proof. split; [eexists|]; vm_compute; reflexivity. Qed.
