(* ===== verification/Fuse.v ===== *)
(** * The FUSE adapter (components/fuse/src/lib.rs)

    The parts of the adapter that decide something: which attributes a [setattr]
    asks for, how a directory listing is cut into pages, the numbers of [statfs].
    A request first asks the lifecycle for admission; the rest of the adapter hands
    arguments on and errors back as their number. *)

From S2P Require Import Prelude Common Types Bincode RangeMap Slice SliceKey Keys KV Meta OpenFiles Backend Engine RefStore EngineInv.
From S2P Require Import Pool SliceBuffer SliceBufferThms SliceIO FileCache Writer Staging WriterThms Reader DataPath InternalNodes Handles Vfs HandleThms FileFlow.
Open Scope Z_scope.

(** ** setattr *)

Definition setattr_request_flags (mode uid gid size : option Z) (atime mtime : option TimeOrNow) (file_flags : option Z) : Z :=
  let insert (b : bool) flag flags := if b then Z.lor flags flag else flags in
  let some {A} (o : option A) := match o with Some _ => true | None => false end in
  let time at_ now_ (t : option TimeOrNow) flags :=
    match t with Some (SpecificTime _) => Z.lor flags at_ | Some Now => Z.lor flags now_ | None => flags end in
  let flags := insert (some mode) SA_MODE 0 in
  let flags := insert (some uid) SA_UID flags in
  let flags := insert (some gid) SA_GID flags in
  let flags := insert (some size) SA_SIZE flags in
  let flags := time SA_ATIME SA_ATIME_NOW atime flags in
  let flags := time SA_MTIME SA_MTIME_NOW mtime flags in
  insert (some file_flags) SA_FLAG flags.

(** ** statfs *)

Record StatfsReply := mkStatfs { sf_blocks : Z; sf_bfree : Z; sf_bavail : Z; sf_files : Z; sf_ffree : Z; sf_bsize : Z; sf_namelen : Z }.

(** [as i64] *)
Definition i64_wrap (z : Z) : Z := (z + 2 ^ 63) `mod` 2 ^ 64 - 2 ^ 63.

Definition statfs_reply `{Layout} (state : FSStat) : StatfsReply :=
  let total := Z.max (total_size state / BLOCK_SIZE) 1 in
  let used := used_size state / BLOCK_SIZE in
  let remain := Z.max (i64_wrap (i64_wrap total - i64_wrap used)) 0 in
  mkStatfs total remain remain U64_MAX (u64_wrap (U64_MAX - file_count state)) (u32_wrap BLOCK_SIZE) MAX_NAME_LENGTH.

(** ** readdir *)

Record DirReply := mkDirReply { dr_ino : Ino; dr_offset : Z; dr_type : FileType; dr_name : string }.

(** The loop over the entries: [room] of them fit into the reply, then [add] answers
    that it is full. *)
Fixpoint fill (room : nat) (offset : Z) (entries : list Entry) : list DirReply :=
  match room, entries with
  | S room, e :: entries => mkDirReply (get_inode e) offset (Types.get_file_type e) (get_name e) :: fill room (offset + 1) entries
  | _, _ => []
  end.

(** [readdirplus]: only entries with attributes are added and counted. *)
Fixpoint fill_plus (room : nat) (offset : Z) (entries : list Entry) : list DirReply :=
  match room, entries with
  | S room', e :: entries =>
      match e with
      | EFull _ => mkDirReply (get_inode e) offset (Types.get_file_type e) (get_name e) :: fill_plus room' (offset + 1) entries
      | EDEntry _ => fill_plus room offset entries
      end
  | _, _ => []
  end.

Section fuse.
Context `{L : Layout} `{R : RangeMapOps Slice} `{RV : RangeMapOps VirtualSlice} `{K : KVStore} `{C : MetaCodec}.
Variable ws : nat -> World.

Definition fuse_setattr (io : VEnv) (ctx : FuseContext) (ino : Ino) (mode uid gid size : option Z)
    (atime mtime : option TimeOrNow) (fh file_flags : option Z) : vfs InodeAttr :=
  v_set_attr ws io ctx ino (setattr_request_flags mode uid gid size atime mtime file_flags) atime mtime mode uid gid size fh
    file_flags.

Definition readdir (room : nat) (ctx : FuseContext) (ino : Ino) (fh offset : Z) : vfs (list DirReply) :=
  entries ← v_read_dir ws ctx ino fh offset false;
  mret (fill room (offset + 1) entries).

(** A client lists a directory: it asks again from the offset of the last entry it
    got until a reply is empty.  [rooms n] entries fit into the [n]th reply, and
    [between n] is what everybody else does between that reply and the next
    request. *)
Fixpoint list_directory (fuel n : nat) (rooms : nat -> nat) (between : nat -> KisekiVFS -> KisekiVFS) (ctx : FuseContext)
    (ino : Ino) (fh offset : Z) : vfs (list DirReply) :=
  match fuel with
  | O => fun _ => None
  | S fuel =>
      page ← readdir (rooms n) ctx ino fh offset;
      match last page with
      | None => mret []
      | Some e =>
          _ ← op_modify (between n);
          rest ← list_directory fuel (S n) rooms between ctx ino fh (dr_offset e);
          mret (page ++ rest)
      end
  end.

(** A request of somebody else: any but one that reads or closes this directory
    handle. *)
Definition spares (ino : Ino) (fh : Z) (op : VOp) : Prop :=
  match op with
  | OReadDir _ i k _ _ | OReleaseDir i k | ORelease _ i k => (i, k) <> (ino, fh)
  | _ => True
  end.

Definition others_step (ino : Ino) (fh : Z) (v v' : KisekiVFS) : Prop :=
  exists io op r, spares ino fh op /\ v_run ws io op v = Some (r, v') /\ r <> Panic /\ ht_next_fh (v_table v) < 2 ^ 64 - 1.

(** *** Pages *)

Lemma fill_length room o es : length (fill room o es) = min room (length es).
Proof. revert o es. induction room as [|r IH]; intros o [|e es]; cbn; [done..|]. by rewrite IH. Qed.

Lemma fill_last room o es e : last (fill room o es) = Some e -> dr_offset e = o + Z.of_nat (length (fill room o es)) - 1.
Proof.
  revert o es. induction room as [|r IH]; intros o [|x es]; cbn; try done.
  destruct (fill r (o + 1) es) as [|y ys] eqn:E; [intros [= <-]; cbn; lia|]. intros H. rewrite <- E in H.
  specialize (IH (o + 1) es). rewrite E in IH, H. rewrite (IH H). cbn. lia.
Qed.

Lemma fill_enough m k o l : (length l <= k)%nat -> (k <= m)%nat -> fill m o l = fill k o l.
Proof.
  revert k o l. induction m as [|m IH]; intros k o l H1 H2; [by replace k with 0%nat by lia|].
  destruct k as [|k], l as [|x l]; cbn in *; [done|lia|done|]. f_equal. apply IH; lia.
Qed.

(** The pages put together are one page without a limit. *)
Lemma fill_app room o es n :
  n = min room (length es) ->
  fill room o es ++ fill (length es) (o + Z.of_nat n) (drop n es) = fill (length es) o es.
Proof.
  revert o es n. induction room as [|r IH]; intros o es n ->; [by rewrite Z.add_0_r, drop_0|].
  destruct es as [|e es]; [done|]. cbn [fill length Nat.min drop app]. f_equal.
  replace (o + Z.of_nat (S (Nat.min r (length es)))) with (o + 1 + Z.of_nat (Nat.min r (length es))) by lia.
  rewrite <- (IH (o + 1) es _ eq_refl). f_equal. clear IH.
  apply (fill_enough (S (length es)) (length es)); [rewrite length_drop; lia|lia].
Qed.

(** *** The listing of a handle *)

Definition children (ino : Ino) (fh : Z) (v : KisekiVFS) : option (list Entry) :=
  match find_handle ino fh (v_table v) with Some (HDir d) => Some (dh_children d) | _ => None end.

Lemma set_dir_children ino fh f v v' :
  set_dir ino fh f v = Some (Ok (), v') ->
  find_handle ino fh (v_table v') =
    (fun h => match h with HDir d => HDir (f d) | _ => h end) <$> find_handle ino fh (v_table v) /\
  ht_next_fh (v_table v') = ht_next_fh (v_table v).
Proof.
  intros [= <-]. split; [|done]. unfold find_handle. cbn. rewrite lookup_alter_eq.
  match goal with |- (alter _ _ <$> ?x) ≫= _ = _ => destruct x as [m|]; cbn; [|done] end.
  rewrite lookup_alter_eq. by destruct (m !! fh).
Qed.

Lemma meta_handles {A} (f : World -> Engine.eng A) v r v' ino fh :
  meta ws f v = Some (r, v') ->
  find_handle ino fh (v_table v') = find_handle ino fh (v_table v) /\ ht_next_fh (v_table v') = ht_next_fh (v_table v).
Proof. unfold meta, on_dm, on_table, ht_on_dm. destruct (em_run ws f _) as [r1 m1]. by intros [= _ <-]. Qed.

(** The first page reads the directory and keeps the listing in the handle. *)
Lemma read_dir_first ctx ino fh plus v l v' :
  v_read_dir ws ctx ino fh 0 plus v = Some (Ok l, v') ->
  children ino fh v' = Some l /\ ht_next_fh (v_table v') = ht_next_fh (v_table v) /\ is_Some (find_handle ino fh (v_table v)).
Proof.
  intros H. unfold v_read_dir in H. apply bind_ok in H as (h & v1 & H1 & H).
  unfold find_handle_or in H1. apply bind_ok in H1 as (h' & v2 & H2 & H1). injection H2 as <- <-. unfold op_lift in H1.
  injection H1 as Hf <-. destruct (find_handle ino fh (v_table v)) as [h0|] eqn:Ef; [|done]. injection Hf as ->.
  apply bind_ok in H as (d & v1 & H1 & H). unfold op_lift in H1. injection H1 as Hd <-. destruct h as [|d0]; [done|]. injection Hd as ->.
  change (0 =? 0) with true in H. rewrite orb_true_r in H.
  apply bind_ok in H as (t & v1 & H1 & H). apply (meta_handles _ _ _ _ ino fh) in H1 as [H1 N1].
  apply bind_ok in H as ([] & v2 & H2 & H). apply set_dir_children in H2 as [H2 N2].
  apply bind_ok in H as (ch & v3 & H3 & H). apply (meta_handles _ _ _ _ ino fh) in H3 as [H3 N3].
  apply bind_ok in H as ([] & v4 & H4 & H). apply set_dir_children in H4 as [H4 N4]. injection H as Hl <-.
  split; [|split; [congruence|by eexists]]. unfold children. rewrite H4, H3, H2, H1, Ef. cbn. f_equal. subst l. unfold entries_from.
  change (u64_wrap 0) with 0. destruct (0 <? zlen ch) eqn:E; [done|]. to_prop. unfold zlen in E. by destruct ch.
Qed.

(** The later ones come from the handle. *)
Lemma read_dir_later ctx ino fh offset plus v l :
  children ino fh v = Some l -> l <> [] -> 0 < offset < 2 ^ 64 ->
  v_read_dir ws ctx ino fh offset plus v = Some (Ok (drop (Z.to_nat offset) l), v).
Proof.
  intros Hc Hl Ho. unfold children in Hc. destruct (find_handle ino fh (v_table v)) as [[|d]|] eqn:Ef; [done| |done]. injection Hc as <-.
  unfold v_read_dir. etrans; [eapply bind_eq; unfold find_handle_or; etrans; [eapply bind_eq; reflexivity|]; rewrite Ef; reflexivity|].
  etrans; [eapply bind_eq; reflexivity|]. rewrite bool_decide_false by done. rewrite (proj2 (Z.eqb_neq offset 0)) by lia. cbn.
  unfold entries_from, u64_wrap. rewrite Z.mod_small by lia. unfold mret, opr_ret. do 3 f_equal.
  destruct (offset <? _) eqn:E; [done|]. to_prop. symmetry. apply drop_ge. unfold zlen in E. lia.
Qed.

(** *** What others do to the handle: nothing *)

Section frame.
#[local] Instance fr_client : MetaClient EngM := engine_client ws.
#[local] Instance fr_reader : MetaReader EngM := engine_reader ws.
Variables (ino : Ino) (fh : Z) (l : list Entry).

Definition listed (v : KisekiVFS) : Prop := children ino fh v = Some l /\ 0 <= fh < ht_next_fh (v_table v).
(** ... and another handle number is left. *)
Definition listed_room (v : KisekiVFS) : Prop := listed v /\ ht_next_fh (v_table v) < 2 ^ 64 - 1.

Lemma listed_same v v' :
  find_handle ino fh (v_table v') = find_handle ino fh (v_table v) -> ht_next_fh (v_table v') = ht_next_fh (v_table v) ->
  listed_room v -> listed_room v'.
Proof. unfold listed_room, listed, children. by intros -> ->. Qed.

Lemma frame_table {A} (m : opr (HandleTable (M:=EngM)) A) :
  (forall t r t', m t = Some (r, t') -> find_handle ino fh t' = find_handle ino fh t /\ ht_next_fh t' = ht_next_fh t) ->
  keeps listed_room (on_table m).
Proof.
  intros Hm v r v' H _ Hv. unfold on_table in H. destruct (m (v_table v)) as [[r1 t1]|] eqn:E; [|done]. injection H as <- <-.
  destruct (Hm _ _ _ E) as [H1 H2]. by eapply listed_same.
Qed.

Lemma frame_ht_dm {A} (m : opr (DataManager (M:=EngM)) A) t r t' :
  ht_on_dm m t = Some (r, t') -> find_handle ino fh t' = find_handle ino fh t /\ ht_next_fh t' = ht_next_fh t.
Proof. unfold ht_on_dm. destruct (m (ht_dm t)) as [[r1 dm]|]; [|done]. by intros [= <- <-]. Qed.

Lemma frame_dm {A} (m : opr (DataManager (M:=EngM)) A) : keeps listed_room (on_dm m).
Proof. apply frame_table, frame_ht_dm. Qed.

Lemma frame_meta {A} (f : World -> Engine.eng A) : keeps listed_room (meta ws f).
Proof. apply frame_dm. Qed.

Lemma frame_modified f : keeps listed_room (op_modify (fun v => set_modified (f v) v)).
Proof. by apply keeps_modify. Qed.

Lemma frame_alter (g : Handle -> Handle) i k v :
  (forall d, g (HDir d) = HDir d) \/ (i, k) <> (ino, fh) -> listed_room v ->
  listed_room (set_table (mkHT (alter (alter g k) i (ht_handles (v_table v))) (ht_next_fh (v_table v)) (ht_dm (v_table v))) v).
Proof.
  intros Hg [[Hc Hn] Hr]. split; [split|]; [|exact Hn|exact Hr]. unfold children in *. cbn [set_table v_table].
  rewrite find_handles_of, handles_alter in *. destruct (v_table v) as [hs next dm]. cbn [ht_handles ht_next_fh ht_dm] in *.
  case_decide as Hi; [|done]. destruct (decide (k = fh)) as [->|Hk]; [|by rewrite lookup_alter_ne]. rewrite lookup_alter_eq.
  destruct Hg as [Hg|Hg]; [|congruence]. destruct (handles_of ino _ !! fh) as [[|d]|]; [done| |done]. cbn. by rewrite Hg.
Qed.

Lemma frame_upd i k f : keeps listed_room (upd_handle i k f).
Proof. apply keeps_modify. intros v. apply frame_alter. by left. Qed.

Lemma frame_set_dir i k f : (i, k) <> (ino, fh) -> keeps listed_room (set_dir i k f).
Proof. intros Hne. apply keeps_modify. intros v. apply frame_alter. by right. Qed.

Lemma frame_close io h t r t' :
  file_handle_close io h t = Some (r, t') -> find_handle ino fh t' = find_handle ino fh t /\ ht_next_fh t' = ht_next_fh t.
Proof.
  unfold file_handle_close. rewrite bind_run. cbn [ht_on_dm op_modify mbind option_bind]. intros H.
  destruct (fhd_writer h) as [w|]; [by apply frame_ht_dm in H|by injection H as <- <-].
Qed.

Lemma frame_release io i k : (i, k) <> (ino, fh) -> keeps listed_room (on_table (release_file_handle io i k)).
Proof.
  intros Hne. apply frame_table. intros t r t' H. unfold release_file_handle in H.
  destruct (find_handle i k t) as [h|]; [|by injection H as <- <-].
  set (t1 := mkHT (alter (delete k) i (ht_handles t)) (ht_next_fh t) (ht_dm t)) in *.
  assert (H1 : find_handle ino fh t1 = find_handle ino fh t /\ ht_next_fh t1 = ht_next_fh t).
  { split; [|done]. unfold find_handle. cbn [ht_handles t1]. destruct (decide (i = ino)) as [->|Hi]; [|by setoid_rewrite lookup_alter_ne].
    setoid_rewrite lookup_alter_eq. match goal with |- (_ <$> ?x) ≫= _ = _ => destruct x as [m|]; [|done] end.
    cbn. rewrite lookup_delete_ne; [done|congruence]. }
  destruct h as [h|d]; [|injection H as <- <-; exact H1]. apply frame_close in H as [-> ->]. exact H1.
Qed.

Hint Resolve frame_dm frame_meta frame_modified frame_upd frame_set_dir frame_release : kiseki.

Lemma frame_length i attr : keeps listed_room (try_update_file_reader_length i attr).
Proof. unfold try_update_file_reader_length. keep. Qed.
Lemma frame_lock_all ctx i k hs : keeps listed_room (lock_all ctx i k hs).
Proof. induction hs as [|h hs IH]; cbn; keep. Qed.
Hint Resolve frame_length frame_lock_all : kiseki.
Lemma frame_truncate io ctx i size k : keeps listed_room (v_truncate ws io ctx i size k).
Proof. unfold v_truncate. keep. Qed.
Lemma frame_field {A} flags flag (x : option A) set attr : keeps listed_room (field flags flag x set attr).
Proof. unfold field. keep. Qed.
Lemma frame_time_field flags f1 f2 x set attr : keeps listed_room (time_field ws flags f1 f2 x set attr).
Proof. unfold time_field. keep. Qed.
Hint Resolve frame_truncate frame_field frame_time_field : kiseki.

(** Requests that open a handle use up a number. *)
Definition opens_beside {A} (m : vfs A) : Prop :=
  forall v r v', m v = Some (r, v') -> r <> Panic -> listed_room v -> listed v'.

Lemma beside_keeps {A} (m : vfs A) : keeps listed_room m -> opens_beside m.
Proof. intros Hm v r v' H Hr Hv. by destruct (Hm _ _ _ H Hr Hv). Qed.

Lemma beside_bind {A B} (m : vfs A) (f : A -> vfs B) :
  keeps listed_room m -> (forall a, opens_beside (f a)) -> opens_beside (m ≫= f).
Proof.
  intros Hm Hf v r v' H Hr Hv. rewrite (bind_run m f) in H. destruct (m v) as [[r1 v1]|] eqn:E; [|done].
  destruct r1 as [a|e|]; [|injection H as <- <-; by apply (Hm _ _ _ E)|by injection H as <- <-].
  eapply Hf; [exact H|done|]. by eapply Hm.
Qed.

Lemma beside_then {A B} (m : vfs A) (f : A -> B) : opens_beside m -> opens_beside (m ≫= fun a => mret (f a)).
Proof.
  intros Hm v r v' H Hr Hv. rewrite (bind_run m _) in H. destruct (m v) as [[r1 v1]|] eqn:E; [|done].
  destruct r1 as [a|e|]; injection H as <- <-; [by eapply Hm|by eapply Hm|done].
Qed.

Lemma beside_insert i k h (t : HandleTable (M:=EngM)) : fh <> k -> find_handle ino fh (insert_handle i k h t) = find_handle ino fh t.
Proof.
  intros Hne. unfold find_handle, insert_handle. cbn [ht_handles]. destruct (decide (i = ino)) as [->|Hi]; [|by setoid_rewrite lookup_insert_ne].
  setoid_rewrite lookup_insert_eq. cbn. rewrite lookup_insert_ne by done.
  match goal with |- default ∅ ?x !! _ = _ => destruct x; [done|] end. cbn. by rewrite lookup_empty.
Qed.

Lemma beside_table {A} (m : opr (HandleTable (M:=EngM)) A) :
  (forall t r t', m t = Some (r, t') -> 0 <= fh < ht_next_fh t /\ ht_next_fh t < 2 ^ 64 - 1 ->
    find_handle ino fh t' = find_handle ino fh t /\ ht_next_fh t' = ht_next_fh t + 1) -> opens_beside (on_table m).
Proof.
  intros Hm v r v' H _ [[Hc Hn] Hr]. unfold on_table in H. destruct (m (v_table v)) as [[r1 t1]|] eqn:E; [|done]. injection H as <- <-.
  destruct (Hm _ _ _ E ltac:(lia)) as [H1 H2]. unfold listed, children in *. cbn. rewrite H1, H2. split; [done|lia].
Qed.

(** A new handle takes the next number, which is not that of this handle. *)
Lemma frame_open_handle i k len flags (t : HandleTable (M:=EngM)) r t' :
  open_handle i k len flags t = Some (r, t') -> find_handle ino fh t' = find_handle ino fh t /\ ht_next_fh t' = ht_next_fh t.
Proof.
  assert (Hc : open_handle (M:=EngM) i k len flags = op_fail (VLibc EPERM) \/
    open_handle (M:=EngM) i k len flags = (_ ← ht_on_dm (op_modify (dm_open_reader i k len)); mret (file_handle_new i k None)) \/
    open_handle (M:=EngM) i k len flags = (_ ← ht_on_dm (op_modify (dm_open_reader i k len));
      w ← ht_on_dm (open_file_writer i len); mret (file_handle_new i k (Some w)))).
  { unfold open_handle. repeat case_match; auto. }
  intros H. destruct Hc as [E|[E|E]]; rewrite E in H; [by injection H as <- <-|rewrite bind_run in H; by injection H as <- <-|].
  rewrite bind_run in H. cbn [ht_on_dm op_modify mbind option_bind] in H. rewrite bind_run in H.
  match type of H with match ?m ?s with _ => _ end = _ => destruct (m s) as [[r1 t1]|] eqn:E1; [|done] end.
  apply frame_ht_dm in E1. destruct r1; injection H as <- <-; exact E1.
Qed.

Lemma beside_new_dir i : opens_beside (on_table (new_dir_handle i)).
Proof.
  apply beside_table. intros t r t' H Hn. injection H as <- <-. cbn. unfold u64_wrap. rewrite Z.mod_small by lia.
  split; [|done]. rewrite beside_insert by lia. done.
Qed.

Lemma beside_new_file i len flags : opens_beside (on_table (new_file_handle i len flags)).
Proof.
  apply beside_table. intros t r t' H Hn. unfold new_file_handle in H. rewrite bind_run in H. cbn [allocate_fh] in H.
  unfold u64_wrap in H. rewrite Z.mod_small in H by lia. rewrite bind_run in H.
  match type of H with match ?m with _ => _ end = _ => destruct m as [[r1 t1]|] eqn:E1; [|done] end.
  apply frame_open_handle in E1 as [H1 H2]. cbn in H2. destruct r1 as [h| |]; injection H as <- <-; rewrite ?H1, ?H2; [|done..].
  rewrite beside_insert by lia. cbn [insert_handle ht_next_fh]. by rewrite H1, H2.
Qed.

Ltac beside := repeat (apply beside_bind; [solve [keep]|intros ?]; try match goal with |- opens_beside (match ?x with _ => _ end) => destruct x end).

Lemma run_beside io op : spares ino fh op -> opens_beside (v_run ws io op).
Proof.
  intros Hsp. destruct op; cbn [v_run spares] in *;
    try (apply beside_keeps; try (apply op_keeps_bind; [|intros ?; apply keeps_ret]);
         unfold v_lookup, v_get_attr, v_set_attr, v_read_dir, v_mkdir, v_rmdir, v_release_dir, v_mknod, v_link, v_unlink, v_symlink, v_readlink,
           v_rename, v_read, v_write, v_flush, v_fsync, v_fallocate, v_release, v_stat_fs; solve [keep]).
  - apply beside_then. unfold v_open_dir. beside. apply beside_new_dir.
  - apply beside_then. unfold v_create. beside. apply (beside_then _ (fun fh => _)), beside_new_file.
  - apply beside_then. unfold v_open. beside. apply (beside_then _ (fun fh => _)), beside_new_file.
Qed.

Lemma others_listed v v' : rtc (others_step ino fh) v v' -> listed v -> listed v'.
Proof.
  induction 1 as [|v v1 v2 (io & op & r & Hsp & Hrun & Hr & Hn) _ IH]; [done|]. intros Hl. apply IH. by eapply run_beside.
Qed.
End frame.

Lemma list_rest fuel n rooms between ctx ino fh k l v :
  listed ino fh l v -> l <> [] -> Z.of_nat (length l) < 2 ^ 63 -> (forall i, (0 < rooms i)%nat) ->
  (forall i v, rtc (others_step ino fh) v (between i v)) -> (0 < k <= length l)%nat -> (length l - k < fuel)%nat ->
  exists v', list_directory fuel n rooms between ctx ino fh (Z.of_nat k) v =
    Some (Ok (fill (length (drop k l)) (Z.of_nat k + 1) (drop k l)), v').
Proof.
  intros Hc Hl Hlen Hr Hb. revert n k v Hc. induction fuel as [|fuel IH]; intros n k v Hc Hk Hf; [lia|]. cbn [list_directory].
  set (es := drop k l).
  assert (E : readdir (rooms n) ctx ino fh (Z.of_nat k) v = Some (Ok (fill (rooms n) (Z.of_nat k + 1) es), v)).
  { unfold readdir. etrans; [eapply bind_eq, (read_dir_later _ _ _ _ _ _ l); [apply Hc|done|lia]|]. unfold es. by rewrite Nat2Z.id. }
  pose proof (fill_length (rooms n) (Z.of_nat k + 1) es) as Hlen'.
  destruct (last (fill (rooms n) (Z.of_nat k + 1) es)) as [e|] eqn:El.
  - pose proof (fill_last _ _ _ _ El) as Ho. rewrite Hlen' in Ho. specialize (Hr n).
    assert (Hes : es <> []) by (intros ->; by destruct (rooms n)).
    assert (Hne : (0 < length es)%nat) by (destruct es; [done|cbn; lia]). unfold es in *. rewrite length_drop in Ho, Hne.
    set (n' := min (rooms n) (length l - k)) in *.
    destruct (IH (S n) (k + n')%nat (between n v)) as [v' Erest]; [eapply others_listed; [apply Hb|done]|lia|lia|]. exists v'.
    etrans; [eapply bind_eq, E|]. rewrite El. etrans; [eapply bind_eq; reflexivity|].
    replace (dr_offset e) with (Z.of_nat (k + n')) by lia. etrans; [eapply bind_eq, Erest|]. unfold mret, opr_ret. do 3 f_equal.
    rewrite <- (fill_app (rooms n) (Z.of_nat k + 1) (drop k l) n') by (rewrite length_drop; done). f_equal.
    rewrite drop_drop. replace (Z.of_nat (k + n') + 1) with (Z.of_nat k + 1 + Z.of_nat n') by lia.
    symmetry. apply fill_enough; rewrite !length_drop; lia.
  - exists v. etrans; [eapply bind_eq, E|]. rewrite El.
    apply last_None in El. rewrite El in Hlen'. cbn in Hlen'. specialize (Hr n). destruct es; [done|cbn in Hlen'; lia].
Qed.

Lemma fill_all o l :
  dr_name <$> fill (length l) o l = get_name <$> l /\ dr_ino <$> fill (length l) o l = get_inode <$> l /\
  dr_offset <$> fill (length l) o l = seqZ o (Z.of_nat (length l)).
Proof.
  revert o. induction l as [|e l IH]; intros o; [done|]. destruct (IH (o + 1)) as (H1 & H2 & H3).
  rewrite seqZ_cons by (cbn; lia). cbn [length fill fmap list_fmap dr_name dr_ino dr_offset].
  replace (Z.succ o) with (o + 1) by lia. replace (Z.pred (Z.of_nat (S (length l)))) with (Z.of_nat (length l)) by lia.
  split_and!; f_equal; assumption.
Qed.

(** C22: a client that lists a directory page by page gets every entry of the listing
    that its first page read exactly once and in order, however many entries fit into
    each reply, one at least, and whatever requests everybody else makes between the pages: creating,
    renaming and removing entries, opening and closing other handles, anything but
    reading or closing this directory handle.  The first page keeps the listing in the
    handle and the offsets continue in it.  The listing ends after at most one request
    more than there are entries. *)
Theorem directory_listed_once prefix hide nw len cs m c p fuel rooms between ctx ino fh v l v1 :
  rtc (v_step ws) (vfs_new prefix hide nw len (data_manager_new cs m c p)) v ->
  v_read_dir ws ctx ino fh 0 false v = Some (Ok l, v1) -> (forall i, (0 < rooms i)%nat) ->
  (forall i v, rtc (others_step ino fh) v (between i v)) -> Z.of_nat (length l) < 2 ^ 63 -> (length l < fuel)%nat ->
  exists rs v', list_directory fuel 0 rooms between ctx ino fh 0 v = Some (Ok rs, v') /\
    dr_name <$> rs = get_name <$> l /\ dr_ino <$> rs = get_inode <$> l /\ dr_offset <$> rs = seqZ 1 (Z.of_nat (length l)).
Proof.
  intros Hs H Hr Hb Hlen Hf. exists (fill (length l) 1 l).
  assert (Hc : listed ino fh l v1).
  { destruct (read_dir_first _ _ _ _ _ _ _ H) as (Hc & Hn & h & Hh). split; [done|]. rewrite Hn.
    pose proof (ti_fh _ _ (v_steps_inv ws _ _ Hs (vfs_new_inv _ _ _ _ _ _ _ _)) _ _ _ Hh). lia. }
  destruct fuel as [|fuel]; [lia|]. cbn [list_directory].
  assert (E : readdir (rooms 0%nat) ctx ino fh 0 v = Some (Ok (fill (rooms 0%nat) 1 l), v1))
    by (unfold readdir; etrans; [eapply bind_eq, H|]; done).
  destruct (last (fill (rooms 0%nat) 1 l)) as [e|] eqn:El.
  - pose proof (fill_last _ _ _ _ El) as Ho. rewrite fill_length in Ho. specialize (Hr 0%nat) as Hr0.
    assert (Hl : l <> []) by (intros ->; by destruct (rooms 0%nat)).
    assert (Hne : (0 < length l)%nat) by (destruct l; [done|cbn; lia]). set (n := min (rooms 0%nat) (length l)) in *.
    destruct (list_rest fuel 1 rooms between ctx ino fh n l (between 0%nat v1)) as [v' Erest]; [eapply others_listed; [apply Hb|done]|done..|lia|lia|].
    exists v'. split; [|apply fill_all]. etrans; [eapply bind_eq, E|]. rewrite El. etrans; [eapply bind_eq; reflexivity|].
    replace (dr_offset e) with (Z.of_nat n) by lia. etrans; [eapply bind_eq, Erest|]. unfold mret, opr_ret. do 3 f_equal.
    rewrite <- (fill_app (rooms 0%nat) 1 l n eq_refl). f_equal. rewrite (Z.add_comm _ 1). symmetry.
    apply fill_enough; rewrite ?length_drop; lia.
  - exists v1. split; [|apply fill_all]. etrans; [eapply bind_eq, E|]. rewrite El. apply last_None in El.
    pose proof (fill_length (rooms 0%nat) 1 l) as Hz. rewrite El in Hz. cbn in Hz. specialize (Hr 0%nat).
    destruct l; [done|cbn in Hz; lia].
Qed.

(** The flags of a [setattr] are those the front end knows, each set exactly when its
    value was given, so that no value it asks for is missing. *)
Lemma setattr_flags_exact mode uid gid size atime mtime file_flags :
  let flags := setattr_request_flags mode uid gid size atime mtime file_flags in
  from_bits SA_ALL flags = Some flags /\
  bits_contain flags SA_MODE = bool_decide (is_Some mode) /\ bits_contain flags SA_UID = bool_decide (is_Some uid) /\
  bits_contain flags SA_GID = bool_decide (is_Some gid) /\ bits_contain flags SA_SIZE = bool_decide (is_Some size) /\
  bits_contain flags SA_FLAG = bool_decide (is_Some file_flags) /\
  bits_contain flags SA_ATIME = match atime with Some (SpecificTime _) => true | _ => false end /\
  bits_contain flags SA_ATIME_NOW = match atime with Some Now => true | _ => false end /\
  bits_contain flags SA_MTIME = match mtime with Some (SpecificTime _) => true | _ => false end /\
  bits_contain flags SA_MTIME_NOW = match mtime with Some Now => true | _ => false end.
Proof.
  destruct mode, uid, gid, size, atime as [[t|]|], mtime as [[u|]|], file_flags; vm_compute; split_and!; reflexivity.
Qed.
End fuse.

(** ** A run: the root directory, an entry at a time *)

Section fuse_run.
#[local] Existing Instance tiny_layout.
#[local] Existing Instance list_range_map.

(** A file is created and the root directory opened.  Between the pages somebody
    removes the file. *)
Definition fr_ops : list VOp := [OMknod root_ctx ROOT_INO "x" 33188 0 0; OOpenDir root_ctx ROOT_INO 0].
Definition fr1 : KisekiVFS := default vr0 (vr_requests 1 fr_ops vr0).
Definition fr_list := v_read_dir sp_worlds root_ctx ROOT_INO 1 0 false fr1.

Definition fr_unlink : VOp := OUnlink root_ctx ROOT_INO "x".
Definition fr_between (_ : nat) (v : KisekiVFS) : KisekiVFS :=
  match v_run sp_worlds (vr_io 1) fr_unlink v with
  | Some (Ok r, v') => if ht_next_fh (v_table v) <? 2 ^ 64 - 1 then v' else v
  | _ => v
  end.

Lemma fr_others i v : rtc (others_step sp_worlds ROOT_INO 1) v (fr_between i v).
Proof.
  unfold fr_between. destruct (v_run sp_worlds (vr_io 1) fr_unlink v) as [[[r|e|] v']|] eqn:E; try apply rtc_refl.
  destruct (_ <? _) eqn:En; [|apply rtc_refl]. to_prop. apply rtc_once. exists (vr_io 1), fr_unlink, (Ok r). done.
Qed.

(** The file is gone before the second page is asked for, and still listed. *)
Lemma directory_listed_once_witness :
  exists l v1, fr_list = Some (Ok l, v1) /\ (1 < length l)%nat /\
    (exists l2 v2, v_read_dir sp_worlds root_ctx ROOT_INO 1 0 false (fr_between 0 v1) = Some (Ok l2, v2) /\ (length l2 < length l)%nat) /\
    exists rs v', list_directory sp_worlds 10 0 (fun _ => 1%nat) fr_between root_ctx ROOT_INO 1 0 fr1 = Some (Ok rs, v') /\
      dr_name <$> rs = get_name <$> l.
Proof.
  assert (E0 : vr_requests 1 fr_ops vr0 = Some fr1) by (vm_compute; reflexivity).
  assert (E : (fun x => match x.1 with Ok l => Some (length l) | _ => None end) <$> fr_list = Some (Some 2%nat)) by (vm_compute; reflexivity).
  assert (E2 : (x ← fr_list; (fun y => match y.1 with Ok l => Some (length l) | _ => None end) <$>
    v_read_dir sp_worlds root_ctx ROOT_INO 1 0 false (fr_between 0 x.2)) = Some (Some 1%nat)) by (vm_compute; reflexivity).
  unfold fr_list in *. destruct (v_read_dir sp_worlds root_ctx ROOT_INO 1 0 false fr1) as [[[l|e|] v1]|] eqn:El; [|done..].
  cbn [mbind option_bind snd] in E2. cbn in E. injection E as E. exists l, v1. split; [reflexivity|]. split; [lia|]. split.
  - destruct (v_read_dir sp_worlds root_ctx ROOT_INO 1 0 false (fr_between 0 v1)) as [[[l2|e|] v2]|]; [|done..].
    cbn in E2. injection E2 as E2. exists l2, v2. split; [reflexivity|lia].
  - destruct (directory_listed_once sp_worlds false false (fun _ => 0) 7 12 sp_m0 vr_cache tiny_pool 10 (fun _ => 1%nat) fr_between
      root_ctx ROOT_INO 1 fr1 l v1 (vr_steps _ _ _ _ E0) El (fun _ => Nat.lt_0_1) fr_others ltac:(lia) ltac:(lia)) as (rs & v' & H & Hn & _).
    exists rs, v'. split; [exact H|exact Hn].
Defined.
End fuse_run.
